(** * The REDHAWK Device Manager (DeviceManager_impl): registration,
      child buckets, shutdown escalation and deployment planning.

    A shallow embedding of [DeviceManager_impl].  The C++ object is a record
    of its member variables; each member function is a computation in a small
    state/exception/trace monad: it reads and updates the record, may raise a
    C++ exception, and appends the calls it makes on other parties (naming
    service, Domain Manager, child objects, process signals) to a trace. *)

From Stdlib Require Import ZArith QArith Ascii.
From stdpp Require Import gmap strings list.

Open Scope Z_scope.
Open Scope string_scope.
Open Scope list_scope.

(** ** Exceptions *)

(** The exception classes the code distinguishes in its [catch] clauses.
    Everything except [RuntimeError], [StdException] and
    [UnknownException] derives from [CORBA::Exception]. *)
Inductive exn : Set :=
| InvalidObjectReference   (* CF::InvalidObjectReference *)
| RegisterError            (* CF::DomainManager::RegisterError *)
| InvalidConfiguration     (* CF::PropertySet::InvalidConfiguration *)
| PartialConfiguration     (* CF::PropertySet::PartialConfiguration *)
| InitializeError          (* CF::LifeCycle::InitializeError *)
| AlreadyBound             (* CosNaming::NamingContext::AlreadyBound *)
| NotFound                 (* CosNaming::NamingContext::NotFound *)
| CorbaSystemException     (* TRANSIENT, COMM_FAILURE, TIMEOUT, ... *)
| RuntimeError             (* std::runtime_error *)
| StdException             (* any other std::exception *)
| UnknownException.        (* anything only [catch (...)] catches *)

#[global] Instance exn_eq_dec : EqDecision exn.
Proof. solve_decision. Defined.

(** [catch (const CORBA::Exception&)] *)
Definition is_CORBA_Exception (e : exn) : bool :=
  match e with
  | RuntimeError | StdException | UnknownException => false
  | _ => true
  end.

(** [catch (std::exception&)] *)
Definition is_std_exception (e : exn) : bool :=
  match e with
  | RuntimeError | StdException => true
  | _ => false
  end.

(** [catch (std::runtime_error&)] *)
Definition is_runtime_error (e : exn) : bool :=
  match e with
  | RuntimeError => true
  | _ => false
  end.

(** ** Software packages and implementations (local_spd) *)

(** CF::LoadableDevice::LoadType *)
Inductive LoadType : Set := KERNEL_MODULE | DRIVER | SHARED_LIBRARY | EXECUTABLE.

#[global] Instance LoadType_eq_dec : EqDecision LoadType.
Proof. solve_decision. Defined.

(** An implementation of a software package, and a software package
    dependency with the implementations it offers. *)
Inductive ImplementationInfo : Type :=
  mkImplementationInfo {
    impl_id : string;
    impl_processor : string;
    impl_osName : string;
    impl_entryPoint : string;
    impl_codeType : LoadType;
    impl_propertyFile : string;
    impl_softPkgDependencies : list SoftpkgInfo }
with SoftpkgInfo : Type :=
  mkSoftpkgInfo {
    pkg_name : string;
    pkg_implementations : list ImplementationInfo }.

(** CF::Properties: a sequence of id/value pairs. *)
Abbreviation Properties := (list (string * string)).

(** local_spd::ProgramProfile, as far as the Device Manager reads it. *)
Record ProgramProfile : Type := mkProgramProfile {
  prof_id : string;                       (* getID() *)
  prof_name : string;                     (* getName() *)
  prof_spdPath : string;                  (* spd.getSPDPath() *)
  prof_componentType : string;            (* scd.getComponentType() *)
  prof_implementations : list ImplementationInfo;
  prof_selectedImplementation : option ImplementationInfo;
  prof_instantiationIdentifier : string;  (* getInstantiationIdentifier() *)
  prof_usageName : string;
  prof_isConfigurable : bool;
  prof_nonNilConstructProperties : Properties;
  prof_nonNilConfigureProperties : Properties }.

(** ossie::ComponentInstantiation and ossie::ComponentPlacement (DCD). *)
Record ComponentInstantiation : Type := mkComponentInstantiation {
  inst_id : string;                       (* getID() *)
  inst_usageName : string;
  inst_namingServiceName : string }.

Record ComponentPlacement : Type := mkComponentPlacement {
  cp_fileRefId : string;
  cp_instantiations : list ComponentInstantiation;
  cp_compositePartOfDeviceID : option string  (* Some id: isCompositePartOf() *) }.

Definition isCompositePartOf (cp : ComponentPlacement) : bool :=
  match cp_compositePartOfDeviceID cp with Some _ => true | None => false end.

(** [Deployment] is a pair of a placement and a pointer to its loaded
    profile.  Profiles live in a store ([profiles], below), indexed by
    address: the placement lists and [deployed_comps] share the objects. *)
Abbreviation Deployment := (ComponentPlacement * nat)%type.
Abbreviation DeploymentList := (list Deployment).

(** ** Remote objects *)

(** A live [CF::Device] reference, represented by what the Device Manager
    observes of it: its stringified IOR, the values its attribute reads
    return, and what its life-cycle operations raise ([None]: the call
    returns).  Attribute reads ([label], [identifier], [softwareProfile])
    are taken to answer; the transport is outside the modelled core.
    [_is_equivalent] is modelled as equality of the IOR strings. *)
Record DeviceObj : Set := mkDeviceObj {
  obj_ior : string;
  obj_label : string;
  obj_identifier : string;
  obj_softwareProfile : string;
  obj_initializeProperties : option exn;
  obj_initialize : option exn;
  obj_configure : option exn }.

#[global] Instance DeviceObj_eq_dec : EqDecision DeviceObj.
Proof. solve_decision. Defined.

(** [CF::Device_ptr]: [None] is the nil reference. *)
Abbreviation Device_ptr := (option DeviceObj).

(** [CORBA::Object_ptr] of a service: its IOR, [None] for nil. *)
Abbreviation Object_ptr := (option string).

Definition is_equivalent (a : Device_ptr) (b : DeviceObj) : bool :=
  match a with
  | Some o => bool_decide (obj_ior o = obj_ior b)
  | None => false
  end.

(** ** Child records *)

(** DeviceManager_impl::DeviceNode and ServiceNode.  The buckets hold
    pointers to nodes; a node is modelled by its value, and pointer
    comparison by comparison of the values. *)
Record DeviceNode : Set := mkDeviceNode {
  identifier : string;
  label : string;
  IOR : string;
  device : Device_ptr;
  pid : Z }.

Record ServiceNode : Set := mkServiceNode {
  svc_identifier : string;
  svc_label : string;
  svc_IOR : string;
  service : Object_ptr;
  svc_pid : Z }.

#[global] Instance DeviceNode_eq_dec : EqDecision DeviceNode.
Proof. solve_decision. Defined.

#[global] Instance ServiceNode_eq_dec : EqDecision ServiceNode.
Proof. solve_decision. Defined.

Abbreviation DeviceList := (list DeviceNode).
Abbreviation ServiceList := (list ServiceNode).

(** ** Host facts *)

(** [struct utsname], as far as it is read. *)
Record utsname : Set := mkUtsname {
  machine : string;
  sysname : string }.

(** A property set, as far as [checkProcessorAndOs] reads it: the values of
    the properties [processor_name] and [os_name]. *)
Record HostProps : Set := mkHostProps {
  processor_name : string;
  os_name : string }.

(** ** The Device Manager object *)

Inductive DevMgrAdmnType : Set :=
| DEVMGR_UNREGISTERED
| DEVMGR_REGISTERED
| DEVMGR_SHUTTING_DOWN
| DEVMGR_SHUTDOWN.

#[global] Instance DevMgrAdmnType_eq_dec : EqDecision DevMgrAdmnType.
Proof. solve_decision. Defined.

Record DeviceManager : Type := mkDeviceManager {
  _adminState : DevMgrAdmnType;
  _internalShutdown : bool;   (* *_internalShutdown *)
  _registeredDevices : DeviceList;
  _pendingDevices : DeviceList;
  _registeredServices : ServiceList;
  _pendingServices : ServiceList;
  deployed_comps : DeploymentList;
  profiles : gmap nat ProgramProfile;   (* the ProgramProfile objects, by address *)
  _componentImplMap : gmap string string;
  _uname : utsname;
  host_props : HostProps;
  devmgr_info : option nat;   (* the manager's own profile (null before parseSpd) *)
  devmgr_prf : HostProps;   (* devmgr_info->prf *)
  devMgrContext : gmap string string;   (* names bound under the manager's context *)
  rootContext : gmap string string;   (* names bound under the domain's context *)
  DEVICE_FORCE_QUIT_TIME : Q;   (* seconds *)
  CLIENT_WAIT_TIME : Z }.   (* milliseconds *)

Definition set_adminState (x : DevMgrAdmnType) (s : DeviceManager) : DeviceManager :=
  mkDeviceManager x (_internalShutdown s) (_registeredDevices s) (_pendingDevices s)
    (_registeredServices s) (_pendingServices s) (deployed_comps s) (profiles s)
    (_componentImplMap s) (_uname s) (host_props s) (devmgr_info s) (devmgr_prf s)
    (devMgrContext s) (rootContext s) (DEVICE_FORCE_QUIT_TIME s) (CLIENT_WAIT_TIME s).

Definition set_internalShutdown (x : bool) (s : DeviceManager) : DeviceManager :=
  mkDeviceManager (_adminState s) x (_registeredDevices s) (_pendingDevices s)
    (_registeredServices s) (_pendingServices s) (deployed_comps s) (profiles s)
    (_componentImplMap s) (_uname s) (host_props s) (devmgr_info s) (devmgr_prf s)
    (devMgrContext s) (rootContext s) (DEVICE_FORCE_QUIT_TIME s) (CLIENT_WAIT_TIME s).

Definition set_registeredDevices (x : DeviceList) (s : DeviceManager) : DeviceManager :=
  mkDeviceManager (_adminState s) (_internalShutdown s) x (_pendingDevices s)
    (_registeredServices s) (_pendingServices s) (deployed_comps s) (profiles s)
    (_componentImplMap s) (_uname s) (host_props s) (devmgr_info s) (devmgr_prf s)
    (devMgrContext s) (rootContext s) (DEVICE_FORCE_QUIT_TIME s) (CLIENT_WAIT_TIME s).

Definition set_pendingDevices (x : DeviceList) (s : DeviceManager) : DeviceManager :=
  mkDeviceManager (_adminState s) (_internalShutdown s) (_registeredDevices s) x
    (_registeredServices s) (_pendingServices s) (deployed_comps s) (profiles s)
    (_componentImplMap s) (_uname s) (host_props s) (devmgr_info s) (devmgr_prf s)
    (devMgrContext s) (rootContext s) (DEVICE_FORCE_QUIT_TIME s) (CLIENT_WAIT_TIME s).

Definition set_registeredServices (x : ServiceList) (s : DeviceManager) : DeviceManager :=
  mkDeviceManager (_adminState s) (_internalShutdown s) (_registeredDevices s)
    (_pendingDevices s) x (_pendingServices s) (deployed_comps s) (profiles s)
    (_componentImplMap s) (_uname s) (host_props s) (devmgr_info s) (devmgr_prf s)
    (devMgrContext s) (rootContext s) (DEVICE_FORCE_QUIT_TIME s) (CLIENT_WAIT_TIME s).

Definition set_pendingServices (x : ServiceList) (s : DeviceManager) : DeviceManager :=
  mkDeviceManager (_adminState s) (_internalShutdown s) (_registeredDevices s)
    (_pendingDevices s) (_registeredServices s) x (deployed_comps s) (profiles s)
    (_componentImplMap s) (_uname s) (host_props s) (devmgr_info s) (devmgr_prf s)
    (devMgrContext s) (rootContext s) (DEVICE_FORCE_QUIT_TIME s) (CLIENT_WAIT_TIME s).

Definition set_deployed_comps (x : DeploymentList) (s : DeviceManager) : DeviceManager :=
  mkDeviceManager (_adminState s) (_internalShutdown s) (_registeredDevices s)
    (_pendingDevices s) (_registeredServices s) (_pendingServices s) x (profiles s)
    (_componentImplMap s) (_uname s) (host_props s) (devmgr_info s) (devmgr_prf s)
    (devMgrContext s) (rootContext s) (DEVICE_FORCE_QUIT_TIME s) (CLIENT_WAIT_TIME s).

Definition set_profiles (x : gmap nat ProgramProfile) (s : DeviceManager) : DeviceManager :=
  mkDeviceManager (_adminState s) (_internalShutdown s) (_registeredDevices s)
    (_pendingDevices s) (_registeredServices s) (_pendingServices s) (deployed_comps s)
    x (_componentImplMap s) (_uname s) (host_props s) (devmgr_info s) (devmgr_prf s)
    (devMgrContext s) (rootContext s) (DEVICE_FORCE_QUIT_TIME s) (CLIENT_WAIT_TIME s).

Definition set_componentImplMap (x : gmap string string) (s : DeviceManager) : DeviceManager :=
  mkDeviceManager (_adminState s) (_internalShutdown s) (_registeredDevices s)
    (_pendingDevices s) (_registeredServices s) (_pendingServices s) (deployed_comps s)
    (profiles s) x (_uname s) (host_props s) (devmgr_info s) (devmgr_prf s)
    (devMgrContext s) (rootContext s) (DEVICE_FORCE_QUIT_TIME s) (CLIENT_WAIT_TIME s).

Definition set_uname (x : utsname) (s : DeviceManager) : DeviceManager :=
  mkDeviceManager (_adminState s) (_internalShutdown s) (_registeredDevices s)
    (_pendingDevices s) (_registeredServices s) (_pendingServices s) (deployed_comps s)
    (profiles s) (_componentImplMap s) x (host_props s) (devmgr_info s) (devmgr_prf s)
    (devMgrContext s) (rootContext s) (DEVICE_FORCE_QUIT_TIME s) (CLIENT_WAIT_TIME s).

Definition set_host_props (x : HostProps) (s : DeviceManager) : DeviceManager :=
  mkDeviceManager (_adminState s) (_internalShutdown s) (_registeredDevices s)
    (_pendingDevices s) (_registeredServices s) (_pendingServices s) (deployed_comps s)
    (profiles s) (_componentImplMap s) (_uname s) x (devmgr_info s) (devmgr_prf s)
    (devMgrContext s) (rootContext s) (DEVICE_FORCE_QUIT_TIME s) (CLIENT_WAIT_TIME s).

Definition set_devmgr_info (x : option nat) (s : DeviceManager) : DeviceManager :=
  mkDeviceManager (_adminState s) (_internalShutdown s) (_registeredDevices s)
    (_pendingDevices s) (_registeredServices s) (_pendingServices s) (deployed_comps s)
    (profiles s) (_componentImplMap s) (_uname s) (host_props s) x (devmgr_prf s)
    (devMgrContext s) (rootContext s) (DEVICE_FORCE_QUIT_TIME s) (CLIENT_WAIT_TIME s).

Definition set_devmgr_prf (x : HostProps) (s : DeviceManager) : DeviceManager :=
  mkDeviceManager (_adminState s) (_internalShutdown s) (_registeredDevices s)
    (_pendingDevices s) (_registeredServices s) (_pendingServices s) (deployed_comps s)
    (profiles s) (_componentImplMap s) (_uname s) (host_props s) (devmgr_info s) x
    (devMgrContext s) (rootContext s) (DEVICE_FORCE_QUIT_TIME s) (CLIENT_WAIT_TIME s).

Definition set_devMgrContext (x : gmap string string) (s : DeviceManager) : DeviceManager :=
  mkDeviceManager (_adminState s) (_internalShutdown s) (_registeredDevices s)
    (_pendingDevices s) (_registeredServices s) (_pendingServices s) (deployed_comps s)
    (profiles s) (_componentImplMap s) (_uname s) (host_props s) (devmgr_info s)
    (devmgr_prf s) x (rootContext s) (DEVICE_FORCE_QUIT_TIME s) (CLIENT_WAIT_TIME s).

Definition set_rootContext (x : gmap string string) (s : DeviceManager) : DeviceManager :=
  mkDeviceManager (_adminState s) (_internalShutdown s) (_registeredDevices s)
    (_pendingDevices s) (_registeredServices s) (_pendingServices s) (deployed_comps s)
    (profiles s) (_componentImplMap s) (_uname s) (host_props s) (devmgr_info s)
    (devmgr_prf s) (devMgrContext s) x (DEVICE_FORCE_QUIT_TIME s) (CLIENT_WAIT_TIME s).

Definition set_DEVICE_FORCE_QUIT_TIME (x : Q) (s : DeviceManager) : DeviceManager :=
  mkDeviceManager (_adminState s) (_internalShutdown s) (_registeredDevices s)
    (_pendingDevices s) (_registeredServices s) (_pendingServices s) (deployed_comps s)
    (profiles s) (_componentImplMap s) (_uname s) (host_props s) (devmgr_info s)
    (devmgr_prf s) (devMgrContext s) (rootContext s) x (CLIENT_WAIT_TIME s).

Definition set_CLIENT_WAIT_TIME (x : Z) (s : DeviceManager) : DeviceManager :=
  mkDeviceManager (_adminState s) (_internalShutdown s) (_registeredDevices s)
    (_pendingDevices s) (_registeredServices s) (_pendingServices s) (deployed_comps s)
    (profiles s) (_componentImplMap s) (_uname s) (host_props s) (devmgr_info s)
    (devmgr_prf s) (devMgrContext s) (rootContext s) (DEVICE_FORCE_QUIT_TIME s) x.

(** ** Trace of calls on other parties *)

Inductive NamingCtx : Set := RootCtx | DevMgrCtx.
Inductive NamingOp : Set := NsBind | NsRebind | NsUnbind.
Inductive DomMgrOp : Set :=
| DmRegisterDevice | DmRegisterService | DmUnregisterDevice | DmUnregisterService.
Inductive Signal : Set := SIGINT | SIGTERM | SIGKILL.
Inductive LogLevel : Set := LvlWarn | LvlError.

#[global] Instance NamingCtx_eq_dec : EqDecision NamingCtx.
Proof. solve_decision. Defined.
#[global] Instance NamingOp_eq_dec : EqDecision NamingOp.
Proof. solve_decision. Defined.
#[global] Instance DomMgrOp_eq_dec : EqDecision DomMgrOp.
Proof. solve_decision. Defined.
#[global] Instance Signal_eq_dec : EqDecision Signal.
Proof. solve_decision. Defined.
#[global] Instance LogLevel_eq_dec : EqDecision LogLevel.
Proof. solve_decision. Defined.

Inductive Event : Set :=
| EvChildAttr (ior attr : string)                  (* attribute read on a child *)
| EvOverrideBlockingCall (ior : string) (ms : Z)   (* ossie::corba::overrideBlockingCall *)
| EvInitializeProperties (ior : string) (props : Properties)
| EvInitialize (ior : string)
| EvConfigure (ior : string) (props : Properties)
| EvReleaseObject (ior : string)
| EvNaming (c : NamingCtx) (op : NamingOp) (name : string)
| EvDomMgr (op : DomMgrOp) (ior : string)
| EvKill (p : Z) (sig : Signal)                    (* kill(pid, signal) *)
| EvProbe (p : Z)                                  (* kill(pid, 0): sends no signal *)
| EvTimedWait (usec : Z)                           (* wait on pendingDevicesEmpty *)
| EvLaunch (instantiation componentType codeFilePath compositeDeviceIOR : string)
                                                   (* createDeviceThreadAndHandleExceptions *)
| EvLog (lvl : LogLevel) (msg : string).           (* LOG_WARN / LOG_ERROR *)

#[global] Instance Event_eq_dec : EqDecision Event.
Proof. solve_decision. Defined.

(** A call that leaves the process: everything but log records and the
    local ORB timeout setting. *)
Definition is_outbound (e : Event) : bool :=
  match e with
  | EvLog _ _ | EvOverrideBlockingCall _ _ => false
  | _ => true
  end.

(** ** The monad *)

Inductive Res (A : Type) : Type :=
| Ok (a : A)          (* normal return *)
| Throw (e : exn)     (* a C++ exception leaves the function *)
| NullDeref           (* a null pointer is dereferenced *)
| Diverge             (* the call never returns *)
| Terminated.         (* std::unexpected: the process is ended *)
Arguments Ok {A} a.
Arguments Throw {A} e.
Arguments NullDeref {A}.
Arguments Diverge {A}.
Arguments Terminated {A}.

Definition M (A : Type) : Type := DeviceManager → Res A * DeviceManager * list Event.

#[global] Instance M_ret : MRet M := λ A a s, (Ok a, s, []).

#[global] Instance M_bind : MBind M := λ A B f m s,
  match m s with
  | (Ok a, s1, t1) => let '(r, s2, t2) := f a s1 in (r, s2, t1 ++ t2)
  | (Throw e, s1, t1) => (Throw e, s1, t1)
  | (NullDeref, s1, t1) => (NullDeref, s1, t1)
  | (Diverge, s1, t1) => (Diverge, s1, t1)
  | (Terminated, s1, t1) => (Terminated, s1, t1)
  end.

Definition throw {A} (e : exn) : M A := λ s, (Throw e, s, []).
Definition null_deref {A} : M A := λ s, (NullDeref, s, []).
Definition diverge {A} : M A := λ s, (Diverge, s, []).
Definition get : M DeviceManager := λ s, (Ok s, s, []).
Definition modify (f : DeviceManager → DeviceManager) : M unit := λ s, (Ok tt, f s, []).
Definition emit (e : Event) : M unit := λ s, (Ok tt, s, [e]).

(** [try m catch (e) h e]: the handler decides, by class of exception,
    whether it handles [e] or lets it pass ([throw e]). *)
Definition try_catch {A} (m : M A) (h : exn → M A) : M A := λ s,
  match m s with
  | (Throw e, s1, t1) => let '(r, s2, t2) := h e s1 in (r, s2, t1 ++ t2)
  | other => other
  end.

(** A dynamic exception specification, [throw (T1, T2)] after the
    parameters of a function: an exception of a type that is [listed]
    leaves the function; for any other std::unexpected is called, which
    ends the process. *)
Definition exception_specification {A} (listed : exn → bool) (m : M A) : M A := λ s,
  match m s with
  | (Throw e, s1, t1) => if listed e then (Throw e, s1, t1) else (Terminated, s1, t1)
  | other => other
  end.

(** [throw (CORBA::SystemException, CF::InvalidObjectReference)] *)
Definition SystemException_or_InvalidObjectReference (e : exn) : bool :=
  bool_decide (e = CorbaSystemException) || bool_decide (e = InvalidObjectReference).

(** A remote call whose outcome is given: raises [e], or returns. *)
Definition remote (o : option exn) : M unit :=
  match o with
  | Some e => throw e
  | None => mret tt
  end.

Definition result {A} (x : Res A * DeviceManager * list Event) : Res A := x.1.1.
Definition final {A} (x : Res A * DeviceManager * list Event) : DeviceManager := x.1.2.
Definition calls {A} (x : Res A * DeviceManager * list Event) : list Event := x.2.

(** ** The environment of one call *)

(** What a child does on the Device Manager while the manager has released
    its mutex. *)
Inductive Callback : Set :=
| CbUnregisterDevice (d : Device_ptr)
| CbChildExited (p : Z) (signaled : bool).

(** The behaviour of the other parties during a call: what the naming
    service and the Domain Manager raise ([None]: they answer), what a
    device does when asked to release itself, which children are reaped
    while the manager waits after a signal, and which device registers
    while the manager polls for the IOR of an instantiation (nil: none
    ever does); and what the naming service raises when the handler of
    [registerService] unbinds the name the call has bound. *)
Record Env : Type := mkEnv {
  naming_fault : option exn;
  dmnMgr_fault : option exn;
  releaseObject_fault : DeviceObj → option exn;
  releaseObject_callbacks : DeviceObj → list Callback;
  wait_reaps : Signal → list (Z * bool);
  poll_registration : string → Device_ptr;
  unbind_fault : option exn }.

(** ** Generic loops *)

(** A loop that looks for the first element satisfying [p], erases it at
    the iterator and breaks: the element and the list without it. *)
Fixpoint take_first {A} (p : A → bool) (l : list A) : option (A * list A) :=
  match l with
  | [] => None
  | x :: l' =>
      if p x then Some (x, l')
      else match take_first p l' with
           | Some (y, r) => Some (y, x :: r)
           | None => None
           end
  end.

(** [push_back] and [pop_back] of a vector. *)
Definition push_back {A} (l : list A) (x : A) : list A := l ++ [x].
Definition pop_back {A} (l : list A) : list A := removelast l.

Definition ptr_ior (d : Device_ptr) : string :=
  match d with Some o => obj_ior o | None => "" end.

Definition obj_ptr_ior (o : Object_ptr) : string :=
  match o with Some i => i | None => "" end.

(** ** The naming service *)

Definition naming_context (c : NamingCtx) (s : DeviceManager) : gmap string string :=
  match c with
  | RootCtx => rootContext s
  | DevMgrCtx => devMgrContext s
  end.

Definition set_naming_context (c : NamingCtx) (m : gmap string string)
    (s : DeviceManager) : DeviceManager :=
  match c with
  | RootCtx => set_rootContext m s
  | DevMgrCtx => set_devMgrContext m s
  end.

(** [ctx->bind(name, obj)]: raises AlreadyBound when the name is taken. *)
Definition ns_bind (env : Env) (c : NamingCtx) (name ior : string) : M unit :=
  emit (EvNaming c NsBind name);;
  remote (naming_fault env);;
  s ← get;
  match naming_context c s !! name with
  | Some _ => throw AlreadyBound
  | None => modify (set_naming_context c (<[name:=ior]> (naming_context c s)))
  end.

(** [ctx->rebind(name, obj)]: replaces an existing binding. *)
Definition ns_rebind (env : Env) (c : NamingCtx) (name ior : string) : M unit :=
  emit (EvNaming c NsRebind name);;
  remote (naming_fault env);;
  s ← get;
  modify (set_naming_context c (<[name:=ior]> (naming_context c s))).

(** [ctx->unbind(name)]: raises NotFound when the name is not bound. *)
Definition ns_unbind (env : Env) (c : NamingCtx) (name : string) : M unit :=
  emit (EvNaming c NsUnbind name);;
  remote (naming_fault env);;
  s ← get;
  match naming_context c s !! name with
  | None => throw NotFound
  | Some _ => modify (set_naming_context c (delete name (naming_context c s)))
  end.

(** A call on the Domain Manager. *)
Definition dmnMgr_call (env : Env) (op : DomMgrOp) (ior : string) : M unit :=
  emit (EvDomMgr op ior);;
  remote (dmnMgr_fault env).

(** An attribute read on a child: the call is recorded and answers [v]. *)
Definition child_attr (d : DeviceObj) (attr v : string) : M string :=
  emit (EvChildAttr (obj_ior d) attr);;
  mret v.

(** ** ChildRegistry: the four buckets *)

Definition serviceIsRegistered (serviceName : string) : M bool :=
  s ← get;
  mret (existsb (λ n, bool_decide (svc_label n = serviceName)) (_registeredServices s)).

Definition deviceIsRegistered (registeredDevice : DeviceObj) : M bool :=
  s ← get;
  mret (existsb (λ n, is_equivalent (device n) registeredDevice) (_registeredDevices s)).

(** The address of the first deployed profile with that instantiation
    identifier, if any (a null pointer otherwise). *)
Definition findProfile (componentInstantiationId : string) : M (option nat) :=
  s ← get;
  mret (snd <$> List.find
          (λ d, bool_decide (prof_instantiationIdentifier <$> profiles s !! d.2
                             = Some componentInstantiationId))
          (deployed_comps s)).

Definition local_unregisterService (env : Env) (svc : Object_ptr) (name : string) : M unit :=
  try_catch (ns_unbind env RootCtx name) (λ _, mret tt);;
  s ← get;
  if bool_decide (_adminState s = DEVMGR_REGISTERED) then
    try_catch (dmnMgr_call env DmUnregisterService (obj_ptr_ior svc)) (λ _, mret tt)
  else mret tt.

Definition decrement_registeredServices (env : Env) (registeredService : Object_ptr)
    (name : string) : M bool :=
  s ← get;
  match take_first (λ n, bool_decide (svc_label n = name)) (_registeredServices s) with
  | Some (serviceNode, rest) =>
      local_unregisterService env registeredService name;;
      modify (λ s, set_registeredServices rest s);;
      (if bool_decide (svc_pid serviceNode ≠ 0)
       then modify (λ s, set_pendingServices (push_back (_pendingServices s) serviceNode) s)
       else mret tt);;
      mret true
  | None => mret false
  end.

(** CATCH_LOG_ERROR logs whatever the guarded block raises. *)
Definition local_unregisterDevice (env : Env) (dev : Device_ptr) (lbl : string) : M unit :=
  try_catch (ns_unbind env DevMgrCtx lbl)
            (λ _, emit (EvLog LvlError "Unable to unbind device"));;
  s ← get;
  if bool_decide (_adminState s = DEVMGR_REGISTERED) then
    try_catch (dmnMgr_call env DmUnregisterDevice (ptr_ior dev)) (λ _, mret tt)
  else mret tt.

Definition decrement_registeredDevices (env : Env) (registeredDevice : DeviceObj) : M bool :=
  let deviceIOR := obj_ior registeredDevice in
  s ← get;
  match take_first (λ n, bool_decide (IOR n = deviceIOR)) (_registeredDevices s) with
  | Some (deviceNode, rest) =>
      modify (set_registeredDevices rest);;
      (if bool_decide (pid deviceNode ≠ 0)
       then modify (λ s, set_pendingDevices (push_back (_pendingDevices s) deviceNode) s)
       else mret tt);;
      local_unregisterDevice env (Some registeredDevice) (label deviceNode);;
      mret true
  | None => mret false
  end.

Definition increment_registeredServices (registeringService : string) (name : string) : M unit :=
  s ← get;
  serviceNode ←
    match take_first (λ n, bool_decide (svc_label n = name)) (_pendingServices s) with
    | Some (n, rest) => modify (set_pendingServices rest);; mret n
    | None =>
        emit (EvLog LvlWarn "Registering service was not launched by this DeviceManager");;
        mret (mkServiceNode name "" "" None 0)
    end;
  let node := mkServiceNode (svc_identifier serviceNode) name registeringService
                (Some registeringService) (svc_pid serviceNode) in
  modify (λ s, set_registeredServices (push_back (_registeredServices s) node) s).

Definition increment_registeredDevices (registeringDevice : DeviceObj) : M unit :=
  ident ← child_attr registeringDevice "identifier" (obj_identifier registeringDevice);
  s ← get;
  deviceNode ←
    match take_first (λ n, bool_decide (identifier n = ident)) (_pendingDevices s) with
    | Some (n, rest) => modify (set_pendingDevices rest);; mret n
    | None =>
        emit (EvLog LvlWarn "Registering device was not launched by this DeviceManager");;
        mret (mkDeviceNode ident "" "" None 0)
    end;
  lbl ← child_attr registeringDevice "label" (obj_label registeringDevice);
  let node := mkDeviceNode (identifier deviceNode) lbl (obj_ior registeringDevice)
                (Some registeringDevice) (pid deviceNode) in
  modify (λ s, set_registeredDevices (push_back (_registeredDevices s) node) s).

(** ** RegistrationService: the inbound operations *)

(** The last step of [registerDevice]: forward to the Domain Manager. *)
Definition forward_registerDevice (env : Env) (dev : DeviceObj) : M unit :=
  s ← get;
  if bool_decide (_adminState s = DEVMGR_REGISTERED) then
    try_catch (dmnMgr_call env DmRegisterDevice (obj_ior dev))
      (λ e,
         if bool_decide (e = RegisterError) then
           emit (EvLog LvlError "Failed to register device to domain manager")
         else if is_std_exception e then
           emit (EvLog LvlError "standard exception while attempting to register with the Domain Manager")
         else if is_CORBA_Exception e then
           emit (EvLog LvlError "Failed to register device to domain manager")
         else throw e)
  else
    emit (EvLog LvlWarn "Skipping DomainManager registerDevice because the device manager isn't registered").

Definition registerDevice (env : Env) (registeringDevice : Device_ptr) : M unit :=
  match registeringDevice with
  | None =>
      emit (EvLog LvlWarn "Attempted to register NIL device");;
      throw InvalidObjectReference
  | Some dev =>
      s ← get;
      (* do not service a registration request if the Device Manager is shutting down *)
      if _internalShutdown s then mret tt else
      emit (EvOverrideBlockingCall (obj_ior dev) (CLIENT_WAIT_TIME s));;
      deviceLabel ← child_attr dev "label" (obj_label dev);
      device_id ← child_attr dev "identifier" (obj_identifier dev);
      registered ← deviceIsRegistered dev;
      if (registered : bool) then
        emit (EvLog LvlWarn "Device is already registred")
      else
      spdinfo ← try_catch
        (id ← child_attr dev "identifier" (obj_identifier dev); findProfile id)
        (λ _, emit (EvLog LvlError "Loading Device's SPD failed");;
              throw InvalidObjectReference);
      spdFile ← child_attr dev "softwareProfile" (obj_softwareProfile dev);
      s ← get;
      match spdinfo ≫= (λ p : nat, profiles s !! p) with
      | None => null_deref                       (* spdinfo->getName() *)
      | Some spdinfo =>
      deviceid ← child_attr dev "identifier" (obj_identifier dev);
      (* initializeProperties *)
      (if prof_isConfigurable spdinfo then
         try_catch
           (emit (EvInitializeProperties (obj_ior dev) (prof_nonNilConstructProperties spdinfo));;
            remote (obj_initializeProperties dev))
           (λ _, emit (EvLog LvlError "Call to initializeProperties() failed");;
                 throw InvalidObjectReference)
       else mret tt);;
      (* initialize *)
      try_catch
        (emit (EvInitialize (obj_ior dev));;
         remote (obj_initialize dev))
        (λ e,
           if bool_decide (e = InitializeError) || is_std_exception e || is_CORBA_Exception e
           then emit (EvLog LvlError "Call to initialize() failed");;
                throw InvalidObjectReference
           else throw e);;
      (* configure *)
      try_catch
        (let cprops := prof_nonNilConfigureProperties spdinfo in
         if bool_decide (length cprops ≠ 0%nat) then
           emit (EvConfigure (obj_ior dev) cprops);;
           remote (obj_configure dev)
         else mret tt)
        (λ e,
           if bool_decide (e = PartialConfiguration) || bool_decide (e = InvalidConfiguration)
              || is_std_exception e || is_CORBA_Exception e
           then emit (EvLog LvlError "Call to configure() failed");;
                throw InvalidObjectReference
           else throw e);;
      (* Register the device with the Device manager, unless it is already registered *)
      registered ← deviceIsRegistered dev;
      if negb (registered : bool) then
        bound ← try_catch
          (ns_bind env DevMgrCtx deviceLabel (obj_ior dev);; mret true)
          (λ _, emit (EvLog LvlWarn "Device is already registered");; mret false);
        if (bound : bool) then
          increment_registeredDevices dev;;
          forward_registerDevice env dev
        else mret tt
      else
        emit (EvLog LvlWarn "Device is already registered")
      end
  end.

(** [rootContext->unbind(service_name)] in the handler of
    [registerService]: a call on the naming service of its own, after the
    rebind and the call on the Domain Manager. *)
Definition ns_unbind_bound (env : Env) (c : NamingCtx) (name : string) : M unit :=
  emit (EvNaming c NsUnbind name);;
  remote (unbind_fault env);;
  s ← get;
  match naming_context c s !! name with
  | None => throw NotFound
  | Some _ => modify (set_naming_context c (delete name (naming_context c s)))
  end.

(** The last step of [registerService]: forward to the Domain Manager, and
    undo the local registration when that fails.  The handler is
    [catch (...)] and ends in [throw;].  Its unbind is not guarded: what
    it raises leaves the handler, before the record is taken back and
    before the failure is logged. *)
Definition forward_registerService (env : Env) (ior name : string) : M unit :=
  s ← get;
  if bool_decide (_adminState s = DEVMGR_REGISTERED) then
    try_catch (dmnMgr_call env DmRegisterService ior)
      (λ e,
         ns_unbind_bound env RootCtx name;;
         modify (λ s, set_registeredServices (pop_back (_registeredServices s)) s);;
         emit (EvLog LvlError
           "Failed to register service to the domain manager; unregistering the service from the device manager");;
         throw e)
  else mret tt.

(** [registerService] is declared
    [throw (CORBA::SystemException, CF::InvalidObjectReference)]. *)
Definition registerService (env : Env) (registeringService : Object_ptr) (name : string)
    : M unit :=
  exception_specification SystemException_or_InvalidObjectReference
    match registeringService with
    | None => throw InvalidObjectReference
    | Some ior =>
        s ← get;
        emit (EvOverrideBlockingCall ior (CLIENT_WAIT_TIME s));;
        registered ← serviceIsRegistered name;
        if negb (registered : bool) then
          bound ← try_catch
            (ns_rebind env RootCtx name ior;; mret true)
            (λ _, emit (EvLog LvlWarn "Service is already registered");; mret false);
          if (bound : bool) then
            increment_registeredServices ior name;;
            forward_registerService env ior name
          else mret tt
        else
          emit (EvLog LvlWarn "Service is already registered")
    end.

(** The handlers around the reads of [identifier] and [label] in
    [unregisterDevice] are not reached: attribute reads answer. *)
Definition unregisterDevice (env : Env) (registeredDevice : Device_ptr) : M unit :=
  match registeredDevice with
  | None =>
      emit (EvLog LvlError "Attempt to unregister nil device");;
      throw InvalidObjectReference
  | Some dev =>
      dev_id ← child_attr dev "identifier" (obj_identifier dev);
      dev_name ← child_attr dev "label" (obj_label dev);
      deviceFound ← decrement_registeredDevices env dev;
      if negb (deviceFound : bool) then
        emit (EvLog LvlError "Cannot unregister Device. registeringDevice was not registered.");;
        throw InvalidObjectReference
      else mret tt
  end.

Definition unregisterService (env : Env) (registeredService : Object_ptr) (name : string)
    : M unit :=
  match registeredService with
  | None => throw InvalidObjectReference
  | Some _ =>
      serviceFound ← decrement_registeredServices env registeredService name;
      if (serviceFound : bool) then mret tt
      else throw InvalidObjectReference
  end.

(** ** Read-only snapshots *)

(** The body of the [try] block of a snapshot: a sequence of the bucket's
    size is allocated and filled by index.  [fault] says where the block
    raises, if it does: [Some 0] at the allocation, [Some (S ii)] at the
    assignment of index [ii]. *)
Fixpoint fill_sequence {A B} (f : A → B) (bucket : list A) (ii : nat) (n : nat)
    (fault : option nat) (acc : list B) : option (list B) :=
  match n with
  | O => Some acc
  | S n' =>
      if bool_decide (fault = Some (S ii)) then None
      else match bucket !! ii with
           | Some x => fill_sequence f bucket (S ii) n' fault (acc ++ [f x])
           | None => None
           end
  end.

Definition snapshot {A B} (f : A → B) (bucket : list A) (fault : option nat) : list B :=
  match (if bool_decide (fault = Some 0%nat) then None
         else fill_sequence f bucket 0 (length bucket) fault []) with
  | Some result => result
  | None => []                        (* catch (...): a new, empty sequence *)
  end.

Definition registeredDevices (fault : option nat) : M (list Device_ptr) :=
  s ← get;
  mret (snapshot device (_registeredDevices s) fault).

Definition registeredServices (fault : option nat) : M (list (Object_ptr * string)) :=
  s ← get;
  mret (snapshot (λ n, (service n, svc_label n)) (_registeredServices s) fault).

(** ** Reaping children *)

Definition getDeviceNode (env : Env) (p : Z) : M (option DeviceNode) :=
  s ← get;
  match take_first (λ n, bool_decide (pid n = p)) (_pendingDevices s) with
  | Some (deviceNode, rest) =>
      modify (set_pendingDevices rest);;
      mret (Some deviceNode)
  | None =>
      match take_first (λ n, bool_decide (pid n = p)) (_registeredDevices s) with
      | Some (deviceNode, rest) =>
          modify (set_registeredDevices rest);;
          local_unregisterDevice env (device deviceNode) (label deviceNode);;
          mret (Some deviceNode)
      | None => mret None
      end
  end.

Definition childExited (env : Env) (p : Z) (signaled : bool) : M unit :=
  deviceNode ← getDeviceNode env p;
  s ← get;
  serviceNode ←
    match take_first (λ n, bool_decide (svc_pid n = p)) (_pendingServices s) with
    | Some (n, rest) => modify (set_pendingServices rest);; mret (Some n)
    | None =>
        match take_first (λ n, bool_decide (svc_pid n = p)) (_registeredServices s) with
        | Some (n, rest) =>
            modify (set_registeredServices rest);;
            local_unregisterService env (service n) (svc_label n);;
            mret (Some n)
        | None => mret None
        end
    end;
  match deviceNode, serviceNode with
  | None, None => emit (EvLog LvlError "Process is not associated with a registered device")
  | Some _, _ =>
      if signaled then emit (EvLog LvlWarn "Child process has terminated with signal")
      else mret tt
  | None, Some _ => mret tt
  end.

(** ** ShutdownEngine *)

(** Reaps that arrive while the manager waits on [pendingDevicesEmpty]:
    the wait ends when the pending bucket becomes empty, or at the
    deadline, when no more reaps arrive. *)
Fixpoint timed_wait (env : Env) (reaps : list (Z * bool)) : M unit :=
  match reaps with
  | [] => mret tt
  | (p, sg) :: reaps' =>
      s ← get;
      match _pendingDevices s with
      | [] => mret tt
      | _ :: _ => childExited env p sg;; timed_wait env reaps'
      end
  end.

Fixpoint kill_all (pids : list Z) (signal : Signal) : M unit :=
  match pids with
  | [] => mret tt
  | p :: pids' => emit (EvKill p signal);; kill_all pids' signal
  end.

(** [timeout] is in microseconds. *)
Definition killPendingDevices (env : Env) (signal : Signal) (timeout : Z) : M unit :=
  s ← get;
  kill_all (pid <$> _pendingDevices s) signal;;
  if bool_decide (timeout > 0) then
    match _pendingDevices s with
    | [] => mret tt
    | _ :: _ => emit (EvTimedWait timeout);; timed_wait env (wait_reaps env signal)
    end
  else mret tt.

(** A call a child makes on the manager from another thread: what it
    raises goes back to the child. *)
Definition run_callback (env : Env) (cb : Callback) : M unit :=
  match cb with
  | CbUnregisterDevice d => try_catch (unregisterDevice env d) (λ _, mret tt)
  | CbChildExited p sg => childExited env p sg
  end.

Fixpoint run_callbacks (env : Env) (cbs : list Callback) : M unit :=
  match cbs with
  | [] => mret tt
  | cb :: cbs' => run_callback env cb;; run_callbacks env cbs'
  end.

(** [deviceRef->releaseObject()] with the mutex released: the device may
    call back before the call returns, raises or times out. *)
Definition releaseObject (env : Env) (deviceRef : Device_ptr) : M unit :=
  match deviceRef with
  | None => throw CorbaSystemException
  | Some o =>
      emit (EvReleaseObject (obj_ior o));;
      run_callbacks env (releaseObject_callbacks env o);;
      remote (releaseObject_fault env o)
  end.

(** "If the device is still at the front of the list, releaseObject must
    have failed": the node leaves the registered bucket, for the pending
    bucket if it has a pid (it is deleted otherwise). *)
Definition requeue_front (deviceNode : DeviceNode) : M unit :=
  s ← get;
  match _registeredDevices s with
  | front :: rest =>
      if bool_decide (front = deviceNode) then
        modify (set_registeredDevices rest);;
        if bool_decide (pid deviceNode ≠ 0) then
          modify (λ s, set_pendingDevices (push_back (_pendingDevices s) deviceNode) s)
        else mret tt
      else mret tt
  | [] => mret tt
  end.

(** One turn of the [while (!_registeredDevices.empty())] loop. *)
Definition release_front (env : Env) : M unit :=
  s ← get;
  match _registeredDevices s with
  | [] => mret tt
  | deviceNode :: _ =>
      let deviceRef := device deviceNode in
      try_catch
        (emit (EvOverrideBlockingCall (ptr_ior deviceRef) 3000);;    (* 3 seconds *)
         releaseObject env deviceRef)
        (λ _, mret tt);;
      requeue_front deviceNode
  end.

(** The loop, for at most [fuel] turns. *)
Fixpoint release_loop (env : Env) (fuel : nat) : M unit :=
  s ← get;
  match _registeredDevices s, fuel with
  | [], _ => mret tt
  | _ :: _, O => mret tt
  | _ :: _, S fuel' => release_front env;; release_loop env fuel'
  end.

(** The constructor sets [this->DEVICE_FORCE_QUIT_TIME = 0.5]. *)
Definition DEVICE_FORCE_QUIT_TIME_default : Q := 1 # 2.

(** *** Single precision

    [DEVICE_FORCE_QUIT_TIME] and [device_force_quite_time] are [float]s:
    24 bits of significand, the last place no smaller than 2^-149, round
    to nearest, ties to even.  Overflow to infinity is left out: the only
    use of these values is the conversion to [int] below, for which
    every value beyond the range of [int] counts the same. *)

(** The integer nearest to [q], the even one of two that are as near. *)
Definition round_half_even (q : Q) : Z :=
  let d := Z.pos (Qden q) in
  let f := Qnum q / d in
  let r := 2 * (Qnum q mod d) in
  if (r <? d)%Z then f
  else if (d <? r)%Z then f + 1
  else if Z.even f then f else f + 1.

(** The exponent [k] with 2^k ≤ |q| < 2^(k+1), for [q] other than zero. *)
Definition binary_exponent (q : Q) : Z :=
  let n := Z.abs (Qnum q) in
  let d := Z.pos (Qden q) in
  let k := Z.log2 n - Z.log2 d in
  if Qle_bool (Qpower (2 # 1) k) (n # Qden q) then k else k - 1.

Definition to_float (q : Q) : Q :=
  if Qeq_bool q (0 # 1) then 0 # 1
  else
    let ulp := Qpower (2 # 1) (Z.max (binary_exponent q - 23) (-149)) in
    Qred (Qmult (inject_Z (round_half_even (Qdiv q ulp))) ulp).

(** [(int) f]: the fraction is discarded.  For a value beyond the range
    of [int] the conversion is undefined; the result taken here is the
    one the conversion instruction of x86-64 gives, INT_MIN. *)
Definition float_to_int (f : Q) : Z :=
  let i := Z.quot (Qnum f) (Z.pos (Qden f)) in
  if (- 2 ^ 31 <=? i)%Z && (i <? 2 ^ 31)%Z then i else - 2 ^ 31.

(** [float device_force_quite_time = this->DEVICE_FORCE_QUIT_TIME * 1e6;],
    passed as the [int timeout] of [killPendingDevices].  The product of a
    [float] and the [double] 1e6 has 38 bits at most and is exact; it is
    rounded when it is stored in the [float]. *)
Definition force_quit_usec (seconds : Q) : Z :=
  float_to_int (to_float (Qmult (to_float seconds) (inject_Z 1000000))).

(** Every turn of the loop takes a node out of the registered bucket (see
    [release_front_run]), so as many turns as the bucket has nodes
    empty it. *)
Definition clean_registeredDevices (env : Env) : M unit :=
  s ← get;
  release_loop env (length (_registeredDevices s));;
  s ← get;
  let device_force_quite_time := force_quit_usec (DEVICE_FORCE_QUIT_TIME s) in
  killPendingDevices env SIGINT device_force_quite_time;;
  killPendingDevices env SIGTERM device_force_quite_time;;
  killPendingDevices env SIGKILL 0.


(** ** ProfileResolver: matching implementations *)

(** Modelled from the spec: [ImplementationInfo::checkProcessorAndOs] is
    defined in a file that is not among the sources.  "An
    ImplementationVariant is matched against a host iff its processor
    equals the host's machine and its osName equals the host's sysname." *)
Definition checkProcessorAndOs (impl : ImplementationInfo) (props : HostProps) : bool :=
  bool_decide (impl_processor impl = processor_name props)
  && bool_decide (impl_osName impl = os_name props).

(** A [for] loop over implementations that stops at the first one
    satisfying [p]. *)
Fixpoint first_match (p : ImplementationInfo → bool) (impls : list ImplementationInfo)
    : option ImplementationInfo :=
  match impls with
  | [] => None
  | impl :: impls' => if p impl then Some impl else first_match p impls'
  end.

Definition setSelectedImplementation (impl : ImplementationInfo) (prof : ProgramProfile)
    : ProgramProfile :=
  mkProgramProfile (prof_id prof) (prof_name prof) (prof_spdPath prof)
    (prof_componentType prof) (prof_implementations prof) (Some impl)
    (prof_instantiationIdentifier prof) (prof_usageName prof) (prof_isConfigurable prof)
    (prof_nonNilConstructProperties prof) (prof_nonNilConfigureProperties prof).

(** [setIdentifier], [setNamingServiceName], [setUsageName]: the
    instantiation context of a profile. *)
Definition setInstantiation (inst : ComponentInstantiation) (prof : ProgramProfile)
    : ProgramProfile :=
  mkProgramProfile (prof_id prof) (prof_name prof) (prof_spdPath prof)
    (prof_componentType prof) (prof_implementations prof)
    (prof_selectedImplementation prof)
    (inst_id inst) (inst_usageName inst) (prof_isConfigurable prof)
    (prof_nonNilConstructProperties prof) (prof_nonNilConfigureProperties prof).

Definition setupImplementationForHost : M unit :=
  s ← get;
  (* create property set for os and processor matching *)
  let _my_host := mkHostProps (machine (_uname s)) (sysname (_uname s)) in
  modify (set_host_props _my_host);;
  match devmgr_info s with
  | None => null_deref
  | Some info =>
  match profiles s !! info with
  | None => null_deref
  | Some prof =>
      let _allDevManImpls := prof_implementations prof in
      if bool_decide (length _allDevManImpls = 0%nat) then
        emit (EvLog LvlError "Device manager SPD has no implementations to match against.");;
        throw RuntimeError
      else
        match first_match (λ impl, checkProcessorAndOs impl _my_host) _allDevManImpls with
        | Some impl =>
            modify (λ s, set_profiles (<[info := setSelectedImplementation impl prof]> (profiles s)) s);;
            modify (set_devmgr_prf _my_host)          (* devmgr_info->prf.join(host_props) *)
        | None =>
            (* Unable to find device manager implementation to match processor *)
            throw RuntimeError
        end
  end
  end.

(** Recursive resolution of software package dependencies.  The selection
    recorded in the packages is not modelled, only the answer. *)
Fixpoint resolveSoftpkgDependencies (host : HostProps) (implementation : ImplementationInfo)
    {struct implementation} : bool :=
  match implementation with
  | mkImplementationInfo _ _ _ _ _ _ tmpSoftpkg =>
      (fix deps (pkgs : list SoftpkgInfo) : bool :=
         match pkgs with
         | [] => true
         | pkg :: pkgs' =>
             match resolveDependencyImplementation host pkg with
             | Some _ => deps pkgs'
             | None => false
             end
         end) tmpSoftpkg
  end
with resolveDependencyImplementation (host : HostProps) (softpkg : SoftpkgInfo)
    {struct softpkg} : option ImplementationInfo :=
  match softpkg with
  | mkSoftpkgInfo _ spd_list =>
      (fix impls (l : list ImplementationInfo) : option ImplementationInfo :=
         match l with
         | [] => None
         | implementation :: l' =>
             (* Check that this implementation can run on the device *)
             if negb (checkProcessorAndOs implementation host) then impls l'
             (* Recursively check any softpkg dependencies *)
             else if resolveSoftpkgDependencies host implementation then Some implementation
             else impls l'
         end) spd_list
  end.

(** [resolveImplementation(rsc)]: selects, in the profile [rsc] points to,
    the first implementation that matches the manager's properties. *)
Definition resolveImplementation (rsc : nat) : M bool :=
  s ← get;
  match profiles s !! rsc with
  | None => null_deref
  | Some prof =>
      match first_match (λ impl, checkProcessorAndOs impl (devmgr_prf s))
                        (prof_implementations prof) with
      | Some impl =>
          modify (λ s, set_profiles (<[rsc := setSelectedImplementation impl prof]> (profiles s)) s);;
          mret true
      | None => mret false
      end
  end.

(** ** The SDR: files and parsers the planner consults *)

(** The collaborators of the planner that are not among the sources: the
    node profile's file references, the SPD and PRF parsers, the device
    file system, and the default of the last argument of
    [getCodeFilePath], which is declared in the header. *)
Record Sdr : Type := mkSdr {
  getFileNameFromRefId : string → string;
  LoadProfile : string → exn + ProgramProfile;    (* raises, or the loaded profile *)
  joinPRF : string → ProgramProfile → option ProgramProfile;
                                                  (* the profile with the PRF file merged in;
                                                     [None]: joinPRFProperties fails *)
  getLocalPath : string → string;
  access : string → bool;                         (* access(path, F_OK) != -1 *)
  normalize : string → string;
  useLocalFileSystem_default : bool }.

Fixpoint for_each {A} (l : list A) (body : A → M unit) : M unit :=
  match l with
  | [] => mret tt
  | x :: l' => body x;; for_each l' body
  end.

Fixpoint fold_each {A S} (body : S → A → M S) (l : list A) (acc : S) : M S :=
  match l with
  | [] => mret acc
  | x :: l' => acc' ← body acc x; fold_each body l' acc'
  end.

Definition update_profile (p : nat) (f : ProgramProfile → ProgramProfile) : M unit :=
  modify (λ s, set_profiles (alter f p (profiles s)) s).

Definition recordComponentInstantiationId (instantiation : ComponentInstantiation)
    (impl_id : string) : M unit :=
  modify (λ s, set_componentImplMap (<[inst_id instantiation := impl_id]> (_componentImplMap s)) s).

Definition has_root_directory (path : string) : bool := String.prefix "/" path.

Definition getCodeFilePath (sdr : Sdr) (matchedDeviceImpl : ImplementationInfo)
    (spdPath : string) (useLocalFileSystem : bool) : M (option string) :=
  if bool_decide (impl_entryPoint matchedDeviceImpl = "") then
    emit (EvLog LvlError "not instantiating device; no entry point provided");;
    mret None
  else
    let entryPoint :=
      normalize sdr
        (if has_root_directory (impl_entryPoint matchedDeviceImpl)
         then impl_entryPoint matchedDeviceImpl
         else spdPath +:+ "/" +:+ impl_entryPoint matchedDeviceImpl) in
    let localFilePath := getLocalPath sdr entryPoint in
    let codeFilePath := if useLocalFileSystem then getLocalPath sdr entryPoint else entryPoint in
    if bool_decide (codeFilePath = "") then
      emit (EvLog LvlWarn "Invalid device file. Could not find executable");;
      mret None
    else if negb (access sdr localFilePath) then
      emit (EvLog LvlError "Unable to access local filesystem file");;
      mret None
    else mret (Some codeFilePath).

(** The component type, normalized into "device" or "service"; [None] for
    an unsupported type. *)
Definition getDeviceOrService (comp : ProgramProfile) : M (option string) :=
  let type := prof_componentType comp in
  let type := if bool_decide (type = "device") || bool_decide (type = "loadabledevice")
                 || bool_decide (type = "executabledevice")
              then "device" else type in
  if bool_decide (type = "device") || bool_decide (type = "service") then mret (Some type)
  else emit (EvLog LvlError "Attempt to launch unsupported component type");;
       mret None.

Definition addDeviceImplProperties (sdr : Sdr) (compProfile : nat)
    (deviceImpl : ImplementationInfo) : M bool :=
  let prfFile := impl_propertyFile deviceImpl in
  if bool_decide (prfFile ≠ "") then
    s ← get;
    match profiles s !! compProfile with
    | None => null_deref
    | Some prof =>
        match joinPRF sdr prfFile prof with
        | None => mret false
        | Some prof' =>
            modify (λ s, set_profiles (<[compProfile := prof']> (profiles s)) s);;
            mret true
        end
    end
  else mret true.

Definition getIORfromID (instanceid : string) : M string :=
  s ← get;
  mret (match List.find (λ n, bool_decide (identifier n = instanceid)) (_registeredDevices s) with
        | Some n => IOR n
        | None => ""
        end).

(** [while (true) { tmpior = getIORfromID(id); if (!tmpior.empty()) break;
    usleep(100); }]: while the thread sleeps, the device may register
    (from another thread; what that call raises goes back to the device).
    When it never does, the loop does not end. *)
Definition poll_IOR (env : Env) (instanceID : string) : M string :=
  tmpior ← getIORfromID instanceID;
  if bool_decide (tmpior ≠ "") then mret tmpior
  else
    match poll_registration env instanceID with
    | None => diverge
    | Some d =>
        try_catch (registerDevice env (Some d)) (λ _, mret tt);;
        tmpior ← getIORfromID instanceID;
        if bool_decide (tmpior ≠ "") then mret tmpior else diverge
    end.

Definition getCompositeDeviceIOR (env : Env) (componentPlacements : list ComponentPlacement)
    (componentPlacementInst : ComponentPlacement) : M string :=
  match cp_compositePartOfDeviceID componentPlacementInst with
  | None => mret ""
  | Some parentDeviceRefid =>
      fold_each
        (λ compositeDeviceIOR cp,
           fold_each
             (λ compositeDeviceIOR ci,
                if bool_decide (inst_id ci = parentDeviceRefid)
                then poll_IOR env (inst_id ci)
                else mret compositeDeviceIOR)
             (cp_instantiations cp) compositeDeviceIOR)
        componentPlacements ""
  end.

(** [std::string compId(placement.instantiations[0].getID())]: the vector
    is read at index 0 without a check; on a placement without
    instantiations the read is out of range (undefined behaviour, here the
    fault of an invalid dereference). *)
Definition first_instantiation_id (componentPlacement : ComponentPlacement) : M string :=
  match cp_instantiations componentPlacement with
  | [] => null_deref
  | instantiation :: _ => mret (inst_id instantiation)
  end.

(** ** The placement part of [postConstructor]

    From "Parse local components from DCD files" to the end of the
    function.  [createDeviceThreadAndHandleExceptions] is not among the
    sources: a launch is recorded as the event [EvLaunch]. *)

(** One turn of the first loop: load the profile of a placement, select its
    implementation, resolve its dependencies and put it on one of the two
    lists.  Whatever the [try] block raises is logged, and the loop goes on
    with the next placement. *)
Definition split_placement (sdr : Sdr) (lists : DeploymentList * DeploymentList)
    (componentPlacement : ComponentPlacement) : M (DeploymentList * DeploymentList) :=
  let '(standaloneComponentPlacements, compositePartDeviceComponentPlacements) := lists in
  let skip (e : exn) : M unit :=
    (if is_runtime_error e then emit (EvLog LvlError "ex.what()") else mret tt);;
    emit (EvLog LvlError "Skipping instantiation of device") in
  first_instantiation_id componentPlacement;;    (* compId, for the messages *)
  match LoadProfile sdr (getFileNameFromRefId sdr (cp_fileRefId componentPlacement)) with
  | inl e => skip e;; mret lists                 (* newResource is still null *)
  | inr prof =>
      s ← get;
      let newResource := fresh (dom (profiles s)) in
      modify (set_profiles (<[newResource := prof]> (profiles s)));;
      try_catch
        (matched ← resolveImplementation newResource;
         if negb (matched : bool) then throw RuntimeError else
         s ← get;
         match profiles s !! newResource ≫= prof_selectedImplementation with
         | None => null_deref
         | Some matchingImpl =>
             if negb (resolveSoftpkgDependencies (devmgr_prf s) matchingImpl)
             then throw RuntimeError else
             let isSharedLibrary := bool_decide (impl_codeType matchingImpl = SHARED_LIBRARY) in
             let d : Deployment := (componentPlacement, newResource) in
             if isCompositePartOf componentPlacement && isSharedLibrary then
               mret (standaloneComponentPlacements,
                     push_back compositePartDeviceComponentPlacements d)
             else
               mret (push_back standaloneComponentPlacements d,
                     compositePartDeviceComponentPlacements)
         end)
        (λ e,
           skip e;;
           modify (λ s, set_profiles (delete newResource (profiles s)) s);;
           mret lists)
  end.

(** One turn of the second loop: launch the instantiations of a
    standalone placement. *)
Definition launch_standalone (sdr : Sdr) (env : Env)
    (componentPlacements : list ComponentPlacement) (cIter : Deployment) : M unit :=
  let compPlacement := cIter.1 in
  let compProfile := cIter.2 in
  s ← get;
  match profiles s !! compProfile with
  | None => null_deref
  | Some prof =>
  first_instantiation_id compPlacement;;         (* compId, for the message *)
  match prof_selectedImplementation prof with
  | None => mret tt                              (* should not happen *)
  | Some matchingImpl =>
      merged ← addDeviceImplProperties sdr compProfile matchingImpl;
      if negb (merged : bool) then mret tt else
      compositeDeviceIOR ← getCompositeDeviceIOR env componentPlacements compPlacement;
      for_each (cp_instantiations compPlacement)
        (λ instantiation,
           recordComponentInstantiationId instantiation (impl_id matchingImpl);;
           update_profile compProfile (setInstantiation instantiation);;
           s ← get;
           match profiles s !! compProfile with
           | None => null_deref
           | Some prof =>
               codeFilePath ← getCodeFilePath sdr matchingImpl (prof_spdPath prof)
                                (useLocalFileSystem_default sdr);
               match codeFilePath with
               | None => mret tt
               | Some codeFilePath =>
                   componentType ← getDeviceOrService prof;
                   match componentType with
                   | None => mret tt
                   | Some componentType =>
                       modify (λ s, set_deployed_comps (push_back (deployed_comps s) cIter) s);;
                       emit (EvLaunch (inst_id instantiation) componentType codeFilePath
                               compositeDeviceIOR)
                   end
               end
           end)
  end
  end.

(** "make sure parent was deployed" *)
Definition parent_deployed (parent_inst_id : string) (deployed : DeploymentList) : bool :=
  existsb (λ d : Deployment,
             existsb (λ piter, bool_decide (parent_inst_id = inst_id piter))
                     (cp_instantiations d.1))
          deployed.

(** One turn of the third loop: for a composite placement, walk the
    standalone placements; [parentImpl] and [foundCompositeDeployed] are
    kept from one standalone placement to the next. *)
Definition launch_composite (sdr : Sdr) (env : Env)
    (componentPlacements : list ComponentPlacement)
    (standaloneComponentPlacements : DeploymentList) (compPlaceIter : Deployment) : M unit :=
  let compPlacement := compPlaceIter.1 in
  let compProfile := compPlaceIter.2 in
  let compositePartDeviceID := default "" (cp_compositePartOfDeviceID compPlacement) in
  s ← get;
  match profiles s !! compProfile with
  | None => null_deref
  | Some prof =>
  let matchingImpl := prof_selectedImplementation prof in
  (if bool_decide (cp_instantiations compPlacement = [])
   then emit (EvLog LvlError "Missing Instantiaion for Placing Composite")
   else mret tt);;
  fold_each
    (λ (st : option ImplementationInfo * bool) (cIter : Deployment),
       let '(parentImpl, foundCompositeDeployed) := st in
       let parentPlacement := cIter.1 in
       let parentProfile := cIter.2 in
       s ← get;
       st ←
         (if existsb (λ ci, bool_decide (inst_id ci = compositePartDeviceID))
                     (cp_instantiations parentPlacement)
          then match profiles s !! parentProfile with
               | None => null_deref
               | Some pprof =>
                   mret (prof_selectedImplementation pprof,
                         foundCompositeDeployed
                         || parent_deployed compositePartDeviceID (deployed_comps s))
               end
          else mret (parentImpl, foundCompositeDeployed));
       let '(parentImpl, foundCompositeDeployed) := st in
       if negb foundCompositeDeployed then
         emit (EvLog LvlError "Unable to locate ComppositeParent");;
         mret st
       else match matchingImpl, parentImpl with
       | None, _ =>
           emit (EvLog LvlError "no available device implementations match device manager properties");;
           mret st
       | Some _, None =>
           emit (EvLog LvlError "Composite parent has no matching implementations");;
           mret st
       | Some matchingImpl, Some _ =>
           merged ← addDeviceImplProperties sdr compProfile matchingImpl;
           if negb (merged : bool) then
             emit (EvLog LvlError "Skipping instantiation of device");;
             mret st
           else
           compositeDeviceIOR ← getCompositeDeviceIOR env componentPlacements compPlacement;
           for_each (cp_instantiations compPlacement)
             (λ instantiation,
                recordComponentInstantiationId instantiation (impl_id matchingImpl);;
                update_profile compProfile (setInstantiation instantiation);;
                s ← get;
                match profiles s !! compProfile with
                | None => null_deref
                | Some prof =>
                    codeFilePath ← getCodeFilePath sdr matchingImpl (prof_spdPath prof) false;
                    match codeFilePath with
                    | None => mret tt
                    | Some codeFilePath =>
                        modify (λ s, set_deployed_comps
                                       (push_back (deployed_comps s) compPlaceIter) s);;
                        emit (EvLaunch (inst_id instantiation) "SharedLibrary" codeFilePath
                                compositeDeviceIOR)
                    end
                end);;
           mret st
       end)
    standaloneComponentPlacements (None, false);;
  mret tt
  end.

Definition deployComponentPlacements (sdr : Sdr) (env : Env)
    (componentPlacements : list ComponentPlacement) : M unit :=
  lists ← fold_each (split_placement sdr) componentPlacements ([], []);
  let '(standaloneComponentPlacements, compositePartDeviceComponentPlacements) := lists in
  (* Iterate and launch all non-deployOnDevice compPlacements *)
  for_each standaloneComponentPlacements (launch_standalone sdr env componentPlacements);;
  (* Iterate and launch all deployOnDevice compPlacements *)
  for_each compositePartDeviceComponentPlacements
    (launch_composite sdr env componentPlacements standaloneComponentPlacements).

(** * Specification vocabulary *)

Ltac munfold :=
  cbv beta iota delta
    [M_bind M_ret get modify emit throw null_deref diverge try_catch child_attr remote
     mbind mret] in *.

(** The four buckets of a state. *)
Definition buckets (s : DeviceManager) : DeviceList * DeviceList * ServiceList * ServiceList :=
  (_registeredDevices s, _pendingDevices s, _registeredServices s, _pendingServices s).

(** How a computation may end: anyhow, without a null dereference,
    divergence or the end of the process, or by returning. *)
Inductive kind : Set := Any | NoFault | Total.

Definition ends (k : kind) {A} (r : Res A) : Prop :=
  match k, r with
  | Any, _ => True
  | NoFault, (Ok _ | Throw _) => True
  | Total, Ok _ => True
  | _, _ => False
  end.

(** [steps_at R P k m s]: started in [s], [m] ends as [k] says, the state
    it leaves is [R]-related to [s], and every call it makes satisfies
    [P].  [steps R P k m]: so it is from every state. *)
Definition steps_at (R : relation DeviceManager) (P : Event → Prop) (k : kind) {A}
    (m : M A) (s : DeviceManager) : Prop :=
  ends k (result (m s)) ∧ R s (final (m s)) ∧ Forall P (calls (m s)).

Definition steps (R : relation DeviceManager) (P : Event → Prop) (k : kind) {A}
    (m : M A) : Prop :=
  ∀ s, steps_at R P k m s.

(** How an exception ends a call of an operation that is declared
    [throw (CORBA::SystemException, CF::InvalidObjectReference)]: it
    reaches the caller, or the process is ended. *)
Definition leaves {A} (e : exn) : Res A :=
  if SystemException_or_InvalidObjectReference e then Throw e else Terminated.

(** States that differ at most in what is bound in the naming service. *)
Definition same_buckets (s s' : DeviceManager) : Prop :=
  buckets s = buckets s' ∧ _adminState s = _adminState s'
  ∧ _internalShutdown s = _internalShutdown s'
  ∧ DEVICE_FORCE_QUIT_TIME s = DEVICE_FORCE_QUIT_TIME s'.

(** The calls of the shutdown engine: timeouts set, releases requested,
    signals sent, waits. *)
Definition is_teardown (e : Event) : bool :=
  match e with
  | EvOverrideBlockingCall _ _ | EvReleaseObject _ | EvKill _ _ | EvTimedWait _ => true
  | _ => false
  end.

Definition is_launch (e : Event) : bool :=
  match e with EvLaunch _ _ _ _ => true | _ => false end.

(** Calls that neither the shutdown engine nor the launcher make. *)
Definition quiet (e : Event) : Prop := is_teardown e = false ∧ is_launch e = false.

(** The teardown calls of a trace, in order. *)
Definition teardown (t : list Event) : list Event := filter (λ e, is_teardown e = true) t.

(** What one turn of the release loop asks of the device of a node. *)
Definition release_events (n : DeviceNode) : list Event :=
  EvOverrideBlockingCall (ptr_ior (device n)) 3000
  :: match device n with
     | Some o => [EvReleaseObject (obj_ior o)]
     | None => []
     end.

(** [kill(pid, signal)] for every node of a bucket, then the wait. *)
Definition kills (signal : Signal) (bucket : DeviceList) : list Event :=
  (λ n, EvKill (pid n) signal) <$> bucket.

Definition wait_event (timeout : Z) (bucket : DeviceList) : list Event :=
  if bool_decide (timeout > 0) then
    match bucket with [] => [] | _ :: _ => [EvTimedWait timeout] end
  else [].

(** C6 as stated, for the waits: when devices are pending and no child
    calls back or is reaped, the manager waits, and for
    DEVICE_FORCE_QUIT_TIME at most. *)
Definition waits_up_to_force_quit_time : Prop :=
  ∀ (env : Env) (s : DeviceManager),
    (∀ o, releaseObject_callbacks env o = []) →
    (∀ signal, wait_reaps env signal = []) →
    (0 < DEVICE_FORCE_QUIT_TIME s)%Q →
    _pendingDevices s ≠ [] →
    (∃ usec, EvTimedWait usec ∈ calls (clean_registeredDevices env s))
    ∧ ∀ usec, EvTimedWait usec ∈ calls (clean_registeredDevices env s) →
        (inject_Z usec <= DEVICE_FORCE_QUIT_TIME s * inject_Z 1000000)%Q.

(** The state after callbacks and reaps: nodes may have left the
    registered bucket, nothing else of it has changed. *)
Definition released (s s' : DeviceManager) : Prop :=
  _registeredDevices s' `sublist_of` _registeredDevices s
  ∧ DEVICE_FORCE_QUIT_TIME s' = DEVICE_FORCE_QUIT_TIME s.

(** The state after reaps: nodes may have left the buckets of devices. *)
Definition reaped (s s' : DeviceManager) : Prop :=
  _registeredDevices s' `sublist_of` _registeredDevices s
  ∧ _pendingDevices s' `sublist_of` _pendingDevices s
  ∧ DEVICE_FORCE_QUIT_TIME s' = DEVICE_FORCE_QUIT_TIME s.

(** Whether the [try] block of a snapshot of [n] nodes raises. *)
Definition faulted (fault : option nat) (n : nat) : bool :=
  match fault with
  | Some k => bool_decide (k ≤ n)%nat
  | None => false
  end.

(** C8 as stated, for services: a pending service record whose identifier
    equals the name under which a service registers would be adopted, with
    its pid. *)
Definition services_join_on_identifier : Prop :=
  ∀ (s : DeviceManager) (ior name : string) (n : ServiceNode),
    n ∈ _pendingServices s → svc_identifier n = name →
    ∃ node, last (_registeredServices (final (increment_registeredServices ior name s)))
            = Some node
            ∧ svc_pid node = svc_pid n.


(** A call on the Domain Manager. *)
Definition is_DomMgr_call (e : Event) : bool :=
  match e with EvDomMgr _ _ => true | _ => false end.

(** The number of registered nodes for a device, and for a service name. *)
Definition device_entries (d : DeviceObj) (s : DeviceManager) : nat :=
  length (filter (λ n, is_equivalent (device n) d = true) (_registeredDevices s)).

Definition service_entries (name : string) (s : DeviceManager) : nat :=
  length (filter (λ n, svc_label n = name) (_registeredServices s)).

(** C2 as stated, for services: when the Domain Manager fails the
    forwarded registration, the call returns, the service stays registered
    and its name stays bound. *)
Definition service_forwarding_failure_only_logged : Prop :=
  ∀ (env : Env) (s : DeviceManager) (ior name : string) (e : exn),
    _adminState s = DEVMGR_REGISTERED →
    dmnMgr_fault env = Some e →
    let r := registerService env (Some ior) name s in
    EvDomMgr DmRegisterService ior ∈ calls r →
    result r = Ok tt
    ∧ (∃ n, n ∈ _registeredServices (final r) ∧ svc_label n = name)
    ∧ rootContext (final r) !! name = Some ior.

(** A manager registered with its domain, with no children. *)
Definition registered_manager : DeviceManager :=
  mkDeviceManager DEVMGR_REGISTERED false [] [] [] [] [] ∅ ∅
    (mkUtsname "x86_64" "Linux") (mkHostProps "x86_64" "Linux") None
    (mkHostProps "x86_64" "Linux") ∅ ∅ (1 # 2) 10000.

(** An environment in which every party answers and nothing else happens. *)
Definition calm : Env := mkEnv None None (λ _, None) (λ _, []) (λ _, []) (λ _, None) None.

(** A manager after [shutdown()]: the flag is set, the state is SHUTDOWN. *)
Definition shut_down_manager : DeviceManager :=
  set_internalShutdown true (set_adminState DEVMGR_SHUTDOWN registered_manager).

(** Two device objects and a manager that supervises them: the first was
    launched by the manager (pid 4242), the second registered from outside;
    likewise two services. *)
Definition dev1 : DeviceObj :=
  mkDeviceObj "IOR:dev1" "dev1" "DCE:dev1" "/devices/dev1/dev1.spd.xml" None None None.

Definition dev2 : DeviceObj :=
  mkDeviceObj "IOR:dev2" "dev2" "DCE:dev2" "/devices/dev2/dev2.spd.xml" None None None.

Definition node1 : DeviceNode := mkDeviceNode "DCE:dev1" "dev1" "IOR:dev1" (Some dev1) 4242.
Definition node2 : DeviceNode := mkDeviceNode "DCE:dev2" "dev2" "IOR:dev2" (Some dev2) 0.

Definition snode1 : ServiceNode := mkServiceNode "DCE:svc1" "svc1" "IOR:svc1" (Some "IOR:svc1") 77.
Definition snode2 : ServiceNode := mkServiceNode "ext" "ext" "IOR:ext" (Some "IOR:ext") 0.

Definition busy_manager : DeviceManager :=
  set_registeredDevices [node1; node2]
    (set_registeredServices [snode1; snode2]
       (set_devMgrContext (<["dev1" := "IOR:dev1"]> (<["dev2" := "IOR:dev2"]> ∅))
          (set_rootContext (<["svc1" := "IOR:svc1"]> (<["ext" := "IOR:ext"]> ∅))
             registered_manager))).

(** Managers with a pending device that are configured to wait 16.777217 s
    and 3000 s for a device to quit. *)
Definition patient_manager : DeviceManager :=
  set_DEVICE_FORCE_QUIT_TIME (16777217 # 1000000)
    (set_pendingDevices [node1] registered_manager).

Definition very_patient_manager : DeviceManager :=
  set_DEVICE_FORCE_QUIT_TIME (3000 # 1) (set_pendingDevices [node1] registered_manager).

(** A manager that has launched a device and a service which have not
    registered yet. *)
Definition launching_manager : DeviceManager :=
  set_pendingDevices [mkDeviceNode "DCE:dev1" "" "" None 4242]
    (set_pendingServices [mkServiceNode "DCE:svc1" "svc1" "" None 77]
       (set_deployed_comps
          [(mkComponentPlacement "dev1_ref"
              [mkComponentInstantiation "DCE:dev1" "dev1" "dev1"] None, 0%nat)]
          (set_profiles
             (<[0%nat := mkProgramProfile "DCE:dev1_spd" "dev1" "/devices/dev1" "device" []
                           None "DCE:dev1" "dev1" false [] []]> ∅)
             registered_manager))).

(** The Domain Manager rejects registrations. *)
Definition rejecting : Env :=
  mkEnv None (Some RegisterError) (λ _, None) (λ _, []) (λ _, []) (λ _, None) None.

(** The Domain Manager is not reached; and neither is the naming service,
    once the name of a service is bound. *)
Definition unreachable : Env :=
  mkEnv None (Some CorbaSystemException) (λ _, None) (λ _, []) (λ _, []) (λ _, None) None.

Definition unreachable_since : Env :=
  mkEnv None (Some RegisterError) (λ _, None) (λ _, []) (λ _, []) (λ _, None)
    (Some CorbaSystemException).

(** A placement resolves when its profile loads, one of the profile's
    implementations matches the manager's properties, and the softpkg
    dependencies of the first such implementation resolve; the
    implementation it resolves to. *)
Definition resolve_placement (sdr : Sdr) (prf : HostProps) (cp : ComponentPlacement)
    : option ImplementationInfo :=
  match LoadProfile sdr (getFileNameFromRefId sdr (cp_fileRefId cp)) with
  | inl _ => None
  | inr prof =>
      match first_match (λ impl, checkProcessorAndOs impl prf) (prof_implementations prof) with
      | Some impl => if resolveSoftpkgDependencies prf impl then Some impl else None
      | None => None
      end
  end.

(** "isCompositePartOf AND selectedImpl.codeType = SharedLibrary", for a
    placement that resolves. *)
Definition composite_part (sdr : Sdr) (prf : HostProps) (cp : ComponentPlacement)
    : option bool :=
  (λ impl, isCompositePartOf cp && bool_decide (impl_codeType impl = SHARED_LIBRARY))
    <$> resolve_placement sdr prf cp.

(** An implementation matches a host. *)
Definition matches_host (u : utsname) (impl : ImplementationInfo) : Prop :=
  impl_processor impl = machine u ∧ impl_osName impl = sysname u.

(** The instantiations launched in a trace, in order. *)
Definition launched (t : list Event) : list string :=
  omap (λ e, match e with EvLaunch i _ _ _ => Some i | _ => None end) t.

(** The instantiation identifiers of the placements of a list, in order. *)
Definition instantiation_ids (l : DeploymentList) : list string :=
  l ≫= (λ d : Deployment, inst_id <$> cp_instantiations d.1).

(** Launches of the second loop: as a device or as a service. *)
Definition standalone_launch (e : Event) : Prop :=
  match e with
  | EvLaunch _ ty _ _ => ty = "device" ∨ ty = "service"
  | _ => True
  end.

(** Launches of the third loop: as a shared library, for an instantiation
    of one of the composite placements. *)
Definition composite_launch (composite : DeploymentList) (e : Event) : Prop :=
  match e with
  | EvLaunch i ty _ _ => ty = "SharedLibrary" ∧ i ∈ instantiation_ids composite
  | _ => True
  end.

(** Any state may follow any other. *)
Definition anyhow : relation DeviceManager := λ _ _, True.

(** A call that is not a launch. *)
Definition not_launch (e : Event) : Prop := is_launch e = false.

(** The launches of a trace are of instantiations of [ids], in the order
    of [ids], and every call of the trace satisfies [Q]. *)
Definition launches (Q : Event → Prop) (ids : list string) (t : list Event) : Prop :=
  Forall Q t ∧ launched t `sublist_of` ids.

(** The checks a turn of the second loop makes before it launches the
    instantiations of a placement: the property file of the selected
    implementation, if it has one, is merged into the profile; the code
    file is found; the component is a device or a service.  [s] is the
    state the first loop leaves. *)
Definition accepted {A} (r : Res (option A)) : bool :=
  match r with Ok (Some _) => true | _ => false end.

Definition launch_checks (sdr : Sdr) (s : DeviceManager) (d : Deployment) : bool :=
  match profiles s !! d.2 ≫= prof_selectedImplementation with
  | None => false
  | Some impl =>
      let merge := addDeviceImplProperties sdr d.2 impl s in
      match result merge, profiles (final merge) !! d.2 with
      | Ok true, Some prof =>
          accepted (result (getCodeFilePath sdr impl (prof_spdPath prof)
                              (useLocalFileSystem_default sdr) s))
          && accepted (result (getDeviceOrService prof s))
      | _, _ => false
      end
  end.

(** The instantiations of the placements that pass the checks, in the
    order of the list. *)
Definition accepted_launches (sdr : Sdr) (s : DeviceManager) (l : DeploymentList)
    : list string :=
  instantiation_ids (filter (λ d, launch_checks sdr s d = true) l).

(** A computation that returns. *)
Definition returned {A} (r : Res A) : bool :=
  match r with Ok _ => true | _ => false end.

(** The lists the first loop builds: every deployment on them has a
    profile of its own in the store, with an implementation selected. *)
Definition planned (m : gmap nat ProgramProfile) (l : DeploymentList) : Prop :=
  NoDup l.*2
  ∧ Forall (λ d : Deployment,
              ∃ prof, m !! d.2 = Some prof ∧ is_Some (prof_selectedImplementation prof)) l.

(** Whatever call. *)
Definition any_call (e : Event) : Prop := True.

(** The profiles at the addresses [keep] are as they were. *)
Definition profiles_kept (keep : nat → Prop) (s s' : DeviceManager) : Prop :=
  ∀ p, keep p → profiles s' !! p = profiles s !! p.

(** A node whose DCD places a shared-library device on a parent device,
    a component whose profile does not load, and the parent device, in
    that order.  The manager's own profile offers an implementation for
    another processor before the one for this host. *)
Definition host_impl (id entryPoint : string) (type : LoadType) : ImplementationInfo :=
  mkImplementationInfo id "x86_64" "Linux" entryPoint type "" [].

Definition devmgr_profile : ProgramProfile :=
  mkProgramProfile "DCE:devmgr_spd" "DeviceManager" "/mgr" "devicemanager"
    [mkImplementationInfo "arm" "armv7l" "Linux" "devmgr" EXECUTABLE "" [];
     host_impl "x86" "devmgr" EXECUTABLE]
    None "" "" false [] [].

Definition parent_profile : ProgramProfile :=
  mkProgramProfile "DCE:parent_spd" "parent" "/devices/parent" "executabledevice"
    [host_impl "cpp" "parent" EXECUTABLE] None "" "" false [] [].

Definition child_profile : ProgramProfile :=
  mkProgramProfile "DCE:child_spd" "child" "/devices/child" "device"
    [host_impl "lib" "child.so" SHARED_LIBRARY] None "" "" false [] [].

Definition sample_sdr : Sdr :=
  mkSdr (λ refid, refid)
    (λ spdFile,
       if bool_decide (spdFile = "parent_file") then inr parent_profile
       else if bool_decide (spdFile = "child_file") then inr child_profile
       else inl StdException)
    (λ _ prof, Some prof) (λ path, path) (λ _, true) (λ path, path) true.

Definition parent_cp : ComponentPlacement :=
  mkComponentPlacement "parent_file" [mkComponentInstantiation "parent_1" "parent" "parent_1"] None.

Definition child_cp : ComponentPlacement :=
  mkComponentPlacement "child_file" [mkComponentInstantiation "child_1" "child" "child_1"]
    (Some "parent_1").

Definition broken_cp : ComponentPlacement :=
  mkComponentPlacement "missing_file" [mkComponentInstantiation "broken_1" "broken" "broken_1"]
    None.

Definition sample_placements : list ComponentPlacement := [child_cp; broken_cp; parent_cp].

Definition starting_manager : DeviceManager :=
  set_devmgr_info (Some 0%nat)
    (set_profiles (<[0%nat := devmgr_profile]> ∅)
       (set_adminState DEVMGR_UNREGISTERED registered_manager)).

(** The manager when it deploys the placements: its implementation is
    selected, and it has registered with the Domain Manager. *)
Definition deploying_manager : DeviceManager :=
  set_adminState DEVMGR_REGISTERED (final (setupImplementationForHost starting_manager)).

(** The parent device registers while the manager waits for its IOR. *)
Definition parent_dev : DeviceObj :=
  mkDeviceObj "IOR:parent" "parent_1" "parent_1" "/devices/parent/parent.spd.xml"
    None None None.

Definition registering : Env :=
  mkEnv None None (λ _, None) (λ _, []) (λ _, [])
    (λ instanceID, if bool_decide (instanceID = "parent_1") then Some parent_dev else None)
    None.
(** * Further operations and vocabulary *)

(** ** The registry, as the operations keep it *)

(** A registered device node holds the reference it was registered with
    and its stringified IOR. *)
Definition device_node_ok (n : DeviceNode) : Prop :=
  ∃ o, device n = Some o ∧ IOR n = obj_ior o.

(** No device is registered twice, no service name is registered twice,
    and only children with a process wait in the pending buckets. *)
Definition registry_invariant (s : DeviceManager) : Prop :=
  Forall device_node_ok (_registeredDevices s)
  ∧ NoDup (IOR <$> _registeredDevices s)
  ∧ NoDup (svc_label <$> _registeredServices s)
  ∧ Forall (λ n, pid n ≠ 0) (_pendingDevices s)
  ∧ Forall (λ n, svc_pid n ≠ 0) (_pendingServices s).

(** The node [increment_registeredDevices] makes for a device: with the
    identifier and pid of the first pending node that has the device's
    identifier, or with pid 0. *)
Definition registered_node (d : DeviceObj) (s : DeviceManager) : DeviceNode :=
  match take_first (λ n, bool_decide (identifier n = obj_identifier d)) (_pendingDevices s) with
  | Some (n, _) => mkDeviceNode (identifier n) (obj_label d) (obj_ior d) (Some d) (pid n)
  | None => mkDeviceNode (obj_identifier d) (obj_label d) (obj_ior d) (Some d) 0
  end.

(** The pending devices without the first one that has the device's
    identifier. *)
Definition pending_without (d : DeviceObj) (s : DeviceManager) : DeviceList :=
  match take_first (λ n, bool_decide (identifier n = obj_identifier d)) (_pendingDevices s) with
  | Some (_, rest) => rest
  | None => _pendingDevices s
  end.

(** The manager with a device registered: its label bound, its node at the
    end of the registered bucket. *)
Definition with_device (d : DeviceObj) (s : DeviceManager) : DeviceManager :=
  set_registeredDevices (_registeredDevices s ++ [registered_node d s])
    (set_pendingDevices (pending_without d s)
       (set_devMgrContext (<[obj_label d := obj_ior d]> (devMgrContext s)) s)).

(** From [s] to [s'] the registry is kept, no child is added to a
    registered bucket, and the pending children of [s'] were children in
    [s]: so it is when children unregister, are reaped or are released. *)
Definition winds_down (s s' : DeviceManager) : Prop :=
  (registry_invariant s → registry_invariant s')
  ∧ (∀ n, n ∈ _registeredDevices s' → n ∈ _registeredDevices s)
  ∧ (∀ n, n ∈ _pendingDevices s' → n ∈ _pendingDevices s ∨ n ∈ _registeredDevices s)
  ∧ (∀ n, n ∈ _registeredServices s' → n ∈ _registeredServices s)
  ∧ (∀ n, n ∈ _pendingServices s' → n ∈ _pendingServices s ∨ n ∈ _registeredServices s).

(** [kill(pid, signal)]. *)
Definition is_kill (e : Event) : bool :=
  match e with EvKill _ _ => true | _ => false end.

Definition not_kill (e : Event) : Prop := is_kill e = false.

(** A call on the naming service or on the Domain Manager. *)
Definition is_directory_call (e : Event) : bool :=
  match e with
  | EvNaming _ _ _ | EvDomMgr _ _ => true
  | _ => false
  end.

(** ** Implementation identifiers *)

(** [getComponentImplementationId]: the implementation identifier recorded
    for an instantiation, the empty string when there is none. *)
Definition getComponentImplementationId (componentInstantiationId : string) : M string :=
  s ← get;
  match _componentImplMap s !! componentInstantiationId with
  | Some impl_id => mret impl_id
  | None => mret ""
  end.

(** What is recorded in [s] is recorded in [s'] (perhaps with another
    implementation). *)
Definition records (s s' : DeviceManager) : Prop :=
  ∀ i, is_Some (_componentImplMap s !! i) → is_Some (_componentImplMap s' !! i).

(** Started in [s], the computation forgets no record, and leaves a record
    for every instantiation it launches. *)
Definition accounted {A} (m : M A) (s : DeviceManager) : Prop :=
  records s (final (m s))
  ∧ ∀ i, i ∈ launched (calls (m s)) → is_Some (_componentImplMap (final (m s)) !! i).

(** ** Shutdown *)

Definition allChildrenExited : M bool :=
  s ← get;
  mret (bool_decide (length (_pendingDevices s) = 0%nat)
        && bool_decide (length (_registeredDevices s) = 0%nat)
        && bool_decide (length (_pendingServices s) = 0%nat)
        && bool_decide (length (_registeredServices s) = 0%nat)).

(** "Removes any services that were registered from an external source":
    the first registered service without a pid is unregistered; its node
    stays where it is. *)
Definition clean_externalServices (env : Env) : M unit :=
  s ← get;
  match List.find (λ n, bool_decide (svc_pid n = 0)) (_registeredServices s) with
  | Some serviceNode =>
      local_unregisterService env (service serviceNode) (svc_label serviceNode)
  | None => mret tt
  end.

(** The two pairs of loops of [clean_registeredServices] that send a
    signal: to every pending service, then to every registered service
    that was launched by this manager. *)
Definition kill_services (signal : Signal) : M unit :=
  s ← get;
  kill_all (svc_pid <$> _pendingServices s) signal;;
  kill_all (filter (λ p, p ≠ 0) (svc_pid <$> _registeredServices s)) signal.

(** One turn of the [while] loop of [clean_registeredServices], which runs
    with the mutex released: what [kill(pid, 0)] answers for a process,
    and the children that are reaped while the thread sleeps at the end of
    the turn. *)
Record Poll : Type := mkPoll {
  process_exists : Z → bool;                     (* kill(pid, 0) != -1 *)
  poll_reaps : list (Z * bool) }.

(** The turns of the loop: the first, which is made whenever there is a
    pid, and those made until half a second has passed. *)
Record ServicePolls : Type := mkServicePolls {
  first_poll : Poll;
  later_polls : list Poll }.

(** [kill(0, 0)] asks about the process group of the manager itself, which
    exists. *)
Definition probe_answers (poll : Poll) (p : Z) : bool :=
  bool_decide (p = 0) || process_exists poll p.

(** The [for] loop over [pids]: [kill(pid, 0)] up to the first process
    that exists; the value of [registered_pending_pid_gone] after it. *)
Fixpoint probe_pids (poll : Poll) (pids : list Z) : M bool :=
  match pids with
  | [] => mret true
  | p :: pids' =>
      emit (EvProbe p);;
      if probe_answers poll p then mret false else probe_pids poll pids'
  end.

Fixpoint poll_services (env : Env) (pids : list Z) (polls : list Poll) : M unit :=
  match polls with
  | [] => mret tt                                (* time_diff has reached 0.5 *)
  | poll :: polls' =>
      registered_pending_pid_gone ← probe_pids poll pids;
      if (registered_pending_pid_gone : bool) then mret tt
      else
        for_each (poll_reaps poll) (λ '(p, signaled), childExited env p signaled);;
        poll_services env pids polls'
  end.

(** [pids] holds the pid of every registered and of every pending service,
    of those without a process too. *)
Definition clean_registeredServices (env : Env) (polls : ServicePolls) : M unit :=
  s ← get;
  let pids := (svc_pid <$> _registeredServices s) ++ (svc_pid <$> _pendingServices s) in
  (* Try an orderly shutdown *)
  kill_services SIGTERM;;
  (* Release the lock and allow time for the devices to exit *)
  (if bool_decide (length pids ≠ 0%nat)
   then poll_services env pids (first_poll polls :: later_polls polls)
   else mret tt);;
  (* Send a SIGKILL to any remaining services *)
  kill_services SIGKILL.

(** The parties [shutdown] calls inside [try { } catch (...) { }] blocks
    and that the manager's state does not depend on: what the Domain
    Manager raises when the manager unregisters itself, what the event
    channel manager raises, and what the POA raises when the file system
    servant is deactivated. *)
Record ShutdownPeers : Type := mkShutdownPeers {
  unregisterDeviceManager_fault : option exn;
  eventChannel_fault : option exn;
  deleteFileSystems_fault : option exn }.

(** [shutdown()].  [_label] is the manager's own name, [polls] the turns
    of the loop that gives the services time to exit.  The calls
    on the three peers are not recorded in the trace; [rootContext] is
    set, as in the operations on services. *)
Definition shutdown (env : Env) (peers : ShutdownPeers) (_label : string)
    (polls : ServicePolls) : M unit :=
  modify (set_internalShutdown true);;
  s ← get;
  if bool_decide (_adminState s = DEVMGR_SHUTTING_DOWN)
     || bool_decide (_adminState s = DEVMGR_SHUTDOWN)
  then mret tt
  else
    modify (set_adminState DEVMGR_SHUTTING_DOWN);;
    (* unregister the DeviceManager from the DomainManager *)
    try_catch (remote (unregisterDeviceManager_fault peers)) (λ _, mret tt);;
    (* release any event channels that we registered against *)
    try_catch (remote (eventChannel_fault peers)) (λ _, mret tt);;
    clean_registeredServices env polls;;
    clean_externalServices env;;
    clean_registeredDevices env;;
    (* Unbinding device manager context *)
    try_catch (ns_unbind env RootCtx _label) (λ _, mret tt);;
    try_catch (remote (deleteFileSystems_fault peers)) (λ _, mret tt);;
    modify (set_adminState DEVMGR_SHUTDOWN).

Definition abort (env : Env) (peers : ShutdownPeers) (_label : string)
    (polls : ServicePolls) : M unit :=
  killPendingDevices env SIGKILL 0;;
  shutdown env peers _label polls.

(** The admin state and the shutdown flag are as they were. *)
Definition same_admin (s s' : DeviceManager) : Prop :=
  _adminState s' = _adminState s ∧ _internalShutdown s' = _internalShutdown s.

(** Not a call on the Domain Manager. *)
Definition not_DomMgr_call (e : Event) : Prop := is_DomMgr_call e = false.

(** [kill(0, signal)] signals the process group of the manager itself. *)
Definition is_group_kill (e : Event) : bool :=
  match e with EvKill p _ => bool_decide (p = 0) | _ => false end.

Definition targeted (e : Event) : Prop := is_group_kill e = false.

(** [kill(pid, 0)]. *)
Definition is_probe (e : Event) : bool :=
  match e with EvProbe _ => true | _ => false end.

Definition not_probe (e : Event) : Prop := is_probe e = false.

(** The processes asked about in a trace, in order. *)
Definition probed (t : list Event) : list Z :=
  omap (λ e, match e with EvProbe p => Some p | _ => None end) t.

(** The signals [kill_services] sends from a state. *)
Definition service_kills (signal : Signal) (s : DeviceManager) : list Event :=
  ((λ n, EvKill (svc_pid n) signal) <$> _pendingServices s)
  ++ ((λ n, EvKill (svc_pid n) signal) <$> filter (λ n, svc_pid n ≠ 0) (_registeredServices s)).

(** * Service_impl: comparison of [CORBA::Any] values *)

Module Service_impl.

Inductive AnyComparisonType : Set :=
| FIRST_BIGGER | SECOND_BIGGER | BOTH_EQUAL | POSITIVE | NEGATIVE | ZERO | UNKNOWN.

(** The kinds of type code the comparisons tell apart. *)
Inductive TCKind : Set := tk_ulong | tk_long | tk_short | tk_other.

#[global] Instance TCKind_eq_dec : EqDecision TCKind.
Proof. solve_decision. Defined.

(** A [CORBA::Any]: a value with its type code. *)
Inductive Any : Set :=
| any_ulong (v : Z)        (* CORBA::ULong *)
| any_long (v : Z)         (* CORBA::Long *)
| any_short (v : Z)        (* CORBA::Short *)
| any_other.               (* a value of any other type *)

Definition kind (a : Any) : TCKind :=
  match a with
  | any_ulong _ => tk_ulong
  | any_long _ => tk_long
  | any_short _ => tk_short
  | any_other => tk_other
  end.

(** The values a variable of the type of that kind can hold. *)
Definition fits (k : TCKind) (v : Z) : Prop :=
  match k with
  | tk_ulong => 0 ≤ v < 2 ^ 32
  | tk_long => - 2 ^ 31 ≤ v < 2 ^ 31
  | tk_short => - 2 ^ 15 ≤ v < 2 ^ 15
  | tk_other => True
  end.

(** The number an Any holds, if it holds one. *)
Definition number (a : Any) : Z :=
  match a with
  | any_ulong v | any_long v | any_short v => v
  | any_other => 0
  end.

Definition well_typed (a : Any) : Prop := fits (kind a) (number a).

(** [any >>= x] for a variable [x] of the type of kind [k]: the variable
    is assigned when the Any holds a value of that type, and is left as it
    is otherwise. *)
Definition extract (k : TCKind) (a : Any) (x : Z) : Z :=
  match k, a with
  | tk_ulong, any_ulong v => v
  | tk_long, any_long v => v
  | tk_short, any_short v => v
  | _, _ => x
  end.

(** [compareAnys].  The local variables [frst] and [scnd] are declared
    without an initial value: [frst0] and [scnd0] are what they hold
    before the extractions. *)
Definition compareAnys (frst0 scnd0 : Z) (first second : Any) : AnyComparisonType :=
  match kind first with
  | tk_ulong =>
      let frst := extract tk_ulong first frst0 in
      let scnd := extract tk_ulong second scnd0 in
      if bool_decide (frst > scnd) then FIRST_BIGGER
      else if bool_decide (frst = scnd) then BOTH_EQUAL
      else SECOND_BIGGER
  | tk_long =>
      let frst := extract tk_long first frst0 in
      let scnd := extract tk_long second scnd0 in
      if bool_decide (frst > scnd) then FIRST_BIGGER
      else if bool_decide (frst = scnd) then BOTH_EQUAL
      else SECOND_BIGGER
  | tk_short =>
      let frst := extract tk_short first frst0 in
      let scnd := extract tk_short second scnd0 in
      if bool_decide (frst > scnd) then FIRST_BIGGER
      else if bool_decide (frst = scnd) then BOTH_EQUAL
      else SECOND_BIGGER
  | tk_other => UNKNOWN
  end.

(** [compareAnyToZero]. *)
Definition compareAnyToZero (frst0 : Z) (first : Any) : AnyComparisonType :=
  match kind first with
  | tk_ulong =>
      let frst := extract tk_ulong first frst0 in
      if bool_decide (frst > 0) then POSITIVE
      else if bool_decide (frst = 0) then ZERO
      else NEGATIVE
  | tk_long =>
      let frst := extract tk_long first frst0 in
      if bool_decide (frst > 0) then POSITIVE
      else if bool_decide (frst = 0) then ZERO
      else NEGATIVE
  | tk_short =>
      let frst := extract tk_short first frst0 in
      if bool_decide (frst > 0) then POSITIVE
      else if bool_decide (frst = 0) then ZERO
      else NEGATIVE
  | tk_other => UNKNOWN
  end.

End Service_impl.

(** * Start-up: reaching the naming service and the Domain Manager *)

(** The retry loops of the start-up run before any child exists; they
    only read the shutdown flag, which a signal handler sets from outside.
    Their runs are given by what each turn of the loop meets: the answer
    of the party called, and the value of [*_internalShutdown] at the
    point where that turn reads it. *)
Record Attempt (A : Type) : Type := mkAttempt {
  answer : A;
  interrupted : bool }.
Arguments mkAttempt {A} _ _.
Arguments answer {A} _.
Arguments interrupted {A} _.

(** What [registerDeviceManager] raises: one of the two system exceptions
    the loop retries on, or an exception of another class. *)
Inductive RegisterFault : Set :=
| TRANSIENT                 (* CORBA::TRANSIENT *)
| OBJECT_NOT_EXIST          (* CORBA::OBJECT_NOT_EXIST *)
| OtherFault (e : exn).     (* anything else, by its class *)

Inductive Severity : Set := SevInfo | SevWarn | SevError | SevFatal.

Inductive StartupEvent : Set :=
| SuRegisterDeviceManager   (* _dmnMgr->registerDeviceManager(my_object_var) *)
| SuResolve                 (* InitialNamingContext()->resolve(base_context), _narrow *)
| SuObjectFromName          (* ossie::corba::objectFromName(domainManagerName) *)
| SuNarrow                  (* CF::DomainManager::_narrow(obj) *)
| SuSleep (usec : Z)        (* usleep *)
| SuRetryWarning (f : RegisterFault) (cnt : Z)
                            (* LOG_WARN "DomainManager not available, ...: retry cnt" << cnt *)
| SuLog (sev : Severity) (msg : string).

#[global] Instance RegisterFault_eq_dec : EqDecision RegisterFault.
Proof. solve_decision. Defined.
#[global] Instance Severity_eq_dec : EqDecision Severity.
Proof. solve_decision. Defined.
#[global] Instance StartupEvent_eq_dec : EqDecision StartupEvent.
Proof. solve_decision. Defined.

(** How a start-up function ends, and what it did. *)
Definition Run (A : Type) : Type := Res A * list StartupEvent.

(** After the events [t]. *)
Definition after {A} (t : list StartupEvent) (r : Run A) : Run A := (r.1, t ++ r.2).

(** [if ( !(++cnt % 10) ) { LOG_WARN(...) }]: [cnt] has been incremented. *)
Definition retry_warning (f : RegisterFault) (cnt : Z) : list StartupEvent :=
  if bool_decide (Z.rem cnt 10 = 0) then [SuRetryWarning f cnt] else [].

(** The loop of [registerDeviceManagerWithDomainManager]; [cnt] is a
    64-bit counter, far from its bound in any run that ends.  When the
    attempts are used up the loop is still turning. *)
Fixpoint register_loop (attempts : list (Attempt (option RegisterFault))) (cnt : Z)
    : Run unit :=
  match attempts with
  | [] => (Diverge, [])
  | a :: attempts' =>
      if interrupted a then (Throw RuntimeError, [])
      else
        let cnt := cnt + 1 in
        after [SuRegisterDeviceManager]
          match answer a with
          | None => (Ok tt, [])
          | Some TRANSIENT =>
              (* The DomainManager isn't currently reachable *)
              let cnt := cnt + 1 in
              after (retry_warning TRANSIENT cnt ++ [SuSleep 100000])
                (register_loop attempts' cnt)
          | Some OBJECT_NOT_EXIST =>
              (* the DomainManager is still being constructed *)
              let cnt := cnt + 1 in
              after (retry_warning OBJECT_NOT_EXIST cnt ++ [SuSleep 100000])
                (register_loop attempts' cnt)
          | Some (OtherFault e) =>
              if bool_decide (e = RegisterError) then
                (Throw RuntimeError,
                 [SuLog SevError "Failed to register with domain manager"])
              else if bool_decide (e = InvalidObjectReference) then
                (Throw RuntimeError, [SuLog SevFatal "While registering DevMgr with DomMgr"])
              else if is_std_exception e then
                (Throw RuntimeError,
                 [SuLog SevFatal "standard exception while registering the Device Manager with the Domain Manager"])
              else if is_CORBA_Exception e then
                (Throw RuntimeError,
                 [SuLog SevFatal "CORBA exception while registering the Device Manager with the Domain Manager"])
              else
                (Throw RuntimeError,
                 [SuLog SevFatal "While registering DevMgr with DomMgr: Unknown Exception"])
          end
  end.

Definition registerDeviceManagerWithDomainManager
    (attempts : list (Attempt (option RegisterFault))) : Run unit :=
  register_loop attempts 0.

(** The loop of [resolveNamingContext]: an attempt fails with whatever
    [resolve] or [_narrow] raises. *)
Fixpoint resolve_loop (attempts : list (Attempt (option exn))) (warnedMissing : bool)
    : Run unit :=
  match attempts with
  | [] => (Diverge, [])
  | a :: attempts' =>
      after [SuResolve]
        match answer a with
        | None => (Ok tt, [])
        | Some _ =>
            after ((if warnedMissing then []
                    else [SuLog SevWarn "Unable to find naming context; retrying"])
                   ++ [SuSleep 10000])
              (* If a shutdown occurs while waiting, turn it into an exception *)
              (if interrupted a then (Throw RuntimeError, [])
               else resolve_loop attempts' true)
        end
  end.

Definition resolveNamingContext (attempts : list (Attempt (option exn))) : Run unit :=
  resolve_loop attempts false.

(** The [do { } while (CORBA::is_nil(obj))] loop of
    [getDomainManagerReference].  [objectFromName] raises ([inl]) or
    returns a reference ([inr], [true] when it is nil). *)
Fixpoint lookup_loop (attempts : list (Attempt (exn + bool))) (warned : bool) : Run unit :=
  match attempts with
  | [] => (Diverge, [])
  | a :: attempts' =>
      after [SuObjectFromName]
        match answer a with
        | inl e =>
            if bool_decide (e = NotFound) then
              after ((if warned then []
                      else [SuLog SevWarn "DomainManager not registered with NameService; retrying"])
                     ++ [SuSleep 10000])
                (if interrupted a then (Throw RuntimeError, [])
                 else lookup_loop attempts' true)
            else
              (Throw e,
               [SuLog SevError
                  (if bool_decide (e = CorbaSystemException)
                   then "get_object_from_name failed with CORBA::SystemException"
                   else if is_std_exception e
                   then "standard exception while attempting get_object_from_name"
                   else if is_CORBA_Exception e
                   then "CORBA exception while attempting get_object_from_name"
                   else "get_object_from_name failed with Unknown Exception")])
        | inr obj_is_nil =>
            after [SuSleep 10000]
              (if interrupted a then (Throw RuntimeError, [])
               else if (obj_is_nil : bool) then lookup_loop attempts' warned
               else (Ok tt, []))
        end
  end.

(** [getDomainManagerReference]: the loop, then [_narrow], which raises or
    returns a reference, nil when the object is no Domain Manager.  The
    result says whether [_dmnMgr] has been set to a reference that is not
    nil. *)
Definition getDomainManagerReference (attempts : list (Attempt (exn + bool)))
    (narrow : exn + bool) : Run bool :=
  match lookup_loop attempts false with
  | (Ok _, t) =>
      after (t ++ [SuNarrow])
        match narrow with
        | inl e =>
            (Throw e,
             [SuLog SevError
                (if is_std_exception e
                 then "standard exception while attempting to narrow on the Domain Manager"
                 else if is_CORBA_Exception e
                 then "CORBA exception while attempting to narrow on the Domain Manager"
                 else "CF:DomainManager::_narrow failed with Unknown Exception")])
        | inr dmnMgr_is_nil => (Ok (negb dmnMgr_is_nil), [])
        end
  | (Throw e, t) => (Throw e, t)
  | (NullDeref, t) => (NullDeref, t)
  | (Diverge, t) => (Diverge, t)
  | (Terminated, t) => (Terminated, t)
  end.

(** [getDomainManagerReferenceAndCheckExceptions]; [_dmnMgr] is nil when
    it is called. *)
Definition getDomainManagerReferenceAndCheckExceptions
    (attempts : list (Attempt (exn + bool))) (narrow : exn + bool) : Run unit :=
  after [SuLog SevInfo "Connecting to Domain Manager"]
    match getDomainManagerReference attempts narrow with
    | (Ok dmnMgr_set, t) =>
        if (dmnMgr_set : bool) then (Ok tt, t)
        else (Throw RuntimeError, t ++ [SuLog SevFatal "Failure getting Domain Manager"])
    | (Throw e, t) =>
        (Throw RuntimeError,
         t ++ [SuLog SevFatal
                 (if is_std_exception e
                  then "standard exception while attempting to reach the Domain Manager"
                  else if is_CORBA_Exception e
                  then "CORBA exception while attempting to reach the Domain Manager"
                  else "Unable to get a reference to the DomainManager")])
    | (NullDeref, t) => (NullDeref, t)
    | (Diverge, t) => (Diverge, t)
    | (Terminated, t) => (Terminated, t)
    end.

(** The registration attempts that make the loop go round: the flag is
    not set and the Domain Manager is not there yet. *)
Definition retried (a : Attempt (option RegisterFault)) : bool :=
  negb (interrupted a)
  && bool_decide (answer a = Some TRANSIENT ∨ answer a = Some OBJECT_NOT_EXIST).

(** What the loop does on the [i]th failed attempt in a row (from 1): the
    call, a warning on every fifth, and a tenth of a second of sleep. *)
Definition retry_events (i : Z) (a : Attempt (option RegisterFault)) : list StartupEvent :=
  SuRegisterDeviceManager
  :: match answer a with
     | Some f => if bool_decide (Z.rem i 5 = 0) then [SuRetryWarning f (2 * i)] else []
     | None => []
     end
  ++ [SuSleep 100000].

Fixpoint retries_from (i : Z) (l : list (Attempt (option RegisterFault))) : list StartupEvent :=
  match l with
  | [] => []
  | a :: l' => retry_events i a ++ retries_from (i + 1) l'
  end.

Definition is_retry_warning (e : StartupEvent) : bool :=
  match e with SuRetryWarning _ _ => true | _ => false end.

Definition is_warning (e : StartupEvent) : bool :=
  match e with SuLog SevWarn _ => true | _ => false end.

(** The attempts that make [resolveNamingContext] go round: the call
    fails and the flag is not set. *)
Definition resolve_retried (a : Attempt (option exn)) : bool :=
  bool_decide (answer a ≠ None) && negb (interrupted a).

(** The attempts that make [getDomainManagerReference] go round: the name
    is not bound, or bound to a nil reference, and the flag is not set. *)
Definition lookup_retried (a : Attempt (exn + bool)) : bool :=
  bool_decide (answer a = inl NotFound ∨ answer a = inr true) && negb (interrupted a).

(** * The cache directory: [makeDirectory] and [checkWriteAccess] *)

(** The values of [errno] the two functions tell apart. *)
Inductive Errno : Set :=
| ENOENT | EEXIST | EACCES | ENOTDIR | ELOOP | EMLINK | ENAMETOOLONG | EROFS
| EMFILE | ENFILE | ENOMEM
| OtherErrno.               (* any other error number *)

#[global] Instance Errno_eq_dec : EqDecision Errno.
Proof. solve_decision. Defined.

(** Paths are [std::string]s that are scanned by position. *)
Definition Path : Set := list ascii.

Inductive FsEvent : Set :=
| FsMkdir (dir : Path)                      (* mkdir(dir, 0775) *)
| FsOpendir (path : Path)                   (* opendir(path) *)
| FsAccess (full_name : Path)               (* access(full_name, W_OK) *)
| FsLog (lvl : LogLevel) (msg : string) (path : Path).

#[global] Instance FsEvent_eq_dec : EqDecision FsEvent.
Proof. solve_decision. Defined.

(** What [opendir] and [readdir] find at a path: the directory cannot be
    opened, or it lists entries, each with its name, whether
    [access(full_name, W_OK)] succeeds, and, for an entry of type
    [DT_DIR], what is found there in turn. *)
#[warnings="-register-all"] Inductive DirTree : Type :=
| CannotOpen (errno : Errno)
| Listing (entries : list (Path * bool * option DirTree)).

Definition slash : ascii := "/"%char.

Definition dot : Path := ["."%char].
Definition dotdot : Path := ["."%char; "."%char].

Definition opendir_warning (errno : Errno) : string :=
  match errno with
  | ENOENT => "Failed to create directory"
  | EACCES => "Failed to create directory. Please check your write permissions."
  | ENOTDIR =>
      "Failed to create directory. One of the components of the path is not a directory."
  | EMFILE => "Failed to create directory. Too many file descriptors open by the process."
  | ENFILE => "Failed to create directory. Too many file descriptors open by the system."
  | ENOMEM => "Failed to create directory. Insufficient memory to complete the operation."
  | _ => "Attempt to create directory failed with an error number"
  end.

(** The [while ((ep = readdir(dp)) != NULL)] loop of [checkWriteAccess]
    over the entries of [path]; [check] is the call of [checkWriteAccess]
    on an entry that is a directory. *)
Fixpoint readdir_loop (check : DirTree → Path → bool * list FsEvent) (path : Path)
    (entries : list (Path * bool * option DirTree)) : bool * list FsEvent :=
  match entries with
  | [] => (true, [])
  | (name, w_ok, subdir) :: entries' =>
      if bool_decide (name = dot) || bool_decide (name = dotdot)
      then readdir_loop check path entries'
      else
        let full_name := path ++ [slash] ++ name in
        if negb w_ok then
          (false,
           [FsAccess full_name;
            FsLog LvlWarn
              "The file cannot be overwritten by the Device Manager process (or one of its children)."
              full_name])
        else
          match subdir with
          | Some found' =>
              let retval := check found' full_name in
              if retval.1 then
                let rest := readdir_loop check path entries' in
                (rest.1, FsAccess full_name :: retval.2 ++ rest.2)
              else (false, FsAccess full_name :: retval.2)
          | None =>
              let rest := readdir_loop check path entries' in
              (rest.1, FsAccess full_name :: rest.2)
          end
  end.

(** [checkWriteAccess(path)], on what is found at [path]. *)
Fixpoint checkWriteAccess (found : DirTree) (path : Path) : bool * list FsEvent :=
  match found with
  | CannotOpen errno =>
      (false, [FsOpendir path; FsLog LvlWarn (opendir_warning errno) path])
  | Listing entries =>
      let r := readdir_loop checkWriteAccess path entries in
      (r.1, FsOpendir path :: r.2)
  end.

(** [s.find_first_of(c, pos)]: [None] is [npos]. *)
Definition find_first_of (s : Path) (c : ascii) (pos : nat) : option nat :=
  (λ found, pos + found.1)%nat <$> list_find (λ x, x = c) (drop pos s).

(** [s.substr(pos, n)]. *)
Definition substr (s : Path) (pos n : nat) : Path := take n (drop pos s).

Definition mkdir_warning (errno : Errno) : string :=
  match errno with
  | ENOENT => "Failed to create directory. Non-existent root directory."
  | EACCES => "Failed to create directory. Please check your write permissions."
  | ENOTDIR =>
      "Failed to create directory. One of the components of the path is not a directory."
  | ELOOP => "Failed to create directory. A loop exists in the symbolic links in the path."
  | EMLINK =>
      "Failed to create directory. The link count of the parent directory exceeds LINK_MAX."
  | ENAMETOOLONG => "Failed to create directory. The path name is too long."
  | EROFS => "Failed to create directory. This is a read-only file system."
  | _ => "Attempt to create directory failed with an error number"
  end.

(** The [while (!done)] loop of [makeDirectory]: [mkdir] says what the
    system call answers for a directory, [None] for success.  [fuel]
    bounds the turns. *)
Fixpoint create_loop (mkdir : Path → option Errno) (fuel : nat) (workingFileName : Path)
    (begin_pos : nat) (initialDir : Path) (success : bool) : option (bool * list FsEvent) :=
  match fuel with
  | O => None
  | S fuel' =>
      match find_first_of workingFileName slash begin_pos with
      | Some pos =>
          if bool_decide (pos = begin_pos) then
            (* first slash - don't do anything *)
            create_loop mkdir fuel' workingFileName (begin_pos + 1) initialDir success
          else
            let initialDir :=
              initialDir ++ (substr workingFileName begin_pos (pos - begin_pos) ++ [slash]) in
            let '(success, logged) :=
              match mkdir initialDir with
              | Some errno =>
                  if bool_decide (errno = EEXIST) then (success, [])
                  else (false, [FsLog LvlWarn (mkdir_warning errno) initialDir])
              | None => (success, [])
              end in
            (λ r : bool * list FsEvent, (r.1, FsMkdir initialDir :: logged ++ r.2))
              <$> create_loop mkdir fuel' workingFileName (pos + 1) initialDir success
      | None => Some (success, [])
      end
  end.

(** [makeDirectory(path)]; [found] is what [checkWriteAccess] finds at
    [path] after the loop.  On the empty path the read of
    [path[path.length()-1]] is out of range. *)
Definition makeDirectory (mkdir : Path → option Errno) (found : DirTree) (path : Path)
    : Res bool * list FsEvent :=
  let initialDir := if bool_decide (head path = Some slash) then [slash] else [] in
  match last path with
  | None => (NullDeref, [])
  | Some last_char =>
      let workingFileName :=
        if bool_decide (last_char = slash) then path else path ++ [slash] in
      let created :=
        if bool_decide (slash ∈ workingFileName)      (* last_slash != npos *)
        then create_loop mkdir (S (length workingFileName)) workingFileName 0 initialDir true
        else Some (true, []) in
      match created with
      | None => (Diverge, [])
      | Some (success, t) =>
          let retval := checkWriteAccess found path in
          if negb retval.1 then
            (Ok false,
             t ++ retval.2
               ++ [FsLog LvlError
                     "The Device Manager (or one of its children) does not have write permission to one or more files in the cache."
                     path])
          else (Ok success, t ++ retval.2)
      end
  end.

(** The directories on the way to the end of a path: for every slash
    that ends a name, what precedes it; slashes that end no name count for
    nothing.  [dir] is the directory reached, [name] the characters read
    since the last slash. *)
Fixpoint ancestors_from (dir name : Path) (u : Path) : list Path :=
  match u with
  | [] => []
  | c :: u' =>
      if bool_decide (c = slash) then
        match name with
        | [] => ancestors_from dir [] u'
        | _ => let dir' := dir ++ (name ++ [slash]) in dir' :: ancestors_from dir' [] u'
        end
      else ancestors_from dir (name ++ [c]) u'
  end.

Definition ancestors (path : Path) : list Path :=
  ancestors_from (if bool_decide (head path = Some slash) then [slash] else []) []
    (path ++ [slash]).

(** [mkdir] succeeds or finds the directory there. *)
Definition made (mkdir : Path → option Errno) (dir : Path) : bool :=
  bool_decide (mkdir dir = None ∨ mkdir dir = Some EEXIST).

Definition mkdirs (t : list FsEvent) : list Path :=
  omap (λ e, match e with FsMkdir d => Some d | _ => None end) t.

Definition accesses (t : list FsEvent) : list Path :=
  omap (λ e, match e with FsAccess f => Some f | _ => None end) t.

(** The entries [checkWriteAccess] would go through if none stopped it:
    all but [.] and [..], at any depth, with their full names. *)
Fixpoint entries_among (below : DirTree → Path → list (Path * bool * option DirTree))
    (path : Path) (entries : list (Path * bool * option DirTree))
    : list (Path * bool * option DirTree) :=
  match entries with
  | [] => []
  | (name, w_ok, subdir) :: entries' =>
      if bool_decide (name = dot) || bool_decide (name = dotdot)
      then entries_among below path entries'
      else
        let full_name := path ++ [slash] ++ name in
        (full_name, w_ok, subdir)
        :: match subdir with
           | Some found' => below found' full_name
           | None => []
           end
        ++ entries_among below path entries'
  end.

Fixpoint entries_below (found : DirTree) (path : Path) : list (Path * bool * option DirTree) :=
  match found with
  | CannotOpen _ => []
  | Listing entries => entries_among entries_below path entries
  end.

Definition opens (found : DirTree) : bool :=
  match found with CannotOpen _ => false | Listing _ => true end.

(** An entry that does not stop [checkWriteAccess]. *)
Definition passes (e : Path * bool * option DirTree) : bool :=
  e.1.2 && match e.2 with Some found' => opens found' | None => true end.

(** * Further instances *)

(** A manager in whose context the label of [dev1] is taken. *)
Definition taken_manager : DeviceManager :=
  set_devMgrContext (<["dev1" := "IOR:other"]> ∅) launching_manager.

(** The parent device of the sample node has registered. *)
Definition parent_registered : DeviceManager :=
  set_registeredDevices [mkDeviceNode "parent_1" "parent_1" "IOR:parent" (Some parent_dev) 0]
    deploying_manager.

(** A profile whose implementation has been selected, and one of a
    component type that is not launched. *)
Definition ready_profile : ProgramProfile :=
  mkProgramProfile "DCE:parent_spd" "parent" "/devices/parent" "executabledevice"
    [host_impl "cpp" "parent" EXECUTABLE] (Some (host_impl "cpp" "parent" EXECUTABLE))
    "" "" false [] [].

Definition resource_profile : ProgramProfile :=
  mkProgramProfile "DCE:parent_spd" "parent" "/devices/parent" "resource"
    [host_impl "cpp" "parent" EXECUTABLE] (Some (host_impl "cpp" "parent" EXECUTABLE))
    "" "" false [] [].

Definition ready_manager : DeviceManager :=
  set_profiles (<[1%nat := ready_profile]> (<[2%nat := resource_profile]> ∅)) deploying_manager.

(** An implementation that depends on a package nobody implements. *)
Definition orphan_impl : ImplementationInfo :=
  mkImplementationInfo "cpp" "x86_64" "Linux" "orphan" EXECUTABLE ""
    [mkSoftpkgInfo "missing" []].

(** Peers that answer at shutdown. *)
Definition quiet_peers : ShutdownPeers := mkShutdownPeers None None None.

(** The services at shutdown: no process is left when the manager first
    asks; or the process 77 is still there, is reaped while the manager
    sleeps, and is gone at the second turn. *)
Definition gone_at_once : ServicePolls := mkServicePolls (mkPoll (λ _, false) []) [].

Definition gone_after_a_turn : ServicePolls :=
  mkServicePolls (mkPoll (λ p, bool_decide (p = 77)) [(77, false)]) [mkPoll (λ _, false) []].

(** Five attempts to register while the Domain Manager is coming up, then
    one that succeeds. *)
Definition coming_up : list (Attempt (option RegisterFault)) :=
  [mkAttempt (Some TRANSIENT) false; mkAttempt (Some TRANSIENT) false;
   mkAttempt (Some OBJECT_NOT_EXIST) false; mkAttempt (Some OBJECT_NOT_EXIST) false;
   mkAttempt (Some TRANSIENT) false].

(** A cache directory with a file and a directory with a file of its
    own. *)
Definition cache_path : Path := String.list_ascii_of_string "/var//cache".

Definition cache_tree : DirTree :=
  Listing [(String.list_ascii_of_string ".", true, None);
           (String.list_ascii_of_string "..", false, None);
           (String.list_ascii_of_string "a.so", true, None);
           (String.list_ascii_of_string "dev", true,
            Some (Listing [(String.list_ascii_of_string "b.so", true, None)]))].

Definition mkdir_exists : Path → option Errno :=
  λ dir, if bool_decide (dir = String.list_ascii_of_string "/var/") then Some EEXIST else None.
(** * Properties *)

(** ** Reasoning about computations *)

(** The rules of [steps], for a reflexive and transitive [R]. *)
Section Steps.
Context (R : relation DeviceManager) `{!Reflexive R, !Transitive R} (P : Event → Prop).

Lemma steps_at_ret k {A} (a : A) s : steps_at R P k (mret a) s.
Proof. split_and!; [by destruct k | reflexivity | constructor]. Qed.

Lemma steps_at_get k s : steps_at R P k get s.
Proof. split_and!; [by destruct k | reflexivity | constructor]. Qed.

Lemma steps_at_throw {A} e s : steps_at R P NoFault (@throw A e) s.
Proof. split_and!; [done | reflexivity | constructor]. Qed.

Lemma steps_at_throw_any {A} e s : steps_at R P Any (@throw A e) s.
Proof. split_and!; [done | reflexivity | constructor]. Qed.

Lemma steps_at_null_deref {A} s : steps_at R P Any (@null_deref A) s.
Proof. split_and!; [done | reflexivity | constructor]. Qed.

Lemma steps_at_diverge {A} s : steps_at R P Any (@diverge A) s.
Proof. split_and!; [done | reflexivity | constructor]. Qed.

Lemma steps_at_emit k e s : P e → steps_at R P k (emit e) s.
Proof. intros He. split_and!; [by destruct k | reflexivity | by repeat constructor]. Qed.

Lemma steps_at_modify k f s : R s (f s) → steps_at R P k (modify f) s.
Proof. intros Hf. split_and!; [by destruct k | apply Hf | constructor]. Qed.

Lemma steps_at_weaken k k' {A} (m : M A) s :
  (k' = Any ∨ k = Total ∨ k = k') → steps_at R P k m s → steps_at R P k' m s.
Proof.
  intros Hk (H1 & H2 & H3). split_and!; [|done..].
  destruct Hk as [->|[->| ->]]; [done | | done].
  by destruct (result (m s)), k'.
Qed.

Lemma steps_at_remote o s : steps_at R P NoFault (remote o) s.
Proof.
  destruct o; [apply steps_at_throw | apply (steps_at_ret NoFault)].
Qed.

Lemma steps_at_remote_any o s : steps_at R P Any (remote o) s.
Proof. eapply steps_at_weaken; [by left | apply steps_at_remote]. Qed.

(** Sequencing: the continuation starts in a state related to [s]. *)
Lemma steps_at_bind k {A B} (m : M A) (f : A → M B) s :
  steps_at R P k m s → (∀ a s1, R s s1 → steps_at R P k (f a) s1) → steps_at R P k (m ≫= f) s.
Proof.
  intros Hm Hf.
  unfold steps_at, mbind, M_bind, result, final, calls in *.
  destruct (m s) as [[[a|e| | |] s1] t1]; simpl in *; try done.
  destruct Hm as (? & ? & ?).
  specialize (Hf a s1). destruct (f a s1) as [[r s2] t2]; simpl in *.
  destruct Hf as (? & ? & ?); [done|].
  split_and!; [done | etrans; eauto | by apply Forall_app].
Qed.

(** Sequencing after a primitive: the continuation starts in the very
    state the primitive leaves. *)
Lemma steps_at_get_bind k {B} (f : DeviceManager → M B) s :
  steps_at R P k (f s) s → steps_at R P k (get ≫= f) s.
Proof.
  intros Hf. unfold steps_at, mbind, M_bind, get, result, final, calls in *.
  simpl. by destruct (f s) as [[r s2] t2].
Qed.

Lemma steps_at_ret_bind k {A B} (a : A) (f : A → M B) s :
  steps_at R P k (f a) s → steps_at R P k (mret a ≫= f) s.
Proof.
  intros Hf. unfold steps_at, mbind, M_bind, mret, M_ret, result, final, calls in *.
  simpl. by destruct (f a s) as [[r s2] t2].
Qed.

Lemma steps_at_modify_bind k {B} g (f : unit → M B) s :
  R s (g s) → steps_at R P k (f tt) (g s) → steps_at R P k (modify g ≫= f) s.
Proof.
  intros Hg Hf. unfold steps_at, mbind, M_bind, modify, result, final, calls in *.
  simpl. destruct (f tt (g s)) as [[r s2] t2]. simpl in *.
  destruct Hf as (? & ? & ?). split_and!; [done | etrans; eauto | done].
Qed.

Lemma steps_at_emit_bind k {B} e (f : unit → M B) s :
  P e → steps_at R P k (f tt) s → steps_at R P k (emit e ≫= f) s.
Proof.
  intros He Hf. unfold steps_at, mbind, M_bind, emit, result, final, calls in *.
  simpl. destruct (f tt s) as [[r s2] t2]. simpl in *.
  destruct Hf as (? & ? & ?). split_and!; [done | done | by constructor].
Qed.

Lemma steps_at_try_catch k {A} (m : M A) (h : exn → M A) s :
  steps_at R P k m s → (∀ e s1, R s s1 → steps_at R P k (h e) s1) → steps_at R P k (try_catch m h) s.
Proof.
  intros Hm Hh. unfold steps_at, try_catch, result, final, calls in *.
  destruct (m s) as [[[a|e| | |] s1] t1]; simpl in *; try done.
  destruct Hm as (? & ? & ?).
  specialize (Hh e s1). destruct (h e s1) as [[r s2] t2]; simpl in *.
  destruct Hh as (? & ? & ?); [done|].
  split_and!; [done | etrans; eauto | by apply Forall_app].
Qed.

(** A handler that returns makes the guarded block return. *)
Lemma steps_at_try_catch_total {A} (m : M A) (h : exn → M A) s :
  steps_at R P NoFault m s → (∀ e s1, R s s1 → steps_at R P Total (h e) s1) →
  steps_at R P Total (try_catch m h) s.
Proof.
  intros Hm Hh. unfold steps_at, try_catch, result, final, calls in *.
  destruct (m s) as [[[a|e| | |] s1] t1]; simpl in *; try done; try tauto.
  destruct Hm as (? & ? & ?).
  specialize (Hh e s1). destruct (h e s1) as [[r s2] t2]; simpl in *.
  destruct Hh as (? & ? & ?); [done|].
  split_and!; [done | etrans; eauto | by apply Forall_app].
Qed.

Lemma steps_at_child_attr_bind k {B} d a v (f : string → M B) s :
  P (EvChildAttr (obj_ior d) a) → steps_at R P k (f v) s →
  steps_at R P k (child_attr d a v ≫= f) s.
Proof.
  intros He Hf.
  unfold steps_at, child_attr, mbind, M_bind, mret, M_ret, emit, result, final, calls in *.
  simpl. destruct (f v s) as [[r s2] t2]. simpl in *.
  destruct Hf as (? & ? & ?). split_and!; [done | done | by constructor].
Qed.

Lemma steps_for_each k {A} (l : list A) (body : A → M unit) :
  (∀ x, steps R P k (body x)) → steps R P k (for_each l body).
Proof.
  intros Hb. induction l as [|x l IH]; simpl; intros s; [apply steps_at_ret|].
  apply steps_at_bind; [apply Hb | intros _ s1 _; apply IH].
Qed.

Lemma steps_fold_each k {A S} (body : S → A → M S) (l : list A) (acc : S) :
  (∀ a x, steps R P k (body a x)) → steps R P k (fold_each body l acc).
Proof.
  intros Hb. revert acc. induction l as [|x l IH]; intros acc s; simpl; [apply steps_at_ret|].
  apply steps_at_bind; [apply Hb | intros ? s1 _; apply IH].
Qed.

(** What a computation that returns computes. *)
Lemma steps_total_run {A} (m : M A) s :
  steps_at R P Total m s → ∃ a s' t, m s = (Ok a, s', t) ∧ R s s' ∧ Forall P t.
Proof.
  intros (H1 & H2 & H3).
  unfold result, final, calls in *.
  destruct (m s) as [[[a|e| | |] s1] t1]; simpl in *; try done.
  by exists a, s1, t1.
Qed.
End Steps.

Lemma steps_at_impl (R R' : relation DeviceManager) (P P' : Event → Prop) k {A} (m : M A) s :
  (∀ s', R s s' → R' s s') → (∀ e, P e → P' e) → steps_at R P k m s → steps_at R' P' k m s.
Proof.
  intros HR HP (H0 & H1 & H2). split_and!; [done | by apply HR |].
  eapply Forall_impl; eauto.
Qed.

(** Applies the rules of [steps_at] along the structure of a computation.
    Calls of operations are left to the caller. *)
Ltac steps_step :=
  lazymatch goal with
  | |- Reflexive _ => apply _
  | |- Transitive _ => apply _
  | |- steps _ _ _ _ => intros ?
  | |- steps_at _ _ _ (match ?x with _ => _ end) _ => destruct x eqn:?
  | |- steps_at _ _ _ (match ?x with _ => _ end _) _ => destruct x eqn:?
  | |- steps_at _ _ _ (let '(_, _) := ?x in _) _ => destruct x eqn:?
  | |- steps_at _ _ _ (get ≫= _) _ => apply steps_at_get_bind; [..| cbv beta]
  | |- steps_at _ _ _ (mret _ ≫= _) _ => apply steps_at_ret_bind; [..| cbv beta]
  | |- steps_at _ _ _ (modify _ ≫= _) _ => apply steps_at_modify_bind; [..| | cbv beta]
  | |- steps_at _ _ _ (emit _ ≫= _) _ => apply steps_at_emit_bind; [..| | cbv beta]
  | |- steps_at _ _ _ (child_attr _ _ _ ≫= _) _ =>
      apply steps_at_child_attr_bind; [..| | cbv beta]
  | |- steps_at _ _ _ (_ ≫= _) _ => apply steps_at_bind; [..| | intros ? ? ?]
  | |- steps_at _ _ Total (try_catch _ _) _ =>
      apply steps_at_try_catch_total; [..| | intros ? ? ?]
  | |- steps_at _ _ _ (try_catch _ _) _ => apply steps_at_try_catch; [..| | intros ? ? ?]
  | |- steps_at _ _ _ (mret _) _ => apply steps_at_ret
  | |- steps_at _ _ _ get _ => apply steps_at_get
  | |- steps_at _ _ Any (throw _) _ => apply steps_at_throw_any
  | |- steps_at _ _ NoFault (throw _) _ => apply steps_at_throw
  | |- steps_at _ _ Any (remote _) _ => apply steps_at_remote_any
  | |- steps_at _ _ NoFault (remote _) _ => apply steps_at_remote
  | |- steps_at _ _ Any null_deref _ => apply steps_at_null_deref
  | |- steps_at _ _ Any diverge _ => apply steps_at_diverge
  | |- steps_at _ _ _ (emit _) _ => apply steps_at_emit
  | |- steps_at _ _ _ (modify _) _ => apply steps_at_modify
  | |- steps_at _ _ _ (for_each _ _) _ => apply steps_for_each; [..| intros ?]
  | |- steps_at _ _ _ (fold_each _ _ _) _ => apply steps_fold_each; [..| intros ? ?]
  end.

Ltac steps_tac := repeat steps_step.

(** ** Loops that erase one element *)

Lemma take_first_Some {A} (p : A → bool) (l : list A) x r :
  take_first p l = Some (x, r) →
  ∃ l1 l2, l = l1 ++ x :: l2 ∧ r = l1 ++ l2 ∧ p x = true ∧ Forall (λ y, p y = false) l1.
Proof.
  revert x r. induction l as [|y l IH]; intros x r H; simpl in H; [done|].
  destruct (p y) eqn:Hy.
  - inversion H; subst. by eexists [], _.
  - destruct (take_first p l) as [[z r']|] eqn:E; [|done].
    inversion H; subst. destruct (IH _ _ eq_refl) as (l1 & l2 & -> & -> & Hx & Hl1).
    exists (y :: l1), l2. repeat split; auto.
Qed.

Lemma take_first_None {A} (p : A → bool) (l : list A) :
  take_first p l = None ↔ existsb p l = false.
Proof.
  induction l as [|y l IH]; simpl; [done|].
  destruct (p y); simpl; [done|].
  destruct (take_first p l) as [[z r']|]; [|tauto].
  split; [done|]. intros H. apply IH in H. done.
Qed.

Lemma take_first_app {A} (p : A → bool) (l1 l2 : list A) x :
  Forall (λ y, p y = false) l1 → p x = true →
  take_first p (l1 ++ x :: l2) = Some (x, l1 ++ l2).
Proof.
  intros Hl1 Hx. induction Hl1 as [|y l1 Hy _ IH]; simpl; [by rewrite Hx|].
  by rewrite Hy, IH.
Qed.

Lemma take_first_length {A} (p : A → bool) (l : list A) x r :
  take_first p l = Some (x, r) → length l = S (length r).
Proof.
  intros H. apply take_first_Some in H as (l1 & l2 & -> & -> & _).
  rewrite !length_app. simpl. lia.
Qed.
(** ** Unbinding and unregistering a child never fails *)

#[local] Instance same_buckets_refl : Reflexive same_buckets.
Proof. by intros s. Qed.

#[local] Instance same_buckets_trans : Transitive same_buckets.
Proof. intros s1 s2 s3 (?&?&?&?) (?&?&?&?). repeat split; congruence. Qed.

Lemma set_naming_context_buckets c m s : same_buckets s (set_naming_context c m s).
Proof. by destruct c. Qed.

Lemma ns_unbind_steps env c name : steps same_buckets quiet NoFault (ns_unbind env c name).
Proof.
  unfold ns_unbind. steps_tac; try done. apply set_naming_context_buckets.
Qed.

Lemma dmnMgr_call_steps env op ior :
  steps same_buckets quiet NoFault (dmnMgr_call env op ior).
Proof. unfold dmnMgr_call. by steps_tac. Qed.

Lemma local_unregisterDevice_steps env dev lbl :
  steps same_buckets quiet Total (local_unregisterDevice env dev lbl).
Proof.
  unfold local_unregisterDevice.
  steps_tac; try apply ns_unbind_steps; try apply dmnMgr_call_steps; done.
Qed.

Lemma local_unregisterService_steps env dev lbl :
  steps same_buckets quiet Total (local_unregisterService env dev lbl).
Proof.
  unfold local_unregisterService.
  steps_tac; try apply ns_unbind_steps; try apply dmnMgr_call_steps; done.
Qed.

(** ** Snapshots *)

Lemma fill_sequence_spec {A B} (f : A → B) bucket fault n : ∀ ii acc,
  (ii + n = length bucket)%nat →
  fill_sequence f bucket ii n fault acc =
    match fault with
    | Some (S k) =>
        if bool_decide (ii ≤ k < ii + n)%nat then None
        else Some (acc ++ map f (drop ii bucket))
    | _ => Some (acc ++ map f (drop ii bucket))
    end.
Proof.
  induction n as [|n IH]; intros ii acc Hlen; simpl.
  - rewrite drop_ge by lia. rewrite app_nil_r.
    destruct fault as [[|k]|]; try done. by rewrite bool_decide_eq_false_2 by lia.
  - destruct (bucket !! ii) as [x|] eqn:Hx.
    2:{ apply lookup_ge_None in Hx. lia. }
    rewrite IH by lia. rewrite (drop_S _ _ _ Hx). simpl. rewrite <- app_assoc. simpl.
    destruct fault as [[|k]|]; [done | | done].
    repeat case_bool_decide; simplify_eq; try done; try lia.
    assert (k ≠ ii) by congruence. lia.
Qed.

Lemma snapshot_spec {A B} (f : A → B) bucket fault :
  snapshot f bucket fault = if faulted fault (length bucket) then [] else map f bucket.
Proof.
  unfold snapshot, faulted. case_bool_decide as H0.
  - subst. by rewrite bool_decide_eq_true_2 by lia.
  - rewrite fill_sequence_spec by done. simpl. rewrite drop_0.
    destruct fault as [[|k]|]; [done | | done].
    case_bool_decide; case_bool_decide; try done; lia.
Qed.

(** C10.  The snapshot operations [registeredDevices()] and
    [registeredServices()] never raise and change nothing: when the
    building of the sequence fails they return an empty sequence, and
    otherwise one entry per node of the registered bucket, in the order of
    the bucket. *)
Theorem snapshots_never_raise (fault : option nat) (s : DeviceManager) :
  registeredDevices fault s =
    (Ok (if faulted fault (length (_registeredDevices s)) then []
         else map device (_registeredDevices s)), s, [])
  ∧ registeredServices fault s =
    (Ok (if faulted fault (length (_registeredServices s)) then []
         else map (λ n, (service n, svc_label n)) (_registeredServices s)), s, []).
Proof.
  unfold registeredDevices, registeredServices. munfold. simpl.
  by rewrite !snapshot_spec.
Qed.

(** ** Taking a child out of the registered bucket *)

Lemma decrement_registeredDevices_run env d s :
  match take_first (λ n, bool_decide (IOR n = obj_ior d)) (_registeredDevices s) with
  | Some (node, rest) =>
      ∃ s' t, decrement_registeredDevices env d s = (Ok true, s', t)
        ∧ Forall quiet t
        ∧ _registeredDevices s' = rest
        ∧ _pendingDevices s' =
            (if bool_decide (pid node ≠ 0) then _pendingDevices s ++ [node]
             else _pendingDevices s)
        ∧ _registeredServices s' = _registeredServices s
        ∧ _pendingServices s' = _pendingServices s
        ∧ _adminState s' = _adminState s
        ∧ _internalShutdown s' = _internalShutdown s
        ∧ DEVICE_FORCE_QUIT_TIME s' = DEVICE_FORCE_QUIT_TIME s
  | None => decrement_registeredDevices env d s = (Ok false, s, [])
  end.
Proof.
  unfold decrement_registeredDevices.
  destruct (take_first _ _) as [[node rest]|] eqn:E; [|munfold; by rewrite E].
  destruct (bool_decide (pid node ≠ 0)) eqn:Hp.
  - destruct (steps_total_run same_buckets quiet _
                (set_pendingDevices (push_back (_pendingDevices s) node)
                   (set_registeredDevices rest s))
                (local_unregisterDevice_steps env (Some d) (label node) _))
      as ([] & s' & t & Hrun & (Hb & Ha & Hi & Hq) & Ht).
    exists s', t. munfold. rewrite E. simpl. rewrite Hp. simpl in *. rewrite Hrun. simpl.
    rewrite app_nil_r. unfold buckets in Hb. injection Hb as <- <- <- <-. by split_and!.
  - destruct (steps_total_run same_buckets quiet _ (set_registeredDevices rest s)
                (local_unregisterDevice_steps env (Some d) (label node) _))
      as ([] & s' & t & Hrun & (Hb & Ha & Hi & Hq) & Ht).
    exists s', t. munfold. rewrite E. simpl. rewrite Hp. simpl in *. rewrite Hrun. simpl.
    rewrite app_nil_r. unfold buckets in Hb. injection Hb as <- <- <- <-. by split_and!.
Qed.

Lemma decrement_registeredServices_run env o name s :
  match take_first (λ n, bool_decide (svc_label n = name)) (_registeredServices s) with
  | Some (node, rest) =>
      ∃ s' t, decrement_registeredServices env o name s = (Ok true, s', t)
        ∧ Forall quiet t
        ∧ _registeredServices s' = rest
        ∧ _pendingServices s' =
            (if bool_decide (svc_pid node ≠ 0) then _pendingServices s ++ [node]
             else _pendingServices s)
        ∧ _registeredDevices s' = _registeredDevices s
        ∧ _pendingDevices s' = _pendingDevices s
        ∧ _adminState s' = _adminState s
        ∧ _internalShutdown s' = _internalShutdown s
        ∧ DEVICE_FORCE_QUIT_TIME s' = DEVICE_FORCE_QUIT_TIME s
  | None => decrement_registeredServices env o name s = (Ok false, s, [])
  end.
Proof.
  unfold decrement_registeredServices.
  destruct (take_first _ _) as [[node rest]|] eqn:E; [|munfold; by rewrite E].
  destruct (steps_total_run same_buckets quiet _ s
              (local_unregisterService_steps env o name _))
    as ([] & s1 & t & Hrun & (Hb & Ha & Hi & Hq) & Ht).
  unfold buckets in Hb. injection Hb as Hb1 Hb2 Hb3 Hb4.
  munfold. rewrite E, Hrun. simpl.
  case_bool_decide; simpl; eexists _, _; (split; [reflexivity|]); rewrite ?app_nil_r;
    simpl; split_and!; try done; by rewrite <- ?Hb1, <- ?Hb2, <- ?Hb3, <- ?Hb4.
Qed.

Lemma existsb_take_first {A} (p : A → bool) (l : list A) :
  existsb p l = match take_first p l with Some _ => true | None => false end.
Proof.
  destruct (take_first p l) as [[x r]|] eqn:E.
  - destruct (existsb p l) eqn:E'; [done|]. apply take_first_None in E'. congruence.
  - by apply take_first_None.
Qed.

Lemma unregisterDevice_run env d s :
  match take_first (λ n, bool_decide (IOR n = obj_ior d)) (_registeredDevices s) with
  | Some (node, rest) =>
      ∃ s' t, unregisterDevice env (Some d) s = (Ok tt, s', t)
        ∧ Forall quiet t
        ∧ _registeredDevices s' = rest
        ∧ _pendingDevices s' =
            (if bool_decide (pid node ≠ 0) then _pendingDevices s ++ [node]
             else _pendingDevices s)
        ∧ _registeredServices s' = _registeredServices s
        ∧ _pendingServices s' = _pendingServices s
        ∧ _adminState s' = _adminState s
        ∧ _internalShutdown s' = _internalShutdown s
        ∧ DEVICE_FORCE_QUIT_TIME s' = DEVICE_FORCE_QUIT_TIME s
  | None =>
      ∃ t, unregisterDevice env (Some d) s = (Throw InvalidObjectReference, s, t)
        ∧ Forall quiet t
  end.
Proof.
  pose proof (decrement_registeredDevices_run env d s) as H.
  unfold unregisterDevice. munfold. cbv beta.
  destruct (take_first _ _) as [[node rest]|].
  - destruct H as (s' & t & -> & Ht & H). exists s', (EvChildAttr (obj_ior d) "identifier"
      :: EvChildAttr (obj_ior d) "label" :: t ++ []).
    split; [done|]. split; [|done]. rewrite app_nil_r. by repeat constructor.
  - rewrite H. simpl. eexists. split; [done|]. by repeat constructor.
Qed.

Lemma unregisterService_run env ior name s :
  match take_first (λ n, bool_decide (svc_label n = name)) (_registeredServices s) with
  | Some (node, rest) =>
      ∃ s' t, unregisterService env (Some ior) name s = (Ok tt, s', t)
        ∧ Forall quiet t
        ∧ _registeredServices s' = rest
        ∧ _pendingServices s' =
            (if bool_decide (svc_pid node ≠ 0) then _pendingServices s ++ [node]
             else _pendingServices s)
        ∧ _registeredDevices s' = _registeredDevices s
        ∧ _pendingDevices s' = _pendingDevices s
        ∧ _adminState s' = _adminState s
        ∧ _internalShutdown s' = _internalShutdown s
        ∧ DEVICE_FORCE_QUIT_TIME s' = DEVICE_FORCE_QUIT_TIME s
  | None => unregisterService env (Some ior) name s = (Throw InvalidObjectReference, s, [])
  end.
Proof.
  pose proof (decrement_registeredServices_run env (Some ior) name s) as H.
  unfold unregisterService. munfold. cbv beta.
  destruct (take_first _ _) as [[node rest]|].
  - destruct H as (s' & t & -> & Ht & H). exists s', (t ++ []).
    split; [done|]. split; [|done]. by rewrite app_nil_r.
  - by rewrite H.
Qed.

(** ** Rejected references *)

(** C3.  A nil reference is rejected by the four operations with
    InvalidObjectReference, leaving the manager as it was and calling no
    one; [unregisterDevice] also raises InvalidObjectReference, leaving
    the manager as it was, for a device whose IOR is not among the
    registered devices (and only for such a device). *)
Theorem nil_reference_rejected (env : Env) (s : DeviceManager) (name : string)
    (d : DeviceObj) :
  let rejected {A} (r : Res A * DeviceManager * list Event) :=
    result r = Throw InvalidObjectReference ∧ final r = s
    ∧ Forall (λ e, is_outbound e = false) (calls r) in
  rejected (registerDevice env None s)
  ∧ rejected (registerService env None name s)
  ∧ rejected (unregisterDevice env None s)
  ∧ rejected (unregisterService env None name s)
  ∧ result (unregisterDevice env (Some d) s) =
      (if existsb (λ n, bool_decide (IOR n = obj_ior d)) (_registeredDevices s)
       then Ok tt else Throw InvalidObjectReference)
  ∧ final (unregisterDevice env (Some d) s) =
      (if existsb (λ n, bool_decide (IOR n = obj_ior d)) (_registeredDevices s)
       then final (unregisterDevice env (Some d) s) else s).
Proof.
  cbv zeta. split_and!; try (by repeat constructor).
  - pose proof (unregisterDevice_run env d s) as H. rewrite existsb_take_first.
    destruct (take_first _ _) as [[node rest]|].
    + by destruct H as (s' & t & -> & _).
    + by destruct H as (t & -> & _).
  - pose proof (unregisterDevice_run env d s) as H. rewrite existsb_take_first.
    destruct (take_first _ _) as [[node rest]|]; [done|].
    by destruct H as (t & -> & _).
Qed.

(** ** Unregistering *)

(** C4.  A successful [unregisterDevice] takes the first registered node
    with the device's IOR out of the registered bucket, and a successful
    [unregisterService] the first registered node with that name; the node
    goes to the end of the pending bucket when its pid is not zero, and
    into no bucket when it is zero.  The other buckets stay as they are. *)
Theorem unregister_moves_or_drops (env : Env) (s : DeviceManager) :
  (∀ d, result (unregisterDevice env (Some d) s) = Ok tt →
     ∃ l1 node l2,
       _registeredDevices s = l1 ++ node :: l2
       ∧ IOR node = obj_ior d ∧ Forall (λ n, IOR n ≠ obj_ior d) l1
       ∧ let s' := final (unregisterDevice env (Some d) s) in
         _registeredDevices s' = l1 ++ l2
         ∧ _pendingDevices s' =
             (if bool_decide (pid node = 0) then _pendingDevices s
              else _pendingDevices s ++ [node])
         ∧ _registeredServices s' = _registeredServices s
         ∧ _pendingServices s' = _pendingServices s)
  ∧ (∀ ior name, result (unregisterService env (Some ior) name s) = Ok tt →
     ∃ l1 node l2,
       _registeredServices s = l1 ++ node :: l2
       ∧ svc_label node = name ∧ Forall (λ n, svc_label n ≠ name) l1
       ∧ let s' := final (unregisterService env (Some ior) name s) in
         _registeredServices s' = l1 ++ l2
         ∧ _pendingServices s' =
             (if bool_decide (svc_pid node = 0) then _pendingServices s
              else _pendingServices s ++ [node])
         ∧ _registeredDevices s' = _registeredDevices s
         ∧ _pendingDevices s' = _pendingDevices s).
Proof.
  split.
  - intros d Hok. pose proof (unregisterDevice_run env d s) as H.
    destruct (take_first _ _) as [[node rest]|] eqn:E.
    2:{ destruct H as (t & Hrun & _). by rewrite Hrun in Hok. }
    destruct H as (s' & t & Hrun & _ & H1 & H2 & H3 & H4 & _).
    apply take_first_Some in E as (l1 & l2 & Hl & -> & Hx & Hl1).
    exists l1, node, l2. rewrite Hrun. unfold final. cbn [fst snd]. rewrite H2.
    split_and!; try done.
    + by apply bool_decide_eq_true in Hx.
    + eapply Forall_impl; [exact Hl1|]. intros n Hn. by apply bool_decide_eq_false in Hn.
    + by repeat case_bool_decide.
  - intros ior name Hok. pose proof (unregisterService_run env ior name s) as H.
    destruct (take_first _ _) as [[node rest]|] eqn:E.
    2:{ by rewrite H in Hok. }
    destruct H as (s' & t & Hrun & _ & H1 & H2 & H3 & H4 & _).
    apply take_first_Some in E as (l1 & l2 & Hl & -> & Hx & Hl1).
    exists l1, node, l2. rewrite Hrun. unfold final. cbn [fst snd]. rewrite H2.
    split_and!; try done.
    + by apply bool_decide_eq_true in Hx.
    + eapply Forall_impl; [exact Hl1|]. intros n Hn. by apply bool_decide_eq_false in Hn.
    + by repeat case_bool_decide.
Qed.

(** ** Matching a registration with a launched child *)

Lemma increment_registeredDevices_run d s :
  increment_registeredDevices d s =
    match take_first (λ n, bool_decide (identifier n = obj_identifier d)) (_pendingDevices s) with
    | Some (n, rest) =>
        (Ok tt,
         set_registeredDevices
           (_registeredDevices s
            ++ [mkDeviceNode (identifier n) (obj_label d) (obj_ior d) (Some d) (pid n)])
           (set_pendingDevices rest s),
         [EvChildAttr (obj_ior d) "identifier"; EvChildAttr (obj_ior d) "label"])
    | None =>
        (Ok tt,
         set_registeredDevices
           (_registeredDevices s
            ++ [mkDeviceNode (obj_identifier d) (obj_label d) (obj_ior d) (Some d) 0]) s,
         [EvChildAttr (obj_ior d) "identifier";
          EvLog LvlWarn "Registering device was not launched by this DeviceManager";
          EvChildAttr (obj_ior d) "label"])
    end.
Proof.
  unfold increment_registeredDevices. munfold.
  by destruct (take_first _ _) as [[n rest]|].
Qed.

Lemma increment_registeredServices_run ior name s :
  increment_registeredServices ior name s =
    match take_first (λ n, bool_decide (svc_label n = name)) (_pendingServices s) with
    | Some (n, rest) =>
        (Ok tt,
         set_registeredServices
           (_registeredServices s
            ++ [mkServiceNode (svc_identifier n) name ior (Some ior) (svc_pid n)])
           (set_pendingServices rest s),
         [])
    | None =>
        (Ok tt,
         set_registeredServices
           (_registeredServices s ++ [mkServiceNode name name ior (Some ior) 0]) s,
         [EvLog LvlWarn "Registering service was not launched by this DeviceManager"])
    end.
Proof.
  unfold increment_registeredServices. munfold.
  by destruct (take_first _ _) as [[n rest]|].
Qed.

(** A service launched with identifier "DCE:svc1" and usage name "svc1"
    (pid 42) that registers under "DCE:svc1" is not matched with its
    pending record: a new record with pid 0 is created. *)
Lemma services_join_on_identifier_fails : ¬ services_join_on_identifier.
Proof.
  intros H.
  pose (s := mkDeviceManager DEVMGR_REGISTERED false [] [] []
               [mkServiceNode "DCE:svc1" "svc1" "" None 42] [] ∅ ∅
               (mkUtsname "x86_64" "Linux") (mkHostProps "" "") None (mkHostProps "" "")
               ∅ ∅ (1 # 2) 10000).
  destruct (H s "IOR:svc" "DCE:svc1" (mkServiceNode "DCE:svc1" "svc1" "" None 42))
    as (node & Hlast & Hpid).
  - simpl. by apply list_elem_of_here.
  - reflexivity.
  - vm_compute in Hlast. injection Hlast as <-. discriminate Hpid.
Qed.

(** C8, amended.  A registering device is matched with the first pending
    device record that has its identifier; a registering service with the
    first pending service record whose label is the name it registers
    under.  The matched record leaves the pending bucket and enters the
    registered bucket with its identifier and pid; without a match, a new
    record with pid 0 enters the registered bucket. *)
Theorem registration_joins_pending (s : DeviceManager) :
  (∀ d l1 n l2,
     _pendingDevices s = l1 ++ n :: l2 →
     identifier n = obj_identifier d →
     Forall (λ m, identifier m ≠ obj_identifier d) l1 →
     let r := increment_registeredDevices d s in
     result r = Ok tt
     ∧ _registeredDevices (final r) =
         _registeredDevices s
         ++ [mkDeviceNode (identifier n) (obj_label d) (obj_ior d) (Some d) (pid n)]
     ∧ _pendingDevices (final r) = l1 ++ l2)
  ∧ (∀ d,
     Forall (λ m, identifier m ≠ obj_identifier d) (_pendingDevices s) →
     let r := increment_registeredDevices d s in
     result r = Ok tt
     ∧ _registeredDevices (final r) =
         _registeredDevices s
         ++ [mkDeviceNode (obj_identifier d) (obj_label d) (obj_ior d) (Some d) 0]
     ∧ _pendingDevices (final r) = _pendingDevices s)
  ∧ (∀ ior name l1 n l2,
     _pendingServices s = l1 ++ n :: l2 →
     svc_label n = name →
     Forall (λ m, svc_label m ≠ name) l1 →
     let r := increment_registeredServices ior name s in
     result r = Ok tt
     ∧ _registeredServices (final r) =
         _registeredServices s
         ++ [mkServiceNode (svc_identifier n) name ior (Some ior) (svc_pid n)]
     ∧ _pendingServices (final r) = l1 ++ l2)
  ∧ (∀ ior name,
     Forall (λ m, svc_label m ≠ name) (_pendingServices s) →
     let r := increment_registeredServices ior name s in
     result r = Ok tt
     ∧ _registeredServices (final r) =
         _registeredServices s ++ [mkServiceNode name name ior (Some ior) 0]
     ∧ _pendingServices (final r) = _pendingServices s).
Proof.
  split_and!.
  - intros d l1 n l2 Hp Hn Hl1 r. unfold r.
    rewrite increment_registeredDevices_run, Hp, take_first_app; [done | |].
    + eapply Forall_impl; [exact Hl1|]. intros m Hm. by apply bool_decide_eq_false.
    + by apply bool_decide_eq_true.
  - intros d Hl r. unfold r. rewrite increment_registeredDevices_run.
    assert (take_first (λ n, bool_decide (identifier n = obj_identifier d))
              (_pendingDevices s) = None) as ->; [|done].
    apply take_first_None. apply not_true_is_false. intros Hex.
    apply existsb_exists in Hex as (m & Hin & Hm). apply bool_decide_eq_true in Hm.
    rewrite Forall_forall in Hl. by apply (Hl m); [apply list_elem_of_In|].
  - intros ior name l1 n l2 Hp Hn Hl1 r. unfold r.
    rewrite increment_registeredServices_run, Hp, take_first_app; [done | |].
    + eapply Forall_impl; [exact Hl1|]. intros m Hm. by apply bool_decide_eq_false.
    + by apply bool_decide_eq_true.
  - intros ior name Hl r. unfold r. rewrite increment_registeredServices_run.
    assert (take_first (λ n, bool_decide (svc_label n = name))
              (_pendingServices s) = None) as ->; [|done].
    apply take_first_None. apply not_true_is_false. intros Hex.
    apply existsb_exists in Hex as (m & Hin & Hm). apply bool_decide_eq_true in Hm.
    rewrite Forall_forall in Hl. by apply (Hl m); [apply list_elem_of_In|].
Qed.

(** ** Registration *)

Lemma registerDevice_shutting_down env d s :
  _internalShutdown s = true → registerDevice env (Some d) s = (Ok tt, s, []).
Proof. intros H. unfold registerDevice. munfold. by rewrite H. Qed.

Lemma registerDevice_registered env d s :
  _internalShutdown s = false →
  existsb (λ n, is_equivalent (device n) d) (_registeredDevices s) = true →
  registerDevice env (Some d) s =
    (Ok tt, s,
     [EvOverrideBlockingCall (obj_ior d) (CLIENT_WAIT_TIME s);
      EvChildAttr (obj_ior d) "label"; EvChildAttr (obj_ior d) "identifier";
      EvLog LvlWarn "Device is already registred"]).
Proof.
  intros H1 H2. unfold registerDevice, deviceIsRegistered. munfold. by rewrite H1, H2.
Qed.

Lemma registerService_registered env ior name s :
  existsb (λ n, bool_decide (svc_label n = name)) (_registeredServices s) = true →
  registerService env (Some ior) name s =
    (Ok tt, s,
     [EvOverrideBlockingCall ior (CLIENT_WAIT_TIME s);
      EvLog LvlWarn "Service is already registered"]).
Proof.
  intros H. unfold registerService, exception_specification, serviceIsRegistered. munfold.
  by rewrite H.
Qed.

(** What [registerService] does for a name that is not registered. *)
Lemma registerService_run env ior name s :
  existsb (λ n, bool_decide (svc_label n = name)) (_registeredServices s) = false →
  registerService env (Some ior) name s =
    match naming_fault env with
    | Some _ =>
        (Ok tt, s,
         [EvOverrideBlockingCall ior (CLIENT_WAIT_TIME s); EvNaming RootCtx NsRebind name;
          EvLog LvlWarn "Service is already registered"])
    | None =>
        let s1 := set_rootContext (<[name := ior]> (rootContext s)) s in
        let '(_, s2, t2) := increment_registeredServices ior name s1 in
        if bool_decide (_adminState s = DEVMGR_REGISTERED) then
          match dmnMgr_fault env with
          | None =>
              (Ok tt, s2,
               [EvOverrideBlockingCall ior (CLIENT_WAIT_TIME s); EvNaming RootCtx NsRebind name]
               ++ t2 ++ [EvDomMgr DmRegisterService ior])
          | Some e =>
              match unbind_fault env with
              | None =>
                  (leaves e,
                   set_registeredServices (pop_back (_registeredServices s2))
                     (set_rootContext (delete name (rootContext s2)) s2),
                   [EvOverrideBlockingCall ior (CLIENT_WAIT_TIME s);
                    EvNaming RootCtx NsRebind name]
                   ++ t2 ++ [EvDomMgr DmRegisterService ior; EvNaming RootCtx NsUnbind name;
                             EvLog LvlError
           "Failed to register service to the domain manager; unregistering the service from the device manager"])
              | Some e' =>
                  (leaves e', s2,
                   [EvOverrideBlockingCall ior (CLIENT_WAIT_TIME s);
                    EvNaming RootCtx NsRebind name]
                   ++ t2 ++ [EvDomMgr DmRegisterService ior; EvNaming RootCtx NsUnbind name])
              end
          end
        else
          (Ok tt, s2,
           [EvOverrideBlockingCall ior (CLIENT_WAIT_TIME s); EvNaming RootCtx NsRebind name]
           ++ t2)
    end.
Proof.
  intros H. unfold registerService, exception_specification, serviceIsRegistered,
    forward_registerService, ns_rebind, ns_unbind_bound, dmnMgr_call, leaves. munfold.
  rewrite H. cbn [negb].
  destruct (naming_fault env) as [e|]; [done|]. cbn [naming_context set_naming_context].
  rewrite increment_registeredServices_run.
  destruct (take_first _ _) as [[n rest]|]; cbn;
    (case_bool_decide; [|done]); (destruct (dmnMgr_fault env) as [e|]; [|done]);
    (destruct (unbind_fault env) as [e'|]; cbn;
     [by destruct (SystemException_or_InvalidObjectReference e')|]);
    rewrite lookup_insert_eq; cbn; by destruct (SystemException_or_InvalidObjectReference e).
Qed.

(** The part of the list [l] that comes before its tail [tl]. *)
Ltac prefix_of l tl :=
  lazymatch l with
  | tl => constr:(@nil Event)
  | ?x :: ?l' => let p := prefix_of l' tl in constr:(x :: p)
  end.

Ltac case_scrutinee :=
  match goal with
  | |- context [match ?x with _ => _ end] =>
      lazymatch x with
      | context [match _ with _ => _ end] => fail
      | _ => destruct x eqn:?
      end
  | H : context [match ?x with _ => _ end] |- _ =>
      lazymatch x with
      | context [match _ with _ => _ end] => fail
      | _ => destruct x eqn:?
      end
  end.

(** Either [registerDevice] ends before its last step, with the registered
    bucket as it was and without a call on the Domain Manager, or it has
    bound the device's label, put a node for the device at the end of the
    registered bucket, and goes on with [forward_registerDevice]. *)
Lemma registerDevice_cases env d s :
  let r := registerDevice env (Some d) s in
  (Forall (λ e, is_DomMgr_call e = false) (calls r)
   ∧ _registeredDevices (final r) = _registeredDevices s)
  ∨ (∃ s1 t1 node,
       r = (let '(r, s2, t2) := forward_registerDevice env d s1 in (r, s2, t1 ++ t2))
       ∧ Forall (λ e, is_DomMgr_call e = false) t1
       ∧ _registeredDevices s1 = _registeredDevices s ++ [node]
       ∧ device node = Some d
       ∧ existsb (λ n, is_equivalent (device n) d) (_registeredDevices s) = false
       ∧ devMgrContext s1 !! obj_label d = Some (obj_ior d)
       ∧ _adminState s1 = _adminState s).
Proof.
  unfold registerDevice, deviceIsRegistered, findProfile, ns_bind,
    increment_registeredDevices. munfold.
  repeat (case_scrutinee; simpl in * ).
  all: try (left; split; [by repeat constructor | reflexivity]).
  all: match goal with
       | H : forward_registerDevice _ _ ?s1 = (_, _, ?l0) |- _ ∨ (∃ _ _ _, (_, _, ?l) = _ ∧ _) =>
           let p := prefix_of l l0 in
           right; exists s1, p; eexists; split; [by rewrite H|]
       end.
  all: cbn; split_and!; try done; try (by repeat constructor); by rewrite lookup_insert_eq.
Qed.


(** An event that is none of the listed ones is not in the list. *)
Ltac not_in H :=
  repeat (apply elem_of_cons in H as [H|H]; [discriminate H|]);
  apply elem_of_nil in H; destruct H.

Lemma forward_registerDevice_run env d s :
  forward_registerDevice env d s =
    if bool_decide (_adminState s = DEVMGR_REGISTERED) then
      match dmnMgr_fault env with
      | None => (Ok tt, s, [EvDomMgr DmRegisterDevice (obj_ior d)])
      | Some e =>
          if bool_decide (e = RegisterError) then
            (Ok tt, s, [EvDomMgr DmRegisterDevice (obj_ior d);
                        EvLog LvlError "Failed to register device to domain manager"])
          else if is_std_exception e then
            (Ok tt, s, [EvDomMgr DmRegisterDevice (obj_ior d);
                        EvLog LvlError
              "standard exception while attempting to register with the Domain Manager"])
          else if is_CORBA_Exception e then
            (Ok tt, s, [EvDomMgr DmRegisterDevice (obj_ior d);
                        EvLog LvlError "Failed to register device to domain manager"])
          else (Throw e, s, [EvDomMgr DmRegisterDevice (obj_ior d)])
      end
    else
      (Ok tt, s,
       [EvLog LvlWarn
          "Skipping DomainManager registerDevice because the device manager isn't registered"]).
Proof.
  unfold forward_registerDevice, dmnMgr_call. munfold.
  case_bool_decide; [|done]. destruct (dmnMgr_fault env) as [e|]; [|done].
  by destruct e.
Qed.

(** The service registration of C2 that fails at the Domain Manager, here
    with a CORBA system exception. *)
Lemma service_forwarding_failure_undone : ¬ service_forwarding_failure_only_logged.
Proof.
  intros H.
  destruct (H unreachable registered_manager "IOR:svc" "svc" CorbaSystemException
              eq_refl eq_refl)
    as (Hres & _).
  - vm_compute. do 3 apply list_elem_of_further.
    apply list_elem_of_here.
  - vm_compute in Hres. discriminate Hres.
Qed.

(** C2, amended.  When the Domain Manager fails a forwarded registration:
    [registerDevice] only logs a RegisterError, a standard exception or a
    CORBA exception, and returns with the device in the registered bucket
    and its label bound.  The handler of [registerService] unbinds the
    name, takes the record out of the registered bucket again, logs and
    rethrows: a CORBA system exception or InvalidObjectReference reaches
    the caller, any other exception is not in the exception specification
    of [registerService] and ends the process.  When the unbind of the
    handler itself raises, the record stays in the bucket and the name
    stays bound, nothing is logged, and it is that exception which leaves
    the handler. *)
Theorem forwarding_failure (env : Env) (s : DeviceManager) (e : exn) :
  dmnMgr_fault env = Some e →
  (∀ d, let r := registerDevice env (Some d) s in
     EvDomMgr DmRegisterDevice (obj_ior d) ∈ calls r →
     is_std_exception e || is_CORBA_Exception e = true →
     result r = Ok tt
     ∧ (∃ node, _registeredDevices (final r) = _registeredDevices s ++ [node]
                ∧ device node = Some d)
     ∧ devMgrContext (final r) !! obj_label d = Some (obj_ior d)
     ∧ ∃ msg, last (calls r) = Some (EvLog LvlError msg))
  ∧ (∀ ior name, let r := registerService env (Some ior) name s in
     EvDomMgr DmRegisterService ior ∈ calls r →
     match unbind_fault env with
     | None =>
         result r = leaves e
         ∧ _registeredServices (final r) = _registeredServices s
         ∧ rootContext (final r) !! name = None
         ∧ ∃ msg, last (calls r) = Some (EvLog LvlError msg)
     | Some e' =>
         result r = leaves e'
         ∧ (∃ node, _registeredServices (final r) = _registeredServices s ++ [node]
                    ∧ svc_label node = name)
         ∧ rootContext (final r) !! name = Some ior
         ∧ last (calls r) = Some (EvNaming RootCtx NsUnbind name)
     end)
  ∧ (∀ e' : exn,
       @leaves unit e' = if bool_decide (e' = CorbaSystemException ∨ e' = InvalidObjectReference)
                         then Throw e' else Terminated).
Proof.
  intros He. split_and!.
  - intros d r Hin Hcaught. unfold r in *. clear r.
    destruct (registerDevice_cases env d s) as [[Hno _]|(s1 & t1 & node & Hr & Ht1 & Hreg & Hdev & _ & Hctx & Hadm)].
    { rewrite Forall_forall in Hno. by apply Hno in Hin. }
    rewrite Hr in *. rewrite forward_registerDevice_run, He in *.
    case_bool_decide as Ha.
    2:{ simpl in Hin. apply elem_of_app in Hin as [Hin|Hin]; [|by not_in Hin].
        rewrite Forall_forall in Ht1. by apply Ht1 in Hin. }
    assert (∃ msg, (if bool_decide (e = RegisterError)
             then (Ok (), s1, [EvDomMgr DmRegisterDevice (obj_ior d);
                               EvLog LvlError "Failed to register device to domain manager"])
             else if is_std_exception e
             then (Ok (), s1, [EvDomMgr DmRegisterDevice (obj_ior d);
                               EvLog LvlError
              "standard exception while attempting to register with the Domain Manager"])
             else if is_CORBA_Exception e
             then (Ok (), s1, [EvDomMgr DmRegisterDevice (obj_ior d);
                               EvLog LvlError "Failed to register device to domain manager"])
             else (Throw e, s1, [EvDomMgr DmRegisterDevice (obj_ior d)]))
            = (Ok tt, s1, [EvDomMgr DmRegisterDevice (obj_ior d); EvLog LvlError msg]))
      as (msg & ->).
    { case_bool_decide; [by eexists|]. destruct (is_std_exception e); [by eexists|].
      simpl in Hcaught. rewrite Hcaught. by eexists. }
    unfold result, final, calls. cbn [fst snd]. split_and!; [done | by exists node | done |].
    exists msg. by rewrite last_app.
  - intros ior name r Hin. unfold r in *. clear r.
    destruct (existsb (λ n, bool_decide (svc_label n = name)) (_registeredServices s)) eqn:Hreg.
    { rewrite registerService_registered in Hin by done. simpl in Hin. by not_in Hin. }
    rewrite registerService_run in * by done.
    destruct (naming_fault env).
    { simpl in Hin. by not_in Hin. }
    cbv zeta in *. rewrite increment_registeredServices_run in *.
    destruct (take_first _ _) as [[n rest]|]; rewrite He in *;
      (case_bool_decide;
       [| simpl in Hin; by not_in Hin ]);
      destruct (unbind_fault env) as [e'|];
      unfold result, final, calls; cbn [fst snd].
    + split_and!; [done | by eexists | cbn; by rewrite lookup_insert_eq |].
      by rewrite !last_app.
    + split_and!; [done | cbn; by rewrite removelast_last | cbn; by rewrite lookup_delete_eq |].
      eexists; cbn; reflexivity.
    + split_and!; [done | by eexists | cbn; by rewrite lookup_insert_eq |].
      by rewrite !last_app.
    + split_and!; [done | cbn; by rewrite removelast_last | cbn; by rewrite lookup_delete_eq |].
      eexists; cbn; reflexivity.
  - intros e'. by destruct e'.
Qed.

(** ** Duplicate registration *)

Lemma filter_existsb_false {A} (p : A → bool) (l : list A) :
  existsb p l = false → filter (λ x, p x = true) l = [].
Proof.
  induction l as [|x l IH]; simpl; [done|]. intros H.
  apply orb_false_iff in H as [Hx Hl]. rewrite filter_cons, decide_False by congruence.
  by apply IH.
Qed.

Lemma forward_registerDevice_final env d s : final (forward_registerDevice env d s) = s.
Proof.
  rewrite forward_registerDevice_run. case_bool_decide; [|done].
  destruct (dmnMgr_fault env) as [e|]; [|done]. by destruct e.
Qed.

Lemma is_equivalent_refl d : is_equivalent (Some d) d = true.
Proof. simpl. by apply bool_decide_eq_true. Qed.

(** C7.  Registering a device that is among the registered devices, or a
    service under a name that is among the registered services, returns
    without raising and leaves the manager as it was.  After a first
    registration of a child that had no entry, which left it registered,
    the registered bucket holds one entry for the child, and so it does
    after a second registration. *)
Theorem duplicate_registration (env env' : Env) (s : DeviceManager) :
  (∀ d, existsb (λ n, is_equivalent (device n) d) (_registeredDevices s) = true →
     let r := registerDevice env (Some d) s in
     result r = Ok tt ∧ final r = s)
  ∧ (∀ ior name,
     existsb (λ n, bool_decide (svc_label n = name)) (_registeredServices s) = true →
     let r := registerService env (Some ior) name s in
     result r = Ok tt ∧ final r = s)
  ∧ (∀ d, device_entries d s = 0%nat →
     let s1 := final (registerDevice env (Some d) s) in
     existsb (λ n, is_equivalent (device n) d) (_registeredDevices s1) = true →
     let r2 := registerDevice env' (Some d) s1 in
     device_entries d s1 = 1%nat
     ∧ result r2 = Ok tt ∧ device_entries d (final r2) = 1%nat)
  ∧ (∀ ior name, service_entries name s = 0%nat →
     let s1 := final (registerService env (Some ior) name s) in
     existsb (λ n, bool_decide (svc_label n = name)) (_registeredServices s1) = true →
     let r2 := registerService env' (Some ior) name s1 in
     service_entries name s1 = 1%nat
     ∧ result r2 = Ok tt ∧ service_entries name (final r2) = 1%nat).
Proof.
  assert (Hdev : ∀ env d s, existsb (λ n, is_equivalent (device n) d) (_registeredDevices s) = true →
            result (registerDevice env (Some d) s) = Ok tt
            ∧ final (registerDevice env (Some d) s) = s).
  { intros en d s0 H. destruct (_internalShutdown s0) eqn:Hs.
    - by rewrite registerDevice_shutting_down.
    - by rewrite registerDevice_registered. }
  assert (Hsvc : ∀ env ior name s,
            existsb (λ n, bool_decide (svc_label n = name)) (_registeredServices s) = true →
            result (registerService env (Some ior) name s) = Ok tt
            ∧ final (registerService env (Some ior) name s) = s).
  { intros en ior name s0 H. by rewrite registerService_registered. }
  split_and!.
  - intros d H. by apply Hdev.
  - intros ior name H. by apply Hsvc.
  - intros d H0 s1 H1 r2. destruct (Hdev env' d s1 H1) as [Hres Hfin].
    unfold r2. rewrite Hfin. split_and!; [|done|]; unfold s1 in *; clear r2 Hres Hfin.
    all: destruct (registerDevice_cases env d s)
           as [[_ Hsame]|(s2 & t1 & node & Hr & _ & Hreg & Hnode & Hex & _)].
    all: unfold device_entries in *.
    1,3: rewrite Hsame in *; apply length_zero_iff_nil in H0;
         rewrite (existsb_exists) in H1; destruct H1 as (n & Hin & Hn);
         apply list_elem_of_In in Hin;
         assert (n ∈ filter (λ n, is_equivalent (device n) d = true) (_registeredDevices s))
           as Hf by (by apply list_elem_of_filter);
         rewrite H0 in Hf; by apply elem_of_nil in Hf.
    all: rewrite Hr; pose proof (forward_registerDevice_final env d s2) as Hf;
         destruct (forward_registerDevice env d s2) as [[r s3] t3];
         change (s3 = s2) in Hf; subst s3;
         change (final (r, s2, t1 ++ t3)) with s2;
         rewrite Hreg, filter_app, length_app, H0;
         rewrite filter_cons, decide_True by (rewrite Hnode; apply is_equivalent_refl);
         done.
  - intros ior name H0 s1 H1 r2. destruct (Hsvc env' ior name s1 H1) as [Hres Hfin].
    unfold r2. rewrite Hfin. split_and!; [|done|]; unfold s1 in *; clear r2 Hres Hfin.
    all: unfold service_entries in *.
    all: assert (existsb (λ n, bool_decide (svc_label n = name)) (_registeredServices s) = false)
           as Hno.
    1,3: apply not_true_is_false; intros Hex; apply existsb_exists in Hex as (n & Hin & Hn);
         apply list_elem_of_In in Hin; apply bool_decide_eq_true in Hn;
         apply length_zero_iff_nil in H0;
         assert (n ∈ filter (λ n, svc_label n = name) (_registeredServices s))
           as Hf by (by apply list_elem_of_filter);
         rewrite H0 in Hf; by apply elem_of_nil in Hf.
    all: rewrite registerService_run in * by done.
    all: destruct (naming_fault env); [unfold final in H1; cbn [fst snd] in H1; congruence|].
    all: cbv zeta in *; rewrite increment_registeredServices_run in *.
    all: destruct (take_first _ _) as [[n rest]|]; case_bool_decide;
         try (destruct (dmnMgr_fault env); [destruct (unbind_fault env)|]);
         unfold final in *; cbn [fst snd] in *.
    all: try (cbn in H1; rewrite removelast_last in H1; congruence).
    all: cbn; rewrite filter_app, length_app, H0; by rewrite filter_cons, decide_True.
Qed.

(** ** Registration while the manager shuts down *)

(** C1.  While the shutdown flag is set, [registerDevice] returns at once:
    no call, no change.  [registerService] has no such guard: with the
    manager shutting down or shut down, a service that registers under a
    name that is not registered is bound in the naming service and
    entered in the registered bucket; only the forwarding to the Domain
    Manager is left out. *)
Theorem registration_during_shutdown (env : Env) (s : DeviceManager) :
  _adminState s = DEVMGR_SHUTTING_DOWN ∨ _adminState s = DEVMGR_SHUTDOWN →
  _internalShutdown s = true →
  (∀ d, registerDevice env (Some d) s = (Ok tt, s, []))
  ∧ (∀ ior name,
       naming_fault env = None →
       existsb (λ n, bool_decide (svc_label n = name)) (_registeredServices s) = false →
       let r := registerService env (Some ior) name s in
       result r = Ok tt
       ∧ EvNaming RootCtx NsRebind name ∈ calls r
       ∧ Forall (λ e, is_DomMgr_call e = false) (calls r)
       ∧ rootContext (final r) !! name = Some ior
       ∧ ∃ node, _registeredServices (final r) = _registeredServices s ++ [node]
                 ∧ svc_label node = name ∧ service node = Some ior).
Proof.
  intros Hadm Hflag. split.
  - intros d. by apply registerDevice_shutting_down.
  - intros ior name Hns Hreg r. unfold r. rewrite registerService_run by done.
    rewrite Hns. cbv zeta. rewrite increment_registeredServices_run.
    rewrite bool_decide_eq_false_2 by (destruct Hadm as [-> | ->]; discriminate).
    destruct (take_first _ _) as [[n rest]|]; unfold result, final, calls; cbn.
    + split_and!; [done | apply list_elem_of_further, list_elem_of_here
                   | by repeat constructor | by rewrite lookup_insert_eq | by eexists].
    + split_and!; [done | apply list_elem_of_further, list_elem_of_here
                   | by repeat constructor | by rewrite lookup_insert_eq | by eexists].
Qed.

Lemma registration_during_shutdown_witness :
  let r := registerService calm (Some "IOR:svc") "svc" shut_down_manager in
  result r = Ok tt
  ∧ EvNaming RootCtx NsRebind "svc" ∈ calls r
  ∧ _registeredServices (final r)
    = [mkServiceNode "svc" "svc" "IOR:svc" (Some "IOR:svc") 0].
Proof.
  destruct (registration_during_shutdown calm shut_down_manager)
    as [_ H]; [by right | reflexivity |].
  destruct (H "IOR:svc" "svc" eq_refl eq_refl) as (H1 & H2 & _ & _ & _).
  split_and!; [exact H1 | exact H2 | reflexivity].
Defined.
Lemma unregister_moves_or_drops_witness :
  (result (unregisterDevice calm (Some dev1) busy_manager) = Ok tt
   ∧ ∃ l1 node l2,
       _registeredDevices busy_manager = l1 ++ node :: l2
       ∧ IOR node = obj_ior dev1 ∧ Forall (λ n, IOR n ≠ obj_ior dev1) l1
       ∧ let s' := final (unregisterDevice calm (Some dev1) busy_manager) in
         _registeredDevices s' = l1 ++ l2
         ∧ _pendingDevices s' =
             (if bool_decide (pid node = 0) then _pendingDevices busy_manager
              else _pendingDevices busy_manager ++ [node])
         ∧ _registeredServices s' = _registeredServices busy_manager
         ∧ _pendingServices s' = _pendingServices busy_manager)
  ∧ (result (unregisterService calm (Some "IOR:ext") "ext" busy_manager) = Ok tt
     ∧ ∃ l1 node l2,
       _registeredServices busy_manager = l1 ++ node :: l2
       ∧ svc_label node = "ext" ∧ Forall (λ n, svc_label n ≠ "ext") l1
       ∧ let s' := final (unregisterService calm (Some "IOR:ext") "ext" busy_manager) in
         _registeredServices s' = l1 ++ l2
         ∧ _pendingServices s' =
             (if bool_decide (svc_pid node = 0) then _pendingServices busy_manager
              else _pendingServices busy_manager ++ [node])
         ∧ _registeredDevices s' = _registeredDevices busy_manager
         ∧ _pendingDevices s' = _pendingDevices busy_manager).
Proof.
  destruct (unregister_moves_or_drops calm busy_manager) as [Hd Hs].
  split; (split; [vm_compute; reflexivity|]).
  - apply Hd. vm_compute. reflexivity.
  - apply Hs. vm_compute. reflexivity.
Defined.

Lemma registration_joins_pending_witness :
  let r := increment_registeredDevices dev1 launching_manager in
  let q := increment_registeredServices "IOR:svc1" "svc1" launching_manager in
  (result r = Ok tt
   ∧ _registeredDevices (final r) = [node1]
   ∧ _pendingDevices (final r) = [])
  ∧ (result q = Ok tt
     ∧ _registeredServices (final q) = [snode1]
     ∧ _pendingServices (final q) = [])
  ∧ (let r := increment_registeredDevices dev2 launching_manager in
     result r = Ok tt
     ∧ _registeredDevices (final r) = [node2]
     ∧ _pendingDevices (final r) = _pendingDevices launching_manager)
  ∧ (let q := increment_registeredServices "IOR:ext" "ext" launching_manager in
     result q = Ok tt
     ∧ _registeredServices (final q) = [snode2]
     ∧ _pendingServices (final q) = _pendingServices launching_manager).
Proof.
  destruct (registration_joins_pending launching_manager) as (H1 & H2 & H3 & H4).
  cbv zeta. split; [|split; [|split]].
  - apply (H1 dev1 [] (mkDeviceNode "DCE:dev1" "" "" None 4242) []);
      [reflexivity | reflexivity | constructor].
  - apply (H3 "IOR:svc1" "svc1" [] (mkServiceNode "DCE:svc1" "svc1" "" None 77) []);
      [reflexivity | reflexivity | constructor].
  - apply (H2 dev2). repeat constructor. simpl. discriminate.
  - apply (H4 "IOR:ext" "ext"). repeat constructor. simpl. discriminate.
Defined.

Lemma duplicate_registration_witness :
  (existsb (λ n, is_equivalent (device n) dev1) (_registeredDevices busy_manager) = true
   ∧ result (registerDevice calm (Some dev1) busy_manager) = Ok tt
   ∧ final (registerDevice calm (Some dev1) busy_manager) = busy_manager)
  ∧ (existsb (λ n, bool_decide (svc_label n = "ext")) (_registeredServices busy_manager) = true
     ∧ result (registerService calm (Some "IOR:ext") "ext" busy_manager) = Ok tt
     ∧ final (registerService calm (Some "IOR:ext") "ext" busy_manager) = busy_manager)
  ∧ (device_entries dev1 launching_manager = 0%nat
     ∧ let s1 := final (registerDevice calm (Some dev1) launching_manager) in
       existsb (λ n, is_equivalent (device n) dev1) (_registeredDevices s1) = true
       ∧ device_entries dev1 s1 = 1%nat
       ∧ result (registerDevice rejecting (Some dev1) s1) = Ok tt
       ∧ device_entries dev1 (final (registerDevice rejecting (Some dev1) s1)) = 1%nat)
  ∧ (service_entries "svc1" launching_manager = 0%nat
     ∧ let s1 := final (registerService calm (Some "IOR:svc1") "svc1" launching_manager) in
       existsb (λ n, bool_decide (svc_label n = "svc1")) (_registeredServices s1) = true
       ∧ service_entries "svc1" s1 = 1%nat
       ∧ result (registerService rejecting (Some "IOR:svc1") "svc1" s1) = Ok tt
       ∧ service_entries "svc1" (final (registerService rejecting (Some "IOR:svc1") "svc1" s1))
         = 1%nat).
Proof.
  destruct (duplicate_registration calm rejecting busy_manager) as (H1 & H2 & _ & _).
  destruct (duplicate_registration calm rejecting launching_manager) as (_ & _ & H3 & H4).
  split; [|split; [|split]].
  - split; [vm_compute; reflexivity | apply H1; vm_compute; reflexivity].
  - split; [vm_compute; reflexivity | apply H2; vm_compute; reflexivity].
  - split; [vm_compute; reflexivity |].
    cbv zeta. split; [vm_compute; reflexivity | apply H3; vm_compute; reflexivity].
  - split; [vm_compute; reflexivity |].
    cbv zeta. split; [vm_compute; reflexivity | apply H4; vm_compute; reflexivity].
Defined.

Lemma forwarding_failure_witness :
  (let r := registerDevice rejecting (Some dev1) launching_manager in
   EvDomMgr DmRegisterDevice (obj_ior dev1) ∈ calls r
   ∧ result r = Ok tt
   ∧ (∃ node, _registeredDevices (final r) = _registeredDevices launching_manager ++ [node]
              ∧ device node = Some dev1)
   ∧ devMgrContext (final r) !! obj_label dev1 = Some (obj_ior dev1)
   ∧ ∃ msg, last (calls r) = Some (EvLog LvlError msg))
  ∧ (let r := registerService rejecting (Some "IOR:svc1") "svc1" launching_manager in
     EvDomMgr DmRegisterService "IOR:svc1" ∈ calls r
     ∧ result r = Terminated
     ∧ _registeredServices (final r) = _registeredServices launching_manager
     ∧ rootContext (final r) !! "svc1" = None
     ∧ ∃ msg, last (calls r) = Some (EvLog LvlError msg))
  ∧ (let r := registerService unreachable (Some "IOR:svc1") "svc1" launching_manager in
     EvDomMgr DmRegisterService "IOR:svc1" ∈ calls r
     ∧ result r = Throw CorbaSystemException
     ∧ _registeredServices (final r) = _registeredServices launching_manager
     ∧ rootContext (final r) !! "svc1" = None
     ∧ ∃ msg, last (calls r) = Some (EvLog LvlError msg))
  ∧ (let r := registerService unreachable_since (Some "IOR:svc1") "svc1" launching_manager in
     EvDomMgr DmRegisterService "IOR:svc1" ∈ calls r
     ∧ result r = Throw CorbaSystemException
     ∧ (∃ node, _registeredServices (final r) = _registeredServices launching_manager ++ [node]
                ∧ svc_label node = "svc1")
     ∧ rootContext (final r) !! "svc1" = Some "IOR:svc1"
     ∧ last (calls r) = Some (EvNaming RootCtx NsUnbind "svc1")).
Proof.
  destruct (forwarding_failure rejecting launching_manager RegisterError eq_refl)
    as (Hd & Hs & _).
  destruct (forwarding_failure unreachable launching_manager CorbaSystemException eq_refl)
    as (_ & Hs' & _).
  destruct (forwarding_failure unreachable_since launching_manager RegisterError eq_refl)
    as (_ & Hs'' & _).
  assert (H1 : EvDomMgr DmRegisterDevice (obj_ior dev1)
               ∈ calls (registerDevice rejecting (Some dev1) launching_manager)).
  { vm_compute. repeat first [apply list_elem_of_here | apply list_elem_of_further]. }
  assert (H2 : EvDomMgr DmRegisterService "IOR:svc1"
               ∈ calls (registerService rejecting (Some "IOR:svc1") "svc1" launching_manager)).
  { vm_compute. repeat first [apply list_elem_of_here | apply list_elem_of_further]. }
  assert (H3 : EvDomMgr DmRegisterService "IOR:svc1"
               ∈ calls (registerService unreachable (Some "IOR:svc1") "svc1"
                          launching_manager)).
  { vm_compute. repeat first [apply list_elem_of_here | apply list_elem_of_further]. }
  assert (H4 : EvDomMgr DmRegisterService "IOR:svc1"
               ∈ calls (registerService unreachable_since (Some "IOR:svc1") "svc1"
                          launching_manager)).
  { vm_compute. repeat first [apply list_elem_of_here | apply list_elem_of_further]. }
  split_and!.
  - split; [exact H1 | apply (Hd dev1 H1); reflexivity].
  - split; [exact H2 | apply (Hs "IOR:svc1" "svc1" H2)].
  - split; [exact H3 | apply (Hs' "IOR:svc1" "svc1" H3)].
  - split; [exact H4 | apply (Hs'' "IOR:svc1" "svc1" H4)].
Defined.

(** ** The shutdown engine *)

#[local] Instance released_refl : Reflexive released.
Proof. by intros s. Qed.

#[local] Instance released_trans : Transitive released.
Proof. intros s1 s2 s3 (?&?) (?&?). split; [by etrans | congruence]. Qed.

#[local] Instance reaped_refl : Reflexive reaped.
Proof. by intros s. Qed.

#[local] Instance reaped_trans : Transitive reaped.
Proof. intros s1 s2 s3 (?&?&?) (?&?&?). split_and!; [by etrans | by etrans | congruence]. Qed.

Lemma same_buckets_reaped s s' : same_buckets s s' → reaped s s'.
Proof.
  intros (Hb & _ & _ & Hq). unfold buckets in Hb. injection Hb as H1 H2 _ _.
  unfold reaped. by rewrite H1, H2, Hq.
Qed.

Lemma reaped_released s s' : reaped s s' → released s s'.
Proof. by intros (? & _ & ?). Qed.

Lemma take_first_sublist {A} (p : A → bool) (l : list A) x r :
  take_first p l = Some (x, r) → r `sublist_of` l.
Proof.
  intros H. apply take_first_Some in H as (l1 & l2 & -> & -> & _).
  apply sublist_app; [done|]. by apply sublist_cons.
Qed.

Lemma quiet_teardown t : Forall quiet t → teardown t = [].
Proof.
  unfold teardown. induction 1 as [|e t [He _] _ IH]; [done|].
  by rewrite filter_cons, decide_False by congruence.
Qed.

Lemma teardown_app t1 t2 : teardown (t1 ++ t2) = teardown t1 ++ teardown t2.
Proof. apply filter_app. Qed.

Lemma teardown_kills signal bucket : teardown (kills signal bucket) = kills signal bucket.
Proof.
  unfold teardown, kills. induction bucket as [|n l IH]; [done|].
  rewrite fmap_cons, filter_cons, decide_True by done. by rewrite IH.
Qed.

Lemma getDeviceNode_steps env p : steps reaped quiet Total (getDeviceNode env p).
Proof.
  unfold getDeviceNode. steps_tac.
  - split_and!; [done | by eapply take_first_sublist | done].
  - split_and!; [by eapply take_first_sublist | done | done].
  - eapply steps_at_impl; [| | apply local_unregisterDevice_steps];
      [intros ?; apply same_buckets_reaped | done].
Qed.

Lemma childExited_steps env p sg : steps reaped quiet Total (childExited env p sg).
Proof.
  unfold childExited. steps_tac; try apply getDeviceNode_steps; try done.
  all: try (eapply steps_at_impl; [| | apply local_unregisterService_steps];
    [intros ?; apply same_buckets_reaped | done]).
  all: split_and!; try done; by eapply take_first_sublist.
Qed.

Lemma timed_wait_steps env reaps : steps reaped quiet Total (timed_wait env reaps).
Proof.
  induction reaps as [|[p sg] reaps IH]; simpl; steps_tac.
  - apply childExited_steps.
  - apply IH.
Qed.

Lemma unregisterDevice_steps env d : steps released quiet NoFault (unregisterDevice env d).
Proof.
  intros s. destruct d as [d|]; [|by split_and!; [done | done | repeat constructor]].
  pose proof (unregisterDevice_run env d s) as H.
  destruct (take_first _ _) as [[node rest]|] eqn:E.
  - destruct H as (s' & t & Hrun & Ht & H1 & _ & _ & _ & _ & _ & Hq).
    unfold steps_at, result, final, calls. rewrite Hrun. cbn [fst snd].
    split_and!; [done | | done].
    split; [|done]. rewrite H1. by eapply take_first_sublist.
  - destruct H as (t & Hrun & Ht). unfold steps_at, result, final, calls. by rewrite Hrun.
Qed.

Lemma run_callbacks_steps env cbs : steps released quiet Total (run_callbacks env cbs).
Proof.
  induction cbs as [|cb cbs IH]; simpl; steps_tac; [|apply IH].
  destruct cb; simpl.
  - steps_tac; [apply unregisterDevice_steps].
  - eapply steps_at_impl; [| | apply childExited_steps];
      [intros ?; apply reaped_released | done].
Qed.

Lemma kill_all_run pids signal s :
  kill_all pids signal s = (Ok tt, s, (λ p, EvKill p signal) <$> pids).
Proof.
  induction pids as [|p pids IH]; [done|].
  simpl. munfold. by rewrite IH.
Qed.

(** A round of signals: every pending device is sent the signal, then the
    manager waits, if it was given time and there is someone to wait
    for. *)
Lemma killPendingDevices_run env signal timeout s :
  ∃ s' t, killPendingDevices env signal timeout s = (Ok tt, s', t)
    ∧ reaped s s'
    ∧ teardown t = kills signal (_pendingDevices s) ++ wait_event timeout (_pendingDevices s).
Proof.
  unfold killPendingDevices, wait_event. munfold. rewrite kill_all_run.
  rewrite <- list_fmap_compose.
  change ((λ p, EvKill p signal) ∘ pid) with (λ n, EvKill (pid n) signal).
  fold (kills signal (_pendingDevices s)).
  case_bool_decide.
  - destruct (_pendingDevices s) as [|n l] eqn:Hp.
    + eexists _, _. split; [reflexivity|]. split; [done|]. by rewrite !app_nil_r.
    + destruct (steps_total_run reaped quiet _ s (timed_wait_steps env (wait_reaps env signal) s))
        as ([] & s' & t & Hrun & Hr & Ht).
      rewrite Hrun. eexists _, _. split; [reflexivity|]. split; [done|].
      rewrite !teardown_app, teardown_kills, (quiet_teardown t Ht). by rewrite app_nil_r.
  - eexists _, _. split; [reflexivity|]. split; [done|].
    by rewrite !teardown_app, teardown_kills, !app_nil_r.
Qed.

(** The call of [releaseObject], guarded by the [try] block. *)
Lemma release_call_run env (dn : DeviceNode) s :
  ∃ s1 tc,
    try_catch
      (emit (EvOverrideBlockingCall (ptr_ior (device dn)) 3000);;
       releaseObject env (device dn))
      (λ _, mret tt) s = (Ok tt, s1, tc)
    ∧ released s s1
    ∧ teardown tc = release_events dn.
Proof.
  unfold releaseObject, release_events. destruct (device dn) as [o|]; [|by eexists _, _].
  destruct (steps_total_run released quiet _ s
              (run_callbacks_steps env (releaseObject_callbacks env o) s))
    as ([] & s1 & tc & Hrun & Hr & Hq).
  munfold. rewrite Hrun. simpl.
  destruct (releaseObject_fault env o); eexists _, _; (split; [reflexivity|]);
    (split; [done|]); cbn [ptr_ior];
    change (?a :: ?b :: ?l) with ([a; b] ++ l);
    rewrite !teardown_app, (quiet_teardown tc Hq); by rewrite ?app_nil_r.
Qed.

(** After the call: a node that is still at the front leaves the
    registered bucket, for the pending bucket when it has a pid. *)
Lemma requeue_front_run (dn : DeviceNode) s :
  requeue_front dn s =
    match _registeredDevices s with
    | front :: rest =>
        if bool_decide (front = dn) then
          (Ok tt,
           if bool_decide (pid dn = 0) then set_registeredDevices rest s
           else set_pendingDevices (_pendingDevices s ++ [dn]) (set_registeredDevices rest s),
           [])
        else (Ok tt, s, [])
    | [] => (Ok tt, s, [])
    end.
Proof.
  unfold requeue_front. munfold. destruct (_registeredDevices s) as [|front rest]; [done|].
  case_bool_decide; [|done]. by repeat case_bool_decide.
Qed.

Lemma sublist_requeue (l rest : DeviceList) (dn : DeviceNode) :
  l `sublist_of` dn :: rest →
  match l with
  | front :: r => if bool_decide (front = dn) then r `sublist_of` rest else l `sublist_of` rest
  | [] => True
  end.
Proof.
  intros H. destruct l as [|front r]; [done|].
  apply sublist_cons_r in H as [H|(l' & [= -> ->] & H)].
  - case_bool_decide; [|done]. etrans; [|exact H]. by apply sublist_cons.
  - by rewrite bool_decide_eq_true_2.
Qed.

(** One turn of the release loop. *)
Lemma release_front_run env s dn rest :
  _registeredDevices s = dn :: rest →
  ∃ s' t, release_front env s = (Ok tt, s', t)
    ∧ _registeredDevices s' `sublist_of` rest
    ∧ DEVICE_FORCE_QUIT_TIME s' = DEVICE_FORCE_QUIT_TIME s
    ∧ teardown t = release_events dn.
Proof.
  intros Hreg. unfold release_front.
  destruct (release_call_run env dn s) as (s1 & tc & Hrun & [Hsub Hq] & Htc).
  munfold. rewrite Hreg. munfold. rewrite Hrun. cbv beta iota.
  rewrite requeue_front_run. rewrite Hreg in Hsub.
  apply sublist_requeue in Hsub.
  destruct (_registeredDevices s1) as [|front r] eqn:E.
  - eexists _, _. split; [reflexivity|]. rewrite E, app_nil_r. split_and!; try done.
    apply sublist_nil_l.
  - case_bool_decide.
    + eexists _, _. split; [reflexivity|]. rewrite app_nil_r.
      case_bool_decide; by split_and!.
    + eexists _, _. split; [reflexivity|]. rewrite E, app_nil_r. by split_and!.
Qed.

(** The release loop empties the registered bucket within as many turns
    as the bucket has nodes; it asks the nodes it finds at the front to
    release themselves, in the order of the bucket. *)
Lemma release_loop_run env fuel : ∀ s,
  (length (_registeredDevices s) ≤ fuel)%nat →
  ∃ s' t rel, release_loop env fuel s = (Ok tt, s', t)
    ∧ _registeredDevices s' = []
    ∧ DEVICE_FORCE_QUIT_TIME s' = DEVICE_FORCE_QUIT_TIME s
    ∧ rel `sublist_of` _registeredDevices s
    ∧ teardown t = rel ≫= release_events.
Proof.
  induction fuel as [|fuel IH]; intros s Hlen.
  - destruct (_registeredDevices s) as [|dn rest] eqn:E; [|simpl in Hlen; lia].
    exists s, [], []. simpl. munfold. rewrite E. by split_and!.
  - destruct (_registeredDevices s) as [|dn rest] eqn:E.
    { exists s, [], []. simpl. munfold. rewrite E. by split_and!. }
    destruct (release_front_run env s dn rest E) as (s1 & t1 & Hrun & Hsub & Hq & Ht1).
    destruct (IH s1) as (s' & t2 & rel & Hrun2 & Hnil & Hq2 & Hrel & Ht2).
    { apply sublist_length in Hsub. simpl in Hlen. lia. }
    exists s', (t1 ++ t2), (dn :: rel). simpl. munfold. rewrite E, Hrun, Hrun2.
    split_and!; [done | done | congruence | |].
    + apply sublist_skip. by etrans.
    + rewrite teardown_app, Ht1, Ht2. done.
Qed.

(** *** When no child calls back and none is reaped *)

Lemma release_front_calm env s dn rest :
  (∀ o, releaseObject_callbacks env o = []) →
  _registeredDevices s = dn :: rest →
  ∃ t, release_front env s =
         (Ok tt,
          if bool_decide (pid dn = 0) then set_registeredDevices rest s
          else set_pendingDevices (_pendingDevices s ++ [dn]) (set_registeredDevices rest s),
          t)
       ∧ teardown t = release_events dn.
Proof.
  intros Hcalm Hreg. unfold release_front, releaseObject, release_events. munfold.
  rewrite Hreg. munfold.
  destruct (device dn) as [o|]; munfold.
  - rewrite Hcalm. simpl. munfold.
    destruct (releaseObject_fault env o); rewrite requeue_front_run, Hreg;
      rewrite bool_decide_eq_true_2 by done; eexists; (split; [reflexivity|]);
      cbn [ptr_ior]; by rewrite app_nil_r.
  - rewrite requeue_front_run, Hreg. rewrite bool_decide_eq_true_2 by done.
    eexists; (split; [reflexivity|]). by rewrite app_nil_r.
Qed.

Lemma release_loop_calm env fuel : ∀ s,
  (∀ o, releaseObject_callbacks env o = []) →
  (length (_registeredDevices s) ≤ fuel)%nat →
  ∃ s' t, release_loop env fuel s = (Ok tt, s', t)
    ∧ _registeredDevices s' = []
    ∧ _pendingDevices s' =
        _pendingDevices s ++ filter (λ n, pid n ≠ 0) (_registeredDevices s)
    ∧ DEVICE_FORCE_QUIT_TIME s' = DEVICE_FORCE_QUIT_TIME s
    ∧ teardown t = _registeredDevices s ≫= release_events.
Proof.
  induction fuel as [|fuel IH]; intros s Hcalm Hlen.
  - destruct (_registeredDevices s) as [|dn rest] eqn:E; [|simpl in Hlen; lia].
    exists s, []. simpl. munfold. rewrite E.
    split_and!; try done. by rewrite filter_nil, app_nil_r.
  - destruct (_registeredDevices s) as [|dn rest] eqn:E.
    { exists s, []. simpl. munfold. rewrite E.
      split_and!; try done. by rewrite filter_nil, app_nil_r. }
    destruct (release_front_calm env s dn rest Hcalm E) as (t1 & Hrun & Ht1).
    set (s1 := if bool_decide (pid dn = 0) then set_registeredDevices rest s
               else set_pendingDevices (_pendingDevices s ++ [dn])
                      (set_registeredDevices rest s)) in *.
    assert (Hs1 : _registeredDevices s1 = rest) by (unfold s1; by case_bool_decide).
    destruct (IH s1 Hcalm) as (s' & t2 & Hrun2 & Hnil & Hp & Hq & Ht2).
    { rewrite Hs1. simpl in Hlen. lia. }
    exists s', (t1 ++ t2). simpl. munfold. rewrite E, Hrun, Hrun2.
    split_and!; [done | done | | |].
    + rewrite Hp, Hs1, filter_cons. unfold s1.
      repeat case_bool_decide; case_decide; try done; simpl.
      by rewrite <- app_assoc.
    + rewrite Hq. unfold s1. by case_bool_decide.
    + by rewrite teardown_app, Ht1, Ht2, Hs1.
Qed.

Lemma killPendingDevices_calm env signal timeout s :
  wait_reaps env signal = [] →
  ∃ t, killPendingDevices env signal timeout s = (Ok tt, s, t)
       ∧ teardown t = kills signal (_pendingDevices s) ++ wait_event timeout (_pendingDevices s).
Proof.
  intros Hcalm. unfold killPendingDevices, wait_event. munfold.
  rewrite kill_all_run, Hcalm. rewrite <- list_fmap_compose.
  change ((λ p, EvKill p signal) ∘ pid) with (λ n, EvKill (pid n) signal).
  fold (kills signal (_pendingDevices s)).
  case_bool_decide; [destruct (_pendingDevices s) as [|n l]|];
    eexists; (split; [reflexivity|]);
    rewrite ?teardown_app, ?teardown_kills; by rewrite ?app_nil_r.
Qed.

(** ** Escalation *)

Lemma release_events_no_wait usec rel : EvTimedWait usec ∉ rel ≫= release_events.
Proof.
  intros Hin. apply list_elem_of_bind in Hin as (n & Hin & _).
  unfold release_events in Hin. destruct (device n); by not_in Hin.
Qed.

Lemma kills_no_wait usec signal P : EvTimedWait usec ∉ kills signal P.
Proof. intros Hin. by apply list_elem_of_fmap in Hin as (n & ? & _). Qed.

Lemma wait_event_wait usec timeout P :
  EvTimedWait usec ∈ wait_event timeout P → usec = timeout ∧ timeout > 0.
Proof.
  unfold wait_event. case_bool_decide; [|by intros ?%elem_of_nil].
  destruct P; [by intros ?%elem_of_nil|].
  intros [= ->]%list_elem_of_singleton. done.
Qed.



(** ** Matching the manager's own implementation *)

Lemma first_match_Some p impls impl :
  first_match p impls = Some impl →
  ∃ l1 l2, impls = l1 ++ impl :: l2 ∧ p impl = true ∧ Forall (λ i, p i = false) l1.
Proof.
  induction impls as [|i impls IH]; simpl; [done|].
  destruct (p i) eqn:Hi.
  - intros [= ->]. by exists [], impls.
  - intros H. destruct (IH H) as (l1 & l2 & -> & Hp & Hl1).
    exists (i :: l1), l2. by repeat constructor.
Qed.

Lemma first_match_None p impls :
  first_match p impls = None → Forall (λ i, p i = false) impls.
Proof.
  induction impls as [|i impls IH]; simpl; [constructor|].
  destruct (p i) eqn:Hi; [done|]. intros H. constructor; auto.
Qed.

Lemma checkProcessorAndOs_matches impl u :
  checkProcessorAndOs impl (mkHostProps (machine u) (sysname u)) = true ↔ matches_host u impl.
Proof.
  unfold checkProcessorAndOs, matches_host. simpl.
  rewrite andb_true_iff, !bool_decide_eq_true. done.
Qed.

Lemma set_profiles_id s : set_profiles (profiles s) s = s.
Proof. by destruct s. Qed.

Lemma set_profiles_twice m m' s : set_profiles m (set_profiles m' s) = set_profiles m s.
Proof. by destruct s. Qed.

(** ** Splitting the placements *)

Lemma resolveImplementation_run rsc prof s :
  profiles s !! rsc = Some prof →
  resolveImplementation rsc s =
    match first_match (λ impl, checkProcessorAndOs impl (devmgr_prf s))
            (prof_implementations prof) with
    | Some impl =>
        (Ok true,
         set_profiles (<[rsc := setSelectedImplementation impl prof]> (profiles s)) s, [])
    | None => (Ok false, s, [])
    end.
Proof.
  intros H. unfold resolveImplementation. munfold. rewrite H.
  by destruct (first_match _ _).
Qed.

(** One turn of the first loop: a placement that does not resolve is
    logged and leaves the lists and the manager as they were; one that
    resolves is put at the end of one of the two lists, with its profile
    in the store. *)
Lemma split_placement_run sdr standalone composite cp s :
  cp_instantiations cp ≠ [] →
  ∃ t, Forall (λ e, ∃ msg, e = EvLog LvlError msg) t
  ∧ split_placement sdr (standalone, composite) cp s =
    match composite_part sdr (devmgr_prf s) cp with
    | None => (Ok (standalone, composite), s, t)
    | Some c =>
        let p := fresh (dom (profiles s)) in
        (Ok (if c then (standalone, composite ++ [(cp, p)])
             else (standalone ++ [(cp, p)], composite)),
         set_profiles
           (<[p := default (mkProgramProfile "" "" "" "" [] None "" "" false [] [])
                     (match LoadProfile sdr (getFileNameFromRefId sdr (cp_fileRefId cp)) with
                      | inr prof =>
                          (λ impl, setSelectedImplementation impl prof)
                            <$> resolve_placement sdr (devmgr_prf s) cp
                      | inl _ => None
                      end)]> (profiles s)) s,
         [])
    end ∧ (composite_part sdr (devmgr_prf s) cp = None → t ≠ []).
Proof.
  intros Hinst. unfold split_placement, first_instantiation_id, composite_part, resolve_placement.
  destruct (cp_instantiations cp) as [|inst0 insts]; [done|clear Hinst].
  destruct (LoadProfile sdr _) as [e|prof] eqn:Hload.
  { munfold. simpl. destruct (is_runtime_error e); eexists; (split; [|split; [reflexivity|done]]);
      repeat constructor; by eexists. }
  assert (Hfresh : profiles s !! fresh (dom (profiles s)) = None).
  { apply not_elem_of_dom, is_fresh. }
  set (p := fresh (dom (profiles s))) in *.
  munfold. rewrite (resolveImplementation_run p prof) by (simpl; by rewrite lookup_insert_eq).
  simpl. destruct (first_match _ _) as [impl|] eqn:Hm; simpl.
  2:{ rewrite delete_insert_id by done. rewrite set_profiles_twice, set_profiles_id.
      eexists. split; [|split; [reflexivity|done]]. repeat constructor; by eexists. }
  rewrite lookup_insert_eq. simpl.
  destruct (resolveSoftpkgDependencies (devmgr_prf s) impl) eqn:Hdep; simpl.
  2:{ rewrite delete_insert_eq, delete_insert_id by done.
      rewrite !set_profiles_twice, set_profiles_id.
      eexists. split; [|split; [reflexivity|done]]. repeat constructor; by eexists. }
  rewrite insert_insert_eq, set_profiles_twice.
  exists []. split; [constructor|]. split; [|done].
  by destruct (isCompositePartOf cp && bool_decide (impl_codeType impl = SHARED_LIBRARY)).
Qed.

Lemma fold_each_app {A S} (body : S → A → M S) (l1 l2 : list A) acc s :
  fold_each body (l1 ++ l2) acc s = (fold_each body l1 acc ≫= fold_each body l2) s.
Proof.
  revert acc s. induction l1 as [|x l1 IH]; intros acc s; simpl.
  - munfold. by destruct (fold_each body l2 acc s) as [[r s'] t].
  - munfold. destruct (body acc x s) as [[[a|e| | |] s1] t1]; try done.
    rewrite IH. munfold.
    destruct (fold_each body l1 a s1) as [[[a'|e'| | |] s2] t2]; try done.
    destruct (fold_each body l2 a' s2) as [[r s3] t3]. by rewrite app_assoc.
Qed.

(** The first loop returns for every list of placements.  The two lists it
    builds hold, in the order of the input, the placements that resolve:
    those that are part of a composite and resolve to a shared library on
    one list, all the others on the other.  Only the store of profiles
    changes, and only error records are written. *)
Lemma split_loop_run sdr cps : ∀ standalone composite s,
  Forall (λ cp, cp_instantiations cp ≠ []) cps →
  ∃ standalone' composite' m t,
    fold_each (split_placement sdr) cps (standalone, composite) s
      = (Ok (standalone', composite'), set_profiles m s, t)
    ∧ standalone'.*1 = standalone.*1
        ++ filter (λ cp, composite_part sdr (devmgr_prf s) cp = Some false) cps
    ∧ composite'.*1 = composite.*1
        ++ filter (λ cp, composite_part sdr (devmgr_prf s) cp = Some true) cps
    ∧ Forall (λ e, ∃ msg, e = EvLog LvlError msg) t.
Proof.
  induction cps as [|cp cps IH]; intros st co s Hinst.
  - exists st, co, (profiles s), []. rewrite set_profiles_id. simpl.
    by rewrite !filter_nil, !app_nil_r.
  - apply Forall_cons in Hinst as [Hcp Hinst].
    destruct (split_placement_run sdr st co cp s Hcp) as (t1 & Ht1 & Hrun & _).
    cbn [fold_each]. munfold. rewrite Hrun. rewrite !filter_cons.
    destruct (composite_part sdr (devmgr_prf s) cp) as [[|]|] eqn:Hc; cbv beta iota zeta.
    + match goal with
      | |- context [fold_each (split_placement sdr) cps (?a, ?b) ?s1] =>
          destruct (IH a b s1 Hinst) as (st' & co' & m & t2 & Hrun2 & Hst & Hco & Ht2)
      end.
      rewrite Hrun2. exists st', co', m, t2. rewrite set_profiles_twice.
      split_and!; [done | | | done].
      * rewrite Hst. by repeat case_decide.
      * rewrite Hco. repeat case_decide; try done.
        rewrite fmap_app. simpl. by rewrite <- app_assoc.
    + match goal with
      | |- context [fold_each (split_placement sdr) cps (?a, ?b) ?s1] =>
          destruct (IH a b s1 Hinst) as (st' & co' & m & t2 & Hrun2 & Hst & Hco & Ht2)
      end.
      rewrite Hrun2. exists st', co', m, t2. rewrite set_profiles_twice.
      split_and!; [done | | | done].
      * rewrite Hst. repeat case_decide; try done.
        rewrite fmap_app. simpl. by rewrite <- app_assoc.
      * rewrite Hco. by repeat case_decide.
    + destruct (IH st co s Hinst) as (st' & co' & m & t2 & Hrun2 & Hst & Hco & Ht2).
      rewrite Hrun2. exists st', co', m, (t1 ++ t2).
      split_and!; [done | | | by apply Forall_app].
      * rewrite Hst. by repeat case_decide.
      * rewrite Hco. by repeat case_decide.
Qed.

(** ** Matching implementations *)

(** C5.  [setupImplementationForHost] selects, for the manager's own
    profile, the first implementation whose processor and OS are the
    host's machine and sysname; when no implementation is (none at all,
    or none that matches), it raises std::runtime_error ([postConstructor]
    calls it outside of any try block).  In the loop over the placements (each
    with an instantiation, as the loop reads the first one unchecked), a
    placement that does not resolve (its profile does not load, no
    implementation matches, or a softpkg dependency does not resolve) is
    logged as an error and leaves the lists and the manager as they were:
    the loop returns for every list of placements, with the result it has
    without that placement. *)
Theorem implementation_matching (sdr : Sdr) (s : DeviceManager) :
  (∀ p prof,
     devmgr_info s = Some p → profiles s !! p = Some prof →
     let r := setupImplementationForHost s in
     (∃ l1 impl l2,
        prof_implementations prof = l1 ++ impl :: l2
        ∧ matches_host (_uname s) impl
        ∧ Forall (λ i, ¬ matches_host (_uname s) i) l1
        ∧ result r = Ok tt
        ∧ profiles (final r) !! p = Some (setSelectedImplementation impl prof))
     ∨ (Forall (λ i, ¬ matches_host (_uname s) i) (prof_implementations prof)
        ∧ result r = Throw RuntimeError))
  ∧ (∀ lists cp,
       cp_instantiations cp ≠ [] →
       resolve_placement sdr (devmgr_prf s) cp = None →
       ∃ t, split_placement sdr lists cp s = (Ok lists, s, t)
            ∧ t ≠ [] ∧ Forall (λ e, ∃ msg, e = EvLog LvlError msg) t)
  ∧ (∀ cps lists,
       Forall (λ cp, cp_instantiations cp ≠ []) cps →
       ∃ lists', result (fold_each (split_placement sdr) cps lists s) = Ok lists')
  ∧ (∀ cps1 cp cps2 lists,
       Forall (λ cp, cp_instantiations cp ≠ []) (cps1 ++ cp :: cps2) →
       resolve_placement sdr (devmgr_prf s) cp = None →
       let r := fold_each (split_placement sdr) (cps1 ++ cp :: cps2) lists s in
       let r' := fold_each (split_placement sdr) (cps1 ++ cps2) lists s in
       result r = result r' ∧ final r = final r').
Proof.
  split_and!.
  - intros p prof Hinfo Hprof r. unfold r, setupImplementationForHost. munfold.
    rewrite Hinfo. simpl. rewrite Hprof.
    case_bool_decide as Hlen; simpl.
    { right. apply length_zero_iff_nil in Hlen. rewrite Hlen. by split; [constructor|]. }
    destruct (first_match _ _) as [impl|] eqn:Hm; simpl.
    + left. apply first_match_Some in Hm as (l1 & l2 & Himpls & Himpl & Hl1).
      exists l1, impl, l2. split_and!; [done | by apply checkProcessorAndOs_matches | | done |].
      * eapply Forall_impl; [exact Hl1|]. intros i Hi Hmatch.
        apply checkProcessorAndOs_matches in Hmatch. simpl in Hi. congruence.
      * unfold final. simpl. by rewrite lookup_insert_eq.
    + right. split; [|done]. apply first_match_None in Hm.
      eapply Forall_impl; [exact Hm|]. intros i Hi Hmatch.
      apply checkProcessorAndOs_matches in Hmatch. simpl in Hi. congruence.
  - intros [st co] cp Hinst Hres.
    destruct (split_placement_run sdr st co cp s Hinst) as (t & Ht & Hrun & Hne).
    unfold composite_part in *. rewrite Hres in *. simpl in *.
    exists t. split_and!; [done | by apply Hne | done].
  - intros cps [st co] Hinst. destruct (split_loop_run sdr cps st co s Hinst)
      as (st' & co' & m & t & Hrun & _). rewrite Hrun. by eexists.
  - intros cps1 cp cps2 [st co] Hinst Hres r r'. unfold r, r'. rewrite !fold_each_app.
    apply Forall_app in Hinst as [Hinst1 Hinst2]. apply Forall_cons in Hinst2 as [Hcp _].
    munfold. destruct (split_loop_run sdr cps1 st co s Hinst1) as (st' & co' & m & t & Hrun & _).
    rewrite Hrun. cbn [fold_each]. munfold.
    destruct (split_placement_run sdr st' co' cp (set_profiles m s) Hcp) as (t1 & _ & Hrun1 & _).
    rewrite Hrun1. unfold composite_part.
    assert (devmgr_prf (set_profiles m s) = devmgr_prf s) as -> by done.
    rewrite Hres. simpl.
    by destruct (fold_each (split_placement sdr) cps2 (st', co') (set_profiles m s))
      as [[[?|?| | |] ?] ?].
Qed.
(** ** Launch order *)

#[local] Instance anyhow_refl : Reflexive anyhow.
Proof. done. Qed.

#[local] Instance anyhow_trans : Transitive anyhow.
Proof. done. Qed.

Ltac launch_free :=
  repeat first
    [ steps_step
    | done
    | match goal with
      | |- steps_at _ _ _ (if ?b then _ else _) _ => destruct b eqn:?
      | |- steps_at _ _ _ ((if ?b then _ else _) ≫= _) _ => destruct b eqn:?
      end ].

Lemma registerDevice_no_launch env d : steps anyhow not_launch Any (registerDevice env d).
Proof.
  intros s. unfold registerDevice, forward_registerDevice, increment_registeredDevices,
    deviceIsRegistered, findProfile, ns_bind, dmnMgr_call.
  launch_free.
Qed.

Lemma poll_IOR_no_launch env id : steps anyhow not_launch Any (poll_IOR env id).
Proof.
  intros s. unfold poll_IOR, getIORfromID. launch_free.
  apply registerDevice_no_launch.
Qed.

Lemma getCompositeDeviceIOR_no_launch env cps cp :
  steps anyhow not_launch Any (getCompositeDeviceIOR env cps cp).
Proof.
  intros s. unfold getCompositeDeviceIOR. launch_free.
  apply poll_IOR_no_launch.
Qed.

Lemma addDeviceImplProperties_no_launch sdr p impl :
  steps anyhow not_launch Any (addDeviceImplProperties sdr p impl).
Proof. intros s. unfold addDeviceImplProperties. launch_free. Qed.

Lemma getCodeFilePath_run sdr impl path b s :
  ∃ r t, getCodeFilePath sdr impl path b s = (Ok r, s, t) ∧ Forall not_launch t.
Proof.
  unfold getCodeFilePath. munfold.
  repeat case_match; eexists _, _; (split; [reflexivity|]); by repeat constructor.
Qed.

Lemma getDeviceOrService_run prof s :
  ∃ r t, getDeviceOrService prof s = (Ok r, s, t) ∧ Forall not_launch t
         ∧ ∀ ty, r = Some ty → ty = "device" ∨ ty = "service".
Proof.
  unfold getDeviceOrService. munfold.
  repeat case_match; eexists _, _; (split; [reflexivity|]);
    (split; [by repeat constructor|]); intros ty [= <-];
    repeat match goal with H : _ || _ = true |- _ => apply orb_true_iff in H as [H|H] end;
    repeat match goal with H : bool_decide _ = true |- _ => apply bool_decide_eq_true in H end;
    auto.
Qed.

(** *** Traces *)

Lemma calls_bind {A B} (m : M A) (f : A → M B) s :
  calls ((m ≫= f) s) =
    calls (m s) ++ match result (m s) with
                   | Ok a => calls (f a (final (m s)))
                   | _ => []
                   end.
Proof.
  unfold calls, result, final. munfold.
  destruct (m s) as [[[a|e| | |] s1] t1]; simpl; rewrite ?app_nil_r; try done.
  by destruct (f a s1) as [[r s2] t2].
Qed.

Lemma launched_app t1 t2 : launched (t1 ++ t2) = launched t1 ++ launched t2.
Proof. apply omap_app. Qed.

Lemma not_launch_launched t : Forall not_launch t → launched t = [].
Proof.
  induction 1 as [|e t He _ IH]; [done|].
  destruct e; try done; simpl; exact IH.
Qed.

Lemma launches_nil Q ids : launches Q ids [].
Proof. split; [constructor | apply sublist_nil_l]. Qed.

Lemma launches_app Q ids1 ids2 t1 t2 :
  launches Q ids1 t1 → launches Q ids2 t2 → launches Q (ids1 ++ ids2) (t1 ++ t2).
Proof.
  intros [H1 H1'] [H2 H2']. split; [by apply Forall_app|].
  rewrite launched_app. by apply sublist_app.
Qed.

Lemma launches_not_launch Q ids t :
  (∀ e, not_launch e → Q e) → Forall not_launch t → launches Q ids t.
Proof.
  intros HQ Ht. split; [eapply Forall_impl; eauto|].
  rewrite not_launch_launched by done. apply sublist_nil_l.
Qed.

(** A launch-free computation, then one that launches. *)
Lemma launches_bind Q ids {A B} (m : M A) (f : A → M B) s :
  (∀ e, not_launch e → Q e) →
  steps_at anyhow not_launch Any m s →
  (∀ a s1, launches Q ids (calls (f a s1))) →
  launches Q ids (calls ((m ≫= f) s)).
Proof.
  intros HQ (_ & _ & Hm) Hf. rewrite calls_bind.
  change ids with ([] ++ ids). apply launches_app.
  - by apply launches_not_launch.
  - destruct (result (m s)); [apply Hf | apply launches_nil..].
Qed.

Lemma for_each_launches Q {A} (id : A → string) (l : list A) (body : A → M unit) :
  (∀ x s, launches Q [id x] (calls (body x s))) →
  ∀ s, launches Q (id <$> l) (calls (for_each l body s)).
Proof.
  intros Hb. induction l as [|x l IH]; intros s; [apply launches_nil|].
  cbn [for_each]. rewrite calls_bind. rewrite fmap_cons.
  change (launches Q ([id x] ++ (id <$> l)) (calls (body x s) ++
    match result (body x s) with Ok a => calls (for_each l body (final (body x s))) | _ => [] end)).
  apply launches_app; [apply Hb|].
  destruct (result (body x s)); [apply IH | apply launches_nil..].
Qed.

Lemma for_each_launches_bind Q {A} (ids : A → list string) (l : list A) (body : A → M unit) :
  (∀ x s, launches Q (ids x) (calls (body x s))) →
  ∀ s, launches Q (l ≫= ids) (calls (for_each l body s)).
Proof.
  intros Hb. induction l as [|x l IH]; intros s; [apply launches_nil|].
  cbn [for_each]. rewrite calls_bind. rewrite bind_cons.
  apply launches_app; [apply Hb|].
  destruct (result (body x s)); [apply IH | apply launches_nil..].
Qed.

Lemma standalone_not_launch e : not_launch e → standalone_launch e.
Proof. by destruct e. Qed.

Lemma composite_not_launch co e : not_launch e → composite_launch co e.
Proof. by destruct e. Qed.

Lemma launches_one Q i ty path ior s :
  Q (EvLaunch i ty path ior) → launches Q [i] (calls (emit (EvLaunch i ty path ior) s)).
Proof. intros HQ. split; [by repeat constructor | done]. Qed.

(** Peels the launch-free head of a computation. *)
Ltac launches_step HQ :=
  lazymatch goal with
  | |- launches _ _ (calls ((getDeviceOrService _ ≫= _) _)) => fail
  | |- launches _ _ (calls ((_ ≫= _) _)) =>
      apply launches_bind; [exact HQ | launch_free | intros ? ?]
  | |- launches _ _ (calls (match ?x with _ => _ end _)) => destruct x eqn:?
  | |- launches _ _ (calls ((if ?b then _ else _) _)) => destruct b eqn:?
  | |- launches _ _ (calls (mret _ _)) => apply launches_nil
  | |- launches _ _ (calls (null_deref _)) => apply launches_nil
  | |- launches _ _ (calls (emit (EvLog _ _) _)) => apply launches_not_launch; [exact HQ|]
  end.

Lemma getCodeFilePath_no_launch sdr impl path b :
  steps anyhow not_launch Any (getCodeFilePath sdr impl path b).
Proof. intros s. unfold getCodeFilePath. launch_free. Qed.

Ltac launch_free_call :=
  first [ apply getCompositeDeviceIOR_no_launch | apply addDeviceImplProperties_no_launch
        | apply poll_IOR_no_launch | apply registerDevice_no_launch
        | apply getCodeFilePath_no_launch ].

(** One turn of the second loop launches instantiations of its placement
    only, in their order, as devices or services. *)
Lemma launch_standalone_launches sdr env cps cIter s :
  launches standalone_launch (inst_id <$> cp_instantiations cIter.1)
    (calls (launch_standalone sdr env cps cIter s)).
Proof.
  unfold launch_standalone.
  repeat (launches_step standalone_not_launch; try launch_free_call).
  { unfold first_instantiation_id. launch_free. }
  apply for_each_launches. intros instantiation s'.
  unfold recordComponentInstantiationId, update_profile.
  repeat (launches_step standalone_not_launch; try launch_free_call).
  match goal with
  | |- launches _ _ (calls ((getDeviceOrService ?p ≫= _) ?s)) =>
      rewrite calls_bind;
      destruct (getDeviceOrService_run p s) as (r & t & Hrun & Ht & Hty);
      rewrite Hrun; unfold result, final; cbn [fst snd]
  end.
  change [inst_id instantiation] with ([] ++ [inst_id instantiation]).
  apply launches_app; [by apply launches_not_launch; [apply standalone_not_launch|]|].
  destruct r as [ty|]; [|apply launches_nil].
  split; [|done]. apply Forall_singleton. simpl. by apply Hty.
Qed.

(** The second loop launches instantiations of the standalone placements
    only, in the order of the list, as devices or services. *)
Lemma standalone_loop_launches sdr env cps st s :
  launches standalone_launch (instantiation_ids st)
    (calls (for_each st (launch_standalone sdr env cps) s)).
Proof.
  unfold instantiation_ids. apply for_each_launches_bind.
  intros cIter s'. apply launch_standalone_launches.
Qed.

Lemma steps_for_each_in R `{!Reflexive R, !Transitive R} P k {A} (l : list A)
    (body : A → M unit) :
  (∀ x, x ∈ l → steps R P k (body x)) → steps R P k (for_each l body).
Proof.
  intros Hb. induction l as [|x l IH]; simpl; intros s; [by apply steps_at_ret|].
  apply steps_at_bind; [done.. | apply Hb, list_elem_of_here |].
  intros _ s1 _. apply IH. intros y Hy. apply Hb. by apply list_elem_of_further.
Qed.

Lemma instantiation_ids_in (d : Deployment) co i :
  d ∈ co → i ∈ cp_instantiations d.1 → inst_id i ∈ instantiation_ids co.
Proof.
  intros Hd Hi. unfold instantiation_ids. apply list_elem_of_bind.
  exists d. split; [|done]. by apply list_elem_of_fmap_2.
Qed.

Ltac composite_free co :=
  repeat first
    [ match goal with
      | |- steps_at _ _ _ (for_each _ _) _ =>
          apply steps_for_each_in; [apply _.. | intros ? ? ?]
      end
    | steps_step
    | done
    | match goal with
      | |- steps_at _ _ _ (if ?b then _ else _) _ => destruct b eqn:?
      | |- steps_at _ _ _ ((if ?b then _ else _) ≫= _) _ => destruct b eqn:?
      | |- steps_at anyhow (composite_launch _) Any _ _ =>
          eapply steps_at_impl; [| apply (composite_not_launch co) | launch_free_call]; done
      end ].

(** One turn of the third loop launches instantiations of its placement
    only, as shared libraries. *)
Lemma launch_composite_steps sdr env cps st co compPlaceIter :
  compPlaceIter ∈ co →
  steps anyhow (composite_launch co) Any (launch_composite sdr env cps st compPlaceIter).
Proof.
  intros Hin s. unfold launch_composite, recordComponentInstantiationId, update_profile.
  composite_free co.
  split; [done | by eapply instantiation_ids_in].
Qed.
(** ** Instances *)

Lemma implementation_matching_witness :
  ((∃ l1 impl l2,
      prof_implementations devmgr_profile = l1 ++ impl :: l2
      ∧ matches_host (_uname starting_manager) impl
      ∧ Forall (λ i, ¬ matches_host (_uname starting_manager) i) l1
      ∧ result (setupImplementationForHost starting_manager) = Ok tt
      ∧ profiles (final (setupImplementationForHost starting_manager)) !! 0%nat
        = Some (setSelectedImplementation impl devmgr_profile))
   ∨ (Forall (λ i, ¬ matches_host (_uname starting_manager) i)
        (prof_implementations devmgr_profile)
      ∧ result (setupImplementationForHost starting_manager) = Throw RuntimeError))
  ∧ (∃ t, split_placement sample_sdr ([], []) broken_cp starting_manager
          = (Ok ([], []), starting_manager, t)
          ∧ t ≠ [] ∧ Forall (λ e, ∃ msg, e = EvLog LvlError msg) t)
  ∧ (∃ lists',
       result (fold_each (split_placement sample_sdr) sample_placements ([], [])
                 starting_manager) = Ok lists')
  ∧ (let r := fold_each (split_placement sample_sdr) ([child_cp] ++ broken_cp :: [parent_cp])
                ([], []) starting_manager in
     let r' := fold_each (split_placement sample_sdr) ([child_cp] ++ [parent_cp])
                 ([], []) starting_manager in
     result r = result r' ∧ final r = final r')
  ∧ result (setupImplementationForHost starting_manager) = Ok tt
  ∧ (prof_selectedImplementation
       <$> profiles (final (setupImplementationForHost starting_manager)) !! 0%nat)
    = Some (Some (host_impl "x86" "devmgr" EXECUTABLE)).
Proof.
  destruct (implementation_matching sample_sdr starting_manager) as (H1 & H2 & H3 & H4).
  split; [|split; [|split; [|split; [|split]]]].
  - apply (H1 0%nat devmgr_profile); reflexivity.
  - apply (H2 ([], []) broken_cp); [discriminate | reflexivity].
  - apply (H3 sample_placements ([], [])). repeat constructor; discriminate.
  - apply (H4 [child_cp] broken_cp [parent_cp] ([], []));
      [repeat constructor; discriminate | reflexivity].
  - reflexivity.
  - vm_compute. reflexivity.
Defined.

(** * Further properties *)

(** ** What a registration leaves *)

(** [registerDevice] either leaves the manager as it was, without a call
    on the Domain Manager, or leaves it with the device registered.  In
    the first case, a call that raises InvalidObjectReference has called
    neither the naming service nor the Domain Manager, and a call that has
    tried to bind the label returns. *)
Lemma registerDevice_outcomes env d s :
  let r := registerDevice env (Some d) s in
  (final r = s ∧ Forall (λ e, is_DomMgr_call e = false) (calls r)
   ∧ (result r = Throw InvalidObjectReference →
      Forall (λ e, is_directory_call e = false) (calls r))
   ∧ (EvNaming DevMgrCtx NsBind (obj_label d) ∈ calls r → result r = Ok tt))
  ∨ (final r = with_device d s
     ∧ _internalShutdown s = false
     ∧ existsb (λ n, is_equivalent (device n) d) (_registeredDevices s) = false
     ∧ devMgrContext s !! obj_label d = None
     ∧ naming_fault env = None
     ∧ (result r = Ok tt
        ∨ ∃ e, result r = Throw e ∧ dmnMgr_fault env = Some e
               ∧ _adminState s = DEVMGR_REGISTERED
               ∧ is_std_exception e = false ∧ is_CORBA_Exception e = false)).
Proof.
  unfold registerDevice, deviceIsRegistered, findProfile, ns_bind,
    increment_registeredDevices, forward_registerDevice, dmnMgr_call,
    with_device, registered_node, pending_without. munfold.
  repeat (case_scrutinee; simpl in * ).
  all: try (left; unfold final, result, calls; cbn [fst snd];
            split_and!;
              [ reflexivity
              | by repeat constructor
              | first [ by (intros _; repeat constructor)
                      | by intros [=]
                      | intros [= ->]; by simpl in * ]
              | first [ done | intros Hin; by not_in Hin ] ]).
  all: right; unfold final, result; cbn [fst snd];
       split_and!; try done; eauto.
  all: right; eexists; split_and!; try done; by eapply bool_decide_eq_true_1.
Qed.

(** ** The registry invariant *)

#[local] Instance winds_down_refl : Reflexive winds_down.
Proof. intros s. split_and!; auto. Qed.

#[local] Instance winds_down_trans : Transitive winds_down.
Proof.
  intros s1 s2 s3 (H1 & H2 & H3 & H4 & H5) (H1' & H2' & H3' & H4' & H5').
  split_and!; [by auto | by auto | | by auto |].
  - intros n Hn. destruct (H3' n Hn) as [H|H]; [by auto | right; by auto].
  - intros n Hn. destruct (H5' n Hn) as [H|H]; [by auto | right; by auto].
Qed.

Lemma Forall_sublist_of {A} (P : A → Prop) (l1 l2 : list A) :
  l1 `sublist_of` l2 → Forall P l2 → Forall P l1.
Proof.
  induction 1 as [|x l1 l2 _ IH|x l1 l2 _ IH]; intros H; [done| |].
  - apply Forall_cons in H as [??]. constructor; auto.
  - apply Forall_cons in H as [??]. auto.
Qed.

(** Nodes may leave the buckets. *)
Lemma shrinks_winds_down s s' :
  _registeredDevices s' `sublist_of` _registeredDevices s →
  _pendingDevices s' `sublist_of` _pendingDevices s →
  _registeredServices s' `sublist_of` _registeredServices s →
  _pendingServices s' `sublist_of` _pendingServices s →
  winds_down s s'.
Proof.
  intros H1 H2 H3 H4. split_and!.
  - intros (I1 & I2 & I3 & I4 & I5). split_and!.
    + by eapply Forall_sublist_of.
    + eapply sublist_NoDup; [exact I2|]. by apply fmap_sublist.
    + eapply sublist_NoDup; [exact I3|]. by apply fmap_sublist.
    + by eapply Forall_sublist_of.
    + by eapply Forall_sublist_of.
  - intros n Hn. by eapply elem_of_sublist.
  - intros n Hn. left. by eapply elem_of_sublist.
  - intros n Hn. by eapply elem_of_sublist.
  - intros n Hn. left. by eapply elem_of_sublist.
Qed.

Lemma same_buckets_winds_down s s' : same_buckets s s' → winds_down s s'.
Proof.
  intros (Hb & _). unfold buckets in Hb. injection Hb as H1 H2 H3 H4.
  apply shrinks_winds_down; by rewrite <- ?H1, <- ?H2, <- ?H3, <- ?H4.
Qed.

(** A node of the registered devices leaves, for the pending bucket when
    it has a pid. *)
Lemma requeue_winds_down s s' l1 node l2 :
  _registeredDevices s = l1 ++ node :: l2 →
  _registeredDevices s' = l1 ++ l2 →
  _pendingDevices s' =
    (if bool_decide (pid node ≠ 0) then _pendingDevices s ++ [node] else _pendingDevices s) →
  _registeredServices s' = _registeredServices s →
  _pendingServices s' = _pendingServices s →
  winds_down s s'.
Proof.
  intros Hs H1 H2 H3 H4.
  assert (l1 ++ l2 `sublist_of` l1 ++ node :: l2) as Hsub.
  { apply sublist_app; [done|]. by apply sublist_cons. }
  split_and!.
  - intros (I1 & I2 & I3 & I4 & I5). unfold registry_invariant.
    rewrite H1, H2, H3, H4. rewrite Hs in I1, I2. split_and!; try done.
    + by eapply Forall_sublist_of.
    + eapply sublist_NoDup; [exact I2|]. by apply fmap_sublist.
    + case_bool_decide; [|done]. apply Forall_app. split; [done|]. by repeat constructor.
  - intros n. rewrite H1, Hs. intros Hn. by eapply elem_of_sublist.
  - intros n. rewrite H2, Hs. case_bool_decide; [|by left].
    rewrite elem_of_app, list_elem_of_singleton. intros [?| ->]; [by left|right].
    apply elem_of_app. right. apply list_elem_of_here.
  - intros n. by rewrite H3.
  - intros n. rewrite H4. by left.
Qed.

Lemma quiet_not_kill e : quiet e → not_kill e.
Proof. intros [H _]. by destruct e. Qed.

Ltac winds_down_step :=
  first
    [ steps_step
    | match goal with
      | |- steps_at _ _ _ (if ?b then _ else _) _ => destruct b eqn:?
      | |- steps_at _ _ _ ((if ?b then _ else _) ≫= _) _ => destruct b eqn:?
      | |- steps_at winds_down not_kill _ (local_unregisterDevice _ _ _) _ =>
          eapply steps_at_impl;
            [intros ?; apply same_buckets_winds_down | apply quiet_not_kill
            | eapply steps_at_weaken; [|apply local_unregisterDevice_steps]; by auto]
      | |- steps_at winds_down not_kill _ (local_unregisterService _ _ _) _ =>
          eapply steps_at_impl;
            [intros ?; apply same_buckets_winds_down | apply quiet_not_kill
            | eapply steps_at_weaken; [|apply local_unregisterService_steps]; by auto]
      | |- winds_down ?s (set_registeredDevices _ ?s) =>
          apply shrinks_winds_down; simpl; try done; by eapply take_first_sublist
      | |- winds_down ?s (set_pendingDevices _ ?s) =>
          apply shrinks_winds_down; simpl; try done; by eapply take_first_sublist
      | |- winds_down ?s (set_registeredServices _ ?s) =>
          apply shrinks_winds_down; simpl; try done; by eapply take_first_sublist
      | |- winds_down ?s (set_pendingServices _ ?s) =>
          apply shrinks_winds_down; simpl; try done; by eapply take_first_sublist
      | |- not_kill _ => done
      end ].

Ltac winds_down_tac := repeat winds_down_step.

(** Uses the lemma of an operation, whatever the kind asked for. *)
Ltac winds_down_call L := eapply steps_at_weaken; [|apply L]; by auto.

Lemma decrement_registeredDevices_winds_down env d :
  steps winds_down not_kill Total (decrement_registeredDevices env d).
Proof.
  intros s. pose proof (decrement_registeredDevices_run env d s) as H.
  destruct (take_first _ _) as [[node rest]|] eqn:E.
  - destruct H as (s' & t & Hrun & Ht & H1 & H2 & H3 & H4 & _).
    unfold steps_at, result, final, calls. rewrite Hrun. cbn [fst snd].
    split_and!; [done | | eapply Forall_impl; [exact Ht | apply quiet_not_kill]].
    apply take_first_Some in E as (l1 & l2 & Hl & -> & _ & _).
    by eapply requeue_winds_down.
  - unfold steps_at, result, final, calls. rewrite H. cbn [fst snd].
    split_and!; [done | reflexivity | constructor].
Qed.

Lemma decrement_registeredServices_winds_down env o name :
  steps winds_down not_kill Total (decrement_registeredServices env o name).
Proof.
  intros s. pose proof (decrement_registeredServices_run env o name s) as H.
  destruct (take_first _ _) as [[node rest]|] eqn:E.
  - destruct H as (s' & t & Hrun & Ht & H1 & H2 & H3 & H4 & _).
    unfold steps_at, result, final, calls. rewrite Hrun. cbn [fst snd].
    split_and!; [done | | eapply Forall_impl; [exact Ht | apply quiet_not_kill]].
    apply take_first_Some in E as (l1 & l2 & Hl & -> & _ & _).
    split_and!.
    + intros (I1 & I2 & I3 & I4 & I5). unfold registry_invariant.
      rewrite H1, H2, H3, H4. rewrite Hl in I3. split_and!; try done.
      * eapply sublist_NoDup; [exact I3|]. apply fmap_sublist.
        apply sublist_app; [done|]. by apply sublist_cons.
      * case_bool_decide; [|done]. apply Forall_app. split; [done|]. by repeat constructor.
    + intros n. by rewrite H3.
    + intros n. rewrite H4. by left.
    + intros n. rewrite H1, Hl. intros Hn. eapply elem_of_sublist; [exact Hn|].
      apply sublist_app; [done|]. by apply sublist_cons.
    + intros n. rewrite H2. case_bool_decide; [|by left].
      rewrite elem_of_app, list_elem_of_singleton. intros [?| ->]; [by left|right].
      rewrite Hl. apply elem_of_app. right. apply list_elem_of_here.
  - unfold steps_at, result, final, calls. rewrite H. cbn [fst snd].
    split_and!; [done | reflexivity | constructor].
Qed.

Lemma unregisterDevice_winds_down env d : steps winds_down not_kill NoFault (unregisterDevice env d).
Proof.
  unfold unregisterDevice. winds_down_tac.
  eapply steps_at_weaken; [|apply decrement_registeredDevices_winds_down]; auto.
Qed.

Lemma unregisterService_winds_down env o name :
  steps winds_down not_kill NoFault (unregisterService env o name).
Proof.
  unfold unregisterService. winds_down_tac.
  eapply steps_at_weaken; [|apply decrement_registeredServices_winds_down]; auto.
Qed.

Lemma getDeviceNode_winds_down env p : steps winds_down not_kill Total (getDeviceNode env p).
Proof. unfold getDeviceNode. winds_down_tac. Qed.

Lemma childExited_winds_down env p sg : steps winds_down not_kill Total (childExited env p sg).
Proof. unfold childExited. winds_down_tac. apply getDeviceNode_winds_down. Qed.

Lemma timed_wait_winds_down env reaps : steps winds_down not_kill Total (timed_wait env reaps).
Proof.
  induction reaps as [|[p sg] reaps IH]; intros s; simpl; winds_down_tac.
  - apply childExited_winds_down.
  - apply IH.
Qed.

Lemma run_callbacks_winds_down env cbs : steps winds_down not_kill Total (run_callbacks env cbs).
Proof.
  induction cbs as [|cb cbs IH]; intros s; simpl; winds_down_tac; [|apply IH].
  unfold run_callback. winds_down_tac.
  - apply unregisterDevice_winds_down.
  - apply childExited_winds_down.
Qed.

Lemma requeue_front_winds_down dn : steps winds_down not_kill Total (requeue_front dn).
Proof.
  intros s. unfold steps_at, result, final, calls. rewrite requeue_front_run.
  destruct (_registeredDevices s) as [|front rest] eqn:E;
    [split_and!; [done | reflexivity | constructor]|].
  case_bool_decide as Hf; [subst front|split_and!; [done | reflexivity | constructor]].
  cbn [fst snd]. split_and!; [done | | constructor].
  eapply (requeue_winds_down s _ [] dn rest); [done | | | |];
    repeat case_bool_decide; simpl; congruence.
Qed.

Lemma release_front_winds_down env : steps winds_down not_kill Total (release_front env).
Proof.
  unfold release_front, releaseObject. winds_down_tac.
  - winds_down_call run_callbacks_winds_down.
  - winds_down_call requeue_front_winds_down.
Qed.

Lemma release_loop_winds_down env fuel : steps winds_down not_kill Total (release_loop env fuel).
Proof.
  induction fuel as [|fuel IH]; intros s; simpl; winds_down_tac.
  - apply release_front_winds_down.
  - apply IH.
Qed.

(** A round of signals reaches the pending devices, and only them. *)
Lemma killPendingDevices_kills env signal timeout s :
  ∃ s' t, killPendingDevices env signal timeout s = (Ok tt, s', t)
    ∧ winds_down s s'
    ∧ ∀ p sg, EvKill p sg ∈ t → ∃ n, n ∈ _pendingDevices s ∧ pid n = p.
Proof.
  unfold killPendingDevices. munfold. rewrite kill_all_run.
  assert (∀ p sg, EvKill p sg ∈ (λ p, EvKill p signal) <$> (pid <$> _pendingDevices s) →
          ∃ n, n ∈ _pendingDevices s ∧ pid n = p) as Hk.
  { intros p sg Hin. apply list_elem_of_fmap in Hin as (p' & [= -> ->] & Hin).
    apply list_elem_of_fmap in Hin as (n & -> & Hin). by exists n. }
  case_bool_decide; [destruct (_pendingDevices s) as [|n0 l] eqn:E|].
  - eexists _, _. split; [reflexivity|]. split; [reflexivity|]. by rewrite app_nil_r.
  - destruct (steps_total_run winds_down not_kill _ s
                (timed_wait_winds_down env (wait_reaps env signal) s))
      as ([] & s' & t & Hrun & Hr & Ht).
    rewrite Hrun. eexists _, _. split; [reflexivity|]. split; [done|].
    intros p sg Hin. rewrite Forall_forall in Ht.
    repeat (apply elem_of_app in Hin as [Hin|Hin] || apply elem_of_cons in Hin as [Hin|Hin]);
      try (by apply Hk in Hin); try done; try (by apply elem_of_nil in Hin);
      try (by apply Ht in Hin).
    + injection Hin as -> ->. exists n0. split; [apply list_elem_of_here|done].
    + apply list_elem_of_fmap in Hin as (p' & [= -> ->] & Hin).
      apply list_elem_of_fmap in Hin as (n & -> & Hin).
      exists n. split; [by apply list_elem_of_further|done].
  - eexists _, _. split; [reflexivity|]. split; [reflexivity|]. by rewrite app_nil_r.
Qed.

(** The teardown of the devices winds the registry down; every signal it
    sends goes to a device that is pending at that time. *)
Lemma clean_registeredDevices_winds_down env s :
  ∃ s' t, clean_registeredDevices env s = (Ok tt, s', t)
    ∧ winds_down s s'
    ∧ ∀ p sg, EvKill p sg ∈ t →
        ∃ s1 n, winds_down s s1 ∧ n ∈ _pendingDevices s1 ∧ pid n = p.
Proof.
  unfold clean_registeredDevices. munfold.
  destruct (steps_total_run winds_down not_kill _ s
              (release_loop_winds_down env (length (_registeredDevices s)) s))
    as ([] & s1 & t1 & -> & Hr1 & Ht1).
  set (timeout := force_quit_usec (DEVICE_FORCE_QUIT_TIME s1)).
  destruct (killPendingDevices_kills env SIGINT timeout s1) as (s2 & t2 & -> & Hr2 & Ht2).
  destruct (killPendingDevices_kills env SIGTERM timeout s2) as (s3 & t3 & -> & Hr3 & Ht3).
  destruct (killPendingDevices_kills env SIGKILL 0 s3) as (s4 & t4 & -> & Hr4 & Ht4).
  eexists _, _. split; [reflexivity|].
  assert (winds_down s s2) as Hs2 by (by etrans).
  assert (winds_down s s3) as Hs3 by (by etrans).
  split; [by etrans|].
  intros p sg Hin. rewrite Forall_forall in Ht1.
  repeat (apply elem_of_app in Hin as [Hin|Hin]);
    try (by apply elem_of_nil in Hin); try (by apply Ht1 in Hin).
  - destruct (Ht2 p sg Hin) as (n & ? & ?). by exists s1, n.
  - destruct (Ht3 p sg Hin) as (n & ? & ?). by exists s2, n.
  - destruct (Ht4 p sg Hin) as (n & ? & ?). by exists s3, n.
Qed.

(** ** Registration keeps the registry *)

Lemma not_equivalent_IOR d l :
  Forall device_node_ok l →
  existsb (λ n, is_equivalent (device n) d) l = false →
  obj_ior d ∉ IOR <$> l.
Proof.
  intros Hok Hex Hin. apply list_elem_of_fmap in Hin as (n & Hn & Hin).
  rewrite Forall_forall in Hok. destruct (Hok n Hin) as (o & Ho & Hior).
  assert (existsb (λ n, is_equivalent (device n) d) l = true); [|congruence].
  apply existsb_exists. exists n. split; [by apply list_elem_of_In|].
  rewrite Ho. simpl. apply bool_decide_eq_true. congruence.
Qed.

Lemma pending_without_sublist d s : pending_without d s `sublist_of` _pendingDevices s.
Proof.
  unfold pending_without. destruct (take_first _ _) as [[n rest]|] eqn:E; [|done].
  by eapply take_first_sublist.
Qed.

Lemma with_device_invariant d s :
  existsb (λ n, is_equivalent (device n) d) (_registeredDevices s) = false →
  registry_invariant s → registry_invariant (with_device d s).
Proof.
  intros Hex (I1 & I2 & I3 & I4 & I5). unfold registry_invariant, with_device. simpl.
  assert (IOR (registered_node d s) = obj_ior d ∧ device (registered_node d s) = Some d)
    as [Hior Hdev].
  { unfold registered_node. by destruct (take_first _ _) as [[n rest]|]. }
  split_and!; try done.
  - apply Forall_app. split; [done|]. repeat constructor. by exists d.
  - rewrite fmap_app. apply NoDup_app. split_and!; [done | | by apply NoDup_singleton].
    intros x Hx. simpl. rewrite list_elem_of_singleton, Hior. intros ->.
    by eapply not_equivalent_IOR.
  - eapply Forall_sublist_of; [apply pending_without_sublist | done].
Qed.

Lemma registerService_invariant env o name s :
  registry_invariant s → registry_invariant (final (registerService env o name s)).
Proof.
  intros Hinv. destruct o as [ior|]; [|done].
  destruct (existsb (λ n, bool_decide (svc_label n = name)) (_registeredServices s)) eqn:Hex.
  { by rewrite registerService_registered. }
  rewrite registerService_run by done.
  destruct (naming_fault env); [done|]. cbv zeta. rewrite increment_registeredServices_run.
  destruct Hinv as (I1 & I2 & I3 & I4 & I5).
  assert (name ∉ svc_label <$> _registeredServices s) as Hname.
  { intros Hin. apply list_elem_of_fmap in Hin as (n & -> & Hin).
    assert (existsb (λ n0, bool_decide (svc_label n0 = svc_label n)) (_registeredServices s)
            = true); [|congruence].
    apply existsb_exists. exists n. split; [by apply list_elem_of_In|].
    by apply bool_decide_eq_true. }
  assert (∀ node, svc_label node = name →
            NoDup (svc_label <$> _registeredServices s ++ [node])) as Hnd.
  { intros node Hl. rewrite fmap_app. apply NoDup_app.
    split_and!; [done | | by apply NoDup_singleton].
    intros x Hx. simpl. rewrite list_elem_of_singleton, Hl. by intros ->. }
  destruct (take_first _ _) as [[n rest]|] eqn:E; simpl;
    (case_bool_decide; [destruct (dmnMgr_fault env); [destruct (unbind_fault env)|]|]);
    unfold final; cbn [fst snd];
    unfold registry_invariant; simpl; rewrite ?removelast_last;
    split_and!; try done; try (by apply Hnd);
    eapply Forall_sublist_of; try exact I5; by eapply take_first_sublist.
Qed.

(** X1.  The operations on the registry keep it well formed, whatever the
    other parties do and however the operation ends: no device is
    registered twice, every registered device node holds its reference and
    IOR, no service name is registered twice, and only children with a
    process wait in the pending buckets. *)
Theorem registry_kept (env : Env) (s : DeviceManager) :
  registry_invariant s →
  (∀ d, registry_invariant (final (registerDevice env d s)))
  ∧ (∀ o name, registry_invariant (final (registerService env o name s)))
  ∧ (∀ d, registry_invariant (final (unregisterDevice env d s)))
  ∧ (∀ o name, registry_invariant (final (unregisterService env o name s)))
  ∧ (∀ p signaled, registry_invariant (final (childExited env p signaled s)))
  ∧ registry_invariant (final (clean_registeredDevices env s)).
Proof.
  intros Hinv. split_and!.
  - intros [d|]; [|done].
    destruct (registerDevice_outcomes env d s) as [[-> _]|(-> & _ & Hex & _)]; [done|].
    by apply with_device_invariant.
  - intros o name. by apply registerService_invariant.
  - intros d. by apply (unregisterDevice_winds_down env d s).
  - intros o name. by apply (unregisterService_winds_down env o name s).
  - intros p sg. by apply (childExited_winds_down env p sg s).
  - destruct (clean_registeredDevices_winds_down env s) as (s' & t & -> & Hw & _).
    by apply Hw.
Qed.

(** X2.  The teardown of the devices returns, and sends signals only to
    processes of children the manager had: never to pid 0 (the manager's
    own process group) when the registry is well formed. *)
Theorem signals_only_to_children (env : Env) (s : DeviceManager) :
  let r := clean_registeredDevices env s in
  result r = Ok tt
  ∧ (∀ p sg, EvKill p sg ∈ calls r →
       ∃ n, (n ∈ _pendingDevices s ∨ n ∈ _registeredDevices s) ∧ pid n = p)
  ∧ (registry_invariant s → ∀ p sg, EvKill p sg ∈ calls r → p ≠ 0).
Proof.
  destruct (clean_registeredDevices_winds_down env s) as (s' & t & Hrun & Hw & Hk).
  cbv zeta. rewrite Hrun. unfold result, calls. cbn [fst snd]. split_and!; [done | |].
  - intros p sg Hin. destruct (Hk p sg Hin) as (s1 & n & (_ & _ & H3 & _) & Hn & Hp).
    exists n. split; [by apply H3|done].
  - intros Hinv p sg Hin. destruct (Hk p sg Hin) as (s1 & n & (H1 & _) & Hn & <-).
    destruct (H1 Hinv) as (_ & _ & _ & I4 & _).
    rewrite Forall_forall in I4. by apply I4.
Qed.

(** ** Registering, then unregistering *)

Lemma registered_node_facts d s :
  IOR (registered_node d s) = obj_ior d
  ∧ device (registered_node d s) = Some d
  ∧ label (registered_node d s) = obj_label d.
Proof. unfold registered_node. by destruct (take_first _ _) as [[n rest]|]. Qed.

(** What [unregisterDevice] does when the naming service answers. *)
Lemma unregisterDevice_answers env d s l1 node l2 :
  naming_fault env = None →
  _registeredDevices s = l1 ++ node :: l2 →
  IOR node = obj_ior d → Forall (λ n, IOR n ≠ obj_ior d) l1 →
  is_Some (devMgrContext s !! label node) →
  let r := unregisterDevice env (Some d) s in
  result r = Ok tt
  ∧ final r =
      set_devMgrContext (delete (label node) (devMgrContext s))
        ((if bool_decide (pid node ≠ 0)
          then set_pendingDevices (_pendingDevices s ++ [node]) else id)
           (set_registeredDevices (l1 ++ l2) s)).
Proof.
  intros Hns Hreg Hior Hl1 [ior Hctx].
  unfold unregisterDevice, decrement_registeredDevices, local_unregisterDevice,
    ns_unbind, dmnMgr_call. munfold.
  rewrite Hreg, take_first_app;
    [| eapply Forall_impl; [exact Hl1|]; intros n Hn; by apply bool_decide_eq_false
     | by apply bool_decide_eq_true].
  rewrite Hns. cbn [remote]. munfold.
  case_bool_decide; simpl; rewrite Hctx; simpl;
    case_bool_decide; destruct (dmnMgr_fault env); simpl; done.
Qed.

(** X3.  A device that registers and then unregisters leaves the registered
    bucket and the manager's naming context as they were before.  If it
    was launched by this manager (a pending node has its identifier), its
    node is back at the end of the pending bucket, with the identifier and
    pid of that pending node; if not, no node is left of it. *)
Theorem device_round_trip (env env' : Env) (d : DeviceObj) (s : DeviceManager) :
  registry_invariant s →
  naming_fault env' = None →
  existsb (λ n, is_equivalent (device n) d) (_registeredDevices s) = false →
  let r := registerDevice env (Some d) s in
  existsb (λ n, is_equivalent (device n) d) (_registeredDevices (final r)) = true →
  let r' := unregisterDevice env' (Some d) (final r) in
  result r' = Ok tt
  ∧ _registeredDevices (final r') = _registeredDevices s
  ∧ devMgrContext (final r') = devMgrContext s
  ∧ _pendingDevices (final r') =
      pending_without d s
      ++ (if bool_decide (pid (registered_node d s) = 0) then [] else [registered_node d s])
  ∧ _registeredServices (final r') = _registeredServices s
  ∧ _pendingServices (final r') = _pendingServices s
  ∧ registry_invariant (final r').
Proof.
  intros Hinv Hns Hex r Hreg. cbv zeta.
  destruct (registerDevice_outcomes env d s) as [[Hs _]|(Hs & _ & _ & Hctx & _)];
    fold r in Hs; [rewrite Hs in Hreg; congruence|].
  destruct (registered_node_facts d s) as (Hior & Hdev & Hlbl).
  destruct (unregisterDevice_answers env' d (final r) (_registeredDevices s)
              (registered_node d s) []) as [Hres Hfin].
  - done.
  - by rewrite Hs.
  - done.
  - apply Forall_forall. intros n Hn Heq.
    destruct Hinv as (I1 & _). apply (not_equivalent_IOR d _ I1 Hex).
    rewrite <- Heq. by apply list_elem_of_fmap_2.
  - rewrite Hs, Hlbl. simpl. by rewrite lookup_insert_eq.
  - assert (registry_invariant (final (unregisterDevice env' (Some d) (final r)))) as Hinv'.
    { apply (unregisterDevice_winds_down env' (Some d) (final r)).
      rewrite Hs. by apply with_device_invariant. }
    rewrite Hs, Hlbl, app_nil_r in *. rewrite Hfin in *.
    split_and!; try done.
    + by case_bool_decide.
    + case_bool_decide; simpl; by rewrite delete_insert_id.
    + repeat case_bool_decide; simpl; try done; by rewrite ?app_nil_r.
    + by case_bool_decide.
    + by case_bool_decide.
Qed.

(** What [unregisterService] does when the naming service answers. *)
Lemma unregisterService_answers env o name s l1 node l2 :
  naming_fault env = None →
  _registeredServices s = l1 ++ node :: l2 →
  svc_label node = name → Forall (λ n, svc_label n ≠ name) l1 →
  is_Some (rootContext s !! name) →
  let r := unregisterService env (Some o) name s in
  result r = Ok tt
  ∧ final r =
      (if bool_decide (svc_pid node ≠ 0)
       then λ s', set_pendingServices (_pendingServices s' ++ [node]) s' else id)
        (set_registeredServices (l1 ++ l2)
           (set_rootContext (delete name (rootContext s)) s)).
Proof.
  intros Hns Hreg Hlbl Hl1 [ior Hctx].
  unfold unregisterService, decrement_registeredServices, local_unregisterService,
    ns_unbind, dmnMgr_call. munfold.
  rewrite Hreg, take_first_app;
    [| eapply Forall_impl; [exact Hl1|]; intros n Hn; by apply bool_decide_eq_false
     | by apply bool_decide_eq_true].
  rewrite Hns. cbn [remote]. munfold. simpl. rewrite Hctx. simpl.
  case_bool_decide; destruct (dmnMgr_fault env); simpl; by case_bool_decide.
Qed.

(** X4.  A service that registers under a name and then unregisters leaves
    the registered bucket as it was, and the name unbound in the domain's
    naming context, whatever was bound to it before.  If the service was
    launched by this manager (a pending node has the name as its label),
    its node is back at the end of the pending bucket with the identifier
    and pid of that pending node.  A registration that leaves the service
    registered has returned, unless the Domain Manager failed it and the
    unbind of the handler failed as well. *)
Theorem service_round_trip (env env' : Env) (ior ior' name : string) (s : DeviceManager) :
  registry_invariant s →
  naming_fault env' = None →
  existsb (λ n, bool_decide (svc_label n = name)) (_registeredServices s) = false →
  let r := registerService env (Some ior) name s in
  existsb (λ n, bool_decide (svc_label n = name)) (_registeredServices (final r)) = true →
  let r' := unregisterService env' (Some ior') name (final r) in
  (result r = Ok tt
   ∨ ∃ e e', dmnMgr_fault env = Some e ∧ unbind_fault env = Some e' ∧ result r = leaves e')
  ∧ result r' = Ok tt
  ∧ _registeredServices (final r') = _registeredServices s
  ∧ rootContext (final r') = delete name (rootContext s)
  ∧ _pendingServices (final r') =
      match take_first (λ n, bool_decide (svc_label n = name)) (_pendingServices s) with
      | Some (n, rest) => rest ++ [mkServiceNode (svc_identifier n) name ior (Some ior) (svc_pid n)]
      | None => _pendingServices s
      end
  ∧ _registeredDevices (final r') = _registeredDevices s
  ∧ _pendingDevices (final r') = _pendingDevices s.
Proof.
  intros Hinv Hns Hex r Hreg. cbv zeta. unfold r in *. clear r.
  rewrite registerService_run in * by done.
  assert (Forall (λ n, svc_label n ≠ name) (_registeredServices s)) as Hl1.
  { apply Forall_forall. intros n Hn Heq.
    assert (existsb (λ n, bool_decide (svc_label n = name)) (_registeredServices s) = true);
      [|congruence].
    apply existsb_exists. exists n. split; [by apply list_elem_of_In|].
    by apply bool_decide_eq_true. }
  destruct Hinv as (_ & _ & _ & _ & I5).
  destruct (naming_fault env); [unfold final in Hreg; cbn [fst snd] in Hreg; congruence|].
  cbv zeta in *. rewrite increment_registeredServices_run in *.
  change (_pendingServices (set_rootContext (<[name:=ior]> (rootContext s)) s))
    with (_pendingServices s) in *.
  destruct (take_first _ _) as [[n rest]|] eqn:E.
  - assert (svc_pid n ≠ 0) as Hpid.
    { apply take_first_Some in E as (k1 & k2 & Hk & _).
      rewrite Hk in I5. by apply Forall_app in I5 as [_ [? _]%Forall_cons]. }
    case_bool_decide;
      [destruct (dmnMgr_fault env) as [e|]; [destruct (unbind_fault env) as [e'|]|]|];
      unfold final, result in *; cbn [fst snd] in *.
    2:{ simpl in Hreg. rewrite removelast_last in Hreg. congruence. }
    all: match goal with
         | Hl : Forall _ ?l1 |- context [unregisterService ?en (Some ?io) ?nm ?st] =>
             edestruct (unregisterService_answers en io nm st l1) as [Hres Hfin];
               [done | simpl; reflexivity | | exact Hl | | ];
               [done | simpl; by rewrite lookup_insert_eq |]
         end.
    all: unfold result, final in *; rewrite Hres, Hfin; simpl.
    all: rewrite bool_decide_eq_true_2 by done; simpl.
    all: rewrite app_nil_r, delete_insert_eq.
    all: split_and!; try done; eauto 6.
  - case_bool_decide;
      [destruct (dmnMgr_fault env) as [e|]; [destruct (unbind_fault env) as [e'|]|]|];
      unfold final, result in *; cbn [fst snd] in *.
    2:{ simpl in Hreg. rewrite removelast_last in Hreg. congruence. }
    all: match goal with
         | Hl : Forall _ ?l1 |- context [unregisterService ?en (Some ?io) ?nm ?st] =>
             edestruct (unregisterService_answers en io nm st l1) as [Hres Hfin];
               [done | simpl; reflexivity | | exact Hl | | ];
               [done | simpl; by rewrite lookup_insert_eq |]
         end.
    all: unfold result, final in *; rewrite Hres, Hfin; simpl.
    all: rewrite app_nil_r, delete_insert_eq.
    all: split_and!; try done; eauto 6.
Qed.

(** ** Refused registrations *)

(** X5.  A registration that is refused leaves no trace.  When
    [registerDevice] raises InvalidObjectReference, the manager is as it
    was and neither the naming service nor the Domain Manager has been
    called.  When the naming service fails or the device's label is
    already bound in the manager's context, the device is not registered
    and the Domain Manager is not called; a call that got as far as the
    bind returns as if it had succeeded. *)
Theorem refused_registration (env : Env) (d : Device_ptr) (s : DeviceManager) :
  let r := registerDevice env d s in
  (result r = Throw InvalidObjectReference →
   final r = s ∧ Forall (λ e, is_directory_call e = false) (calls r))
  ∧ (∀ o, d = Some o →
     naming_fault env ≠ None ∨ devMgrContext s !! obj_label o ≠ None →
     final r = s
     ∧ Forall (λ e, is_DomMgr_call e = false) (calls r)
     ∧ (EvNaming DevMgrCtx NsBind (obj_label o) ∈ calls r → result r = Ok tt)).
Proof.
  cbv zeta. split.
  - destruct d as [o|]; [|intros _; split; [done|by repeat constructor]].
    intros Hres.
    destruct (registerDevice_outcomes env o s)
      as [(Hs & _ & Hdir & _)|(_ & _ & _ & _ & _ & [Hok|(e & He & _ & _ & _ & Hc)])].
    + split; [done|by apply Hdir].
    + congruence.
    + rewrite Hres in He. by injection He as <-.
  - intros o -> Hrefuse.
    destruct (registerDevice_outcomes env o s)
      as [(Hs & Hdm & _ & Hbind)|(_ & _ & _ & Hctx & Hns & _)]; [done|].
    by destruct Hrefuse.
Qed.

(** X6.  A device that is not registered and whose identifier is the
    instantiation identifier of no deployed component has no profile:
    [findProfile] returns a null pointer, which [registerDevice]
    dereferences.  Until then it has only read attributes of the device;
    the manager is as it was. *)
Theorem registration_without_profile (env : Env) (d : DeviceObj) (s : DeviceManager) :
  _internalShutdown s = false →
  existsb (λ n, is_equivalent (device n) d) (_registeredDevices s) = false →
  Forall (λ dep : Deployment,
            prof_instantiationIdentifier <$> profiles s !! dep.2 ≠ Some (obj_identifier d))
         (deployed_comps s) →
  let r := registerDevice env (Some d) s in
  result (findProfile (obj_identifier d) s) = Ok None
  ∧ result r = NullDeref
  ∧ final r = s
  ∧ calls r =
      [EvOverrideBlockingCall (obj_ior d) (CLIENT_WAIT_TIME s);
       EvChildAttr (obj_ior d) "label"; EvChildAttr (obj_ior d) "identifier";
       EvChildAttr (obj_ior d) "identifier"; EvChildAttr (obj_ior d) "softwareProfile"].
Proof.
  intros Hflag Hex Hdep.
  assert (List.find (λ d0 : Deployment,
            bool_decide (prof_instantiationIdentifier <$> profiles s !! d0.2
                         = Some (obj_identifier d))) (deployed_comps s) = None) as Hfind.
  { induction Hdep as [|dep l Hd _ IH]; [done|]. simpl.
    by rewrite bool_decide_eq_false_2. }
  unfold registerDevice, deviceIsRegistered, findProfile. munfold.
  rewrite Hflag, Hex, Hfind. simpl. by split_and!.
Qed.

(** ** Reaping *)

Lemma take_first_none_of {A} (p : A → bool) (l : list A) :
  Forall (λ x, p x = false) l → take_first p l = None.
Proof.
  intros H. apply take_first_None. induction H as [|x l Hx _ IH]; [done|].
  simpl. by rewrite Hx.
Qed.

Lemma pid_differs (l : DeviceList) p :
  Forall (λ n, pid n ≠ p) l → Forall (λ n, bool_decide (pid n = p) = false) l.
Proof. intros H. eapply Forall_impl; [exact H|]. intros n Hn. by apply bool_decide_eq_false. Qed.

Lemma svc_pid_differs (l : ServiceList) p :
  Forall (λ n, svc_pid n ≠ p) l → Forall (λ n, bool_decide (svc_pid n = p) = false) l.
Proof. intros H. eapply Forall_impl; [exact H|]. intros n Hn. by apply bool_decide_eq_false. Qed.

(** X7.  [childExited] for the pid of no child changes nothing and writes
    an error record.  For the pid of a pending device it takes the first
    such node out of the pending bucket, and does nothing else.  For the
    pid of a registered device (and of no pending one) it takes the first
    such node out of the registered bucket and unregisters the device:
    it unbinds the label and, when the manager is registered, has the
    Domain Manager unregister the device. *)
Theorem child_reaped (env : Env) (p : Z) (signaled : bool) (s : DeviceManager) :
  Forall (λ n, svc_pid n ≠ p) (_pendingServices s) →
  Forall (λ n, svc_pid n ≠ p) (_registeredServices s) →
  (Forall (λ n, pid n ≠ p) (_pendingDevices s) →
   Forall (λ n, pid n ≠ p) (_registeredDevices s) →
   childExited env p signaled s =
     (Ok tt, s, [EvLog LvlError "Process is not associated with a registered device"]))
  ∧ (∀ l1 n l2,
       _pendingDevices s = l1 ++ n :: l2 → pid n = p → Forall (λ m, pid m ≠ p) l1 →
       let r := childExited env p signaled s in
       result r = Ok tt
       ∧ final r = set_pendingDevices (l1 ++ l2) s
       ∧ Forall (λ e, is_outbound e = false) (calls r))
  ∧ (∀ l1 n l2,
       Forall (λ m, pid m ≠ p) (_pendingDevices s) →
       _registeredDevices s = l1 ++ n :: l2 → pid n = p → Forall (λ m, pid m ≠ p) l1 →
       let r := childExited env p signaled s in
       result r = Ok tt
       ∧ _registeredDevices (final r) = l1 ++ l2
       ∧ _pendingDevices (final r) = _pendingDevices s
       ∧ EvNaming DevMgrCtx NsUnbind (label n) ∈ calls r
       ∧ (_adminState s = DEVMGR_REGISTERED →
          EvDomMgr DmUnregisterDevice (ptr_ior (device n)) ∈ calls r)
       ∧ (naming_fault env = None → devMgrContext (final r) !! label n = None)).
Proof.
  intros Hps Hrs. apply svc_pid_differs, take_first_none_of in Hps, Hrs.
  split_and!.
  - intros Hpd Hrd. apply pid_differs, take_first_none_of in Hpd, Hrd.
    unfold childExited, getDeviceNode. munfold. by rewrite Hpd, Hrd, Hps, Hrs.
  - intros l1 n l2 Hpd Hn Hl1. cbv zeta.
    unfold childExited, getDeviceNode. munfold.
    rewrite Hpd, take_first_app; [|by apply pid_differs|by apply bool_decide_eq_true].
    simpl. rewrite Hps, Hrs. destruct signaled; simpl; split_and!; try done;
      by repeat constructor.
  - intros l1 n l2 Hpd Hrd Hn Hl1. cbv zeta.
    apply pid_differs, take_first_none_of in Hpd.
    unfold childExited, getDeviceNode, local_unregisterDevice, ns_unbind, dmnMgr_call.
    munfold. rewrite Hpd, Hrd, take_first_app; [|by apply pid_differs|by apply bool_decide_eq_true].
    simpl.
    destruct (naming_fault env) as [e|]; simpl;
      [|destruct (devMgrContext s !! label n) as [ior|] eqn:Hctx; simpl];
      (case_bool_decide as Hadm; [destruct (dmnMgr_fault env)|]); simpl;
      rewrite Hps, Hrs; destruct signaled; simpl.
    all: split_and!; try done; try (intros _); rewrite ?lookup_delete_eq; try done.
    all: repeat first [apply list_elem_of_here | apply list_elem_of_further].
Qed.

(** ** Implementation identifiers of the launched instantiations *)

#[local] Instance records_refl : Reflexive records.
Proof. by intros s i. Qed.

#[local] Instance records_trans : Transitive records.
Proof. intros s1 s2 s3 H1 H2 i Hi. by apply H2, H1. Qed.

Lemma accounted_steps {A} (m : M A) s :
  steps_at records not_launch Any m s → accounted m s.
Proof.
  intros (_ & Hr & Ht). split; [done|].
  rewrite not_launch_launched by done. intros i Hi. by apply elem_of_nil in Hi.
Qed.

(** Sequencing: the continuation starts in a state that has the records
    of [s]. *)
Lemma accounted_bind {A B} (m : M A) (f : A → M B) s :
  accounted m s → (∀ a s1, records s s1 → accounted (f a) s1) → accounted (m ≫= f) s.
Proof.
  intros [Hr Hl] Hf. unfold accounted. rewrite calls_bind.
  unfold final, result, calls in *. munfold.
  destruct (m s) as [[[a|e| | |] s1] t1]; simpl in *; rewrite ?app_nil_r; try done.
  specialize (Hf a s1 Hr). unfold accounted, final, calls in Hf.
  destruct (f a s1) as [[r s2] t2]; simpl in *. destruct Hf as [Hr2 Hl2].
  split; [by etrans|]. intros i Hi. rewrite launched_app in Hi.
  apply elem_of_app in Hi as [Hi|Hi]; [by apply Hr2, Hl|by apply Hl2].
Qed.

Lemma accounted_for_each {A} (l : list A) (body : A → M unit) :
  (∀ x s, accounted (body x) s) → ∀ s, accounted (for_each l body) s.
Proof.
  intros Hb. induction l as [|x l IH]; intros s; simpl.
  - apply accounted_steps. apply (steps_at_ret records not_launch Any).
  - apply accounted_bind; [apply Hb|]. intros _ s1 _. apply IH.
Qed.

Lemma accounted_fold_each {A S} (body : S → A → M S) (l : list A) :
  (∀ a x s, accounted (body a x) s) → ∀ acc s, accounted (fold_each body l acc) s.
Proof.
  intros Hb. induction l as [|x l IH]; intros acc s; simpl.
  - apply accounted_steps. apply (steps_at_ret records not_launch Any).
  - apply accounted_bind; [apply Hb|]. intros a s1 _. apply IH.
Qed.

Ltac records_free :=
  repeat first
    [ steps_step
    | done
    | match goal with
      | |- records _ _ => by (intros ?; simpl)
      | |- steps_at _ _ _ (if ?b then _ else _) _ => destruct b eqn:?
      | |- steps_at _ _ _ ((if ?b then _ else _) ≫= _) _ => destruct b eqn:?
      end ].

Lemma registerDevice_records env d : steps records not_launch Any (registerDevice env d).
Proof.
  intros s. unfold registerDevice, forward_registerDevice, increment_registeredDevices,
    deviceIsRegistered, findProfile, ns_bind, dmnMgr_call.
  records_free; destruct c; by (intros ?; simpl).
Qed.

Lemma getCompositeDeviceIOR_records env cps cp :
  steps records not_launch Any (getCompositeDeviceIOR env cps cp).
Proof.
  intros s. unfold getCompositeDeviceIOR, poll_IOR, getIORfromID. records_free.
  all: apply registerDevice_records.
Qed.

Lemma addDeviceImplProperties_records sdr p impl :
  steps records not_launch Any (addDeviceImplProperties sdr p impl).
Proof. intros s. unfold addDeviceImplProperties. records_free. Qed.

Lemma getCodeFilePath_records sdr impl path b :
  steps records not_launch Any (getCodeFilePath sdr impl path b).
Proof. intros s. unfold getCodeFilePath. records_free. Qed.

Lemma getDeviceOrService_records prof :
  steps records not_launch Any (getDeviceOrService prof).
Proof. intros s. unfold getDeviceOrService. records_free. Qed.

Lemma split_placement_records sdr lists cp :
  steps records not_launch Any (split_placement sdr lists cp).
Proof.
  intros s. unfold split_placement, first_instantiation_id, resolveImplementation.
  destruct lists as [st co]. records_free.
Qed.

Lemma accounted_modify_bind {B} g (f : unit → M B) s :
  records s (g s) → accounted (f tt) (g s) → accounted (modify g ≫= f) s.
Proof.
  intros Hg [Hr Hl]. unfold accounted, final, calls, modify in *. munfold.
  destruct (f tt (g s)) as [[r s2] t2]. simpl in *. split; [by etrans|done].
Qed.

(** A launch in a state that has the record. *)
Lemma accounted_launch g i ty path ior s :
  is_Some (_componentImplMap (g s) !! i) → records s (g s) →
  accounted (modify g ≫= λ _, emit (EvLaunch i ty path ior)) s.
Proof.
  intros Hi Hg. split; [done|]. simpl. intros j Hj.
  apply list_elem_of_singleton in Hj as ->. done.
Qed.

Ltac accounted_call :=
  apply accounted_steps;
  solve [ apply getCompositeDeviceIOR_records | apply addDeviceImplProperties_records
        | apply getCodeFilePath_records | apply getDeviceOrService_records
        | apply split_placement_records
        | (unfold first_instantiation_id; records_free)
        | records_free ].

(** Walks along a computation, keeping what is known to be recorded. *)
Ltac accounted_step :=
  lazymatch goal with
  | |- accounted (modify _ ≫= λ _, emit (EvLaunch _ _ _ _)) _ =>
      apply accounted_launch; [simpl; by auto | by (intros ?; simpl)]
  | |- accounted (for_each _ _) _ => fail
  | |- accounted (fold_each _ _ _) _ => fail
  | |- accounted (match ?x with _ => _ end) _ => destruct x eqn:?
  | |- accounted (match ?x with _ => _ end _) _ => destruct x eqn:?
  | |- accounted (if ?b then _ else _) _ => destruct b eqn:?
  | |- accounted (_ ≫= _) _ =>
      apply accounted_bind;
        [ first [accounted_call | idtac]
        | let Hr := fresh "Hr" in
          intros ? ? Hr;
          repeat match goal with
                 | K : is_Some (_componentImplMap ?s !! ?i) |- _ =>
                     lazymatch type of Hr with
                     | records s _ => pose proof (Hr i K); clear K
                     end
                 end; clear Hr ]
  | |- accounted _ _ => accounted_call
  end.

(** The launches of one instantiation of a standalone placement. *)
Lemma launch_standalone_accounted sdr env cps cIter s :
  accounted (launch_standalone sdr env cps cIter) s.
Proof.
  unfold launch_standalone. repeat accounted_step.
  apply accounted_for_each. clear. intros instantiation s.
  unfold recordComponentInstantiationId.
  apply accounted_modify_bind; [intros j [v Hj]; simpl|].
  { destruct (decide (j = inst_id instantiation)) as [->|Hne];
      [by rewrite lookup_insert_eq | by rewrite lookup_insert_ne]. }
  match goal with
  | |- accounted _ ?s1 =>
      assert (is_Some (_componentImplMap s1 !! inst_id instantiation)) as K
        by (simpl; by rewrite lookup_insert_eq)
  end.
  unfold update_profile. repeat accounted_step.
Qed.

Lemma launch_composite_accounted sdr env cps st compPlaceIter s :
  accounted (launch_composite sdr env cps st compPlaceIter) s.
Proof.
  unfold launch_composite. repeat accounted_step.
  apply accounted_fold_each. clear. intros [parentImpl found] cIter s.
  repeat accounted_step.
  apply accounted_for_each. clear. intros instantiation s.
  unfold recordComponentInstantiationId.
  apply accounted_modify_bind; [intros j [v Hj]; simpl|].
  { destruct (decide (j = inst_id instantiation)) as [->|Hne];
      [by rewrite lookup_insert_eq | by rewrite lookup_insert_ne]. }
  match goal with
  | |- accounted _ ?s1 =>
      assert (is_Some (_componentImplMap s1 !! inst_id instantiation)) as K
        by (simpl; by rewrite lookup_insert_eq)
  end.
  unfold update_profile. repeat accounted_step.
Qed.

Lemma deployComponentPlacements_accounted sdr env cps s :
  accounted (deployComponentPlacements sdr env cps) s.
Proof.
  unfold deployComponentPlacements. apply accounted_bind.
  - apply accounted_fold_each. intros. accounted_call.
  - intros [st co] s1 _. apply accounted_bind.
    + apply accounted_for_each. intros. apply launch_standalone_accounted.
    + intros _ s2 _. apply accounted_for_each. intros. apply launch_composite_accounted.
Qed.


(** X8.  [getComponentImplementationId] returns the empty string for an
    instantiation without a record.  After
    [recordComponentInstantiationId] for an instantiation it returns the
    implementation recorded, and what it returns for the other
    instantiations has not changed.  Every instantiation that the
    deployment of the placements launches has a record when the
    deployment ends, however it ends. *)
Theorem implementation_id_recorded (sdr : Sdr) (env : Env) (cps : list ComponentPlacement)
    (s : DeviceManager) :
  (∀ i, _componentImplMap s !! i = None →
     getComponentImplementationId i s = (Ok "", s, []))
  ∧ (∀ inst impl,
       let s' := final (recordComponentInstantiationId inst impl s) in
       getComponentImplementationId (inst_id inst) s' = (Ok impl, s', [])
       ∧ ∀ j, j ≠ inst_id inst →
           result (getComponentImplementationId j s')
           = result (getComponentImplementationId j s))
  ∧ (let r := deployComponentPlacements sdr env cps s in
     ∀ i, i ∈ launched (calls r) →
       ∃ impl, _componentImplMap (final r) !! i = Some impl
               ∧ getComponentImplementationId i (final r) = (Ok impl, final r, [])).
Proof.
  split_and!.
  - intros i Hi. unfold getComponentImplementationId. munfold. by rewrite Hi.
  - intros inst impl. cbv zeta. unfold getComponentImplementationId,
      recordComponentInstantiationId, final, result. munfold. simpl.
    rewrite lookup_insert_eq. split; [done|]. intros j Hj.
    rewrite lookup_insert_ne by done. by destruct (_ !! j).
  - intros r i Hi.
    destruct (deployComponentPlacements_accounted sdr env cps s) as [_ Hl].
    destruct (Hl i Hi) as [impl Himpl]. exists impl. split; [done|].
    unfold getComponentImplementationId. munfold. unfold r. by rewrite Himpl.
Qed.

(** ** Software package dependencies *)

Lemma resolveSoftpkgDependencies_deps host impl :
  resolveSoftpkgDependencies host impl = true
  ↔ Forall (λ pkg, is_Some (resolveDependencyImplementation host pkg))
       (impl_softPkgDependencies impl).
Proof.
  destruct impl as [? ? ? ? ? ? pkgs]. simpl.
  induction pkgs as [|pkg pkgs IH]; simpl; [by split; [constructor|]|].
  rewrite Forall_cons. destruct (resolveDependencyImplementation host pkg) as [i|].
  - rewrite IH. split; [by split; [eexists|]|by intros [_ ?]].
  - split; [done|]. by intros [[? [=]] _].
Qed.

Lemma resolveDependencyImplementation_first host pkg :
  match resolveDependencyImplementation host pkg with
  | Some impl =>
      ∃ l1 l2, pkg_implementations pkg = l1 ++ impl :: l2
        ∧ checkProcessorAndOs impl host = true
        ∧ resolveSoftpkgDependencies host impl = true
        ∧ Forall (λ i, checkProcessorAndOs i host = false
                       ∨ resolveSoftpkgDependencies host i = false) l1
  | None =>
      Forall (λ i, checkProcessorAndOs i host = false
                   ∨ resolveSoftpkgDependencies host i = false) (pkg_implementations pkg)
  end.
Proof.
  destruct pkg as [? impls]. simpl.
  induction impls as [|i impls IH]; simpl; [constructor|].
  destruct (checkProcessorAndOs i host) eqn:Hc; simpl.
  - destruct (resolveSoftpkgDependencies host i) eqn:Hr.
    + by exists [], impls.
    + match type of IH with match ?x with _ => _ end => destruct x as [impl|] end.
      * destruct IH as (l1 & l2 & -> & ? & ? & ?). exists (i :: l1), l2.
        split_and!; try done. constructor; auto.
      * constructor; auto.
  - match type of IH with match ?x with _ => _ end => destruct x as [impl|] end.
    + destruct IH as (l1 & l2 & -> & ? & ? & ?). exists (i :: l1), l2.
      split_and!; try done. constructor; auto.
    + constructor; auto.
Qed.


(** ** The IOR of a composite parent *)

Lemma poll_IOR_registered env id n s :
  List.find (λ n, bool_decide (identifier n = id)) (_registeredDevices s) = Some n →
  IOR n ≠ "" → poll_IOR env id s = (Ok (IOR n), s, []).
Proof.
  intros Hf Hior. unfold poll_IOR, getIORfromID. munfold. rewrite Hf.
  by rewrite bool_decide_eq_true_2.
Qed.

Lemma poll_IOR_never env id s :
  List.find (λ n, bool_decide (identifier n = id)) (_registeredDevices s) = None →
  poll_registration env id = None → poll_IOR env id s = (Diverge, s, []).
Proof.
  intros Hf Hp. unfold poll_IOR, getIORfromID. munfold. rewrite Hf, Hp.
  by rewrite bool_decide_eq_false_2 by (by intros ?).
Qed.

(** The loop over the instantiations of a placement, given what a poll
    for the parent gives. *)
Lemma composite_inner_loop env parent (cis : list ComponentInstantiation) s
    (out : Res string) :
  poll_IOR env parent s = (out, s, []) →
  ∀ acc,
    fold_each
      (λ compositeDeviceIOR ci,
         if bool_decide (inst_id ci = parent)
         then poll_IOR env (inst_id ci)
         else mret compositeDeviceIOR)
      cis acc s
    = (if bool_decide (parent ∈ inst_id <$> cis) then (out, s, []) else (Ok acc, s, [])).
Proof.
  intros Hpoll. induction cis as [|ci cis IH]; intros acc; [done|].
  cbn [fold_each]. rewrite fmap_cons. munfold. destruct (decide (inst_id ci = parent)) as [Hci|Hci].
  - rewrite (bool_decide_eq_true_2 (inst_id ci = parent)) by done.
    rewrite Hci, Hpoll.
    rewrite bool_decide_eq_true_2 by apply list_elem_of_here.
    destruct out as [ior|e| | |]; try done.
    rewrite IH. by case_bool_decide.
  - rewrite (bool_decide_eq_false_2 (inst_id ci = parent)) by done.
    cbv beta iota. rewrite IH.
    rewrite (bool_decide_ext (parent ∈ inst_id ci :: (inst_id <$> cis))
               (parent ∈ inst_id <$> cis))
      by (rewrite elem_of_cons; split; [by intros [->|?]|by right]).
    by case_bool_decide.
Qed.

(** The two loops of [getCompositeDeviceIOR]. *)
Lemma composite_loops env parent (cps : list ComponentPlacement) s (out : Res string) :
  poll_IOR env parent s = (out, s, []) →
  ∀ acc,
    fold_each
      (λ compositeDeviceIOR cp,
         fold_each
           (λ compositeDeviceIOR ci,
              if bool_decide (inst_id ci = parent)
              then poll_IOR env (inst_id ci)
              else mret compositeDeviceIOR)
           (cp_instantiations cp) compositeDeviceIOR)
      cps acc s
    = (if bool_decide (parent ∈ cps ≫= λ c, inst_id <$> cp_instantiations c)
       then (out, s, []) else (Ok acc, s, [])).
Proof.
  intros Hpoll. induction cps as [|cp cps IH]; intros acc; [done|].
  cbn [fold_each]. rewrite bind_cons.
  set (rest := cps ≫= λ c, inst_id <$> cp_instantiations c) in *.
  munfold. rewrite (composite_inner_loop env parent _ s out Hpoll).
  destruct (decide (parent ∈ inst_id <$> cp_instantiations cp)) as [Hcp|Hcp].
  - rewrite (bool_decide_eq_true_2 (parent ∈ inst_id <$> cp_instantiations cp)) by done.
    rewrite bool_decide_eq_true_2 by (apply elem_of_app; by left).
    destruct out as [ior|e| | |]; try done.
    rewrite IH. by case_bool_decide.
  - rewrite (bool_decide_eq_false_2 (parent ∈ inst_id <$> cp_instantiations cp)) by done.
    rewrite IH.
    rewrite (bool_decide_ext (parent ∈ (inst_id <$> cp_instantiations cp) ++ rest)
               (parent ∈ rest))
      by (rewrite elem_of_app; split; [by intros [?|?]|by right]).
    by case_bool_decide.
Qed.

(** X10.  [getCompositeDeviceIOR] gives the empty string, without waiting,
    for a placement that is not part of a composite device, and for one
    whose parent is an instantiation of no placement.  When the parent is
    an instantiation of a placement, it gives the IOR of the first
    registered device with the parent's identifier; while no such device
    is registered and none registers, it does not return. *)
Theorem composite_parent_ior (env : Env) (cps : list ComponentPlacement)
    (cp : ComponentPlacement) (s : DeviceManager) :
  let r := getCompositeDeviceIOR env cps cp s in
  (cp_compositePartOfDeviceID cp = None → r = (Ok "", s, []))
  ∧ (∀ parent,
       cp_compositePartOfDeviceID cp = Some parent →
       (parent ∉ (cps ≫= λ c, inst_id <$> cp_instantiations c) → r = (Ok "", s, []))
       ∧ (parent ∈ (cps ≫= λ c, inst_id <$> cp_instantiations c) →
          (∀ n, List.find (λ n, bool_decide (identifier n = parent)) (_registeredDevices s)
                = Some n →
                IOR n ≠ "" → r = (Ok (IOR n), s, []))
          ∧ (List.find (λ n, bool_decide (identifier n = parent)) (_registeredDevices s)
             = None →
             poll_registration env parent = None → r = (Diverge, s, [])))).
Proof.
  cbv zeta. unfold getCompositeDeviceIOR. split; [by intros ->|].
  intros parent ->. split; [|intros Hin; split].
  - intros Hnot.
    destruct (poll_IOR env parent s) as [[out s'] t] eqn:Hpoll.
    clear Hpoll. revert Hnot. generalize "". induction cps as [|c cps IH]; intros acc Hnot;
      simpl; [done|].
    rewrite bind_cons, elem_of_app in Hnot. munfold.
    assert (∀ cis a, parent ∉ inst_id <$> cis →
              fold_each (λ compositeDeviceIOR ci,
                           if bool_decide (inst_id ci = parent)
                           then poll_IOR env (inst_id ci)
                           else mret compositeDeviceIOR) cis a s = (Ok a, s, [])) as Hinner.
    { induction cis as [|ci cis IHc]; intros a Ha; simpl; [done|].
      rewrite fmap_cons, elem_of_cons in Ha. munfold.
      rewrite bool_decide_eq_false_2 by (intros E; apply Ha; by left).
      simpl. rewrite IHc; [done|]. intros ?. apply Ha. by right. }
    rewrite Hinner by (intros ?; apply Hnot; by left).
    rewrite IH; [done|]. intros ?. apply Hnot. by right.
  - intros n Hf Hior.
    rewrite (composite_loops env parent cps s (Ok (IOR n))) by (by apply poll_IOR_registered).
    by rewrite bool_decide_eq_true_2.
  - intros Hf Hp.
    rewrite (composite_loops env parent cps s Diverge) by (by apply poll_IOR_never).
    by rewrite bool_decide_eq_true_2.
Qed.

(** ** What is launched, and how *)

(** What [getCodeFilePath] answers, and when. *)
Lemma getCodeFilePath_answers (sdr : Sdr) (impl : ImplementationInfo) (spdPath : string)
    (useLocalFileSystem : bool) (s : DeviceManager) :
  let entry :=
    normalize sdr (if has_root_directory (impl_entryPoint impl) then impl_entryPoint impl
                   else spdPath +:+ "/" +:+ impl_entryPoint impl) in
  ∃ r t, getCodeFilePath sdr impl spdPath useLocalFileSystem s = (Ok r, s, t)
    ∧ match r with
      | Some path =>
          impl_entryPoint impl ≠ "" ∧ path ≠ ""
          ∧ path = (if useLocalFileSystem then getLocalPath sdr entry else entry)
          ∧ access sdr (getLocalPath sdr entry) = true ∧ t = []
      | None =>
          (impl_entryPoint impl = ""
           ∨ (if useLocalFileSystem then getLocalPath sdr entry else entry) = ""
           ∨ access sdr (getLocalPath sdr entry) = false)
          ∧ ∃ lvl msg, t = [EvLog lvl msg]
      end.
Proof.
  cbv zeta. unfold getCodeFilePath. munfold.
  repeat case_bool_decide; try destruct (access sdr _) eqn:Ha; simpl;
    eexists _, _; (split; [reflexivity|]); simpl;
    try (split_and!; try done; by eauto);
    split; eauto.
Qed.

(** What [getDeviceOrService] answers, and when. *)
Lemma getDeviceOrService_answers (prof : ProgramProfile) (s : DeviceManager) :
  let type := prof_componentType prof in
  ∃ r t, getDeviceOrService prof s = (Ok r, s, t)
    ∧ match r with
      | Some ty =>
          t = []
          ∧ ((ty = "device"
              ∧ (type = "device" ∨ type = "loadabledevice" ∨ type = "executabledevice"))
             ∨ (ty = "service" ∧ type = "service"))
      | None =>
          type ≠ "device" ∧ type ≠ "loadabledevice" ∧ type ≠ "executabledevice"
          ∧ type ≠ "service" ∧ ∃ msg, t = [EvLog LvlError msg]
      end.
Proof.
  cbv zeta. unfold getDeviceOrService. munfold.
  repeat case_bool_decide; simpl; eexists _, _; (split; [reflexivity|]); simpl;
    try (split; [done|]); try (by eauto 10);
    try (split_and!; try done; by eauto);
    try congruence.
Qed.

(** X11.  [getCodeFilePath] and [getDeviceOrService] neither raise nor change
    the manager.  A code file path is found only for an implementation
    with an entry point, whose file is accessible on the local file
    system; a relative entry point is taken from the directory of the SPD,
    an absolute one as it is.  The component types "device",
    "loadabledevice" and "executabledevice" are launched as "device",
    "service" as "service", and no other type is launched.  A refusal
    writes one log record. *)
Theorem launch_inputs (sdr : Sdr) (impl : ImplementationInfo) (spdPath : string)
    (useLocalFileSystem : bool) (prof : ProgramProfile) (s : DeviceManager) :
  let entry :=
    normalize sdr (if has_root_directory (impl_entryPoint impl) then impl_entryPoint impl
                   else spdPath +:+ "/" +:+ impl_entryPoint impl) in
  let type := prof_componentType prof in
  (∃ r t, getCodeFilePath sdr impl spdPath useLocalFileSystem s = (Ok r, s, t)
     ∧ match r with
       | Some path =>
           impl_entryPoint impl ≠ "" ∧ path ≠ ""
           ∧ path = (if useLocalFileSystem then getLocalPath sdr entry else entry)
           ∧ access sdr (getLocalPath sdr entry) = true ∧ t = []
       | None =>
           (impl_entryPoint impl = ""
            ∨ (if useLocalFileSystem then getLocalPath sdr entry else entry) = ""
            ∨ access sdr (getLocalPath sdr entry) = false)
           ∧ ∃ lvl msg, t = [EvLog lvl msg]
       end)
  ∧ (∃ r t, getDeviceOrService prof s = (Ok r, s, t)
       ∧ match r with
         | Some ty =>
             t = []
             ∧ ((ty = "device"
                 ∧ (type = "device" ∨ type = "loadabledevice" ∨ type = "executabledevice"))
                ∨ (ty = "service" ∧ type = "service"))
         | None =>
             type ≠ "device" ∧ type ≠ "loadabledevice" ∧ type ≠ "executabledevice"
             ∧ type ≠ "service" ∧ ∃ msg, t = [EvLog LvlError msg]
         end).
Proof.
  cbv zeta. split.
  - apply getCodeFilePath_answers.
  - apply getDeviceOrService_answers.
Qed.

Lemma getCodeFilePath_pure sdr impl path b s s' :
  getCodeFilePath sdr impl path b s' =
    (result (getCodeFilePath sdr impl path b s), s', calls (getCodeFilePath sdr impl path b s)).
Proof.
  unfold getCodeFilePath. munfold.
  repeat case_bool_decide; try done; by destruct (access sdr _).
Qed.

Lemma getDeviceOrService_pure prof prof' s s' :
  prof_componentType prof' = prof_componentType prof →
  getDeviceOrService prof' s' =
    (result (getDeviceOrService prof s), s', calls (getDeviceOrService prof s)).
Proof.
  intros H. unfold getDeviceOrService. rewrite H. munfold.
  by repeat case_bool_decide.
Qed.

(** The loop over the instantiations of a standalone placement whose code
    file and type are accepted. *)
Lemma launch_instantiations sdr (cIter : Deployment) impl prof path ty ior insts :
  ∀ s prof',
    profiles s !! cIter.2 = Some prof' →
    prof_spdPath prof' = prof_spdPath prof →
    prof_componentType prof' = prof_componentType prof →
    result (getCodeFilePath sdr impl (prof_spdPath prof) (useLocalFileSystem_default sdr) s)
      = Ok (Some path) →
    result (getDeviceOrService prof s) = Ok (Some ty) →
    let r :=
      for_each insts
        (λ instantiation,
           recordComponentInstantiationId instantiation (impl_id impl);;
           update_profile cIter.2 (setInstantiation instantiation);;
           s ← get;
           match profiles s !! cIter.2 with
           | None => null_deref
           | Some prof =>
               codeFilePath ← getCodeFilePath sdr impl (prof_spdPath prof)
                                (useLocalFileSystem_default sdr);
               match codeFilePath with
               | None => mret tt
               | Some codeFilePath =>
                   componentType ← getDeviceOrService prof;
                   match componentType with
                   | None => mret tt
                   | Some componentType =>
                       modify (λ s, set_deployed_comps (push_back (deployed_comps s) cIter) s);;
                       emit (EvLaunch (inst_id instantiation) componentType codeFilePath ior)
                   end
               end
           end) s in
    result r = Ok tt
    ∧ calls r = (λ inst, EvLaunch (inst_id inst) ty path ior) <$> insts
    ∧ deployed_comps (final r) = deployed_comps s ++ replicate (length insts) cIter
    ∧ _componentImplMap (final r) =
        foldl (λ m inst, <[inst_id inst := impl_id impl]> m) (_componentImplMap s) insts.
Proof.
  induction insts as [|inst insts IH]; intros s prof' Hp Hpath Hty Hcode Htype.
  { cbv zeta. simpl. split_and!; try done. by rewrite app_nil_r. }
  cbv zeta in *. cbn [for_each].
  match goal with |- context [for_each insts ?b] => set (body := b) in * end.
  unfold recordComponentInstantiationId, update_profile.
  munfold. simpl. rewrite lookup_alter_eq, Hp. simpl.
  rewrite Hpath. rewrite (getCodeFilePath_pure sdr impl _ _ s), Hcode. simpl.
  destruct (calls (getCodeFilePath sdr impl (prof_spdPath prof)
                     (useLocalFileSystem_default sdr) s)) as [|e0 t0] eqn:Hc0.
  2:{ exfalso. destruct (getCodeFilePath_answers sdr impl (prof_spdPath prof)
        (useLocalFileSystem_default sdr) s) as (r & t & Hrun & Hr).
      unfold result, calls in *. rewrite Hrun in *. simpl in *.
      injection Hcode as ->. destruct Hr as (_ & _ & _ & _ & ->). done. }
  rewrite (getDeviceOrService_pure prof _ s) by done. rewrite Htype. simpl.
  destruct (calls (getDeviceOrService prof s)) as [|e1 t1] eqn:Hc1.
  2:{ exfalso. destruct (getDeviceOrService_answers prof s) as (r & t & Hrun & Hr).
      unfold result, calls in *. rewrite Hrun in *. simpl in *.
      injection Htype as ->. destruct Hr as (-> & _). done. }
  simpl.
  match goal with
  | |- context [for_each insts body ?s1] =>
      destruct (IH s1 (setInstantiation inst prof')) as (H1 & H2 & H3 & H4);
        [ simpl; by rewrite lookup_alter_eq, Hp | done | done
        | by rewrite (getCodeFilePath_pure sdr impl _ _ s)
        | by rewrite (getDeviceOrService_pure prof prof s)
        | ];
      unfold result, final, calls in *;
      destruct (for_each insts body s1) as [[r2 s2] t2]
  end.
  simpl in *. rewrite H1, H2, H3, H4. split_and!; try done.
  unfold push_back. by rewrite <- app_assoc.
Qed.

(** The same loop when the code file or the type is refused. *)
Lemma skip_instantiations sdr (cIter : Deployment) impl prof ior insts :
  ∀ s prof',
    profiles s !! cIter.2 = Some prof' →
    prof_spdPath prof' = prof_spdPath prof →
    prof_componentType prof' = prof_componentType prof →
    result (getCodeFilePath sdr impl (prof_spdPath prof) (useLocalFileSystem_default sdr) s)
      = Ok None
    ∨ result (getDeviceOrService prof s) = Ok None →
    let r :=
      for_each insts
        (λ instantiation,
           recordComponentInstantiationId instantiation (impl_id impl);;
           update_profile cIter.2 (setInstantiation instantiation);;
           s ← get;
           match profiles s !! cIter.2 with
           | None => null_deref
           | Some prof =>
               codeFilePath ← getCodeFilePath sdr impl (prof_spdPath prof)
                                (useLocalFileSystem_default sdr);
               match codeFilePath with
               | None => mret tt
               | Some codeFilePath =>
                   componentType ← getDeviceOrService prof;
                   match componentType with
                   | None => mret tt
                   | Some componentType =>
                       modify (λ s, set_deployed_comps (push_back (deployed_comps s) cIter) s);;
                       emit (EvLaunch (inst_id instantiation) componentType codeFilePath ior)
                   end
               end
           end) s in
    result r = Ok tt
    ∧ launched (calls r) = []
    ∧ deployed_comps (final r) = deployed_comps s.
Proof.
  induction insts as [|inst insts IH]; intros s prof' Hp Hpath Hty Hrefused; [done|].
  cbv zeta in *. cbn [for_each].
  match goal with |- context [for_each insts ?b] => set (body := b) in * end.
  destruct (getCodeFilePath_answers sdr impl (prof_spdPath prof)
              (useLocalFileSystem_default sdr) s) as (rc & tc & Hrunc & Hrc).
  destruct (getDeviceOrService_answers prof s) as (rt & tt' & Hrunt & Hrt).
  unfold recordComponentInstantiationId, update_profile.
  munfold. simpl. rewrite lookup_alter_eq, Hp. simpl.
  rewrite Hpath. rewrite (getCodeFilePath_pure sdr impl _ _ s).
  unfold result, calls in *. rewrite Hrunc in *. simpl in *.
  assert (∀ s1, profiles s1 !! cIter.2 = Some (setInstantiation inst prof') →
            getCodeFilePath sdr impl (prof_spdPath prof) (useLocalFileSystem_default sdr) s1
              = (Ok rc, s1, tc) →
            getDeviceOrService prof s1 = (Ok rt, s1, tt') →
            let r := for_each insts body s1 in
            r.1.1 = Ok tt ∧ launched r.2 = [] ∧ deployed_comps r.1.2 = deployed_comps s1)
    as Hrest.
  { intros s1 Hp1 Hc1 Ht1. apply (IH s1 (setInstantiation inst prof')); try done.
    rewrite Hc1, Ht1. simpl. destruct Hrefused as [[= ->]|Href]; [by left|right].
    rewrite Hrunt in Href. by simpl in Href. }
  assert (∀ s1, getCodeFilePath sdr impl (prof_spdPath prof)
                  (useLocalFileSystem_default sdr) s1 = (Ok rc, s1, tc)) as Hc.
  { intros s1. by rewrite (getCodeFilePath_pure sdr impl _ _ s), Hrunc. }
  assert (∀ s1, getDeviceOrService prof s1 = (Ok rt, s1, tt')) as Ht.
  { intros s1. by rewrite (getDeviceOrService_pure prof prof s), Hrunt. }
  assert (launched tc = []) as Hltc.
  { destruct rc; [by destruct Hrc as (_ & _ & _ & _ & ->)|].
    by destruct Hrc as (_ & lvl & msg & ->). }
  destruct rc as [path|].
  - rewrite (getDeviceOrService_pure prof _ s) by done. rewrite Hrunt. simpl.
    destruct rt as [ty|].
    { exfalso. destruct Hrefused as [[=]|Href]. by rewrite Hrunt in Href. }
    destruct Hrt as (_ & _ & _ & _ & msg & ->). simpl.
    match goal with
    | |- context [for_each insts body ?s1] =>
        destruct (Hrest s1) as (H1 & H2 & H3);
          [simpl; by rewrite lookup_alter_eq, Hp | by apply Hc | by apply Ht |];
        destruct (for_each insts body s1) as [[r2 s2] t2]
    end.
    unfold final in *. simpl in *. rewrite H1, H3. split_and!; try done.
    rewrite !launched_app, Hltc, H2. done.
  - simpl.
    match goal with
    | |- context [for_each insts body ?s1] =>
        destruct (Hrest s1) as (H1 & H2 & H3);
          [simpl; by rewrite lookup_alter_eq, Hp | by apply Hc | by apply Ht |];
        destruct (for_each insts body s1) as [[r2 s2] t2]
    end.
    unfold final in *. simpl in *. rewrite H1, H3. split_and!; try done.
    rewrite !launched_app, Hltc, H2. done.
Qed.

(** The turn of the second loop for such a placement is the loop over
    its instantiations. *)
Lemma launch_standalone_loop sdr env cps cp p s prof impl :
  profiles s !! p = Some prof →
  prof_selectedImplementation prof = Some impl →
  impl_propertyFile impl = "" →
  cp_compositePartOfDeviceID cp = None →
  cp_instantiations cp ≠ [] →
  launch_standalone sdr env cps (cp, p) s =
    for_each (cp_instantiations cp)
      (λ instantiation,
         recordComponentInstantiationId instantiation (impl_id impl);;
         update_profile (cp, p).2 (setInstantiation instantiation);;
         s ← get;
         match profiles s !! (cp, p).2 with
         | None => null_deref
         | Some prof =>
             codeFilePath ← getCodeFilePath sdr impl (prof_spdPath prof)
                              (useLocalFileSystem_default sdr);
             match codeFilePath with
             | None => mret tt
             | Some codeFilePath =>
                 componentType ← getDeviceOrService prof;
                 match componentType with
                 | None => mret tt
                 | Some componentType =>
                     modify (λ s, set_deployed_comps (push_back (deployed_comps s) (cp, p)) s);;
                     emit (EvLaunch (inst_id instantiation) componentType codeFilePath "")
                 end
             end
         end) s.
Proof.
  intros Hp Himpl Hprf Hcomp Hinst.
  assert (∃ i, first_instantiation_id cp = mret i) as [i0 Hfirst].
  { unfold first_instantiation_id. destruct (cp_instantiations cp); [done|by eexists]. }
  unfold launch_standalone, addDeviceImplProperties, getCompositeDeviceIOR.
  cbv zeta. cbn [fst snd]. rewrite Hfirst. clear Hfirst.
  munfold. simpl. rewrite Hp, Himpl, Hprf, Hcomp. simpl.
  match goal with |- context [for_each ?l ?b s] => by destruct (for_each l b s) as [[? ?] ?] end.
Qed.

(** X12.  A standalone placement that is not part of a composite device and
    whose implementation has no property file of its own: when the code
    file path and the component type are accepted, every instantiation of
    the placement is launched, in order, with that path and type and
    without a parent IOR; each launch puts the placement on the list of
    deployed components, and the implementation is recorded for each
    instantiation.  When the code file path or the type is refused,
    nothing is launched and nothing is put on the list.  Either way the
    turn of the loop returns. *)
Theorem standalone_launches (sdr : Sdr) (env : Env) (cps : list ComponentPlacement)
    (cp : ComponentPlacement) (p : nat) (s : DeviceManager)
    (prof : ProgramProfile) (impl : ImplementationInfo) :
  profiles s !! p = Some prof →
  prof_selectedImplementation prof = Some impl →
  impl_propertyFile impl = "" →
  cp_compositePartOfDeviceID cp = None →
  cp_instantiations cp ≠ [] →
  let r := launch_standalone sdr env cps (cp, p) s in
  let code := result (getCodeFilePath sdr impl (prof_spdPath prof)
                        (useLocalFileSystem_default sdr) s) in
  let type := result (getDeviceOrService prof s) in
  (∀ path ty, code = Ok (Some path) → type = Ok (Some ty) →
     result r = Ok tt
     ∧ calls r = (λ inst, EvLaunch (inst_id inst) ty path "") <$> cp_instantiations cp
     ∧ deployed_comps (final r)
       = deployed_comps s ++ replicate (length (cp_instantiations cp)) (cp, p)
     ∧ _componentImplMap (final r)
       = foldl (λ m inst, <[inst_id inst := impl_id impl]> m) (_componentImplMap s)
           (cp_instantiations cp))
  ∧ (code = Ok None ∨ type = Ok None →
     result r = Ok tt ∧ launched (calls r) = [] ∧ deployed_comps (final r) = deployed_comps s).
Proof.
  intros Hp Himpl Hprf Hcomp Hinst. cbv zeta.
  rewrite (launch_standalone_loop sdr env cps cp p s prof impl) by done.
  split.
  - intros path ty Hcode Htype.
    by apply (launch_instantiations sdr (cp, p) impl prof path ty "" (cp_instantiations cp)
                s prof).
  - intros Href.
    by apply (skip_instantiations sdr (cp, p) impl prof "" (cp_instantiations cp) s prof).
Qed.
(** ** Which standalone placements are launched *)

#[local] Instance profiles_kept_refl keep : Reflexive (profiles_kept keep).
Proof. by intros s p Hp. Qed.

#[local] Instance profiles_kept_trans keep : Transitive (profiles_kept keep).
Proof. intros s1 s2 s3 H1 H2 p Hp. rewrite H2, H1; done. Qed.

Ltac kept_free :=
  repeat first
    [ steps_step
    | done
    | match goal with
      | |- profiles_kept _ _ _ => by (intros ? ?; simpl)
      | |- steps_at _ _ _ (if ?b then _ else _) _ => destruct b eqn:?
      | |- steps_at _ _ _ ((if ?b then _ else _) ≫= _) _ => destruct b eqn:?
      end ].

Lemma registerDevice_kept keep env d :
  steps (profiles_kept keep) any_call Any (registerDevice env d).
Proof.
  intros s. unfold registerDevice, forward_registerDevice, increment_registeredDevices,
    deviceIsRegistered, findProfile, ns_bind, dmnMgr_call.
  kept_free.
Qed.

Lemma getCompositeDeviceIOR_kept keep env cps cp :
  steps (profiles_kept keep) any_call Any (getCompositeDeviceIOR env cps cp).
Proof.
  intros s. unfold getCompositeDeviceIOR, poll_IOR, getIORfromID. kept_free.
  all: apply registerDevice_kept.
Qed.

Lemma addDeviceImplProperties_run sdr p impl s prof :
  profiles s !! p = Some prof →
  ∃ b s', addDeviceImplProperties sdr p impl s = (Ok b, s', [])
    ∧ profiles_kept (λ q, q ≠ p) s s'
    ∧ (b = true → is_Some (profiles s' !! p))
    ∧ ∀ s0, profiles s0 !! p = Some prof →
        result (addDeviceImplProperties sdr p impl s0) = Ok b
        ∧ profiles (final (addDeviceImplProperties sdr p impl s0)) !! p = profiles s' !! p.
Proof.
  intros Hp. unfold addDeviceImplProperties. munfold.
  case_bool_decide.
  - rewrite Hp. destruct (joinPRF sdr _ prof) as [prof'|] eqn:Hj.
    + eexists _, _. split; [reflexivity|]. split_and!.
      * intros q Hq. simpl. by rewrite lookup_insert_ne.
      * intros _. simpl. by rewrite lookup_insert_eq.
      * intros s0 Hp0. rewrite Hp0, Hj. unfold result, final. simpl.
        by rewrite !lookup_insert_eq.
    + eexists _, _. split; [reflexivity|]. split_and!; [done | done |].
      intros s0 Hp0. rewrite Hp0, Hj. unfold result, final. simpl. by rewrite Hp, Hp0.
  - eexists _, _. split; [reflexivity|]. split_and!; [done | by rewrite Hp |].
    intros s0 Hp0. unfold result, final. simpl. by rewrite Hp, Hp0.
Qed.

Lemma launch_standalone_kept sdr env cps d :
  steps (profiles_kept (λ q, q ≠ d.2)) any_call Any (launch_standalone sdr env cps d).
Proof.
  intros s. unfold launch_standalone, first_instantiation_id, addDeviceImplProperties,
    recordComponentInstantiationId, update_profile, getCodeFilePath, getDeviceOrService.
  kept_free.
  all: try apply getCompositeDeviceIOR_kept.
  all: intros q Hq; simpl; by rewrite ?lookup_insert_ne, ?lookup_alter_ne.
Qed.

Lemma launch_checks_kept sdr s s0 d :
  profiles s !! d.2 = profiles s0 !! d.2 → launch_checks sdr s d = launch_checks sdr s0 d.
Proof.
  intros Hp. unfold launch_checks. rewrite Hp.
  destruct (profiles s0 !! d.2) as [prof|] eqn:Hp0; [|done]. simpl.
  destruct (prof_selectedImplementation prof) as [impl|]; [|done].
  destruct (addDeviceImplProperties_run sdr d.2 impl s prof Hp) as (b & s' & _ & _ & _ & H).
  destruct (H s Hp) as [-> ->]. destruct (H s0 Hp0) as [-> ->].
  destruct b; [|done]. destruct (profiles s' !! d.2) as [prof'|]; [|done].
  rewrite (getCodeFilePath_pure sdr impl _ _ s0 s).
  by rewrite (getDeviceOrService_pure prof' prof' s0 s).
Qed.

Lemma launched_launches {A} (id : A → string) ty path ior (l : list A) :
  launched ((λ x, EvLaunch (id x) ty path ior) <$> l) = id <$> l.
Proof. induction l as [|x l IH]; [done|]. rewrite !fmap_cons. simpl. by rewrite IH. Qed.

(** One turn of the second loop: when it returns, it has launched every
    instantiation of the placement, or none, as the checks decide; when it
    does not return, it has launched none. *)
Lemma launch_standalone_turn sdr env cps d s prof impl :
  profiles s !! d.2 = Some prof →
  prof_selectedImplementation prof = Some impl →
  cp_instantiations d.1 ≠ [] →
  let r := launch_standalone sdr env cps d s in
  launched (calls r)
  = (if returned (result r) && launch_checks sdr s d
     then inst_id <$> cp_instantiations d.1 else [])
  ∧ (cp_compositePartOfDeviceID d.1 = None → result r = Ok tt).
Proof.
  intros Hp Himpl Hinst. cbv zeta.
  assert (∃ i, first_instantiation_id d.1 = mret i) as [i0 Hfirst].
  { unfold first_instantiation_id. destruct (cp_instantiations d.1); [done|by eexists]. }
  destruct (addDeviceImplProperties_run sdr d.2 impl s prof Hp)
    as (b & s2 & Hmerge & Hkept & Hsome & Hany).
  destruct (Hany s Hp) as [Hres Hfin].
  unfold launch_checks. rewrite Hp. cbn [mbind option_bind]. rewrite Himpl. cbv zeta.
  rewrite Hres, Hfin.
  unfold launch_standalone. rewrite Hfirst. munfold. rewrite Hp, Himpl, Hmerge. munfold.
  destruct b; cbn [negb]; munfold.
  2:{ unfold result, calls. cbn [fst snd]. by rewrite ?andb_false_r. }
  destruct (Hsome eq_refl) as [prof2 Hp2]. rewrite Hp2.
  pose proof (getCompositeDeviceIOR_no_launch env cps d.1 s2) as (_ & _ & Hnl).
  pose proof (getCompositeDeviceIOR_kept (λ _, True) env cps d.1 s2) as (_ & Hk & _).
  assert (cp_compositePartOfDeviceID d.1 = None →
          getCompositeDeviceIOR env cps d.1 s2 = (Ok "", s2, [])) as Hnone.
  { intros Hc. unfold getCompositeDeviceIOR. by rewrite Hc. }
  destruct (getCompositeDeviceIOR env cps d.1 s2) as [[rior s3] t3] eqn:Hior.
  unfold final, calls in Hk, Hnl. cbn [fst snd] in Hk, Hnl.
  assert (profiles s3 !! d.2 = Some prof2) as Hp3 by (by rewrite Hk).
  destruct rior as [ior|e| | |]; munfold.
  2-5: (unfold result, calls; cbn [fst snd];
        split; [by rewrite ?app_nil_r, not_launch_launched
               | intros Hc; specialize (Hnone Hc); congruence]).
  destruct (getCodeFilePath_answers sdr impl (prof_spdPath prof2)
              (useLocalFileSystem_default sdr) s) as (rc & tc & Hrunc & _).
  destruct (getDeviceOrService_answers prof2 s) as (rt & tt' & Hrunt & _).
  rewrite Hrunc, Hrunt. unfold result at 2 3. cbn [fst accepted].
  destruct rc as [path|]; [destruct rt as [ty|]|]; cbn [andb].
  - destruct (launch_instantiations sdr d impl prof2 path ty ior (cp_instantiations d.1)
                s3 prof2) as (H1 & H2 & _); try done.
    { by rewrite (getCodeFilePath_pure sdr impl _ _ s), Hrunc. }
    { by rewrite (getDeviceOrService_pure prof2 prof2 s), Hrunt. }
    unfold result, calls in *. munfold.
    match goal with |- context [for_each ?l ?b s3] => destruct (for_each l b s3) as [[r4 s4] t4] end.
    cbn [fst snd] in *. subst r4 t4. cbn [returned andb].
    split; [|done]. cbn [app]. rewrite launched_app, (not_launch_launched _ Hnl). cbn [app].
    apply launched_launches.
  - destruct (skip_instantiations sdr d impl prof2 ior (cp_instantiations d.1)
                s3 prof2) as (H1 & H2 & _); try done.
    { right. by rewrite (getDeviceOrService_pure prof2 prof2 s), Hrunt. }
    unfold result, calls in *. munfold.
    match goal with |- context [for_each ?l ?b s3] => destruct (for_each l b s3) as [[r4 s4] t4] end.
    cbn [fst snd] in *. subst r4. rewrite ?andb_false_r.
    split; [|done]. cbn [app]. by rewrite launched_app, (not_launch_launched _ Hnl), H2.
  - destruct (skip_instantiations sdr d impl prof2 ior (cp_instantiations d.1)
                s3 prof2) as (H1 & H2 & _); try done.
    { left. by rewrite (getCodeFilePath_pure sdr impl _ _ s), Hrunc. }
    unfold result, calls in *. munfold.
    match goal with |- context [for_each ?l ?b s3] => destruct (for_each l b s3) as [[r4 s4] t4] end.
    cbn [fst snd] in *. subst r4. rewrite ?andb_false_r.
    split; [|done]. cbn [app]. by rewrite launched_app, (not_launch_launched _ Hnl), H2.
Qed.

Lemma planned_insert m l p prof :
  m !! p = None → planned m l → planned (<[p := prof]> m) l ∧ p ∉ l.*2.
Proof.
  intros Hp [Hnd Hl].
  assert (p ∉ l.*2) as Hnotin.
  { intros Hin. apply list_elem_of_fmap in Hin as (d & -> & Hd).
    rewrite Forall_forall in Hl. destruct (Hl d Hd) as (prof' & Hd' & _). congruence. }
  split; [|done]. split; [done|].
  apply Forall_forall. intros d Hd. rewrite Forall_forall in Hl.
  destruct (Hl d Hd) as (prof' & Hd' & Hsel). exists prof'. split; [|done].
  rewrite lookup_insert_ne; [done|]. intros ->. apply Hnotin. by apply list_elem_of_fmap_2.
Qed.

Lemma planned_snoc m l (cp : ComponentPlacement) p prof :
  m !! p = None → planned m l → is_Some (prof_selectedImplementation prof) →
  planned (<[p := prof]> m) (l ++ [(cp, p)]).
Proof.
  intros Hp Hpl Hsel. destruct (planned_insert m l p prof Hp Hpl) as [[Hnd Hl] Hnotin].
  split.
  - rewrite fmap_app. apply NoDup_app. split_and!; [done | | by apply NoDup_singleton].
    intros q Hq. simpl. rewrite list_elem_of_singleton. by intros ->.
  - apply Forall_app. split; [done|]. apply Forall_singleton. exists prof.
    split; [by rewrite lookup_insert_eq | done].
Qed.

(** The first loop keeps a profile, with its implementation selected, for
    every placement on the standalone list, each at an address of its
    own. *)
Lemma split_loop_plan sdr cps : ∀ standalone composite s,
  Forall (λ cp, cp_instantiations cp ≠ []) cps →
  planned (profiles s) standalone →
  ∃ standalone' composite' m t,
    fold_each (split_placement sdr) cps (standalone, composite) s
      = (Ok (standalone', composite'), set_profiles m s, t)
    ∧ planned m standalone'.
Proof.
  induction cps as [|cp cps IH]; intros st co s Hinst Hpl.
  - exists st, co, (profiles s), []. by rewrite set_profiles_id.
  - apply Forall_cons in Hinst as [Hcp Hinst].
    destruct (split_placement_run sdr st co cp s Hcp) as (t1 & Ht1 & Hrun & _).
    cbn [fold_each]. munfold. rewrite Hrun.
    assert (Hfresh : profiles s !! fresh (dom (profiles s)) = None).
    { apply not_elem_of_dom, is_fresh. }
    unfold composite_part, resolve_placement in *.
    destruct (LoadProfile sdr _) as [e|prof] eqn:Hload; cbn [fmap option_fmap option_map].
    { destruct (IH st co s Hinst Hpl) as (st' & co' & m & t2 & Hrun2 & Hpl').
      rewrite Hrun2. by exists st', co', m, (t1 ++ t2). }
    destruct (first_match _ _) as [impl|]; cbn [fmap option_fmap option_map].
    2:{ destruct (IH st co s Hinst Hpl) as (st' & co' & m & t2 & Hrun2 & Hpl').
        rewrite Hrun2. by exists st', co', m, (t1 ++ t2). }
    destruct (resolveSoftpkgDependencies _ impl); cbn [fmap option_fmap option_map].
    2:{ destruct (IH st co s Hinst Hpl) as (st' & co' & m & t2 & Hrun2 & Hpl').
        rewrite Hrun2. by exists st', co', m, (t1 ++ t2). }
    cbv zeta. cbn [default].
    destruct (isCompositePartOf cp && bool_decide (impl_codeType impl = SHARED_LIBRARY)).
    + match goal with
      | |- context [fold_each (split_placement sdr) cps (?a, ?b) ?s1] =>
          destruct (IH a b s1 Hinst) as (st' & co' & m & t2 & Hrun2 & Hpl')
      end.
      { simpl. by apply planned_insert. }
      rewrite Hrun2. exists st', co', m, t2. by rewrite set_profiles_twice.
    + match goal with
      | |- context [fold_each (split_placement sdr) cps (?a, ?b) ?s1] =>
          destruct (IH a b s1 Hinst) as (st' & co' & m & t2 & Hrun2 & Hpl')
      end.
      { simpl. by apply planned_snoc. }
      rewrite Hrun2. exists st', co', m, t2. by rewrite set_profiles_twice.
Qed.

Lemma accepted_launches_cons sdr s1 d l :
  accepted_launches sdr s1 (d :: l)
  = (if launch_checks sdr s1 d then inst_id <$> cp_instantiations d.1 else [])
    ++ accepted_launches sdr s1 l.
Proof.
  unfold accepted_launches, instantiation_ids. rewrite filter_cons.
  case_decide as Hc; rewrite ?bind_cons.
  - by rewrite Hc.
  - by destruct (launch_checks sdr s1 d).
Qed.

(** The second loop launches the instantiations of the placements that
    pass the checks, in the order of the list: all of them when it
    returns, and it returns when no placement has to wait for a composite
    parent. *)
Lemma standalone_loop_accepted sdr env cps s1 : ∀ l s,
  NoDup l.*2 →
  Forall (λ d : Deployment,
            cp_instantiations d.1 ≠ []
            ∧ ∃ prof, profiles s1 !! d.2 = Some prof
                      ∧ is_Some (prof_selectedImplementation prof)) l →
  profiles_kept (λ q, q ∈ l.*2) s1 s →
  let r := for_each l (launch_standalone sdr env cps) s in
  launched (calls r) `prefix_of` accepted_launches sdr s1 l
  ∧ (result r = Ok tt → launched (calls r) = accepted_launches sdr s1 l)
  ∧ (Forall (λ d : Deployment, cp_compositePartOfDeviceID d.1 = None) l → result r = Ok tt).
Proof.
  induction l as [|d l IH]; intros s Hnd Hl Hkept; cbv zeta.
  { by split_and!. }
  apply NoDup_cons in Hnd as [Hd Hnd]. apply Forall_cons in Hl as [(Hinst & prof & Hp & impl & Himpl) Hl].
  assert (profiles s !! d.2 = Some prof) as Hps.
  { rewrite Hkept; [done|]. apply list_elem_of_here. }
  destruct (launch_standalone_turn sdr env cps d s prof impl Hps Himpl Hinst) as [Hturn Hret].
  rewrite (launch_checks_kept sdr s s1 d) in Hturn by (by rewrite Hps).
  pose proof (launch_standalone_kept sdr env cps d s) as (_ & Hk & _).
  rewrite accepted_launches_cons.
  cbn [for_each]. rewrite calls_bind. rewrite launched_app.
  unfold mbind, M_bind, result, final, calls in *.
  destruct (launch_standalone sdr env cps d s) as [[rd sd] td]. cbn [fst snd] in *.
  destruct rd as [[]|e| | |]; cbn [returned andb] in Hturn; rewrite Hturn.
  2-5: (rewrite app_nil_r; split_and!;
        [ apply prefix_nil | done
        | intros [Hc _]%Forall_cons; by specialize (Hret Hc) ]).
  destruct (IH sd Hnd Hl) as (H1 & H2 & H3).
  { intros q Hq. rewrite Hk.
    - apply Hkept. by apply list_elem_of_further.
    - by intros ->. }
  unfold result, calls in *.
  destruct (for_each l (launch_standalone sdr env cps) sd) as [[r2 s2] t2]. cbn [fst snd] in *.
  split_and!.
  - by apply prefix_app.
  - intros Hr. by rewrite H2.
  - intros [_ Hc]%Forall_cons. by apply H3.
Qed.

Lemma standalone_composite_part sdr prf cp :
  cp_compositePartOfDeviceID cp = None → composite_part sdr prf cp ≠ Some true.
Proof.
  intros Hc. unfold composite_part, isCompositePartOf. rewrite Hc.
  by destruct (resolve_placement sdr prf cp).
Qed.

Lemma filter_none {A} (P : A → Prop) `{!∀ x, Decision (P x)} (l : list A) :
  Forall (λ x, ¬ P x) l → filter P l = [].
Proof. induction 1 as [|x l Hx _ IH]; [done|]. by rewrite filter_cons, decide_False. Qed.


(** * Shutdown *)

(** ** Children that leave while the manager is not registered *)


(** ** Shutdown *)

#[local] Instance same_admin_refl : Reflexive same_admin.
Proof. by intros s. Qed.

#[local] Instance same_admin_trans : Transitive same_admin.
Proof. intros s1 s2 s3 [H1 H2] [H3 H4]. split; congruence. Qed.

(** Carries what is known of the admin state to the state a step leaves. *)
Ltac admin_forward :=
  repeat match goal with
         | HR : same_admin ?s ?s1 |- _ =>
             first [ assert (_adminState s1 ≠ DEVMGR_REGISTERED)
                       by (destruct HR as [-> _]; simpl; assumption)
                   | idtac ];
             clear HR
         end.

Ltac offline_step :=
  first
    [ steps_step; admin_forward
    | match goal with
      | |- same_admin _ _ => by split
      | |- not_DomMgr_call _ => done
      | |- _adminState _ ≠ DEVMGR_REGISTERED => first [assumption | simpl; assumption]
      | H : bool_decide (_adminState ?s = DEVMGR_REGISTERED) = true |- _ =>
          exfalso; apply bool_decide_eq_true_1 in H; simpl in *; congruence
      | |- steps_at _ _ _ (if ?b then _ else _) _ => destruct b eqn:?
      | |- steps_at _ _ _ ((if ?b then _ else _) ≫= _) _ => destruct b eqn:?
      end ].

Ltac offline_tac := repeat offline_step.

Ltac offline_call L :=
  eapply steps_at_weaken; [|apply L; first [assumption | simpl; assumption]]; by auto.

Lemma ns_unbind_offline env c name :
  steps same_admin not_DomMgr_call NoFault (ns_unbind env c name).
Proof. unfold ns_unbind. offline_tac; by destruct c. Qed.

Lemma local_unregisterDevice_offline env dev lbl s :
  _adminState s ≠ DEVMGR_REGISTERED →
  steps_at same_admin not_DomMgr_call Total (local_unregisterDevice env dev lbl) s.
Proof.
  intros Hadm. unfold local_unregisterDevice. offline_tac.
  apply ns_unbind_offline.
Qed.

Lemma local_unregisterService_offline env svc name s :
  _adminState s ≠ DEVMGR_REGISTERED →
  steps_at same_admin not_DomMgr_call Total (local_unregisterService env svc name) s.
Proof.
  intros Hadm. unfold local_unregisterService. offline_tac.
  apply ns_unbind_offline.
Qed.

Lemma getDeviceNode_offline env p s :
  _adminState s ≠ DEVMGR_REGISTERED →
  steps_at same_admin not_DomMgr_call Total (getDeviceNode env p) s.
Proof.
  intros Hadm. unfold getDeviceNode. offline_tac.
  offline_call local_unregisterDevice_offline.
Qed.

Lemma childExited_offline env p sg s :
  _adminState s ≠ DEVMGR_REGISTERED →
  steps_at same_admin not_DomMgr_call Total (childExited env p sg) s.
Proof.
  intros Hadm. unfold childExited. offline_tac.
  - offline_call getDeviceNode_offline.
  - offline_call local_unregisterService_offline.
Qed.

Lemma timed_wait_offline env reaps : ∀ s,
  _adminState s ≠ DEVMGR_REGISTERED →
  steps_at same_admin not_DomMgr_call Total (timed_wait env reaps) s.
Proof.
  induction reaps as [|[p sg] reaps IH]; intros s Hadm; simpl; offline_tac.
  - offline_call childExited_offline.
  - by apply IH.
Qed.

Lemma kill_all_offline pids signal :
  steps same_admin not_DomMgr_call Total (kill_all pids signal).
Proof. induction pids as [|p pids IH]; intros s; simpl; offline_tac. apply IH. Qed.

Lemma killPendingDevices_offline env signal timeout s :
  _adminState s ≠ DEVMGR_REGISTERED →
  steps_at same_admin not_DomMgr_call Total (killPendingDevices env signal timeout) s.
Proof.
  intros Hadm. unfold killPendingDevices. offline_tac.
  - apply kill_all_offline.
  - by apply timed_wait_offline.
Qed.

Lemma unregisterDevice_offline env d s :
  _adminState s ≠ DEVMGR_REGISTERED →
  steps_at same_admin not_DomMgr_call NoFault (unregisterDevice env d) s.
Proof.
  intros Hadm. unfold unregisterDevice, decrement_registeredDevices. offline_tac.
  offline_call local_unregisterDevice_offline.
Qed.

Lemma run_callbacks_offline env cbs : ∀ s,
  _adminState s ≠ DEVMGR_REGISTERED →
  steps_at same_admin not_DomMgr_call Total (run_callbacks env cbs) s.
Proof.
  induction cbs as [|cb cbs IH]; intros s Hadm; simpl; offline_tac; [|by apply IH].
  unfold run_callback. offline_tac.
  - offline_call unregisterDevice_offline.
  - offline_call childExited_offline.
Qed.

Lemma release_front_offline env s :
  _adminState s ≠ DEVMGR_REGISTERED →
  steps_at same_admin not_DomMgr_call Total (release_front env) s.
Proof.
  intros Hadm. unfold release_front, releaseObject, requeue_front. offline_tac.
  offline_call run_callbacks_offline.
Qed.

Lemma release_loop_offline env fuel : ∀ s,
  _adminState s ≠ DEVMGR_REGISTERED →
  steps_at same_admin not_DomMgr_call Total (release_loop env fuel) s.
Proof.
  induction fuel as [|fuel IH]; intros s Hadm; simpl; offline_tac.
  - offline_call release_front_offline.
  - by apply IH.
Qed.

Lemma clean_registeredDevices_offline env s :
  _adminState s ≠ DEVMGR_REGISTERED →
  steps_at same_admin not_DomMgr_call Total (clean_registeredDevices env) s.
Proof.
  intros Hadm. unfold clean_registeredDevices. offline_tac.
  - offline_call release_loop_offline.
  - offline_call killPendingDevices_offline.
  - offline_call killPendingDevices_offline.
  - offline_call killPendingDevices_offline.
Qed.

Lemma probe_pids_steps (R : relation DeviceManager) `{!Reflexive R, !Transitive R}
    (P : Event → Prop) poll pids :
  (∀ p, P (EvProbe p)) → steps R P Total (probe_pids poll pids).
Proof.
  intros HP. induction pids as [|p pids IH]; intros s; simpl; steps_tac;
    first [apply HP | apply IH].
Qed.

Lemma poll_services_offline env pids polls : ∀ s,
  _adminState s ≠ DEVMGR_REGISTERED →
  steps_at same_admin not_DomMgr_call Total (poll_services env pids polls) s.
Proof.
  assert (∀ reaps s, _adminState s ≠ DEVMGR_REGISTERED →
            steps_at same_admin not_DomMgr_call Total
              (for_each reaps (λ '(p, signaled), childExited env p signaled)) s) as Hwait.
  { induction reaps as [|[p sg] reaps IH]; intros s Hadm; simpl;
      repeat first [ by apply IH | offline_call childExited_offline | offline_step ]. }
  induction polls as [|poll polls IH]; intros s Hadm; simpl; [offline_tac|].
  apply steps_at_bind; try apply _.
  - by apply probe_pids_steps; try apply _.
  - intros gone s1 HR. admin_forward. destruct gone; [offline_tac|].
    apply steps_at_bind; try apply _; [by apply Hwait|].
    intros [] s2 HR'. admin_forward. by apply IH.
Qed.

Lemma clean_registeredServices_offline env polls s :
  _adminState s ≠ DEVMGR_REGISTERED →
  steps_at same_admin not_DomMgr_call Total (clean_registeredServices env polls) s.
Proof.
  intros Hadm. unfold clean_registeredServices, kill_services.
  repeat first [ by apply poll_services_offline | apply kill_all_offline | offline_step ].
Qed.

Lemma clean_externalServices_offline env s :
  _adminState s ≠ DEVMGR_REGISTERED →
  steps_at same_admin not_DomMgr_call Total (clean_externalServices env) s.
Proof.
  intros Hadm. unfold clean_externalServices. offline_tac.
  offline_call local_unregisterService_offline.
Qed.

(** ** Services at shutdown *)

Lemma kill_services_run signal s :
  kill_services signal s = (Ok tt, s, service_kills signal s).
Proof.
  unfold kill_services, service_kills. munfold. rewrite !kill_all_run. cbn.
  do 2 f_equal.
  - by rewrite <- list_fmap_compose.
  - induction (_registeredServices s) as [|n l IH]; [done|].
    rewrite fmap_cons, !filter_cons. case_decide; [rewrite !fmap_cons|]; by rewrite IH.
Qed.

Lemma poll_services_winds_down env pids polls :
  steps winds_down not_kill Total (poll_services env pids polls).
Proof.
  induction polls as [|poll polls IH]; intros s; simpl; [apply steps_at_ret; apply _|].
  apply steps_at_bind; try apply _; [by apply probe_pids_steps; try apply _|].
  intros gone s1 _. destruct gone; [apply steps_at_ret; apply _|].
  apply steps_at_bind; try apply _; [|intros ? ? ?; apply IH].
  apply steps_for_each; try apply _. intros [p sg]. apply childExited_winds_down.
Qed.

Lemma clean_registeredServices_run env polls s :
  ∃ s' t, clean_registeredServices env polls s
          = (Ok tt, s', service_kills SIGTERM s ++ t ++ service_kills SIGKILL s')
    ∧ winds_down s s' ∧ Forall not_kill t.
Proof.
  unfold clean_registeredServices. munfold. rewrite kill_services_run.
  case_bool_decide.
  - destruct (steps_total_run winds_down not_kill _ s
                (poll_services_winds_down env
                   ((svc_pid <$> _registeredServices s) ++ (svc_pid <$> _pendingServices s))
                   (first_poll polls :: later_polls polls) s))
      as ([] & s1 & t1 & -> & Hr & Ht).
    rewrite kill_services_run. eexists _, _. split; [|done]. by cbn.
  - rewrite kill_services_run. exists s, []. split; [|done]. cbn. by rewrite ?app_nil_r.
Qed.

Lemma clean_externalServices_winds_down env :
  steps winds_down not_kill Total (clean_externalServices env).
Proof. unfold clean_externalServices. winds_down_tac. Qed.

Lemma service_kills_targeted signal s :
  registry_invariant s → Forall targeted (service_kills signal s).
Proof.
  intros (_ & _ & _ & _ & I5). unfold service_kills. apply Forall_app. split.
  - apply Forall_fmap. eapply Forall_impl; [exact I5|].
    intros n Hn. unfold targeted. simpl. by apply bool_decide_eq_false_2.
  - apply Forall_fmap, Forall_forall. intros n Hn.
    apply list_elem_of_filter in Hn as [Hn _].
    unfold targeted. simpl. by apply bool_decide_eq_false_2.
Qed.

Lemma not_kill_targeted e : not_kill e → targeted e.
Proof. by destruct e. Qed.

(** ** Probes *)

Lemma childExited_no_probe env p sg : steps anyhow not_probe Any (childExited env p sg).
Proof.
  intros s. unfold childExited, getDeviceNode, local_unregisterDevice, local_unregisterService,
    ns_unbind, dmnMgr_call.
  launch_free.
Qed.

Lemma timed_wait_no_probe env reaps : steps anyhow not_probe Any (timed_wait env reaps).
Proof.
  induction reaps as [|[p sg] reaps IH]; intros s; simpl; launch_free.
  all: first [apply childExited_no_probe | apply IH].
Qed.

Lemma kill_all_no_probe pids signal : steps anyhow not_probe Any (kill_all pids signal).
Proof. induction pids as [|p pids IH]; intros s; simpl; launch_free. all: apply IH. Qed.

Lemma killPendingDevices_no_probe env signal timeout :
  steps anyhow not_probe Any (killPendingDevices env signal timeout).
Proof.
  intros s. unfold killPendingDevices. launch_free.
  all: first [apply kill_all_no_probe | apply timed_wait_no_probe].
Qed.

Lemma run_callbacks_no_probe env cbs : steps anyhow not_probe Any (run_callbacks env cbs).
Proof.
  induction cbs as [|cb cbs IH]; intros s; simpl; launch_free.
  all: try apply IH.
  all: destruct cb; simpl; [|apply childExited_no_probe].
  all: unfold unregisterDevice, decrement_registeredDevices, local_unregisterDevice, ns_unbind,
    dmnMgr_call.
  all: launch_free.
Qed.

Lemma release_loop_no_probe env fuel : steps anyhow not_probe Any (release_loop env fuel).
Proof.
  induction fuel as [|fuel IH]; intros s; simpl; launch_free.
  all: try apply IH.
  all: unfold release_front, releaseObject, requeue_front; launch_free.
  all: apply run_callbacks_no_probe.
Qed.

Lemma clean_registeredDevices_no_probe env :
  steps anyhow not_probe Any (clean_registeredDevices env).
Proof.
  intros s. unfold clean_registeredDevices. launch_free.
  all: first [apply release_loop_no_probe | apply killPendingDevices_no_probe].
Qed.

Lemma clean_externalServices_no_probe env :
  steps anyhow not_probe Any (clean_externalServices env).
Proof.
  intros s. unfold clean_externalServices, local_unregisterService, ns_unbind, dmnMgr_call.
  launch_free.
Qed.

Lemma probed_app t1 t2 : probed (t1 ++ t2) = probed t1 ++ probed t2.
Proof. apply omap_app. Qed.

Lemma not_probe_probed t : Forall not_probe t → probed t = [].
Proof.
  induction 1 as [|e t He _ IH]; [done|].
  destruct e; try done; simpl; exact IH.
Qed.

Lemma service_kills_probed signal s : probed (service_kills signal s) = [].
Proof.
  apply not_probe_probed. unfold service_kills.
  apply Forall_app. split; by apply Forall_fmap, Forall_forall.
Qed.

(** A turn of the loop asks about the pids in order, up to the first
    process that exists. *)
Lemma probe_pids_run poll pids s :
  ∃ n, probe_pids poll pids s
       = (Ok (bool_decide (n = length pids) && forallb (λ p, negb (probe_answers poll p)) pids),
          s, EvProbe <$> take n pids)
     ∧ (n ≤ length pids)%nat
     ∧ (pids ≠ [] → n ≠ 0%nat).
Proof.
  induction pids as [|p pids (n & IH & Hn & _)]; [by exists 0%nat|].
  simpl. munfold. destruct (probe_answers poll p) eqn:Hp.
  - exists 1%nat. simpl. rewrite andb_false_r. split_and!; [done|lia|done].
  - exists (S n). rewrite IH. simpl. split_and!; [|lia|done].
    repeat f_equal. apply bool_decide_ext. lia.
Qed.

Lemma probed_probes l : probed (EvProbe <$> l) = l.
Proof. induction l as [|p l IH]; [done|]. rewrite fmap_cons. simpl. f_equal. exact IH. Qed.

Lemma service_reaps_no_probe env reaps :
  steps anyhow not_probe Any (for_each reaps (λ '(p, signaled), childExited env p signaled)).
Proof.
  apply steps_for_each; try apply _. intros [p sg]. apply childExited_no_probe.
Qed.

Lemma poll_services_probed env pids polls : ∀ s,
  Forall (λ p, p ∈ pids) (probed (calls (poll_services env pids polls s)))
  ∧ (polls ≠ [] → head (probed (calls (poll_services env pids polls s))) = head pids).
Proof.
  induction polls as [|poll polls IH]; intros s; [by split|].
  cbn [poll_services]. rewrite calls_bind.
  destruct (probe_pids_run poll pids s) as (n & -> & Hn & Hn0).
  unfold result, final, calls. cbn [fst snd].
  rewrite probed_app, probed_probes.
  assert (Forall (λ p, p ∈ pids) (take n pids)) as Htake.
  { apply Forall_forall. intros p Hp. apply elem_of_take in Hp as (i & Hi & _).
    by eapply list_elem_of_lookup_2. }
  assert (head (take n pids) = head pids) as Hhead.
  { destruct pids as [|p pids]; [by rewrite take_nil|].
    destruct n; [by destruct Hn0|done]. }
  destruct (_ && _).
  - simpl. rewrite app_nil_r. by split.
  - fold (calls ((for_each (poll_reaps poll) (λ '(p, signaled), childExited env p signaled)
                  ≫= λ _, poll_services env pids polls) s)).
    rewrite calls_bind.
    destruct (service_reaps_no_probe env (poll_reaps poll) s) as (_ & _ & Hnp).
    rewrite probed_app, (not_probe_probed _ Hnp). cbn [app].
    split.
    + apply Forall_app. split; [done|].
      destruct (result _); [apply IH | done..].
    + intros _. destruct (take n pids) as [|p l] eqn:E; [|done].
      destruct pids as [|p pids]; [|destruct n; [by destruct Hn0|done]].
      simpl. destruct (result _); [|done..].
      destruct polls as [|poll' polls]; [done|]. by apply IH.
Qed.

Lemma clean_registeredServices_probed env polls s :
  let pids := (svc_pid <$> _registeredServices s) ++ (svc_pid <$> _pendingServices s) in
  let t := probed (calls (clean_registeredServices env polls s)) in
  Forall (λ p, p ∈ pids) t ∧ head t = head pids.
Proof.
  cbv zeta. unfold clean_registeredServices. munfold. rewrite kill_services_run.
  set (pids := (svc_pid <$> _registeredServices s) ++ (svc_pid <$> _pendingServices s)).
  case_bool_decide as Hpids.
  - destruct (steps_total_run winds_down not_kill _ s
                (poll_services_winds_down env pids (first_poll polls :: later_polls polls) s))
      as ([] & s1 & t1 & Hrun & Hr & Ht).
    destruct (poll_services_probed env pids (first_poll polls :: later_polls polls) s)
      as [H1 H2].
    rewrite Hrun in *. unfold calls in *. cbn [fst snd] in *.
    rewrite kill_services_run. cbn [fst snd].
    rewrite !probed_app, !service_kills_probed, app_nil_r. cbn [app].
    split; [done | by apply H2].
  - rewrite kill_services_run. unfold calls. cbn [fst snd].
    rewrite !probed_app, !service_kills_probed. simpl.
    split; [done|]. clearbody pids. by destruct pids.
Qed.

Lemma swallowed_unbind_no_probe env c name s :
  Forall not_probe (calls (try_catch (ns_unbind env c name) (λ _, mret tt) s)).
Proof.
  assert (steps_at anyhow not_probe Any (try_catch (ns_unbind env c name) (λ _, mret tt)) s)
    as (_ & _ & H); [|done].
  unfold ns_unbind. launch_free.
Qed.


(** ** Shutdown *)

Lemma clean_registeredDevices_empties env s :
  _registeredDevices (final (clean_registeredDevices env s)) = [].
Proof.
  unfold clean_registeredDevices. munfold.
  destruct (release_loop_run env (length (_registeredDevices s)) s)
    as (s1 & t1 & rel & -> & Hreg & _); [done|].
  set (timeout := force_quit_usec (DEVICE_FORCE_QUIT_TIME s1)).
  destruct (killPendingDevices_kills env SIGINT timeout s1) as (s2 & t2 & -> & Hr2 & _).
  destruct (killPendingDevices_kills env SIGTERM timeout s2) as (s3 & t3 & -> & Hr3 & _).
  destruct (killPendingDevices_kills env SIGKILL 0 s3) as (s4 & t4 & -> & Hr4 & _).
  unfold final. cbn [fst snd].
  assert (winds_down s1 s4) as (_ & H & _) by (etrans; [|exact Hr4]; by etrans).
  apply elem_of_nil_inv. intros n Hn. apply H in Hn. rewrite Hreg in Hn.
  by apply elem_of_nil in Hn.
Qed.

Lemma clean_registeredDevices_targeted env s :
  registry_invariant s → Forall targeted (calls (clean_registeredDevices env s)).
Proof.
  intros Hinv.
  destruct (clean_registeredDevices_winds_down env s) as (s' & t & Hrun & Hw & Hk).
  assert (Forall not_DomMgr_call t → True) by done.
  rewrite Hrun. unfold calls. cbn [snd]. apply Forall_forall. intros e He.
  destruct e; try done. unfold targeted. simpl. apply bool_decide_eq_false_2.
  destruct (Hk _ _ He) as (s1 & n & (H1 & _) & Hn & <-).
  destruct (H1 Hinv) as (_ & _ & _ & I4 & _).
  rewrite Forall_forall in I4. by apply I4.
Qed.

Lemma swallowed_remote o s :
  try_catch (remote o) (λ _, mret tt) s = (Ok tt, s, []).
Proof. by destruct o. Qed.

Lemma swallowed_unbind env c name s :
  ∃ s' t, try_catch (ns_unbind env c name) (λ _, mret tt) s = (Ok tt, s', t)
    ∧ same_buckets s s' ∧ Forall quiet t ∧ Forall not_DomMgr_call t.
Proof.
  assert (steps_at same_buckets quiet Total
            (try_catch (ns_unbind env c name) (λ _, mret tt)) s) as H1.
  { steps_tac. apply ns_unbind_steps. }
  assert (steps_at same_admin not_DomMgr_call Total
            (try_catch (ns_unbind env c name) (λ _, mret tt)) s) as (_ & _ & H2).
  { steps_tac. apply ns_unbind_offline. }
  destruct (steps_total_run _ _ _ _ H1) as ([] & s' & t & Hrun & ? & ?).
  rewrite Hrun in H2. by exists s', t.
Qed.

Lemma shutdown_again env peers lbl polls s :
  _adminState s = DEVMGR_SHUTTING_DOWN ∨ _adminState s = DEVMGR_SHUTDOWN →
  shutdown env peers lbl polls s = (Ok tt, set_internalShutdown true s, []).
Proof. intros [H|H]; unfold shutdown; munfold; simpl; by rewrite H. Qed.

Lemma shutdown_run env peers lbl polls s :
  _adminState s ≠ DEVMGR_SHUTTING_DOWN → _adminState s ≠ DEVMGR_SHUTDOWN →
  ∃ s' t, shutdown env peers lbl polls s = (Ok tt, s', t)
    ∧ _adminState s' = DEVMGR_SHUTDOWN ∧ _internalShutdown s' = true
    ∧ _registeredDevices s' = []
    ∧ winds_down s s'
    ∧ Forall not_DomMgr_call t
    ∧ (registry_invariant s → Forall targeted t)
    ∧ probed t
      = probed (calls (clean_registeredServices env polls
                         (set_adminState DEVMGR_SHUTTING_DOWN (set_internalShutdown true s)))).
Proof.
  intros Hn1 Hn2. unfold shutdown.
  set (s0 := set_adminState DEVMGR_SHUTTING_DOWN (set_internalShutdown true s)).
  assert (_adminState s0 ≠ DEVMGR_REGISTERED) as Hoff by done.
  assert (winds_down s s0) as Hw0 by (by apply shrinks_winds_down).
  destruct (clean_registeredServices_run env polls s0) as (s1 & t1 & Hrun1 & Hw1 & Hk1).
  pose proof (clean_registeredServices_offline env polls s0 Hoff) as (_ & Ha1 & Hq1).
  rewrite Hrun1 in Ha1, Hq1. unfold final, calls in Ha1, Hq1. cbn [fst snd] in Ha1, Hq1.
  assert (_adminState s1 ≠ DEVMGR_REGISTERED) as Hoff1 by (by destruct Ha1 as [-> _]).
  destruct (steps_total_run winds_down not_kill _ s1 (clean_externalServices_winds_down env s1))
    as ([] & s2 & t2 & Hrun2 & Hw2 & Hk2).
  pose proof (clean_externalServices_offline env s1 Hoff1) as (_ & Ha2 & Hq2).
  rewrite Hrun2 in Ha2, Hq2. unfold final, calls in Ha2, Hq2. cbn [fst snd] in Ha2, Hq2.
  assert (_adminState s2 ≠ DEVMGR_REGISTERED) as Hoff2 by (by destruct Ha2 as [-> _]).
  destruct (clean_registeredDevices_winds_down env s2) as (s3 & t3 & Hrun3 & Hw3 & _).
  pose proof (clean_registeredDevices_offline env s2 Hoff2) as (_ & Ha3 & Hq3).
  pose proof (clean_registeredDevices_empties env s2) as He3.
  pose proof (clean_registeredDevices_targeted env s2) as Ht3.
  rewrite Hrun3 in Ha3, Hq3, He3, Ht3.
  unfold final, calls in Ha3, Hq3, He3, Ht3. cbn [fst snd] in Ha3, Hq3, He3, Ht3.
  destruct (swallowed_unbind env RootCtx lbl s3) as (s4 & t4 & Hrun4 & Hb4 & Hk4 & Hq4).
  pose proof (clean_externalServices_no_probe env s1) as (_ & _ & Hp2).
  pose proof (clean_registeredDevices_no_probe env s2) as (_ & _ & Hp3).
  pose proof (swallowed_unbind_no_probe env RootCtx lbl s3) as Hp4.
  rewrite Hrun2 in Hp2. rewrite Hrun3 in Hp3. rewrite Hrun4 in Hp4.
  unfold calls in Hp2, Hp3, Hp4. cbn [snd] in Hp2, Hp3, Hp4.
  assert (∀ o s, try_catch (remote o) (λ _, mret tt) s = (Ok tt, s, [])) as Hsw
    by (by intros [e|] ?).
  unfold mbind, M_bind. unfold modify at 1, get at 1. cbn [_adminState set_internalShutdown].
  rewrite bool_decide_eq_false_2, bool_decide_eq_false_2 by done.
  unfold modify at 1. cbn [orb]. rewrite !Hsw. fold s0. rewrite Hrun1, Hrun2, Hrun3, Hrun4, Hsw.
  unfold modify.
  eexists _, _. split; [reflexivity|].
  assert (_internalShutdown s3 = true) as Hflag.
  { destruct Ha3 as [_ ->], Ha2 as [_ ->], Ha1 as [_ ->]. done. }
  assert (winds_down s s3) as Hw by (etrans; [|exact Hw3]; etrans; [|exact Hw2]; by etrans).
  split_and!.
  - done.
  - simpl. destruct Hb4 as (_ & _ & <- & _). done.
  - simpl. destruct Hb4 as (Hb & _). unfold buckets in Hb. injection Hb as <- _ _ _. done.
  - etrans; [exact Hw|]. etrans; [by apply same_buckets_winds_down|].
    by apply shrinks_winds_down.
  - repeat first [assumption | apply Forall_nil_2 | apply Forall_app; split].
  - intros Hinv.
    assert (registry_invariant s0) as Hi0 by (by apply Hw0).
    assert (registry_invariant s1) as Hi1 by (by apply Hw1).
    assert (registry_invariant s2) as Hi2 by (by apply Hw2).
    repeat first
      [ apply Forall_nil_2 | by apply service_kills_targeted | by apply Ht3
      | by (eapply Forall_impl; [exact Hk1|]; apply not_kill_targeted)
      | by (eapply Forall_impl; [exact Hk2|]; apply not_kill_targeted)
      | by (eapply Forall_impl; [exact Hk4|]; intros e He;
            by apply not_kill_targeted, quiet_not_kill)
      | apply Forall_app; split ].
  - unfold calls. cbn [snd].
    rewrite !probed_app, (not_probe_probed _ Hp2), (not_probe_probed _ Hp3),
      (not_probe_probed _ Hp4).
    simpl. by rewrite ?app_nil_r.
Qed.

(** [killPendingDevices] without a timeout sends the signal and returns. *)
Lemma killPendingDevices_now env signal s :
  killPendingDevices env signal 0 s
  = (Ok tt, s, (λ n, EvKill (pid n) signal) <$> _pendingDevices s).
Proof.
  unfold killPendingDevices. munfold. rewrite kill_all_run.
  rewrite bool_decide_eq_false_2 by lia. cbn. rewrite app_nil_r.
  by rewrite <- list_fmap_compose.
Qed.

Lemma abort_run env peers lbl polls s :
  abort env peers lbl polls s
  = (result (shutdown env peers lbl polls s), final (shutdown env peers lbl polls s),
     ((λ n, EvKill (pid n) SIGKILL) <$> _pendingDevices s)
     ++ calls (shutdown env peers lbl polls s)).
Proof.
  unfold abort, mbind, M_bind. rewrite killPendingDevices_now. unfold result, final, calls.
  by destruct (shutdown env peers lbl polls s) as [[r s'] t].
Qed.

Lemma shutdown_winds_down env peers lbl polls s :
  winds_down s (final (shutdown env peers lbl polls s)).
Proof.
  destruct (decide (_adminState s = DEVMGR_SHUTTING_DOWN ∨ _adminState s = DEVMGR_SHUTDOWN))
    as [H|H].
  - rewrite shutdown_again by done. by apply shrinks_winds_down.
  - destruct (shutdown_run env peers lbl polls s) as (s' & t & -> & _ & _ & _ & Hw & _);
      [tauto..|done].
Qed.

Lemma shutdown_flag env peers lbl polls s :
  result (shutdown env peers lbl polls s) = Ok tt
  ∧ _internalShutdown (final (shutdown env peers lbl polls s)) = true.
Proof.
  destruct (decide (_adminState s = DEVMGR_SHUTTING_DOWN ∨ _adminState s = DEVMGR_SHUTDOWN))
    as [H|H].
  - by rewrite shutdown_again.
  - destruct (shutdown_run env peers lbl polls s) as (s' & t & -> & _ & ? & _);
      [tauto..|done].
Qed.

(** X13.  [shutdown] returns normally whatever the other parties raise,
    and leaves the shutdown flag set.  Called while the manager is shutting
    down or shut down it only sets the flag; otherwise it ends in the
    state SHUTDOWN with no registered device. *)
Theorem shutdown_completes (env : Env) (peers : ShutdownPeers) (_label : string)
    (polls : ServicePolls) (s : DeviceManager) :
  let r := shutdown env peers _label polls s in
  result r = Ok tt
  ∧ _internalShutdown (final r) = true
  ∧ (_adminState s = DEVMGR_SHUTTING_DOWN ∨ _adminState s = DEVMGR_SHUTDOWN →
       final r = set_internalShutdown true s ∧ calls r = [])
  ∧ (_adminState s ≠ DEVMGR_SHUTTING_DOWN → _adminState s ≠ DEVMGR_SHUTDOWN →
       _adminState (final r) = DEVMGR_SHUTDOWN ∧ _registeredDevices (final r) = []).
Proof.
  cbv zeta. split_and!; try apply shutdown_flag.
  - intros H. by rewrite shutdown_again.
  - intros H1 H2.
    by destruct (shutdown_run env peers _label polls s) as (s' & t & -> & ? & _ & ? & _).
Qed.

(** X14.  While it shuts down, the manager never calls the Domain Manager
    for a child: the devices and services that unregister, are reaped or
    are released during [shutdown] or [abort] are unregistered locally
    only. *)
Theorem shutdown_spares_domain (env : Env) (peers : ShutdownPeers) (_label : string)
    (polls : ServicePolls) (s : DeviceManager) :
  Forall not_DomMgr_call (calls (shutdown env peers _label polls s))
  ∧ Forall not_DomMgr_call (calls (abort env peers _label polls s)).
Proof.
  assert (Forall not_DomMgr_call (calls (shutdown env peers _label polls s))) as H.
  { destruct (decide (_adminState s = DEVMGR_SHUTTING_DOWN ∨ _adminState s = DEVMGR_SHUTDOWN))
      as [H|H].
    - rewrite shutdown_again by done. constructor.
    - by destruct (shutdown_run env peers _label polls s)
        as (s' & t & -> & _ & _ & _ & _ & ? & _); [tauto..|]. }
  split; [done|]. rewrite abort_run. unfold calls at 1. cbn [snd].
  apply Forall_app. split; [|done]. by apply Forall_fmap, Forall_forall.
Qed.

(** X15.  After [shutdown] or [abort], from whatever state, a device that
    registers is turned away silently: [registerDevice] returns at once,
    without a call and without a change. *)
Theorem registration_after_shutdown (env env' : Env) (peers : ShutdownPeers)
    (_label : string) (polls : ServicePolls) (s : DeviceManager) (d : DeviceObj) :
  let s1 := final (shutdown env peers _label polls s) in
  let s2 := final (abort env peers _label polls s) in
  registerDevice env' (Some d) s1 = (Ok tt, s1, [])
  ∧ registerDevice env' (Some d) s2 = (Ok tt, s2, []).
Proof.
  cbv zeta. rewrite abort_run. unfold final at 3 4. cbn [fst snd].
  split; apply registerDevice_shutting_down, shutdown_flag.
Qed.

(** X16.  With a well-formed registry, [shutdown] and [abort] send
    signals only to processes of children: never [kill(0, signal)], which
    would signal the manager's own process group.  [kill] is called with
    pid 0 only with signal 0, to ask whether a process exists, in the loop
    that gives the services time to exit: the pids asked about are those
    of the registered and of the pending services, of a registered
    service without a process too, and the first of them is asked about
    in any case. *)
Theorem shutdown_signals_children (env : Env) (peers : ShutdownPeers) (_label : string)
    (polls : ServicePolls) (s : DeviceManager) :
  registry_invariant s →
  let pids := (svc_pid <$> _registeredServices s) ++ (svc_pid <$> _pendingServices s) in
  let t := calls (shutdown env peers _label polls s) in
  let t' := calls (abort env peers _label polls s) in
  Forall targeted t
  ∧ Forall targeted t'
  ∧ probed t' = probed t
  ∧ Forall (λ p, p ∈ pids) (probed t)
  ∧ (0 ∈ probed t → ∃ n, n ∈ _registeredServices s ∧ svc_pid n = 0)
  ∧ (_adminState s ≠ DEVMGR_SHUTTING_DOWN → _adminState s ≠ DEVMGR_SHUTDOWN →
     head (probed t) = head pids).
Proof.
  intros Hinv. cbv zeta.
  set (pids := (svc_pid <$> _registeredServices s) ++ (svc_pid <$> _pendingServices s)).
  assert (Forall targeted (calls (shutdown env peers _label polls s))) as H.
  { destruct (decide (_adminState s = DEVMGR_SHUTTING_DOWN ∨ _adminState s = DEVMGR_SHUTDOWN))
      as [H|H].
    - rewrite shutdown_again by done. constructor.
    - destruct (shutdown_run env peers _label polls s)
        as (s' & t & -> & _ & _ & _ & _ & _ & Ht & _); [tauto..|]. by apply Ht. }
  assert (Forall (λ p, p ∈ pids) (probed (calls (shutdown env peers _label polls s)))
          ∧ (_adminState s ≠ DEVMGR_SHUTTING_DOWN → _adminState s ≠ DEVMGR_SHUTDOWN →
             head (probed (calls (shutdown env peers _label polls s))) = head pids))
    as [Hp Hh].
  { destruct (decide (_adminState s = DEVMGR_SHUTTING_DOWN ∨ _adminState s = DEVMGR_SHUTDOWN))
      as [Ha|Ha].
    - rewrite shutdown_again by done. split; [constructor|]. intros. tauto.
    - destruct (shutdown_run env peers _label polls s)
        as (s' & t & -> & _ & _ & _ & _ & _ & _ & Ht); [tauto..|].
      change (calls (Ok (), s', t)) with t. rewrite Ht.
      destruct (clean_registeredServices_probed env polls
                  (set_adminState DEVMGR_SHUTTING_DOWN (set_internalShutdown true s)))
        as [H1 H2].
      split; [exact H1 | intros _ _; exact H2]. }
  split_and!; [done | | | done | | done].
  - rewrite abort_run. unfold calls at 1. cbn [snd].
    apply Forall_app. split; [|done]. apply Forall_fmap.
    destruct Hinv as (_ & _ & _ & I4 & _). eapply Forall_impl; [exact I4|].
    intros n Hn. unfold targeted. simpl. by apply bool_decide_eq_false_2.
  - rewrite abort_run. unfold calls at 1. cbn [snd]. rewrite probed_app.
    rewrite not_probe_probed; [done|]. by apply Forall_fmap, Forall_forall.
  - intros H0. rewrite Forall_forall in Hp. apply Hp in H0.
    apply elem_of_app in H0 as [H0|H0]; apply list_elem_of_fmap in H0 as (n & Hn & Hin).
    + by exists n.
    + destruct Hinv as (_ & _ & _ & _ & I5). rewrite Forall_forall in I5.
      by apply I5 in Hin.
Qed.

(** X17.  [abort] is [shutdown] after a SIGKILL to every pending device,
    in the order of the bucket and without waiting for any of them. *)
Theorem abort_kills_first (env : Env) (peers : ShutdownPeers) (_label : string)
    (polls : ServicePolls) (s : DeviceManager) :
  let r := abort env peers _label polls s in
  let r' := shutdown env peers _label polls s in
  result r = Ok tt
  ∧ final r = final r'
  ∧ calls r = ((λ n, EvKill (pid n) SIGKILL) <$> _pendingDevices s) ++ calls r'.
Proof.
  cbv zeta. rewrite abort_run. unfold result at 1, final at 1, calls at 1. cbn [fst snd].
  split_and!; [apply shutdown_flag|done..].
Qed.

(** X18.  The services are sent SIGTERM, then, after the probes and the
    reaps that arrive meanwhile, SIGKILL goes to those still in the buckets: first the
    pending services, then the registered services that have a process.
    No node is added, and with a well-formed registry no signal goes to
    pid 0.  Without any service nothing happens. *)
Theorem services_signalled (env : Env) (polls : ServicePolls) (s : DeviceManager) :
  let r := clean_registeredServices env polls s in
  result r = Ok tt
  ∧ winds_down s (final r)
  ∧ (∃ t, calls r = service_kills SIGTERM s ++ t ++ service_kills SIGKILL (final r)
          ∧ Forall not_kill t)
  ∧ (registry_invariant s → Forall targeted (calls r))
  ∧ (_registeredServices s = [] → _pendingServices s = [] → r = (Ok tt, s, [])).
Proof.
  cbv zeta.
  destruct (clean_registeredServices_run env polls s) as (s' & t & Hrun & Hw & Hk).
  split_and!.
  - by rewrite Hrun.
  - by rewrite Hrun.
  - rewrite Hrun. by exists t.
  - intros Hinv. rewrite Hrun. unfold calls. cbn [snd].
    apply Forall_app; split; [|apply Forall_app; split].
    + by apply service_kills_targeted.
    + eapply Forall_impl; [exact Hk|]. apply not_kill_targeted.
    + apply service_kills_targeted. by apply Hw.
  - intros H1 H2. unfold clean_registeredServices. munfold.
    rewrite !kill_services_run. unfold service_kills. rewrite H1, H2.
    rewrite bool_decide_eq_false_2 by (simpl; lia).
    rewrite kill_services_run. unfold service_kills. by rewrite H1, H2.
Qed.

Lemma find_first {A} (p : A → bool) (l1 : list A) x l2 :
  Forall (λ y, p y = false) l1 → p x = true → List.find p (l1 ++ x :: l2) = Some x.
Proof.
  induction 1 as [|y l1 Hy _ IH]; intros Hx; simpl; [by rewrite Hx|].
  rewrite Hy. by apply IH.
Qed.

Lemma find_nowhere {A} (p : A → bool) (l : list A) :
  Forall (λ y, p y = false) l → List.find p l = None.
Proof. induction 1 as [|y l Hy _ IH]; simpl; [done|]. by rewrite Hy. Qed.

Lemma clean_externalServices_buckets env :
  steps same_buckets quiet Total (clean_externalServices env).
Proof.
  unfold clean_externalServices. steps_tac. apply local_unregisterService_steps.
Qed.

(** X19.  [clean_externalServices] handles one external service a call,
    the first registered service without a process: its name is unbound
    from the root context and, while the manager is registered, the Domain
    Manager is told; the node stays in the bucket, and nothing else is
    touched.  Without an external service nothing happens. *)
Theorem external_service_cleanup (env : Env) (s : DeviceManager) :
  let r := clean_externalServices env s in
  result r = Ok tt
  ∧ same_buckets s (final r)
  ∧ devMgrContext (final r) = devMgrContext s
  ∧ (Forall (λ n, svc_pid n ≠ 0) (_registeredServices s) → r = (Ok tt, s, []))
  ∧ (∀ l1 n l2,
       _registeredServices s = l1 ++ n :: l2 →
       Forall (λ n, svc_pid n ≠ 0) l1 → svc_pid n = 0 →
       rootContext (final r)
       = match naming_fault env with
         | None => delete (svc_label n) (rootContext s)
         | Some _ => rootContext s
         end
       ∧ calls r
         = EvNaming RootCtx NsUnbind (svc_label n)
           :: (if bool_decide (_adminState s = DEVMGR_REGISTERED)
               then [EvDomMgr DmUnregisterService (obj_ptr_ior (service n))]
               else [])).
Proof.
  cbv zeta.
  destruct (steps_total_run same_buckets quiet _ s (clean_externalServices_buckets env s))
    as ([] & s' & t & Hrun & Hb & _).
  split_and!.
  - by rewrite Hrun.
  - by rewrite Hrun.
  - unfold clean_externalServices, local_unregisterService, ns_unbind, dmnMgr_call.
    munfold. unfold final.
    destruct (List.find _ _) as [n|]; [|done].
    cbn [naming_context set_naming_context].
    destruct (naming_fault env), (rootContext s !! svc_label n); simpl;
      repeat case_bool_decide; simpl; try done; by destruct (dmnMgr_fault env).
  - intros Hall. unfold clean_externalServices. munfold.
    rewrite find_nowhere; [done|]. eapply Forall_impl; [exact Hall|].
    intros n Hn. by apply bool_decide_eq_false_2.
  - intros l1 n l2 Hs Hl1 Hn.
    unfold clean_externalServices, local_unregisterService, ns_unbind, dmnMgr_call.
    munfold. unfold final, calls. rewrite Hs, find_first; cycle 1.
    { eapply Forall_impl; [exact Hl1|]. intros m Hm. by apply bool_decide_eq_false_2. }
    { by apply bool_decide_eq_true_2. }
    cbn [naming_context set_naming_context].
    destruct (naming_fault env), (rootContext s !! svc_label n) eqn:E; simpl;
      repeat case_bool_decide; simpl; try done;
      try (by destruct (dmnMgr_fault env)).
    all: rewrite delete_id by done; try destruct (dmnMgr_fault env); done.
Qed.

Lemma allChildrenExited_true s :
  result (allChildrenExited s) = Ok true ↔
  _pendingDevices s = [] ∧ _registeredDevices s = []
  ∧ _pendingServices s = [] ∧ _registeredServices s = [].
Proof.
  unfold allChildrenExited. munfold. unfold result. cbn [fst]. split.
  - intros [= H]. repeat (apply andb_prop in H as [H ?]).
    repeat match goal with
           | H : bool_decide _ = true |- _ =>
               apply bool_decide_eq_true_1, length_zero_iff_nil in H
           end.
    done.
  - intros (-> & -> & -> & ->). done.
Qed.

(** X20.  Unregistering, reaping, releasing and shutting down never add a
    child: every node in a bucket afterwards was in a bucket before, a
    registered one in the same bucket, a pending one there or in the
    registered bucket.  So once all children have exited, they still have
    after any of these operations. *)
Theorem children_only_leave (env : Env) (peers : ShutdownPeers) (_label : string)
    (polls : ServicePolls) (s s' : DeviceManager) :
  (∃ d, s' = final (unregisterDevice env d s))
  ∨ (∃ o name, s' = final (unregisterService env o name s))
  ∨ (∃ p signaled, s' = final (childExited env p signaled s))
  ∨ s' = final (clean_registeredDevices env s)
  ∨ s' = final (clean_registeredServices env polls s)
  ∨ s' = final (shutdown env peers _label polls s)
  ∨ s' = final (abort env peers _label polls s) →
  (∀ n, n ∈ _registeredDevices s' → n ∈ _registeredDevices s)
  ∧ (∀ n, n ∈ _pendingDevices s' → n ∈ _pendingDevices s ∨ n ∈ _registeredDevices s)
  ∧ (∀ n, n ∈ _registeredServices s' → n ∈ _registeredServices s)
  ∧ (∀ n, n ∈ _pendingServices s' → n ∈ _pendingServices s ∨ n ∈ _registeredServices s)
  ∧ (result (allChildrenExited s) = Ok true → result (allChildrenExited s') = Ok true).
Proof.
  intros H.
  assert (winds_down s s') as (_ & H1 & H2 & H3 & H4).
  { destruct H as [[d ->]|[(o & name & ->)|[(p & sg & ->)|[->|[->|[->| ->]]]]]].
    - apply (unregisterDevice_winds_down env d s).
    - apply (unregisterService_winds_down env o name s).
    - apply (childExited_winds_down env p sg s).
    - by destruct (clean_registeredDevices_winds_down env s) as (s' & t & -> & ? & _).
    - by destruct (clean_registeredServices_run env polls s) as (s' & t & -> & ? & _).
    - apply shutdown_winds_down.
    - rewrite abort_run. apply shutdown_winds_down. }
  split_and!; try done.
  rewrite !allChildrenExited_true. intros (E1 & E2 & E3 & E4).
  rewrite E1, E2 in *. rewrite E3, E4 in *.
  split_and!; apply elem_of_nil_inv; intros n Hn;
    first [apply H1 in Hn | apply H2 in Hn as [Hn|Hn] | apply H3 in Hn
          | apply H4 in Hn as [Hn|Hn]]; by apply elem_of_nil in Hn.
Qed.

(** * Service_impl: comparisons *)

Section Comparisons.
Import Service_impl.

(** X21.  For two values of the same numeric kind, [compareAnys] is the
    order of the numbers, whatever the local variables held: FIRST_BIGGER,
    BOTH_EQUAL or SECOND_BIGGER as the first is greater, equal or smaller,
    and swapping the arguments swaps FIRST_BIGGER and SECOND_BIGGER. *)
Theorem compareAnys_order (frst0 scnd0 frst0' scnd0' : Z) (first second : Any) :
  kind first = kind second → kind first ≠ tk_other →
  (compareAnys frst0 scnd0 first second = FIRST_BIGGER ↔ number first > number second)
  ∧ (compareAnys frst0 scnd0 first second = BOTH_EQUAL ↔ number first = number second)
  ∧ (compareAnys frst0 scnd0 first second = SECOND_BIGGER ↔ number first < number second)
  ∧ (compareAnys frst0 scnd0 first second = FIRST_BIGGER
     ↔ compareAnys frst0' scnd0' second first = SECOND_BIGGER)
  ∧ (compareAnys frst0 scnd0 first second = BOTH_EQUAL
     ↔ compareAnys frst0' scnd0' second first = BOTH_EQUAL).
Proof.
  intros Hk Hn.
  destruct first as [v|v|v|], second as [w|w|w|]; try done;
    unfold compareAnys; simpl; repeat case_bool_decide; split_and!; split; intros;
    try done; try lia.
Qed.

(** X22.  [compareAnys] answers UNKNOWN only when the first value is of no
    numeric kind; the kind of the second is never looked at.  When the
    second value is of another kind than the first, its extraction leaves
    the local variable as it was, and the answer is the order of the first
    number and that uninitialised variable. *)
Theorem compareAnys_mixed_kinds (frst0 scnd0 : Z) (first second : Any) :
  (compareAnys frst0 scnd0 first second = UNKNOWN ↔ kind first = tk_other)
  ∧ (kind first ≠ tk_other → kind second ≠ kind first →
       (compareAnys frst0 scnd0 first second = FIRST_BIGGER ↔ number first > scnd0)
       ∧ (compareAnys frst0 scnd0 first second = BOTH_EQUAL ↔ number first = scnd0)
       ∧ (compareAnys frst0 scnd0 first second = SECOND_BIGGER ↔ number first < scnd0)).
Proof.
  split.
  - destruct first as [v|v|v|]; unfold compareAnys; simpl;
      repeat case_bool_decide; split; intros; done.
  - intros Hn Hk.
    destruct first as [v|v|v|], second as [w|w|w|]; try done;
      unfold compareAnys; simpl; repeat case_bool_decide; split_and!; split; intros;
      try done; try lia.
Qed.

(** X23.  [compareAnyToZero] is the sign of a number of a numeric kind and
    UNKNOWN for anything else; it agrees with [compareAnys] against a zero
    of the same kind, and an unsigned long is never NEGATIVE. *)
Theorem compareAnyToZero_sign (frst0 scnd0 : Z) (first zero : Any) :
  (compareAnyToZero frst0 first = UNKNOWN ↔ kind first = tk_other)
  ∧ (kind first ≠ tk_other →
       (compareAnyToZero frst0 first = POSITIVE ↔ number first > 0)
       ∧ (compareAnyToZero frst0 first = ZERO ↔ number first = 0)
       ∧ (compareAnyToZero frst0 first = NEGATIVE ↔ number first < 0))
  ∧ (kind zero = kind first → number zero = 0 →
       (compareAnyToZero frst0 first = POSITIVE
        ↔ compareAnys frst0 scnd0 first zero = FIRST_BIGGER)
       ∧ (compareAnyToZero frst0 first = ZERO
          ↔ compareAnys frst0 scnd0 first zero = BOTH_EQUAL)
       ∧ (compareAnyToZero frst0 first = NEGATIVE
          ↔ compareAnys frst0 scnd0 first zero = SECOND_BIGGER))
  ∧ (kind first = tk_ulong → well_typed first → compareAnyToZero frst0 first ≠ NEGATIVE).
Proof.
  split_and!.
  - destruct first as [v|v|v|]; unfold compareAnyToZero; simpl;
      repeat case_bool_decide; split; intros; done.
  - intros Hn. destruct first as [v|v|v|]; try done;
      unfold compareAnyToZero; simpl; repeat case_bool_decide; split_and!; split; intros;
      try done; try lia.
  - intros Hk Hz.
    destruct first as [v|v|v|], zero as [w|w|w|]; try done; simpl in Hz; subst;
      unfold compareAnyToZero, compareAnys; simpl; repeat case_bool_decide;
      split_and!; split; intros; try done; try lia.
  - intros Hk Hw. destruct first as [v|v|v|]; try done.
    unfold well_typed in Hw. simpl in Hw.
    unfold compareAnyToZero; simpl; repeat case_bool_decide; try done. lia.
Qed.

End Comparisons.

(** * Start-up *)

Lemma after_after {A} t1 t2 (r : Run A) : after t1 (after t2 r) = after (t1 ++ t2) r.
Proof. unfold after. simpl. by rewrite app_assoc. Qed.

Lemma after_nil {A} (r : Run A) : after [] r = r.
Proof. by destruct r. Qed.

Lemma retry_warning_events (f : RegisterFault) (i : Z) :
  (0 ≤ i)%Z →
  retry_warning f (2 * i + 1 + 1)
  = if bool_decide (Z.rem (i + 1) 5 = 0) then [SuRetryWarning f (2 * (i + 1))] else [].
Proof.
  intros Hi. unfold retry_warning.
  replace (2 * i + 1 + 1) with (2 * (i + 1)) by lia.
  rewrite !Z.rem_mod_nonneg by lia.
  apply (f_equal (λ b : bool, if b then _ else _)).
  apply bool_decide_ext. split; intros H.
  - assert ((2 * (i + 1)) `mod` 10 = 2 * ((i + 1) `mod` 5)) as E.
    { replace 10 with (2 * 5) by lia. by rewrite Z.mul_mod_distr_l by lia. }
    lia.
  - replace 10 with (2 * 5) by lia. rewrite Z.mul_mod_distr_l by lia. lia.
Qed.

Lemma register_loop_retries failed : ∀ i rest,
  (0 ≤ i)%Z → Forall (λ a, retried a = true) failed →
  register_loop (failed ++ rest) (2 * i)
  = after (retries_from (i + 1) failed)
      (register_loop rest (2 * (i + Z.of_nat (length failed)))).
Proof.
  induction failed as [|a failed IH]; intros i rest Hi Hall.
  - simpl. rewrite after_nil. do 2 f_equal. lia.
  - apply Forall_cons in Hall as [Ha Hall]. unfold retried in Ha.
    apply andb_prop in Ha as [Hi' Ha]. apply negb_true_iff in Hi'.
    apply bool_decide_eq_true_1 in Ha.
    cbn [app register_loop retries_from]. rewrite Hi'.
    replace (2 * (i + Z.of_nat (length (a :: failed))))
      with (2 * (i + 1 + Z.of_nat (length failed))) by (simpl; lia).
    unfold retry_events.
    destruct Ha as [-> | ->]; rewrite retry_warning_events by done;
      replace (2 * i + 1 + 1) with (2 * (i + 1)) by lia;
      rewrite IH by (done || lia); rewrite !after_after; f_equal;
      simpl; by rewrite <- !app_assoc.
Qed.

Lemma register_loop_last last rest cnt :
  retried last = false →
  register_loop (last :: rest) cnt = register_loop [last] 0
  ∧ ((register_loop [last] 0).1 = Ok tt ↔ interrupted last = false ∧ answer last = None)
  ∧ ((register_loop [last] 0).1 = Ok tt ∨ (register_loop [last] 0).1 = Throw RuntimeError)
  ∧ (interrupted last = true → register_loop [last] 0 = (Throw RuntimeError, [])).
Proof.
  unfold retried. destruct last as [ans [|]]; simpl; [intros _|].
  { split_and!; auto. split; [done|]. by intros [? _]. }
  rewrite bool_decide_eq_false. intros Hr.
  destruct ans as [[| |e]|]; try (exfalso; apply Hr; by auto); simpl.
  - repeat case_bool_decide; destruct (is_std_exception e), (is_CORBA_Exception e);
      simpl; split_and!; auto; try done; split; try done; by intros [_ ?].
  - split_and!; auto; done.
Qed.

Lemma retry_warnings_count failed : ∀ i,
  (0 ≤ i)%Z → Forall (λ a, retried a = true) failed →
  Z.of_nat (length (filter (λ e, is_retry_warning e = true) (retries_from (i + 1) failed)))
  = (i + Z.of_nat (length failed)) / 5 - i / 5.
Proof.
  induction failed as [|a failed IH]; intros i Hi Hall.
  - simpl. rewrite Z.add_0_r. lia.
  - apply Forall_cons in Hall as [Ha Hall]. unfold retried in Ha.
    apply andb_prop in Ha as [_ Ha]. apply bool_decide_eq_true_1 in Ha.
    cbn [retries_from]. rewrite filter_app, length_app, Nat2Z.inj_add, IH by (done || lia).
    replace (i + 1 + Z.of_nat (length failed))
      with (i + Z.of_nat (length (a :: failed))) by (simpl; lia).
    assert (Z.of_nat (length (filter (λ e, is_retry_warning e = true) (retry_events (i + 1) a)))
            = (i + 1) / 5 - i / 5) as ->; [|lia].
    unfold retry_events.
    assert (∃ f, answer a = Some f) as [f ->] by (destruct Ha as [-> | ->]; by eexists).
    rewrite Z.rem_mod_nonneg by lia.
    case_bool_decide as H5; cbn; repeat case_decide; try done; simpl.
    + pose proof (Z.div_mod (i + 1) 5). pose proof (Z.div_mod i 5).
      pose proof (Z.mod_pos_bound i 5). lia.
    + pose proof (Z.div_mod (i + 1) 5). pose proof (Z.div_mod i 5).
      pose proof (Z.mod_pos_bound i 5). pose proof (Z.mod_pos_bound (i + 1) 5). lia.
Qed.

(** X24.  [registerDeviceManagerWithDomainManager] goes round while the
    Domain Manager answers TRANSIENT or OBJECT_NOT_EXIST and the shutdown
    flag is not set: each turn calls once and sleeps a tenth of a second,
    and every fifth failure in a row is logged, with a count twice the
    number of failures.  The first other turn ends it: normally when the
    call succeeds, with [std::runtime_error] when the flag is set (then
    without a call) or the call raises anything else.  While every turn
    fails that way the loop does not end. *)
Theorem registration_retries (failed rest : list (Attempt (option RegisterFault)))
    (last : Attempt (option RegisterFault)) :
  Forall (λ a, retried a = true) failed →
  retried last = false →
  let r := registerDeviceManagerWithDomainManager (failed ++ last :: rest) in
  let r1 := registerDeviceManagerWithDomainManager [last] in
  r = after (retries_from 1 failed) r1
  ∧ (r.1 = Ok tt ↔ interrupted last = false ∧ answer last = None)
  ∧ (r.1 = Ok tt ∨ r.1 = Throw RuntimeError)
  ∧ (interrupted last = true → r1 = (Throw RuntimeError, []))
  ∧ Z.of_nat (length (filter (λ e, is_retry_warning e = true) r.2))
    = Z.of_nat (length failed) / 5
  ∧ (registerDeviceManagerWithDomainManager failed).1 = Diverge.
Proof.
  intros Hall Hlast. cbv zeta. unfold registerDeviceManagerWithDomainManager.
  pose proof (register_loop_retries failed 0 (last :: rest)) as Hrun.
  rewrite Z.mul_0_r in Hrun. rewrite Hrun by done.
  destruct (register_loop_last last rest (2 * (0 + Z.of_nat (length failed))) Hlast)
    as (-> & Hok & Hends & Hint).
  split_and!; try done.
  - unfold after. cbn [fst snd]. rewrite filter_app, length_app.
    pose proof (retry_warnings_count failed 0) as Hc. simpl in Hc.
    assert (filter (λ e, is_retry_warning e = true) (register_loop [last] 0).2 = []) as ->.
    { clear -Hlast. unfold retried in Hlast. destruct last as [ans [|]]; simpl; [done|].
      simpl in Hlast. apply bool_decide_eq_false in Hlast.
      destruct ans as [[| |e]|]; try (exfalso; apply Hlast; by auto); simpl; [|done].
      by repeat case_bool_decide; destruct (is_std_exception e), (is_CORBA_Exception e). }
    simpl length. rewrite Nat.add_0_r. rewrite Hc by done.
    rewrite Z.add_0_l. change (0 `div` 5) with 0. lia.
  - pose proof (register_loop_retries failed 0 []) as Hd.
    rewrite Z.mul_0_r, app_nil_r in Hd. by rewrite Hd.
Qed.

Lemma resolve_loop_run failed last rest : ∀ warned,
  Forall (λ a, resolve_retried a = true) failed →
  resolve_retried last = false →
  let r := resolve_loop (failed ++ last :: rest) warned in
  (r.1 = Ok tt ↔ answer last = None)
  ∧ (r.1 = Ok tt ∨ r.1 = Throw RuntimeError)
  ∧ length (filter (λ e, e = SuResolve) r.2) = S (length failed)
  ∧ length (filter (λ e, is_warning e = true) r.2)
    = (if warned then 0
       else if bool_decide (failed = [] ∧ answer last = None) then 0 else 1)%nat.
Proof.
  induction failed as [|a failed IH]; intros warned Hall Hlast; cbv zeta.
  - clear Hall. unfold resolve_retried in Hlast. destruct last as [[e|] i]; simpl in *.
    + destruct i; [|done]. destruct warned; simpl; split_and!; auto; try done.
    + destruct warned; simpl; split_and!; auto; done.
  - apply Forall_cons in Hall as [Ha Hall]. unfold resolve_retried in Ha.
    apply andb_prop in Ha as [Ha Hi]. apply negb_true_iff in Hi.
    apply bool_decide_eq_true_1 in Ha.
    specialize (IH true Hall Hlast). cbv zeta in IH.
    destruct IH as (IH1 & IH2 & IH3 & IH4).
    cbn [app resolve_loop]. rewrite Hi.
    destruct (answer a) as [e|]; [|done].
    destruct (resolve_loop (failed ++ last :: rest) true) as [r t]. simpl in *.
    destruct warned; cbn [app]; rewrite ?filter_cons_False by done;
      rewrite ?filter_cons_True by done; rewrite ?filter_cons_False by done;
      cbn [length]; split_and!; auto; lia.
Qed.

Lemma resolve_loop_turning failed : ∀ warned,
  Forall (λ a, resolve_retried a = true) failed → (resolve_loop failed warned).1 = Diverge.
Proof.
  induction failed as [|a failed IH]; intros warned Hall; [done|].
  apply Forall_cons in Hall as [Ha Hall]. unfold resolve_retried in Ha.
  apply andb_prop in Ha as [Ha Hi]. apply negb_true_iff in Hi.
  apply bool_decide_eq_true_1 in Ha.
  cbn [resolve_loop]. rewrite Hi. destruct (answer a) as [e|]; [|done].
  simpl. by apply IH.
Qed.

(** X25.  [resolveNamingContext] tries at least once, whatever the
    shutdown flag: a successful attempt ends it normally even when the
    flag is set, and the flag is only read after a failed one, which then
    ends it with [std::runtime_error].  Whatever the failures, it warns
    once, at the first; while every attempt fails and the flag stays down,
    the loop does not end. *)
Theorem naming_context_resolution (failed rest : list (Attempt (option exn)))
    (last : Attempt (option exn)) :
  Forall (λ a, resolve_retried a = true) failed →
  resolve_retried last = false →
  let r := resolveNamingContext (failed ++ last :: rest) in
  (r.1 = Ok tt ↔ answer last = None)
  ∧ (r.1 = Ok tt ∨ r.1 = Throw RuntimeError)
  ∧ length (filter (λ e, e = SuResolve) r.2) = S (length failed)
  ∧ length (filter (λ e, is_warning e = true) r.2)
    = (if bool_decide (failed = [] ∧ answer last = None) then 0 else 1)%nat
  ∧ (resolveNamingContext failed).1 = Diverge.
Proof.
  intros Hall Hlast. cbv zeta. unfold resolveNamingContext.
  destruct (resolve_loop_run failed last rest false Hall Hlast) as (H1 & H2 & H3 & H4).
  split_and!; try done. by apply resolve_loop_turning.
Qed.

Lemma lookup_loop_run failed last rest : ∀ warned,
  Forall (λ a, lookup_retried a = true) failed →
  lookup_retried last = false →
  let r := lookup_loop (failed ++ last :: rest) warned in
  (r.1 = Ok tt ↔ answer last = inr false ∧ interrupted last = false)
  ∧ (r.1 = Ok tt
     ∨ (r.1 = Throw RuntimeError ∧ interrupted last = true)
     ∨ (∃ e, r.1 = Throw e ∧ answer last = inl e ∧ e ≠ NotFound))
  ∧ Forall (λ e, e ≠ SuNarrow) r.2.
Proof.
  induction failed as [|a failed IH]; intros warned Hall Hlast; cbv zeta.
  - clear Hall. unfold lookup_retried in Hlast.
    destruct last as [[e|[|]] [|]]; cbn [app lookup_loop answer interrupted negb andb] in *;
      try (rewrite bool_decide_eq_true_2 in Hlast by auto; by simpl in Hlast);
      unfold after; repeat case_bool_decide; subst;
      try (rewrite bool_decide_eq_true_2 in Hlast by auto; by simpl in Hlast);
      try (by exfalso; match goal with H : ¬ _ |- _ => apply H; auto end);
      try destruct warned; simpl;
      (split_and!;
       [ split; [try done | intros [? ?]; congruence]
       | first [by left | by (right; left) | by (right; right; eexists)]
       | by repeat (apply Forall_cons_2; [done|]) ]).
  - apply Forall_cons in Hall as [Ha Hall]. unfold lookup_retried in Ha.
    apply andb_prop in Ha as [Ha Hi]. apply negb_true_iff in Hi.
    apply bool_decide_eq_true_1 in Ha.
    cbn [app lookup_loop]. rewrite Hi.
    destruct Ha as [-> | ->].
    + rewrite bool_decide_eq_true_2 by done.
      specialize (IH true Hall Hlast). cbv zeta in IH. destruct IH as (IH1 & IH2 & IH3).
      destruct (lookup_loop (failed ++ last :: rest) true) as [r t]. simpl in *.
      split_and!; [done..|]. destruct warned; simpl; by repeat (apply Forall_cons_2; [done|]).
    + specialize (IH warned Hall Hlast). cbv zeta in IH. destruct IH as (IH1 & IH2 & IH3).
      destruct (lookup_loop (failed ++ last :: rest) warned) as [r t]. simpl in *.
      split_and!; [done..|]. by repeat (apply Forall_cons_2; [done|]).
Qed.

Lemma lookup_loop_turning failed : ∀ warned,
  Forall (λ a, lookup_retried a = true) failed → (lookup_loop failed warned).1 = Diverge.
Proof.
  induction failed as [|a failed IH]; intros warned Hall; [done|].
  apply Forall_cons in Hall as [Ha Hall]. unfold lookup_retried in Ha.
  apply andb_prop in Ha as [Ha Hi]. apply negb_true_iff in Hi.
  apply bool_decide_eq_true_1 in Ha.
  cbn [lookup_loop]. rewrite Hi. destruct Ha as [-> | ->].
  - rewrite bool_decide_eq_true_2 by done. simpl. by apply IH.
  - simpl. by apply IH.
Qed.

(** X26.  [getDomainManagerReferenceAndCheckExceptions] raises nothing
    but [std::runtime_error].  It returns normally only when a lookup
    gave a reference, the shutdown flag was down after it, and the
    reference narrowed to a Domain Manager; [_narrow] is called in no
    other run.  The flag is read after every lookup: set, it ends the run
    with the error even when the lookup had just found the Domain
    Manager. *)
Theorem domain_manager_lookup (failed rest : list (Attempt (exn + bool)))
    (last : Attempt (exn + bool)) (narrow : exn + bool) :
  Forall (λ a, lookup_retried a = true) failed →
  lookup_retried last = false →
  let r := getDomainManagerReferenceAndCheckExceptions (failed ++ last :: rest) narrow in
  (r.1 = Ok tt
   ↔ answer last = inr false ∧ interrupted last = false ∧ narrow = inr false)
  ∧ (r.1 = Ok tt ∨ r.1 = Throw RuntimeError)
  ∧ (SuNarrow ∈ r.2 ↔ answer last = inr false ∧ interrupted last = false)
  ∧ (interrupted last = true → answer last = inr false → r.1 = Throw RuntimeError)
  ∧ (getDomainManagerReferenceAndCheckExceptions failed narrow).1 = Diverge.
Proof.
  intros Hall Hlast. cbv zeta.
  unfold getDomainManagerReferenceAndCheckExceptions, getDomainManagerReference.
  destruct (lookup_loop_run failed last rest false Hall Hlast) as (H1 & H2 & H3).
  pose proof (lookup_loop_turning failed false Hall) as Hd.
  destruct (lookup_loop failed false) as [rd td]. simpl in Hd. subst rd.
  destruct (lookup_loop (failed ++ last :: rest) false) as [r t]. simpl in *.
  split_and!; [| | | |done].
  - destruct r as [[]|e| | |]; simpl.
    + destruct narrow as [e|[|]]; simpl; split; try done; try tauto;
        try (by intros (_ & _ & ?)).
    + split; [done|]. intros (? & ? & _). by destruct H1 as [_ H1]; specialize (H1 (conj H H0)).
    + destruct H2 as [?|[[? _]|(? & ? & _)]]; done.
    + destruct H2 as [?|[[? _]|(? & ? & _)]]; done.
    + destruct H2 as [?|[[? _]|(? & ? & _)]]; done.
  - destruct r as [[]|e| | |]; simpl.
    + destruct narrow as [e|[|]]; simpl; auto.
    + auto.
    + destruct H2 as [?|[[? _]|(? & ? & _)]]; done.
    + destruct H2 as [?|[[? _]|(? & ? & _)]]; done.
    + destruct H2 as [?|[[? _]|(? & ? & _)]]; done.
  - rewrite Forall_forall in H3. destruct r as [[]|e| | |]; simpl.
    + rewrite <- H1. split; [done|]. intros _.
      destruct narrow as [e|[|]]; simpl;
        apply list_elem_of_further; rewrite !elem_of_app, list_elem_of_singleton; auto.
    + split.
      * intros Hin. exfalso. apply elem_of_cons in Hin as [?|Hin]; [done|].
        apply elem_of_app in Hin as [Hin|Hin]; [by apply H3 in Hin|].
        apply list_elem_of_singleton in Hin. by destruct (is_std_exception e), (is_CORBA_Exception e).
      * intros H. by destruct H1 as [_ H1]; specialize (H1 H).
    + destruct H2 as [?|[[? _]|(? & ? & _)]]; done.
    + destruct H2 as [?|[[? _]|(? & ? & _)]]; done.
    + destruct H2 as [?|[[? _]|(? & ? & _)]]; done.
  - intros Hi Ha. destruct H2 as [Hok|[[-> _]|(e & -> & He & _)]]; [| done | congruence].
    apply H1 in Hok as [_ ?]. congruence.
Qed.


(** * The cache directory *)

Lemma DirTree_induction (P : DirTree → Prop) :
  (∀ errno, P (CannotOpen errno)) →
  (∀ entries,
     Forall (λ e, match e.2 with Some found => P found | None => True end) entries →
     P (Listing entries)) →
  ∀ found, P found.
Proof.
  intros H1 H2. fix IH 1. intros [errno|entries]; [apply H1|].
  apply H2. induction entries as [|[[name w] [sub|]] entries IHe]; constructor; simpl; auto.
Qed.

Lemma ancestors_from_span u' dir : ∀ seg name,
  Forall (λ c, c ≠ slash) seg →
  ancestors_from dir name (seg ++ slash :: u')
  = match name ++ seg with
    | [] => ancestors_from dir [] u'
    | _ => (dir ++ ((name ++ seg) ++ [slash]))
           :: ancestors_from (dir ++ ((name ++ seg) ++ [slash])) [] u'
    end.
Proof.
  induction seg as [|c seg IH]; intros name Hseg.
  - rewrite app_nil_r. simpl. rewrite ?bool_decide_eq_true_2 by done. by destruct name.
  - apply Forall_cons in Hseg as [Hc Hseg]. simpl.
    rewrite bool_decide_eq_false_2 by done. rewrite IH by done.
    rewrite <- app_assoc. simpl. by destruct name.
Qed.

Lemma ancestors_from_segment u' dir seg :
  seg ≠ [] → Forall (λ c, c ≠ slash) seg →
  ancestors_from dir [] (seg ++ slash :: u')
  = (dir ++ (seg ++ [slash])) :: ancestors_from (dir ++ (seg ++ [slash])) [] u'.
Proof. intros Hne Hseg. rewrite ancestors_from_span by done. by destruct seg. Qed.

Lemma ancestors_from_no_slash dir : ∀ u name,
  Forall (λ c, c ≠ slash) u → ancestors_from dir name u = [].
Proof.
  induction u as [|c u IH]; intros name Hu; [done|].
  apply Forall_cons in Hu as [Hc Hu]. simpl.
  rewrite bool_decide_eq_false_2 by done. by apply IH.
Qed.

Lemma ancestors_from_trailing : ∀ u dir name,
  ancestors_from dir name ((u ++ [slash]) ++ [slash]) = ancestors_from dir name (u ++ [slash]).
Proof.
  induction u as [|c u IH]; intros dir name; simpl.
  - rewrite ?bool_decide_eq_true_2 by done. by destruct name.
  - case_bool_decide; [destruct name|]; by rewrite ?IH.
Qed.

Lemma create_loop_run mkdir w : ∀ fuel b dir ok,
  (b ≤ length w)%nat → (length w - b < fuel)%nat →
  ∃ t, create_loop mkdir fuel w b dir ok
       = Some (ok && forallb (made mkdir) (ancestors_from dir [] (drop b w)), t)
     ∧ mkdirs t = ancestors_from dir [] (drop b w).
Proof.
  induction fuel as [|fuel IH]; intros b dir ok Hb Hfuel; [lia|].
  cbn [create_loop]. unfold find_first_of.
  destruct (list_find (λ x, x = slash) (drop b w)) as [[i x]|] eqn:Hfind; cbn [fmap option_fmap option_map fst].
  - apply list_find_Some in Hfind as (Hi & -> & Hbefore).
    assert (i < length (drop b w))%nat as Hlen by (by eapply lookup_lt_Some).
    rewrite length_drop in Hlen.
    assert (drop b w = take i (drop b w) ++ slash :: drop (S i) (drop b w)) as Hu
      by (by rewrite take_drop_middle).
    rewrite drop_drop in Hu.
    case_bool_decide as Hpos.
    + assert (i = 0)%nat as -> by lia. simpl in Hu.
      destruct (IH (b + 1)%nat dir ok) as (t & -> & Ht); [lia..|].
      exists t. rewrite Hu. simpl. rewrite ?bool_decide_eq_true_2 by done.
      by replace (b + 1)%nat with (b + 1)%nat in * by lia.
    + assert (Forall (λ c, c ≠ slash) (take i (drop b w))) as Hseg.
      { apply Forall_forall. intros c Hc. apply list_elem_of_lookup in Hc as [j Hj].
        assert (j < i)%nat.
        { apply lookup_lt_Some in Hj. rewrite length_take in Hj. lia. }
        rewrite lookup_take_lt in Hj by done. by eapply Hbefore. }
      unfold substr. replace (b + i - b)%nat with i by lia.
      set (seg := take i (drop b w)) in *.
      set (dir' := dir ++ (seg ++ [slash])).
      assert (seg ≠ []) as Hne.
      { intros E. apply (f_equal length) in E. unfold seg in E.
        rewrite length_take, length_drop in E. simpl in E. lia. }
      rewrite Hu, ancestors_from_segment by done. fold dir'.
      replace (b + S i)%nat with (b + i + 1)%nat by lia.
      cbn [forallb]. unfold made at 1.
      destruct (mkdir dir') as [errno|] eqn:Hmk.
      * case_bool_decide as Hex.
        -- subst errno.
           destruct (IH (b + i + 1)%nat dir' ok) as (t & -> & Ht); [lia..|].
           exists (FsMkdir dir' :: t). split; [|simpl; by rewrite Ht].
           simpl. by rewrite ?bool_decide_eq_true_2 by auto.
        -- destruct (IH (b + i + 1)%nat dir' false) as (t & -> & Ht); [lia..|].
           exists (FsMkdir dir' :: FsLog LvlWarn (mkdir_warning errno) dir' :: t).
           split; [|simpl; by rewrite Ht].
           simpl. rewrite bool_decide_eq_false_2 by (intros [?|?]; congruence).
           by rewrite andb_false_r.
      * destruct (IH (b + i + 1)%nat dir' ok) as (t & -> & Ht); [lia..|].
        exists (FsMkdir dir' :: t). split; [|simpl; by rewrite Ht].
        simpl. by rewrite ?bool_decide_eq_true_2 by auto.
  - apply list_find_None in Hfind.
    rewrite ancestors_from_no_slash by done. exists []. by rewrite andb_true_r.
Qed.

Lemma checkWriteAccess_mkdirs : ∀ found path, mkdirs (checkWriteAccess found path).2 = [].
Proof.
  induction found as [errno|entries IH] using DirTree_induction; intros path; [done|].
  cbn [checkWriteAccess snd]. unfold mkdirs. cbn [omap list_omap]. fold mkdirs.
  induction IH as [|[[name w_ok] subdir] entries Hsub _ IHe]; [done|].
  cbn [readdir_loop].
  destruct (bool_decide (name = dot) || bool_decide (name = dotdot)); [done|].
  destruct w_ok; [|done]. cbn [negb].
  destruct subdir as [found'|]; cbn [snd] in *; [|done]. cbv zeta.
  destruct (checkWriteAccess found' _).1 eqn:E; cbn [snd];
    unfold mkdirs in *; cbn [omap list_omap]; rewrite ?omap_app, ?Hsub, ?IHe; done.
Qed.

(** X27.  [makeDirectory] walks down the path: [mkdir] is called once for
    every directory on the way, from the top, each name ending in a slash;
    slashes that follow a slash add nothing, and a failure does not stop
    the walk.  It answers true when every [mkdir] succeeded or found the
    directory there and the path passes [checkWriteAccess].  The empty
    path is read out of range. *)
Theorem makeDirectory_ancestors (mkdir : Path → option Errno) (found : DirTree) (path : Path) :
  path ≠ [] →
  let r := makeDirectory mkdir found path in
  r.1 = Ok (forallb (made mkdir) (ancestors path) && (checkWriteAccess found path).1)
  ∧ mkdirs r.2 = ancestors path
  ∧ Forall (λ dir, last dir = Some slash) (ancestors path)
  ∧ makeDirectory mkdir found [] = (NullDeref, []).
Proof.
  intros Hpath. cbv zeta. unfold makeDirectory.
  destruct (last path) as [c|] eqn:Hlast; [|by apply last_None in Hlast].
  set (init := if bool_decide (head path = Some slash) then [slash] else []).
  set (w := if bool_decide (c = slash) then path else path ++ [slash]).
  assert (ancestors_from init [] w = ancestors path) as Hw.
  { unfold ancestors, w. fold init. case_bool_decide as Hc; [|done].
    subst c. apply last_Some in Hlast as [l' ->]. by rewrite ancestors_from_trailing. }
  assert (slash ∈ w) as Hin.
  { unfold w. case_bool_decide as Hc.
    - subst c. apply last_Some in Hlast as [l' ->]. apply elem_of_app. right.
      apply list_elem_of_here.
    - apply elem_of_app. right. apply list_elem_of_here. }
  rewrite bool_decide_eq_true_2 by done.
  destruct (create_loop_run mkdir w (S (length w)) 0 init true) as (t & -> & Ht);
    [lia..|].
  rewrite drop_0, Hw in Ht. rewrite drop_0, Hw. cbn [andb].
  split_and!; [| | |done].
  - destruct (checkWriteAccess found path).1; simpl; by rewrite ?andb_true_r, ?andb_false_r.
  - destruct (checkWriteAccess found path).1 eqn:E; simpl; unfold mkdirs in *;
      rewrite !omap_app; fold (mkdirs (checkWriteAccess found path).2);
      rewrite checkWriteAccess_mkdirs, Ht; simpl; by rewrite ?app_nil_r.
  - unfold ancestors. generalize (path ++ [slash]). generalize init.
    assert (∀ u dir name, Forall (λ dir, last dir = Some slash) (ancestors_from dir name u))
      as H; [|intros; apply H].
    induction u as [|a u IH]; intros dir name; simpl; [done|].
    case_bool_decide; [destruct name as [|a' name]|]; try apply IH.
    constructor; [|apply IH]. rewrite !app_assoc. apply last_snoc.
Qed.

Lemma accesses_access f t : accesses (FsAccess f :: t) = f :: accesses t.
Proof. done. Qed.

Lemma accesses_opendir p t : accesses (FsOpendir p :: t) = accesses t.
Proof. done. Qed.

Lemma accesses_app t1 t2 : accesses (t1 ++ t2) = accesses t1 ++ accesses t2.
Proof. apply omap_app. Qed.

(** X28.  [checkWriteAccess] answers true exactly when the directory and
    every directory below it can be opened and every entry at any depth,
    [.] and [..] apart, can be written.  It goes through the entries depth
    first and stops at the first that fails: what it has tested is an
    initial part of that order, and all of it when the answer is true. *)
Theorem write_access_checked (found : DirTree) (path : Path) :
  let r := checkWriteAccess found path in
  (r.1 = true ↔ opens found = true ∧ forallb passes (entries_below found path) = true)
  ∧ (r.1 = true → accesses r.2 = (λ e, e.1.1) <$> entries_below found path)
  ∧ accesses r.2 `prefix_of` ((λ e, e.1.1) <$> entries_below found path).
Proof.
  revert path.
  induction found as [errno|entries IH] using DirTree_induction; intros path; cbv zeta.
  { simpl. split_and!; [split; [done|by intros [? _]] | done | by exists []]. }
  cbn [checkWriteAccess entries_below opens fst snd]. rewrite accesses_opendir.
  induction IH as [|[[name w_ok] subdir] entries Hsub _ IHe].
  { simpl. split_and!; [done | done | by exists []]. }
  destruct IHe as (IH1 & IH2 & IH3).
  cbn [readdir_loop entries_among].
  destruct (bool_decide (name = dot) || bool_decide (name = dotdot)) eqn:Hdots; [done|].
  set (full_name := path ++ [slash] ++ name).
  destruct w_ok; cbn [negb].
  2:{ cbn [fst snd]. rewrite accesses_access. rewrite fmap_cons.
      split_and!; [split; [done|by intros [_ ?]] | done |].
      apply prefix_cons. by eexists. }
  rewrite fmap_cons. cbn [forallb passes fst snd andb].
  destruct subdir as [found'|]; cbn [fst snd] in *.
  - destruct (Hsub full_name) as (S1 & S2 & S3). cbv zeta in *.
    rewrite fmap_app, forallb_app.
    destruct (checkWriteAccess found' full_name) as [ok t] eqn:Esub.
    cbn [fst snd] in *. destruct ok; cbn [fst snd].
    + destruct S1 as [[Hop Hall] _]; [done|]. rewrite Hop, Hall. cbn [andb].
      rewrite accesses_access, accesses_app.
      split_and!.
      * rewrite IH1. split; [intros [_ ?]|intros ?]; auto.
      * intros Hok. by rewrite S2, IH2 by auto.
      * rewrite S2 by done. apply prefix_cons, prefix_app, IH3.
    + rewrite accesses_access. split_and!.
      * split; [done|]. intros [_ H]. apply andb_prop in H as [Hop H].
        apply andb_prop in H as [Hall _]. destruct S1 as [_ S1].
        by specialize (S1 (conj Hop Hall)).
      * done.
      * apply prefix_cons. destruct S3 as [k ->]. rewrite <- app_assoc. by eexists.
  - rewrite accesses_access. split_and!.
    + rewrite IH1. split; [intros [_ ?]|intros ?]; auto.
    + intros Hok. by rewrite IH2 by auto.
    + apply prefix_cons, IH3.
Qed.


(** ** Instances of the further properties *)

Lemma launching_manager_invariant : registry_invariant launching_manager.
Proof.
  unfold registry_invariant. simpl. split_and!; repeat constructor; simpl; done.
Qed.

Lemma busy_manager_invariant : registry_invariant busy_manager.
Proof.
  unfold registry_invariant. simpl. split_and!; repeat constructor; simpl;
    try (by eexists); rewrite ?list_elem_of_singleton, ?elem_of_nil; try done;
    by intros [].
Qed.

Lemma registry_kept_witness :
  registry_invariant launching_manager
  ∧ registry_invariant (final (registerDevice calm (Some dev1) launching_manager))
  ∧ registry_invariant (final (unregisterDevice calm (Some dev1) busy_manager))
  ∧ registry_invariant (final (clean_registeredDevices calm busy_manager)).
Proof.
  split; [exact launching_manager_invariant|].
  destruct (registry_kept calm launching_manager launching_manager_invariant) as (H1 & _).
  destruct (registry_kept calm busy_manager busy_manager_invariant)
    as (_ & _ & H3 & _ & _ & H6).
  split; [apply H1 | split; [apply H3 | apply H6]].
Defined.

Lemma signals_only_to_children_witness :
  let r := clean_registeredDevices calm busy_manager in
  EvKill 4242 SIGINT ∈ calls r
  ∧ result r = Ok tt
  ∧ (∃ n, (n ∈ _pendingDevices busy_manager ∨ n ∈ _registeredDevices busy_manager)
          ∧ pid n = 4242)
  ∧ 4242 ≠ 0.
Proof.
  destruct (signals_only_to_children calm busy_manager) as (H1 & H2 & H3).
  assert (Hin : EvKill 4242 SIGINT ∈ calls (clean_registeredDevices calm busy_manager)).
  { vm_compute. repeat first [apply list_elem_of_here | apply list_elem_of_further]. }
  split; [exact Hin|]. split; [exact H1|]. split.
  - exact (H2 4242 SIGINT Hin).
  - exact (H3 busy_manager_invariant 4242 SIGINT Hin).
Defined.

Lemma device_round_trip_witness :
  let r := registerDevice calm (Some dev1) launching_manager in
  let r' := unregisterDevice calm (Some dev1) (final r) in
  existsb (λ n, is_equivalent (device n) dev1) (_registeredDevices (final r)) = true
  ∧ result r' = Ok tt
  ∧ _registeredDevices (final r') = _registeredDevices launching_manager
  ∧ devMgrContext (final r') = devMgrContext launching_manager
  ∧ _pendingDevices (final r') =
      pending_without dev1 launching_manager
      ++ (if bool_decide (pid (registered_node dev1 launching_manager) = 0) then []
          else [registered_node dev1 launching_manager])
  ∧ _registeredServices (final r') = _registeredServices launching_manager
  ∧ _pendingServices (final r') = _pendingServices launching_manager
  ∧ registry_invariant (final r').
Proof.
  cbv zeta. split; [vm_compute; reflexivity|].
  apply (device_round_trip calm calm dev1 launching_manager launching_manager_invariant);
    vm_compute; reflexivity.
Defined.

Lemma service_round_trip_witness :
  (let r := registerService calm (Some "IOR:svc1") "svc1" launching_manager in
   let r' := unregisterService calm (Some "IOR:svc1") "svc1" (final r) in
   existsb (λ n, bool_decide (svc_label n = "svc1")) (_registeredServices (final r)) = true
   ∧ result r = Ok tt
   ∧ result r' = Ok tt
   ∧ _registeredServices (final r') = _registeredServices launching_manager
   ∧ rootContext (final r') = delete "svc1" (rootContext launching_manager)
   ∧ _pendingServices (final r') =
       match take_first (λ n, bool_decide (svc_label n = "svc1"))
               (_pendingServices launching_manager) with
       | Some (n, rest) =>
           rest ++ [mkServiceNode (svc_identifier n) "svc1" "IOR:svc1" (Some "IOR:svc1")
                      (svc_pid n)]
       | None => _pendingServices launching_manager
       end
   ∧ _registeredDevices (final r') = _registeredDevices launching_manager
   ∧ _pendingDevices (final r') = _pendingDevices launching_manager)
  ∧ (let r := registerService unreachable_since (Some "IOR:svc1") "svc1" launching_manager in
     let r' := unregisterService calm (Some "IOR:svc1") "svc1" (final r) in
     existsb (λ n, bool_decide (svc_label n = "svc1")) (_registeredServices (final r)) = true
     ∧ result r = Throw CorbaSystemException
     ∧ result r' = Ok tt
     ∧ _registeredServices (final r') = _registeredServices launching_manager
     ∧ rootContext (final r') = delete "svc1" (rootContext launching_manager)).
Proof.
  split; cbv zeta.
  - split; [vm_compute; reflexivity|].
    destruct (service_round_trip calm calm "IOR:svc1" "IOR:svc1" "svc1" launching_manager
                launching_manager_invariant) as (_ & H);
      [vm_compute; reflexivity ..|].
    split; [vm_compute; reflexivity | exact H].
  - split; [vm_compute; reflexivity|].
    destruct (service_round_trip unreachable_since calm "IOR:svc1" "IOR:svc1" "svc1"
                launching_manager launching_manager_invariant) as (_ & H1 & H2 & H3 & _);
      [vm_compute; reflexivity ..|].
    split; [vm_compute; reflexivity | by split_and!].
Defined.

Lemma refused_registration_witness :
  (result (registerDevice calm None launching_manager) = Throw InvalidObjectReference
   ∧ final (registerDevice calm None launching_manager) = launching_manager
   ∧ Forall (λ e, is_directory_call e = false) (calls (registerDevice calm None launching_manager)))
  ∧ (let r := registerDevice calm (Some dev1) taken_manager in
     devMgrContext taken_manager !! obj_label dev1 ≠ None
     ∧ EvNaming DevMgrCtx NsBind (obj_label dev1) ∈ calls r
     ∧ final r = taken_manager
     ∧ Forall (λ e, is_DomMgr_call e = false) (calls r)
     ∧ result r = Ok tt).
Proof.
  split.
  - assert (H : result (registerDevice calm None launching_manager)
                = Throw InvalidObjectReference) by reflexivity.
    split; [exact H|].
    destruct (refused_registration calm None launching_manager) as [H1 _]. exact (H1 H).
  - cbv zeta.
    assert (Hb : devMgrContext taken_manager !! obj_label dev1 ≠ None)
      by (vm_compute; discriminate).
    assert (Hin : EvNaming DevMgrCtx NsBind (obj_label dev1)
                  ∈ calls (registerDevice calm (Some dev1) taken_manager)).
    { vm_compute. repeat first [apply list_elem_of_here | apply list_elem_of_further]. }
    destruct (refused_registration calm (Some dev1) taken_manager) as [_ H2].
    destruct (H2 dev1 eq_refl (or_intror Hb)) as (F1 & F2 & F3).
    split; [exact Hb|]. split; [exact Hin|]. split; [exact F1|]. split; [exact F2|].
    exact (F3 Hin).
Defined.

Lemma registration_without_profile_witness :
  let r := registerDevice calm (Some dev1) registered_manager in
  result (findProfile (obj_identifier dev1) registered_manager) = Ok None
  ∧ result r = NullDeref
  ∧ final r = registered_manager
  ∧ calls r =
      [EvOverrideBlockingCall (obj_ior dev1) (CLIENT_WAIT_TIME registered_manager);
       EvChildAttr (obj_ior dev1) "label"; EvChildAttr (obj_ior dev1) "identifier";
       EvChildAttr (obj_ior dev1) "identifier"; EvChildAttr (obj_ior dev1) "softwareProfile"].
Proof.
  apply (registration_without_profile calm dev1 registered_manager);
    [reflexivity | reflexivity | constructor].
Defined.

Lemma child_reaped_witness :
  childExited calm 1 false busy_manager
  = (Ok tt, busy_manager,
     [EvLog LvlError "Process is not associated with a registered device"])
  ∧ (let r := childExited calm 4242 false launching_manager in
     result r = Ok tt
     ∧ final r = set_pendingDevices [] launching_manager
     ∧ Forall (λ e, is_outbound e = false) (calls r))
  ∧ (let r := childExited calm 4242 true busy_manager in
     result r = Ok tt
     ∧ _registeredDevices (final r) = [node2]
     ∧ _pendingDevices (final r) = _pendingDevices busy_manager
     ∧ EvNaming DevMgrCtx NsUnbind (label node1) ∈ calls r
     ∧ EvDomMgr DmUnregisterDevice (ptr_ior (device node1)) ∈ calls r
     ∧ devMgrContext (final r) !! label node1 = None).
Proof.
  split; [|split].
  - destruct (child_reaped calm 1 false busy_manager) as (H1 & _).
    + repeat constructor; simpl; discriminate.
    + repeat constructor; simpl; discriminate.
    + apply H1; repeat constructor; simpl; discriminate.
  - destruct (child_reaped calm 4242 false launching_manager) as (_ & H2 & _).
    + repeat constructor; simpl; discriminate.
    + constructor.
    + exact (H2 [] (mkDeviceNode "DCE:dev1" "" "" None 4242) [] eq_refl eq_refl
               (Forall_nil_2 _)).
  - destruct (child_reaped calm 4242 true busy_manager) as (_ & _ & H3).
    + constructor.
    + repeat constructor; simpl; discriminate.
    + destruct (H3 [] node1 [node2] (Forall_nil_2 _) eq_refl eq_refl (Forall_nil_2 _))
        as (F1 & F2 & F3 & F4 & F5 & F6).
      cbv zeta. split; [exact F1|]. split; [exact F2|]. split; [exact F3|].
      split; [exact F4|]. split; [exact (F5 eq_refl) | exact (F6 eq_refl)].
Defined.

Lemma implementation_id_recorded_witness :
  let inst := mkComponentInstantiation "parent_1" "parent" "parent_1" in
  let s' := final (recordComponentInstantiationId inst "cpp" deploying_manager) in
  let r := deployComponentPlacements sample_sdr registering sample_placements
             deploying_manager in
  getComponentImplementationId "parent_1" deploying_manager = (Ok "", deploying_manager, [])
  ∧ getComponentImplementationId "parent_1" s' = (Ok "cpp", s', [])
  ∧ result (getComponentImplementationId "child_1" s')
    = result (getComponentImplementationId "child_1" deploying_manager)
  ∧ "child_1" ∈ launched (calls r)
  ∧ ∃ impl, _componentImplMap (final r) !! "child_1" = Some impl
            ∧ getComponentImplementationId "child_1" (final r) = (Ok impl, final r, []).
Proof.
  destruct (implementation_id_recorded sample_sdr registering sample_placements
              deploying_manager) as (H1 & H2 & H3).
  cbv zeta.
  destruct (H2 (mkComponentInstantiation "parent_1" "parent" "parent_1") "cpp") as [F1 F2].
  assert (Hin : "child_1" ∈ launched (calls (deployComponentPlacements sample_sdr registering
                                                sample_placements deploying_manager))).
  { vm_compute. repeat first [apply list_elem_of_here | apply list_elem_of_further]. }
  split; [apply H1; reflexivity|]. split; [exact F1|].
  split; [apply F2; discriminate|]. split; [exact Hin | exact (H3 "child_1" Hin)].
Defined.


Lemma composite_parent_ior_witness :
  getCompositeDeviceIOR calm sample_placements parent_cp deploying_manager
  = (Ok "", deploying_manager, [])
  ∧ getCompositeDeviceIOR calm [] child_cp deploying_manager
    = (Ok "", deploying_manager, [])
  ∧ getCompositeDeviceIOR calm sample_placements child_cp parent_registered
    = (Ok "IOR:parent", parent_registered, [])
  ∧ getCompositeDeviceIOR calm sample_placements child_cp deploying_manager
    = (Diverge, deploying_manager, []).
Proof.
  split; [|split; [|split]].
  - destruct (composite_parent_ior calm sample_placements parent_cp deploying_manager)
      as [H1 _]. apply H1. reflexivity.
  - destruct (composite_parent_ior calm [] child_cp deploying_manager) as [_ H2].
    destruct (H2 "parent_1" eq_refl) as [H3 _]. apply H3. simpl. apply not_elem_of_nil.
  - destruct (composite_parent_ior calm sample_placements child_cp parent_registered)
      as [_ H2].
    destruct (H2 "parent_1" eq_refl) as [_ H4].
    assert (Hin : "parent_1" ∈ (sample_placements ≫= λ c, inst_id <$> cp_instantiations c)).
    { vm_compute. repeat first [apply list_elem_of_here | apply list_elem_of_further]. }
    destruct (H4 Hin) as [H5 _].
    apply (H5 (mkDeviceNode "parent_1" "parent_1" "IOR:parent" (Some parent_dev) 0));
      [reflexivity | discriminate].
  - destruct (composite_parent_ior calm sample_placements child_cp deploying_manager)
      as [_ H2].
    destruct (H2 "parent_1" eq_refl) as [_ H4].
    assert (Hin : "parent_1" ∈ (sample_placements ≫= λ c, inst_id <$> cp_instantiations c)).
    { vm_compute. repeat first [apply list_elem_of_here | apply list_elem_of_further]. }
    destruct (H4 Hin) as [_ H6]. apply H6; reflexivity.
Defined.

Lemma launch_inputs_witness :
  getCodeFilePath sample_sdr (host_impl "cpp" "parent" EXECUTABLE) "/devices/parent" true
    deploying_manager
  = (Ok (Some "/devices/parent/parent"), deploying_manager, [])
  ∧ getDeviceOrService ready_profile deploying_manager
    = (Ok (Some "device"), deploying_manager, [])
  ∧ ∃ t, getDeviceOrService resource_profile deploying_manager
         = (Ok None, deploying_manager, t).
Proof.
  destruct (launch_inputs sample_sdr (host_impl "cpp" "parent" EXECUTABLE) "/devices/parent"
              true resource_profile deploying_manager) as [_ (r & t & Hrun & _)].
  split; [vm_compute; reflexivity|]. split; [vm_compute; reflexivity|].
  exists t. rewrite Hrun. vm_compute in Hrun. injection Hrun as <- _. reflexivity.
Defined.

Lemma standalone_launches_witness :
  (let r := launch_standalone sample_sdr calm sample_placements (parent_cp, 1%nat)
              ready_manager in
   result r = Ok tt
   ∧ calls r = [EvLaunch "parent_1" "device" "/devices/parent/parent" ""]
   ∧ deployed_comps (final r) = deployed_comps ready_manager ++ [(parent_cp, 1%nat)]
   ∧ _componentImplMap (final r) = <["parent_1" := "cpp"]> (_componentImplMap ready_manager))
  ∧ (let r := launch_standalone sample_sdr calm sample_placements (parent_cp, 2%nat)
                ready_manager in
     result r = Ok tt ∧ launched (calls r) = []
     ∧ deployed_comps (final r) = deployed_comps ready_manager).
Proof.
  split.
  - destruct (standalone_launches sample_sdr calm sample_placements parent_cp 1%nat
                ready_manager ready_profile (host_impl "cpp" "parent" EXECUTABLE))
      as [H1 _]; [reflexivity | reflexivity | reflexivity | reflexivity | discriminate |].
    exact (H1 "/devices/parent/parent" "device" eq_refl eq_refl).
  - destruct (standalone_launches sample_sdr calm sample_placements parent_cp 2%nat
                ready_manager resource_profile (host_impl "cpp" "parent" EXECUTABLE))
      as [_ H2]; [reflexivity | reflexivity | reflexivity | reflexivity | discriminate |].
    apply H2. right. reflexivity.
Defined.

Lemma shutdown_completes_witness :
  (let r := shutdown calm quiet_peers "node" gone_at_once shut_down_manager in
   result r = Ok tt
   ∧ final r = set_internalShutdown true shut_down_manager ∧ calls r = [])
  ∧ (let r := shutdown calm quiet_peers "node" gone_at_once busy_manager in
     result r = Ok tt
     ∧ _internalShutdown (final r) = true
     ∧ _adminState (final r) = DEVMGR_SHUTDOWN ∧ _registeredDevices (final r) = []).
Proof.
  split.
  - destruct (shutdown_completes calm quiet_peers "node" gone_at_once shut_down_manager)
      as (H1 & _ & H3 & _).
    cbv zeta. split; [exact H1|]. apply H3. right. reflexivity.
  - destruct (shutdown_completes calm quiet_peers "node" gone_at_once busy_manager)
      as (H1 & H2 & _ & H4).
    cbv zeta. split; [exact H1|]. split; [exact H2|]. apply H4; discriminate.
Defined.

Lemma shutdown_signals_children_witness :
  let t := calls (shutdown calm quiet_peers "node" gone_at_once busy_manager) in
  let t' := calls (abort calm quiet_peers "node" gone_at_once busy_manager) in
  (EvKill 77 SIGTERM ∈ t ∧ EvProbe 0 ∈ t ∧ probed t = [77; 0])
  ∧ Forall targeted t
  ∧ Forall targeted t'
  ∧ probed t' = probed t
  ∧ Forall (λ p, p ∈ [77; 0]) (probed t)
  ∧ (∃ n, n ∈ _registeredServices busy_manager ∧ svc_pid n = 0)
  ∧ head (probed t) = Some 77.
Proof.
  cbv zeta.
  destruct (shutdown_signals_children calm quiet_peers "node" gone_at_once busy_manager
              busy_manager_invariant) as (H1 & H2 & H3 & H4 & H5 & H6).
  assert (probed (calls (shutdown calm quiet_peers "node" gone_at_once busy_manager))
          = [77; 0]) as Hp by (vm_compute; reflexivity).
  split_and!.
  - vm_compute. repeat first [apply list_elem_of_here | apply list_elem_of_further].
  - vm_compute. repeat first [apply list_elem_of_here | apply list_elem_of_further].
  - exact Hp.
  - exact H1.
  - exact H2.
  - exact H3.
  - exact H4.
  - apply H5. rewrite Hp. apply list_elem_of_further, list_elem_of_here.
  - apply H6; discriminate.
Defined.

Lemma services_signalled_witness :
  (let r := clean_registeredServices calm gone_after_a_turn busy_manager in
   result r = Ok tt
   ∧ calls r = [EvKill 77 SIGTERM; EvProbe 77; EvNaming RootCtx NsUnbind "svc1";
                EvDomMgr DmUnregisterService "IOR:svc1"; EvProbe 77; EvProbe 0]
   ∧ calls (clean_registeredServices calm gone_at_once busy_manager)
     = [EvKill 77 SIGTERM; EvProbe 77; EvProbe 0; EvKill 77 SIGKILL]
   ∧ Forall targeted (calls r))
  ∧ clean_registeredServices calm gone_after_a_turn registered_manager
    = (Ok tt, registered_manager, []).
Proof.
  split.
  - destruct (services_signalled calm gone_after_a_turn busy_manager)
      as (H1 & _ & _ & H4 & _).
    cbv zeta. split; [exact H1|]. split; [vm_compute; reflexivity|].
    split; [vm_compute; reflexivity|].
    exact (H4 busy_manager_invariant).
  - destruct (services_signalled calm gone_after_a_turn registered_manager)
      as (_ & _ & _ & _ & H5).
    apply H5; reflexivity.
Defined.

Lemma external_service_cleanup_witness :
  (let r := clean_externalServices calm busy_manager in
   result r = Ok tt
   ∧ _registeredServices (final r) = [snode1; snode2]
   ∧ rootContext (final r) = delete "ext" (rootContext busy_manager)
   ∧ calls r = [EvNaming RootCtx NsUnbind "ext"; EvDomMgr DmUnregisterService "IOR:ext"])
  ∧ clean_externalServices calm launching_manager = (Ok tt, launching_manager, []).
Proof.
  split.
  - destruct (external_service_cleanup calm busy_manager) as (H1 & _ & _ & _ & H5).
    destruct (H5 [snode1] snode2 [] eq_refl) as [F1 F2].
    + repeat constructor. simpl. discriminate.
    + reflexivity.
    + cbv zeta. split; [exact H1|]. split; [vm_compute; reflexivity|].
      split; [exact F1 | exact F2].
  - destruct (external_service_cleanup calm launching_manager) as (_ & _ & _ & H4 & _).
    apply H4. constructor.
Defined.

Lemma children_only_leave_witness :
  let s' := final (shutdown calm quiet_peers "node" gone_at_once registered_manager) in
  result (allChildrenExited registered_manager) = Ok true
  ∧ result (allChildrenExited s') = Ok true
  ∧ (∀ n, n ∈ _registeredServices (final (childExited calm 77 false busy_manager)) →
          n ∈ _registeredServices busy_manager).
Proof.
  cbv zeta.
  destruct (children_only_leave calm quiet_peers "node" gone_at_once registered_manager
              (final (shutdown calm quiet_peers "node" gone_at_once registered_manager)))
    as (_ & _ & _ & _ & H5).
  { do 5 right. left. reflexivity. }
  destruct (children_only_leave calm quiet_peers "node" gone_at_once busy_manager
              (final (childExited calm 77 false busy_manager)))
    as (_ & _ & H3 & _).
  { right. right. left. exists 77, false. reflexivity. }
  split; [reflexivity|]. split; [apply H5; reflexivity | exact H3].
Defined.

Lemma compareAnys_order_witness :
  Service_impl.compareAnys 0 0 (Service_impl.any_long 3) (Service_impl.any_long 5)
  = Service_impl.SECOND_BIGGER
  ∧ Service_impl.compareAnys 7 7 (Service_impl.any_long 5) (Service_impl.any_long 3)
    = Service_impl.FIRST_BIGGER.
Proof.
  destruct (compareAnys_order 7 7 0 0 (Service_impl.any_long 5) (Service_impl.any_long 3))
    as (H1 & _ & _ & H4 & _); [reflexivity | discriminate |].
  assert (H : Service_impl.compareAnys 7 7 (Service_impl.any_long 5) (Service_impl.any_long 3)
              = Service_impl.FIRST_BIGGER) by (apply H1; simpl; lia).
  split; [apply H4; exact H | exact H].
Defined.

Lemma compareAnys_mixed_kinds_witness :
  Service_impl.compareAnys 0 7 (Service_impl.any_ulong 3) (Service_impl.any_short 1)
  = Service_impl.SECOND_BIGGER
  ∧ Service_impl.compareAnys 0 7 Service_impl.any_other (Service_impl.any_short 1)
    = Service_impl.UNKNOWN.
Proof.
  destruct (compareAnys_mixed_kinds 0 7 (Service_impl.any_ulong 3) (Service_impl.any_short 1))
    as [_ H2].
  destruct (H2 ltac:(discriminate) ltac:(discriminate)) as (_ & _ & H5).
  destruct (compareAnys_mixed_kinds 0 7 Service_impl.any_other (Service_impl.any_short 1))
    as [H1 _].
  split; [apply H5; simpl; lia | apply H1; reflexivity].
Defined.

Lemma compareAnyToZero_sign_witness :
  Service_impl.compareAnyToZero 0 (Service_impl.any_short (-2)) = Service_impl.NEGATIVE
  ∧ Service_impl.compareAnys 0 0 (Service_impl.any_short (-2)) (Service_impl.any_short 0)
    = Service_impl.SECOND_BIGGER
  ∧ Service_impl.compareAnyToZero 0 Service_impl.any_other = Service_impl.UNKNOWN
  ∧ Service_impl.compareAnyToZero 0 (Service_impl.any_ulong 4) ≠ Service_impl.NEGATIVE.
Proof.
  destruct (compareAnyToZero_sign 0 0 (Service_impl.any_short (-2)) (Service_impl.any_short 0))
    as (_ & H2 & H3 & _).
  destruct (H2 ltac:(discriminate)) as (_ & _ & F3).
  destruct (H3 eq_refl eq_refl) as (_ & _ & G3).
  assert (H : Service_impl.compareAnyToZero 0 (Service_impl.any_short (-2))
              = Service_impl.NEGATIVE) by (apply F3; simpl; lia).
  destruct (compareAnyToZero_sign 0 0 Service_impl.any_other Service_impl.any_other)
    as (K1 & _).
  destruct (compareAnyToZero_sign 0 0 (Service_impl.any_ulong 4) (Service_impl.any_ulong 0))
    as (_ & _ & _ & K4).
  split; [exact H|]. split; [apply G3; exact H|]. split; [apply K1; reflexivity|].
  apply K4; [reflexivity|]. unfold Service_impl.well_typed. simpl. lia.
Defined.

Lemma registration_retries_witness :
  let r := registerDeviceManagerWithDomainManager
             (coming_up ++ [mkAttempt None false]) in
  r.1 = Ok tt
  ∧ filter (λ e, is_retry_warning e = true) r.2 = [SuRetryWarning TRANSIENT 10]
  ∧ length (filter (λ e, e = SuRegisterDeviceManager) r.2) = 6%nat
  ∧ registerDeviceManagerWithDomainManager [mkAttempt None true] = (Throw RuntimeError, [])
  ∧ (registerDeviceManagerWithDomainManager coming_up).1 = Diverge.
Proof.
  destruct (registration_retries coming_up [] (mkAttempt None false))
    as (_ & H2 & _ & _ & _ & H6); [repeat constructor | reflexivity |].
  destruct (registration_retries [] [] (mkAttempt None true))
    as (_ & _ & _ & H4 & _); [constructor | reflexivity |].
  cbv zeta. split; [apply H2; split; reflexivity|].
  split; [vm_compute; reflexivity|]. split; [vm_compute; reflexivity|].
  split; [apply H4; reflexivity | exact H6].
Defined.

Lemma naming_context_resolution_witness :
  let failing := [mkAttempt (Some NotFound) false; mkAttempt (Some CorbaSystemException) false] in
  let r := resolveNamingContext (failing ++ [mkAttempt None true]) in
  r.1 = Ok tt
  ∧ length (filter (λ e, e = SuResolve) r.2) = 3%nat
  ∧ length (filter (λ e, is_warning e = true) r.2) = 1%nat
  ∧ (resolveNamingContext (failing ++ [mkAttempt (Some NotFound) true])).1
    = Throw RuntimeError.
Proof.
  cbv zeta.
  destruct (naming_context_resolution
              [mkAttempt (Some NotFound) false; mkAttempt (Some CorbaSystemException) false]
              [] (mkAttempt None true))
    as (H1 & _ & H3 & H4 & _); [repeat constructor | reflexivity |].
  destruct (naming_context_resolution
              [mkAttempt (Some NotFound) false; mkAttempt (Some CorbaSystemException) false]
              [] (mkAttempt (Some NotFound) true))
    as (K1 & K2 & _); [repeat constructor | reflexivity |].
  split; [apply H1; reflexivity|]. split; [exact H3|]. split; [exact H4|].
  destruct K2 as [K2|K2]; [|exact K2]. apply K1 in K2. discriminate K2.
Defined.

Lemma domain_manager_lookup_witness :
  let waiting := [mkAttempt (inl NotFound) false; mkAttempt (inr true) false] in
  (getDomainManagerReferenceAndCheckExceptions
     (waiting ++ [mkAttempt (inr false) false]) (inr false)).1 = Ok tt
  ∧ (getDomainManagerReferenceAndCheckExceptions
       (waiting ++ [mkAttempt (inr false) true]) (inr false)).1 = Throw RuntimeError
  ∧ (getDomainManagerReferenceAndCheckExceptions waiting (inr false)).1 = Diverge.
Proof.
  cbv zeta.
  destruct (domain_manager_lookup
              [mkAttempt (inl NotFound) false; mkAttempt (inr true) false] []
              (mkAttempt (inr false) false) (inr false))
    as (H1 & _ & _ & _ & H5); [repeat constructor | reflexivity |].
  destruct (domain_manager_lookup
              [mkAttempt (inl NotFound) false; mkAttempt (inr true) false] []
              (mkAttempt (inr false) true) (inr false))
    as (_ & _ & _ & K4 & _); [repeat constructor | reflexivity |].
  split; [apply H1; repeat split; reflexivity|].
  split; [apply K4; reflexivity | exact H5].
Defined.

Lemma makeDirectory_ancestors_witness :
  let r := makeDirectory mkdir_exists cache_tree cache_path in
  ancestors cache_path
  = [String.list_ascii_of_string "/var/"; String.list_ascii_of_string "/var/cache/"]
  ∧ r.1 = Ok true
  ∧ mkdirs r.2 = ancestors cache_path.
Proof.
  destruct (makeDirectory_ancestors mkdir_exists cache_tree cache_path) as (H1 & H2 & _);
    [discriminate|].
  cbv zeta. split; [vm_compute; reflexivity|]. split; [|exact H2].
  rewrite H1. vm_compute. reflexivity.
Defined.

Lemma write_access_checked_witness :
  let r := checkWriteAccess cache_tree cache_path in
  r.1 = true
  ∧ accesses r.2
    = [String.list_ascii_of_string "/var//cache/a.so";
       String.list_ascii_of_string "/var//cache/dev";
       String.list_ascii_of_string "/var//cache/dev/b.so"].
Proof.
  destruct (write_access_checked cache_tree cache_path) as (H1 & H2 & _).
  cbv zeta.
  assert (H : (checkWriteAccess cache_tree cache_path).1 = true)
    by (apply H1; split; vm_compute; reflexivity).
  split; [exact H|]. rewrite (H2 H). vm_compute. reflexivity.
Defined.

